(* ===== verification/_CoqProject ===== *)
-Q . S2P
Prelude.v
PyStr.v
Json.v
X402Wire.v
Errors.v
Sha256.v
PyDecimal.v
PyTime.v
PyTimeFacts.v
PyDict.v
PyJson.v
PyJsonFacts.v
PyBase64.v
Models.v
OpenApi.v
CircuitBreaker.v
HeaderPolicy.v
Retry.v
LoadBalancer.v
Upstream.v
Proxy.v
Middleware.v
Runs.v
RunStore.v
RunLog.v
Billing.v
Identity.v
BillingStore.v
SqlTables.v
StoreLock.v
BillingService.v
Stellar.v
X402Service.v
Books.v
Subscriptions.v
OnChain.v
PaymentGate.v
PaidCall.v
Agents.v
Orchestration.v
Settings.v
Bootstrap.v
Routes.v
Bodies.v
Streams.v
Mirag.v
App.v
Smoke.v
Conversation.v
EndToEnd.v
