(* ===== verification/Prelude.v ===== *)
(** * CodeZard gateway: a verification library *)
(** This library models the Python gateway of CodeZard, the package
    [src/src/gateway], with the contract on chain it reads and the script that tries it, and
    proves what makes its parts correct.  File names below are relative to that package;
    [contracts/] and [scripts/] are beside it, under [src/].

    ** The program and its parts

    The gateway has three parts that share one process.

    - It proxies.  A request for [/api/<service>/<path>] is resolved in a registry,
      its headers are rewritten, and it is sent through three layers, outermost
      first: a load balancer over the service's instances, a circuit breaker per
      instance, retries; then the HTTP library.
    - It carries runs: an idea becomes a plan with the planning agent's help, a person
      approves the plan, and the generating agent's stream is relayed, kept for
      readers that come back, and scanned for the project's id and its cost.
    - It bills: a ledger of token movements per account, a catalog, invoices paid
      over a payment network, weekly and monthly grants, subscriptions kept by a
      contract on chain, and the meter that the orchestrator of runs asks before a run
      and charges after it.  Who pays is proved by a session, which a wallet's
      signature buys, or by a payment sent with the request.

    The settings say which of the three a process has; the composition root builds
    them, and the application registers a route exactly where there is something
    behind it.

    ** Files

    - [Prelude]: results, the effect monad [M W E A] (a state passed through, an
      exception as a result, and the state kept when an exception is raised), its
      Hoare triples, [Field] (a part of a larger state), reachability, rounding.
    - [PyStr], [PyDict], [Json], [PyJson], [PyDecimal], [PyTime], [PyBase64], [Sha256]: the
      parts of Python and of its standard library the gateway computes with.  [PyJsonFacts]
      and [PyTimeFacts] show that reading what was written gives it back, and that the
      text of a later time is a later text.  A [str] is its
      UTF-8 bytes; a float is the decimal its [repr] prints, [json.loads] rounding to
      the nearest double as Python does; a [datetime] is microseconds.
    - [Errors] ([domain/exceptions.py], [api/errors.py]): every exception as a value,
      the class hierarchy, and the response each is turned into.  [X402Wire]
      ([domain/x402.py]): the documents of the payment protocol.
    - [Models] ([domain/models.py]), [HeaderPolicy] ([application/header_policy.py],
      [infrastructure/registry.py]), [CircuitBreaker], [Retry], [LoadBalancer]
      ([infrastructure/resilience/]), [Upstream] ([infrastructure/httpx_client.py] and
      the order of the layers in [bootstrap.py]), [Proxy]
      ([application/proxy_service.py], [application/health_service.py],
      [api/adapters.py], [api/routes/proxy.py], the request id of
      [api/middleware.py]).
    - [Runs] ([domain/runs.py]), [RunStore] ([infrastructure/runs.py]), [RunLog]
      ([infrastructure/run_log.py]), [Agents] and [Orchestration] (the pure and the
      acting half of [application/orchestration.py]).
    - [Billing] ([domain/billing.py]), [BillingStore], [SqlTables] and [StoreLock]
      ([infrastructure/billing/sqlite_store.py], as a store of values, as rows of
      columns, and as threads that share a connection and its lock), [BillingService]
      ([application/billing_service.py]), [Books] (what the operations of billing and of x402
      keep when they do not run alone).
    - [Identity] ([application/identity_service.py]), [Stellar]
      ([infrastructure/billing/stellar.py]), [X402Service]
      ([application/x402_service.py]), [Subscriptions]
      ([infrastructure/billing/subscriptions.py]), [PaymentGate]
      ([api/payment_gate.py], [api/routes/x402.py] and the invoice route), [PaidCall] (the
      gate, the payment and the ledger together).  [OnChain]: in its [Module Contract], the
      contract of [contracts/subscriptions/src/lib.rs], a field of [Chain] per storage key and
      a definition per call, over the token it is paid in; then what a payment to it becomes
      in the gateway.
    - [Settings] ([config/settings.py]), [Bootstrap] ([bootstrap.py]), [Routes]
      ([api/routes/runs.py], [api/routes/billing.py], [api/routes/health.py],
      [api/schemas.py], the routers of [api/app.py]), [Bodies] (the body models of the
      routes), [Streams] (the streamed response of a generation), [App] ([api/app.py],
      [logging_config.py], [main.py]), [Middleware] ([api/middleware.py], [api/adapters.py]),
      [OpenApi] ([api/openapi.py]), [Mirag] ([api/contracts/], the operations of
      [api/routes/proxy.py]).  [EndToEnd] joins the billing service to Horizon and the
      orchestrator to the billing service.  [Smoke] ([scripts/smoke_flow.py]) is the client
      that drives all of it, and [Conversation] puts it before the gateway's own run routes.

    ** How the code is rendered

    A coroutine is a computation in [M W exn A] over a world [W] that stays abstract;
    the state of each component is reached through a [Field] of it, and what is not
    the gateway's (the HTTP library, the payment network, the clock, the signing
    library, sending bytes to a client) is a parameter, an effect on [W].  Because such
    an effect may change any part of [W], it also stands for the other requests that
    run while a coroutine awaits it: a theorem that only asks the awaited effects to
    keep an invariant holds for every interleaving.  Ports are type classes or records
    with laws ([RunStore], [BillingStore], [UpstreamClient], [PaymentNetwork],
    [MutableHeaders]); clients are proved against the laws, implementations discharge
    them.  A call of the billing store runs on a worker thread: [BillingStore] has two
    effects around it, [handed_over] and [handed_back], where other operations may run and
    the task may be cancelled.  [Books] proves what holds whatever they do; the theorems on
    one operation's exact outcome assume them quiet, in the class [Undisturbed].
    The circuit breaker's interleavings and the billing store's threads are step
    relations; the run log's shared lists and events are objects in a heap, and a reader
    is the state of its generator between two suspensions.

    ** What the theorems show

    - Proxying: a request that is not idempotent reaches at most one instance, once,
      through all layers; the breaker's state machine, its single probe and the
      isolation of instances; the retry loop equals its recursive reference and is
      bounded; rotation is fair, failover ends and tries nobody twice; which headers
      pass in each direction and that none can be spoofed; a relayed stream is closed
      exactly once.
    - Runs: the table of moves is the only way a run moves; generation is only reached
      through an approval of the very plan that is generated; answers are never lost;
      every stored run is in order under any interleaving of handlers; a generation
      charges at most once, only for what it delivered, and closes the agent's
      connection exactly once; what every exit of a generation leaves stored; the
      store keeps what is in use, within its bound; a reader of the log sees
      everything that is not appended between its slices, and is woken unless its log is
      restarted; the stream's scan does not depend on how the
      network cuts it.
    - Billing: amounts print and parse to themselves; prices are fair in both
      directions; a balance is the sum of its entries; a payment settles exactly the
      invoice it matches; an invoice is credited and a run debited once; whoever else is at
      the store and wherever a task is cancelled, rows are only added and each is earned
      ([Books.keeps_books]); settling a period twice grants once, and a period
      recorded on chain is credited once.  The rows of text and integers on disk refine
      the store of values the service is proved against, however the calls of the store
      interleave on their threads; what was answered outlives a process that dies, and a
      power cut leaves what some first turns left; every call returns.
    - Who pays: a sign-in round-trips through real JSON, base64 and HMAC; a token opens
      exactly when it is sealed with the secret, and a session is only ever given to the
      account that signed; whatever envelope is called valid pays what its invoice asks,
      and what the client claims about requirements decides nothing; a settled payment
      is credited once, and a call that carries one is let through as the account that paid
      when its balance then covers a run, while a header whose invoice is paid, now or ever
      after, pays nothing.  What the contract writes is what is read back,
      and a transaction is only reported once the ledger has it.
    - The contract: however it is called its takings are held or were withdrawn, an account's
      [periods] count its payments, and the catalogue lists each plan once; only who signed
      pays, only the administrator takes money out or changes plans.  A first period, or one
      after a lapse, paid on the chain becomes one row of the gateway's ledger, of the tokens
      the gateway's catalogue gives the plan of that name.
    - The smoke test: its code is nought only when every exchange that passing stands for took
      place, in order, and the ZIP holds what was planned.  Talking to the gateway's own
      routes, over a network that may lose requests and answers, it never finds a generation that is not approved let through, nor an approval
      that does not approve, and its rounds are enough for the gateway's; on a concrete pair
      the whole flow is evaluated from the idea to the ZIP.
    - The whole: accepted settings build a gateway whose parts are well formed, or fail
      for one of three reasons; every instance of every service can be reached through
      what was built; the application they make is the one they describe, and says aloud
      what stands open; a route is registered exactly when its service exists; a run
      belongs to whoever was proved to pay for it; one id is what a request's service is
      told and what its response says; a generation is refused before its response
      begins or not at all; what a process opened it closes; tokens are only credited
      for a payment Horizon showed, and what a run says it cost is what its account was
      debited; a documented error is, to the letter, the one that is answered, and the
      references of the document resolve.
    - Where the code does not keep what it says, a theorem exhibits it on a concrete
      process: [CircuitBreaker.stale_abort_two_probes], [RunLog.Log.follow_skips],
      [RunLog.Log.eviction_ignores_appends], [Agents.long_event_depends_on_chunking],
      [Orchestration.concurrent_answers_exceed_rounds],
      [Orchestration.stale_answer_undoes_approval],
      [Orchestration.generation_left_hanging], [Orchestration.string_error_escapes],
      [Orchestration.charge_cancelled_leaves_generating],
      [RunLog.Log.restart_strands_reader], [Retry.backoff_overflows],
      [Billing.usage_from_agent_escapes], [BillingService.confirm_loses_credit],
      [BillingService.grants_collide], [BillingService.late_payment_not_reconciled],
      [BillingService.blink_burns_grant], [Books.confirm_cancelled_loses_credit],
      [StoreLock.power_cut_loses_answers], [OnChain.published_tokens_ignored],
      [Stellar.counterfeit_is_credited],
      [Stellar.dust_hides_payment], [X402Service.settle_late_credits_nobody],
      [PaymentGate.invoice_told_apart], [Subscriptions.read_escapes]; and one for every
      process: [OnChain.early_renewal_buys_no_tokens].

    ** Fuel

    Loops of the program are structural recursions (over instances, delays, chunks,
    invoices) and need none.  Fuel appears only in models of the standard library:
    the class hierarchy is five deep ([Errors.mro_complete]); [PyJson.read_value]
    takes twice the length of the text, each call consuming a character or closing a
    level; seventeen digits always determine a double.

    ** Not modelled

    What the frameworks do is a parameter or left out: matching a path and converting the
    types of a body's fields, reading the environment into settings and the arguments of the
    script, the writing of log lines and the server process; what the HTTP, database and
    Stellar libraries do; the schema of a model; closing the store while a call of it is under
    way.  Of the contract's host: how signatures are collected, how long storage lives, and
    fees.  Of the gateway's own text, what has no behaviour to model: export lists, logger
    declarations, constructors that only keep their arguments, and the descriptions the
    framework prints beside an operation. *)
From stdpp Require Export base tactics decidable list gmap strings sorting.
From stdpp Require Import options.
From Stdlib Require Export ZArith Lia.

Declare Scope gw_scope.
Delimit Scope gw_scope with gw.
Global Open Scope gw_scope.
Global Open Scope Z_scope.

(** ** Results of fallible code *)

(** The outcome of a Python call: it returns a value or raises. *)
Inductive result (E A : Type) : Type :=
  | Ok (a : A)
  | Raise (e : E).
Arguments Ok {_ _} _.
Arguments Raise {_ _} _.

Global Instance result_ret E : MRet (result E) := λ A a, Ok a.
Global Instance result_bind E : MBind (result E) := λ A B f r,
  match r with Ok a => f a | Raise e => Raise e end.

Definition is_ok {E A} (r : result E A) : bool :=
  match r with Ok _ => true | Raise _ => false end.

Lemma is_ok_spec {E A} (r : result E A) : is_ok r = true ↔ ∃ a, r = Ok a.
Proof.
  destruct r; cbn; split; eauto; [done|]. by intros [? ?].
Qed.

(** ** The effect monad *)

(** A computation over the state [S] that may raise [E].  As in Python, the
    state changes made before an exception stay made. *)
Definition M (S E A : Type) : Type := S → result E A * S.

Global Instance M_ret S E : MRet (M S E) := λ A a s, (Ok a, s).
Global Instance M_bind S E : MBind (M S E) := λ A B f m s,
  match m s with
  | (Ok a, s') => f a s'
  | (Raise e, s') => (Raise e, s')
  end.

Section effects.
Context {S E : Type}.

Definition raise {A} (e : E) : M S E A := λ s, (Raise e, s).
Definition get_state : M S E S := λ s, (Ok s, s).
Definition put_state (s : S) : M S E unit := λ _, (Ok tt, s).
Definition gets {A} (f : S → A) : M S E A := λ s, (Ok (f s), s).
Definition modify (f : S → S) : M S E unit := λ s, (Ok tt, f s).
Definition lift {A} (r : result E A) : M S E A := λ s, (r, s).

(** [try: m except e: h e].  A handler that answers [None] does not match
    the exception, which then propagates. *)
Definition try_except {A} (m : M S E A) (h : E → option (M S E A)) : M S E A :=
  λ s, match m s with
       | (Ok a, s') => (Ok a, s')
       | (Raise e, s') =>
           match h e with
           | Some k => k s'
           | None => (Raise e, s')
           end
       end.

(** [try: m finally: f]: [f] runs on both ways out, and an exception of its
    own replaces the one in flight. *)
Definition try_finally {A} (m : M S E A) (f : M S E unit) : M S E A :=
  λ s, match m s with
       | (r, s') =>
           match f s' with
           | (Ok _, s'') => (r, s'')
           | (Raise e, s'') => (Raise e, s'')
           end
       end.

Lemma run_ret {A} (a : A) (s : S) : (mret a : M S E A) s = (Ok a, s).
Proof. done. Qed.
Lemma run_bind {A B} (m : M S E A) (f : A → M S E B) s :
  (m ≫= f) s = match m s with
               | (Ok a, s') => f a s'
               | (Raise e, s') => (Raise e, s')
               end.
Proof. done. Qed.
Lemma run_raise {A} (e : E) (s : S) : (raise e : M S E A) s = (Raise e, s).
Proof. done. Qed.
Lemma run_gets {A} (f : S → A) (s : S) : gets f s = (Ok (f s), s).
Proof. done. Qed.
Lemma run_modify (f : S → S) (s : S) : modify f s = (Ok tt, f s).
Proof. done. Qed.
Lemma run_lift {A} (r : result E A) (s : S) : lift r s = (r, s).
Proof. done. Qed.

Lemma run_bind_ok {A B} (m : M S E A) (f : A → M S E B) s s' a :
  m s = (Ok a, s') → (m ≫= f) s = f a s'.
Proof. intros H. by rewrite run_bind, H. Qed.
Lemma run_bind_raise {A B} (m : M S E A) (f : A → M S E B) s s' e :
  m s = (Raise e, s') → (m ≫= f) s = (Raise e, s').
Proof. intros H. by rewrite run_bind, H. Qed.

(** A run whose outcome is known, with the state it ends in. *)
Lemma outcome_ok {A} (m : M S E A) s a : (m s).1 = Ok a → m s = (Ok a, (m s).2).
Proof. intros <-. apply surjective_pairing. Qed.

(** What a bind that returned, or raised, went through. *)
Lemma bind_ok_inv {A B} (m : M S E A) (f : A → M S E B) s s' b :
  (m ≫= f) s = (Ok b, s') → ∃ a s1, m s = (Ok a, s1) ∧ f a s1 = (Ok b, s').
Proof. rewrite run_bind. destruct (m s) as [[] ?]; naive_solver. Qed.
Lemma bind_inv {A B} (m : M S E A) (f : A → M S E B) s s' r :
  (m ≫= f) s = (r, s') →
  (∃ a s1, m s = (Ok a, s1) ∧ f a s1 = (r, s'))
  ∨ (∃ e, m s = (Raise e, s') ∧ r = Raise e).
Proof. rewrite run_bind. destruct (m s) as [[] ?]; naive_solver. Qed.

(** ** A Hoare logic for the monad *)

(** [triple P m Q]: from a state in [P], the run of [m] ends in [Q] of its
    outcome (a value or an exception) and final state. *)
Definition triple {A} (P : S → Prop) (m : M S E A) (Q : result E A → S → Prop) : Prop :=
  ∀ s, P s → Q (m s).1 (m s).2.

Lemma triple_conseq {A} (P P' : S → Prop) (m : M S E A) (Q Q' : result E A → S → Prop) :
  triple P' m Q' → (∀ s, P s → P' s) → (∀ r s, Q' r s → Q r s) → triple P m Q.
Proof. unfold triple; eauto. Qed.
Lemma triple_ret {A} (P : S → Prop) (a : A) (Q : result E A → S → Prop) :
  (∀ s, P s → Q (Ok a) s) → triple P (mret a) Q.
Proof. unfold triple; eauto. Qed.
Lemma triple_raise {A} (P : S → Prop) (e : E) (Q : result E A → S → Prop) :
  (∀ s, P s → Q (Raise e) s) → triple P (raise e) Q.
Proof. unfold triple; eauto. Qed.
Lemma triple_bind {A B} (P : S → Prop) (m : M S E A) (f : A → M S E B)
    (R : A → S → Prop) (Q : result E B → S → Prop) :
  triple P m (λ r s, match r with Ok a => R a s | Raise e => Q (Raise e) s end) →
  (∀ a, triple (R a) (f a) Q) →
  triple P (m ≫= f) Q.
Proof.
  unfold triple; intros Hm Hf s Hs. rewrite run_bind.
  specialize (Hm s Hs). destruct (m s) as [[a|e] s1]; simpl in *; eauto.
Qed.
Lemma triple_try {A} (P : S → Prop) (m : M S E A) (h : E → option (M S E A))
    (R : E → S → Prop) (Q : result E A → S → Prop) :
  triple P m (λ r s, match r with Ok a => Q (Ok a) s | Raise e => R e s end) →
  (∀ e, match h e with
        | Some k => triple (R e) k Q
        | None => ∀ s, R e s → Q (Raise e) s
        end) →
  triple P (try_except m h) Q.
Proof.
  unfold triple, try_except; intros Hm Hh s Hs. specialize (Hm s Hs).
  destruct (m s) as [[a|e] s1]; simpl in *; [done|].
  specialize (Hh e). destruct (h e); eauto.
Qed.

(** A predicate of the state that a computation keeps, whatever its outcome. *)
Definition preserves {A} (P : S → Prop) (m : M S E A) : Prop :=
  triple P m (λ _ s, P s).

Lemma preserves_ret {A} (P : S → Prop) (a : A) : preserves P (mret a).
Proof. by apply triple_ret. Qed.
Lemma preserves_raise {A} (P : S → Prop) (e : E) : preserves P (raise (A:=A) e).
Proof. by apply triple_raise. Qed.
Lemma preserves_gets {A} (P : S → Prop) (f : S → A) : preserves P (gets f).
Proof. by intros s. Qed.
Lemma preserves_lift {A} (P : S → Prop) (r : result E A) : preserves P (lift r).
Proof. by intros s. Qed.
Lemma preserves_modify (P : S → Prop) (f : S → S) :
  (∀ s, P s → P (f s)) → preserves P (modify f).
Proof. intros H s. apply H. Qed.
Lemma preserves_bind {A B} (P : S → Prop) (m : M S E A) (f : A → M S E B) :
  preserves P m → (∀ a, preserves P (f a)) → preserves P (m ≫= f).
Proof.
  intros Hm Hf. apply (triple_bind _ _ _ (λ _, P)); [|done].
  eapply triple_conseq; [exact Hm|done|]. by intros [] ?.
Qed.
(** The continuation may use what the first part did. *)
Lemma preserves_bind_ran {A B} (P : S → Prop) (m : M S E A) (f : A → M S E B) :
  preserves P m → (∀ a s s', m s = (Ok a, s') → preserves P (f a)) → preserves P (m ≫= f).
Proof.
  intros Hm Hf s Hs. specialize (Hm s Hs). rewrite run_bind.
  destruct (m s) as [[a|e] s'] eqn:Hrun; [|done]. by apply (Hf a s s').
Qed.
Lemma preserves_bind_assoc {A B C} (P : S → Prop) (m : M S E A) (f : A → M S E B) (g : B → M S E C) :
  preserves P (m ≫= λ a, f a ≫= g) → preserves P ((m ≫= f) ≫= g).
Proof.
  intros H s Hs. specialize (H s Hs). rewrite !run_bind in *. by destruct (m s) as [[a|e] s'].
Qed.
Lemma preserves_try {A} (P : S → Prop) (m : M S E A) (h : E → option (M S E A)) :
  preserves P m → (∀ e k, h e = Some k → preserves P k) → preserves P (try_except m h).
Proof.
  intros Hm Hh. apply (triple_try _ _ _ (λ _, P)).
  - eapply triple_conseq; [exact Hm|done|]. by intros [] ?.
  - intros e. destruct (h e) eqn:He; [by eapply Hh|done].
Qed.
Lemma preserves_finally {A} (P : S → Prop) (m : M S E A) (f : M S E unit) :
  preserves P m → preserves P f → preserves P (try_finally m f).
Proof.
  unfold preserves, triple, try_finally. intros Hm Hf s Hs. specialize (Hm s Hs).
  destruct (m s) as [r s1]; simpl in *. specialize (Hf s1 Hm).
  by destruct (f s1) as [[] s2].
Qed.
Lemma preserves_run {A} (P : S → Prop) (m : M S E A) s r s' :
  preserves P m → m s = (r, s') → P s → P s'.
Proof. intros H Hm Hs. specialize (H s Hs). by rewrite Hm in H. Qed.
End effects.

Create HintDb gw_effects.
#[export] Hint Resolve preserves_ret preserves_raise preserves_gets preserves_lift
  preserves_bind preserves_try preserves_finally : gw_effects.
Create Rewrite HintDb gw_run.
#[export] Hint Rewrite @run_ret @run_bind @run_raise @run_gets @run_modify @run_lift : gw_run.

(** ** Tactics of the development *)

(** Split a hypothesis that a bind ended into the steps it went through. *)
Ltac inv_bind H :=
  let a := fresh "a" in let s := fresh "s" in
  let H1 := fresh "Hm" in let H2 := fresh "Hk" in let e := fresh "e" in
  apply bind_inv in H as [(a & s & H1 & H2)|(e & H1 & H2)].

(** Evaluate the match or the conditional the goal is stuck on. *)
Ltac case_goal :=
  match goal with
  | |- context [match ?x with _ => _ end] => destruct x eqn:?
  end.

(** Booleans of integer comparisons as propositions. *)
Ltac bool_to_Z :=
  repeat match goal with
  | H : (_ <? _)%Z = true |- _ => apply Z.ltb_lt in H
  | H : (_ <? _)%Z = false |- _ => apply Z.ltb_ge in H
  | H : (_ <=? _)%Z = true |- _ => apply Z.leb_le in H
  | H : (_ <=? _)%Z = false |- _ => apply Z.leb_gt in H
  | H : (_ =? _)%Z = true |- _ => apply Z.eqb_eq in H
  | H : (_ =? _)%Z = false |- _ => apply Z.eqb_neq in H
  | H : (_ && _) = true |- _ => apply andb_true_iff in H as [? ?]
  | H : negb _ = true |- _ => apply negb_true_iff in H
  | H : negb _ = false |- _ => apply negb_false_iff in H
  end.

(** ** Lists *)

Section lists.
Context {A : Type}.
Implicit Types (l : list A) (x : A).

Lemma filter_all (P : A → Prop) `{!∀ x, Decision (P x)} l :
  Forall P l → filter P l = l.
Proof.
  induction 1 as [|x l Hx _ IH]; [done|]. by rewrite filter_cons_True, IH.
Qed.
Lemma filter_none (P : A → Prop) `{!∀ x, Decision (P x)} l :
  Forall (λ x, ¬ P x) l → filter P l = [].
Proof.
  induction 1 as [|x l Hx _ IH]; [done|]. by rewrite filter_cons_False.
Qed.
Lemma filter_length_all (P : A → Prop) `{!∀ x, Decision (P x)} l :
  length (filter P l) = length l → Forall P l.
Proof.
  induction l as [|x l IH]; [done|]. rewrite filter_cons. case_decide; cbn.
  - intros [= H1]. auto.
  - intros H1. pose proof (length_filter P l). lia.
Qed.
End lists.

(** ** Rounding *)

(** [n / d] rounded to the nearest integer, ties to even. *)
Definition round_half_even (n d : Z) : Z :=
  let q := n / d in
  let r := n mod d in
  if 2 * r <? d then q
  else if d <? 2 * r then q + 1
  else if Z.even q then q else q + 1.

(** [n / d] rounded to the nearest integer, ties away from zero, for [0 <= n]. *)
Definition round_half_up (n d : Z) : Z := (2 * n + d) / (2 * d).

Lemma round_half_even_exact n d : 0 < d → round_half_even (n * d) d = n.
Proof.
  intros H. unfold round_half_even. rewrite Z.div_mul, Z_mod_mult by lia.
  destruct (2 * 0 <? d) eqn:E; [done|]. apply Z.ltb_ge in E. lia.
Qed.
Lemma round_half_up_exact n d : 0 < d → round_half_up (n * d) d = n.
Proof.
  intros H. unfold round_half_up. symmetry. apply Z.div_unique with d; [lia|]. lia.
Qed.
(** The nearest integer: within half of the quotient. *)
Lemma round_half_up_near n d :
  0 < d → 2 * n - d < 2 * d * round_half_up n d <= 2 * n + d.
Proof.
  intros H. unfold round_half_up. pose proof (Z.mul_div_le (2 * n + d) (2 * d)).
  pose proof (Z.mul_succ_div_gt (2 * n + d) (2 * d)). nia.
Qed.

(** ** Parts of a larger state *)

(** [Field W S]: the state [W] of the process holds one component's state [S].
    A component is written against this interface, so that the same operations
    run on any process that holds its state. *)
Class Field (W S : Type) : Type := {
  getf : W → S;
  setf : S → W → W;
  getf_setf s w : getf (setf s w) = s;
  setf_setf s s' w : setf s (setf s' w) = setf s w;
  setf_getf w : setf (getf w) w = w
}.

(** Every type is its own only field. *)
Global Program Instance Field_self {S : Type} : Field S S | 100 :=
  {| getf s := s; setf s _ := s |}.
Solve Obligations with done.

(** The first half of a pair. *)
Global Program Instance Field_fst {A B : Type} : Field (A * B) A | 50 :=
  {| getf := fst; setf a w := (a, w.2) |}.
Next Obligation. done. Qed.
Next Obligation. done. Qed.
Next Obligation. by intros A B []. Qed.

Definition updf {W S} `{!Field W S} (f : S → S) (w : W) : W := setf (f (getf w)) w.

Lemma getf_updf {W S} `{!Field W S} (f : S → S) (w : W) : getf (updf f w) = f (getf w).
Proof. unfold updf. apply getf_setf. Qed.
Lemma updf_updf {W S} `{!Field W S} (f g : S → S) (w : W) :
  updf f (updf g w) = updf (λ s, f (g s)) w.
Proof. unfold updf. by rewrite getf_setf, setf_setf. Qed.
Lemma updf_id {W S} `{!Field W S} (f : S → S) (w : W) : f (getf w) = getf w → updf f w = w.
Proof. unfold updf. intros ->. apply setf_getf. Qed.

(** ** Reachability *)

(** The reflexive transitive closure of a step relation, extended at the end, so
    that an invariant is proved by induction on how a state was reached. *)
Inductive reachable {S : Type} (init : S → Prop) (step : S → S → Prop) : S → Prop :=
  | reach_init s : init s → reachable init step s
  | reach_step s s' : reachable init step s → step s s' → reachable init step s'.

Lemma rtc_reachable {S} (init : S → Prop) (step : S → S → Prop) s s' :
  reachable init step s → rtc step s s' → reachable init step s'.
Proof. intros Hs Hsteps. revert Hs. induction Hsteps; eauto using reachable. Qed.

Lemma reachable_inv {S} (init : S → Prop) (step : S → S → Prop) (I : S → Prop) s :
  (∀ s, init s → I s) →
  (∀ s s', reachable init step s → I s → step s s' → I s') →
  reachable init step s → I s.
Proof. intros Hi Hs. induction 1 as [s H|s s' H IH H']; eauto. Qed.
