(* ===== verification/PyStr.v ===== *)
(** * Python strings and bytes *)
(** A Python [str] is modelled as its UTF-8 bytes and [bytes] as themselves, both
    as [string].  Case mapping and white space are those of ASCII; [py_len] counts
    code points.  The functions below are the [str] methods the gateway calls. *)
From stdpp Require Import pretty.
From Stdlib Require Import Ascii.
From S2P Require Export Prelude.
From stdpp Require Import options.
Local Open Scope Z_scope.

Notation "a ++s b" := (String.app a b) (at level 60, right associativity) : gw_scope.

(** ** Characters *)

Definition ascii_code (c : ascii) : Z := Z.of_nat (nat_of_ascii c).

Definition lower_char (c : ascii) : ascii :=
  if (65 <=? ascii_code c) && (ascii_code c <=? 90)
  then ascii_of_nat (nat_of_ascii c + 32) else c.
Definition upper_char (c : ascii) : ascii :=
  if (97 <=? ascii_code c) && (ascii_code c <=? 122)
  then ascii_of_nat (nat_of_ascii c - 32) else c.
(** [str.isspace] on ASCII: tab to carriage return, the separators, space. *)
Definition space_char (c : ascii) : bool :=
  ((9 <=? ascii_code c) && (ascii_code c <=? 13))
  || ((28 <=? ascii_code c) && (ascii_code c <=? 32)).
Definition digit_char (c : ascii) : bool :=
  (48 <=? ascii_code c) && (ascii_code c <=? 57).

(** A fact of all 256 characters, decided by trying them. *)
Ltac all_ascii c :=
  destruct c as [[] [] [] [] [] [] [] []]; vm_compute; try done.

Lemma lower_char_idemp c : lower_char (lower_char c) = lower_char c.
Proof. all_ascii c. Qed.
Lemma lower_upper_char c : lower_char (upper_char c) = lower_char c.
Proof. all_ascii c. Qed.
Lemma upper_lower_char c : upper_char (lower_char c) = upper_char c.
Proof. all_ascii c. Qed.
Lemma upper_char_idemp c : upper_char (upper_char c) = upper_char c.
Proof. all_ascii c. Qed.

(** ** Mapping, measuring, testing *)

Fixpoint str_map (f : ascii → ascii) (s : string) : string :=
  match s with
  | EmptyString => EmptyString
  | String c s' => String (f c) (str_map f s')
  end.
Definition str_lower : string → string := str_map lower_char.
Definition str_upper : string → string := str_map upper_char.

Definition str_truthy (s : string) : bool :=
  match s with EmptyString => false | _ => true end.

Fixpoint str_all (p : ascii → bool) (s : string) : bool :=
  match s with
  | EmptyString => true
  | String c s' => p c && str_all p s'
  end.
Definition str_any (p : ascii → bool) (s : string) : bool := negb (str_all (λ c, negb (p c)) s).

(** [len] of the [str]: its code points, the bytes that do not continue one. *)
Fixpoint py_len (s : string) : Z :=
  match s with
  | EmptyString => 0
  | String c s' =>
      (if (128 <=? ascii_code c) && (ascii_code c <? 192) then 0 else 1) + py_len s'
  end.
(** [len] of the [bytes]. *)
Definition byte_len (s : string) : Z := Z.of_nat (String.length s).

Fixpoint starts_with (p s : string) : bool :=
  match p, s with
  | EmptyString, _ => true
  | String a p', String b s' => Ascii.eqb a b && starts_with p' s'
  | _, _ => false
  end.

Fixpoint str_take (n : nat) (s : string) : string :=
  match n, s with
  | S n', String c s' => String c (str_take n' s')
  | _, _ => EmptyString
  end.
Fixpoint str_drop (n : nat) (s : string) : string :=
  match n, s with
  | S n', String _ s' => str_drop n' s'
  | _, _ => s
  end.
(** [s[:n]] of the [str], in code points. *)
Fixpoint py_take (n : nat) (s : string) : string :=
  match s with
  | EmptyString => EmptyString
  | String c s' =>
      if (128 <=? ascii_code c) && (ascii_code c <? 192) then String c (py_take n s')
      else match n with O => EmptyString | S n' => String c (py_take n' s') end
  end.
(** [s[-n:]]: the last [n] bytes. *)
Definition str_last (n : nat) (s : string) : string := str_drop (String.length s - n) s.

(** ** Stripping *)

Fixpoint lstrip_by (p : ascii → bool) (s : string) : string :=
  match s with
  | String c s' => if p c then lstrip_by p s' else s
  | EmptyString => EmptyString
  end.
Fixpoint rstrip_by (p : ascii → bool) (s : string) : string :=
  match s with
  | EmptyString => EmptyString
  | String c s' =>
      match rstrip_by p s' with
      | EmptyString => if p c then EmptyString else String c EmptyString
      | t => String c t
      end
  end.
Definition str_strip (s : string) : string := rstrip_by space_char (lstrip_by space_char s).
Definition lstrip_char (c : ascii) : string → string := lstrip_by (Ascii.eqb c).
Definition rstrip_char (c : ascii) : string → string := rstrip_by (Ascii.eqb c).

(** ** Splitting and joining *)

(** [s.split(c)] on one character. *)
Fixpoint str_split (c : ascii) (s : string) : list string :=
  match s with
  | EmptyString => [EmptyString]
  | String a s' =>
      if Ascii.eqb a c then EmptyString :: str_split c s'
      else match str_split c s' with
           | x :: xs => String a x :: xs
           | [] => [String a EmptyString]
           end
  end.

Fixpoint str_join (sep : string) (l : list string) : string :=
  match l with
  | [] => EmptyString
  | [x] => x
  | x :: xs => x ++s sep ++s str_join sep xs
  end.

(** [s.partition(c)]: the part before the first [c], whether there was one, the
    part after it. *)
Fixpoint str_partition (c : ascii) (s : string) : string * bool * string :=
  match s with
  | EmptyString => (EmptyString, false, EmptyString)
  | String a s' =>
      if Ascii.eqb a c then (EmptyString, true, s')
      else let '(h, found, t) := str_partition c s' in (String a h, found, t)
  end.

Definition has_char (c : ascii) : string → bool := str_any (Ascii.eqb c).

(** ** Printing integers *)

(** [str(n)], what an f-string prints for an integer. *)
Definition int_str (n : Z) : string := pretty n.

(** ** Lemmas *)

Lemma str_map_app f a b : str_map f (a ++s b) = str_map f a ++s str_map f b.
Proof. induction a as [|c a IH]; [done|]. unfold String.app in *; cbn. by f_equal. Qed.
Lemma str_map_compose f g s : str_map f (str_map g s) = str_map (λ c, f (g c)) s.
Proof. induction s as [|c s IH]; cbn; [done|]. by f_equal. Qed.
Lemma str_map_ext f g s : (∀ c, f c = g c) → str_map f s = str_map g s.
Proof. intros H. induction s as [|c s IH]; cbn; [done|]. by rewrite H, IH. Qed.

Lemma str_lower_idemp s : str_lower (str_lower s) = str_lower s.
Proof.
  unfold str_lower. rewrite str_map_compose. apply str_map_ext, lower_char_idemp.
Qed.
Lemma str_upper_idemp s : str_upper (str_upper s) = str_upper s.
Proof.
  unfold str_upper. rewrite str_map_compose. apply str_map_ext, upper_char_idemp.
Qed.
Lemma str_upper_lower s : str_upper (str_lower s) = str_upper s.
Proof.
  unfold str_upper, str_lower. rewrite str_map_compose. apply str_map_ext, upper_lower_char.
Qed.

Lemma str_truthy_spec s : str_truthy s = true ↔ s ≠ EmptyString.
Proof. by destruct s. Qed.
Lemma str_truthy_false s : str_truthy s = false ↔ s = EmptyString.
Proof. by destruct s. Qed.

Lemma app_empty_r s : s ++s EmptyString = s.
Proof. induction s as [|c s IH]; [done|]. unfold String.app in *; cbn. by f_equal. Qed.
Lemma app_assoc_s a b c : (a ++s b) ++s c = a ++s (b ++s c).
Proof. induction a as [|x a IH]; [done|]. unfold String.app in *; cbn. by f_equal. Qed.
Lemma app_cons_s c a b : String c a ++s b = String c (a ++s b).
Proof. done. Qed.
Lemma app_empty_l s : EmptyString ++s s = s.
Proof. done. Qed.
Lemma str_length_app a b : String.length (a ++s b) = (String.length a + String.length b)%nat.
Proof. induction a as [|x a IH]; [done|]. rewrite app_cons_s; cbn. by rewrite IH. Qed.
Lemma byte_len_app a b : byte_len (a ++s b) = byte_len a + byte_len b.
Proof. unfold byte_len. rewrite str_length_app. lia. Qed.
Lemma byte_len_nonneg s : 0 <= byte_len s.
Proof. unfold byte_len. lia. Qed.

Lemma str_split_cons c s : ∃ x xs, str_split c s = x :: xs.
Proof.
  destruct s as [|a s]; cbn; [eauto|]. destruct (Ascii.eqb a c); [eauto|].
  destruct (str_split c s); eauto.
Qed.
Lemma str_split_nonempty c s : str_split c s ≠ [].
Proof. destruct (str_split_cons c s) as (x & xs & ->). done. Qed.

Lemma str_join_cons sep x y l : str_join sep (x :: y :: l) = x ++s sep ++s str_join sep (y :: l).
Proof. done. Qed.

Lemma str_join_split c s : str_join (String c EmptyString) (str_split c s) = s.
Proof.
  induction s as [|a s IH]; [done|]. cbn [str_split].
  destruct (Ascii.eqb_spec a c) as [->|Hne].
  - destruct (str_split_cons c s) as (x & xs & Hs). rewrite Hs in *.
    rewrite str_join_cons, IH. done.
  - destruct (str_split_cons c s) as (x & xs & Hs). rewrite Hs in *.
    destruct xs as [|y ys]; [cbn in *; by rewrite IH|].
    rewrite str_join_cons in *. rewrite app_cons_s. by rewrite IH.
Qed.

Lemma str_all_app p a b : str_all p (a ++s b) = str_all p a && str_all p b.
Proof.
  induction a as [|x a IH]; [done|]. rewrite app_cons_s. cbn. rewrite IH.
  by destruct (p x).
Qed.

(** The pieces of a split contain no separator. *)
Lemma str_split_clean c s x : x ∈ str_split c s → has_char c x = false.
Proof.
  unfold has_char, str_any. revert x. induction s as [|a s IH]; intros x; cbn.
  - intros Hx. apply list_elem_of_singleton in Hx as ->. done.
  - destruct (Ascii.eqb_spec a c) as [->|Hne].
    + intros [->|Hx]%elem_of_cons; [done|]. by apply IH.
    + destruct (str_split_cons c s) as (y & ys & Hs). rewrite Hs in *.
      intros [->|Hx]%elem_of_cons; [|apply IH; set_solver].
      cbn. rewrite (proj2 (Ascii.eqb_neq c a)) by congruence. cbn.
      apply IH. set_solver.
Qed.

Lemma str_split_app_clean c a s x xs :
  has_char c a = false → str_split c s = x :: xs → str_split c (a ++s s) = (a ++s x) :: xs.
Proof.
  unfold has_char, str_any. induction a as [|y a IH]; intros Ha Hs; [done|].
  cbn in Ha. rewrite app_cons_s. cbn.
  destruct (Ascii.eqb_spec c y) as [->|Hne]; [done|]. cbn in Ha.
  rewrite (proj2 (Ascii.eqb_neq y c)) by congruence.
  by rewrite (IH Ha Hs).
Qed.

(** Splitting a concatenation: the last piece of the first half is glued to the
    first piece of the second. *)
Lemma str_split_app c a b l x y ys :
  str_split c a = l ++ [x] → str_split c b = y :: ys →
  str_split c (a ++s b) = l ++ (x ++s y) :: ys.
Proof.
  revert l x. induction a as [|d a IH]; intros l x Ha Hb.
  - cbn in Ha. destruct l as [|? [|]]; simplify_eq/=. by rewrite app_empty_l.
  - rewrite app_cons_s. cbn in *. destruct (Ascii.eqb d c).
    + destruct l as [|z l]; simplify_eq/=.
      * by destruct (str_split_nonempty c a).
      * by rewrite (IH l x).
    + destruct (str_split_cons c a) as (z & zs & Hz). rewrite Hz in Ha.
      destruct l as [|w l]; simplify_eq/=.
      * rewrite (IH [] z); [done| |done]. by rewrite Hz.
      * rewrite (IH (z :: l) x); [done| |done]. by rewrite Hz.
Qed.

Lemma str_split_snoc c s : ∃ l x, str_split c s = l ++ [x].
Proof.
  destruct (str_split_cons c s) as (x & xs & ->).
  destruct (exists_last (l := x :: xs)) as (l & y & ->); [done|eauto].
Qed.

(** [partition] cuts the string at the first separator. *)
Lemma str_partition_spec c s h f t :
  str_partition c s = (h, f, t) →
  has_char c h = false ∧
  s = (if f then h ++s String c t else h) ∧ (f = false → t = EmptyString).
Proof.
  unfold has_char, str_any. revert h f t. induction s as [|a s IH]; intros h f t; cbn.
  - intros [= <- <- <-]. done.
  - destruct (Ascii.eqb_spec a c) as [->|Hne].
    + intros [= <- <- <-]. done.
    + destruct (str_partition c s) as [[h' f'] t'] eqn:Hp. intros [= <- <- <-].
      destruct (IH _ _ _ eq_refl) as (Hc & -> & Ht). cbn.
      rewrite (proj2 (Ascii.eqb_neq c a)) by congruence. cbn. split; [done|].
      by destruct f'.
Qed.

Lemma str_partition_first c h t :
  has_char c h = false → str_partition c (h ++s String c t) = (h, true, t).
Proof.
  unfold has_char, str_any. induction h as [|a h IH]; intros Hh.
  - rewrite app_empty_l. cbn. by rewrite Ascii.eqb_refl.
  - cbn in Hh. rewrite app_cons_s. cbn.
    destruct (Ascii.eqb_spec c a) as [->|Hne]; [done|]. cbn in Hh.
    rewrite (proj2 (Ascii.eqb_neq a c)) by congruence. by rewrite IH.
Qed.

Lemma str_partition_none c s :
  has_char c s = false → str_partition c s = (s, false, EmptyString).
Proof.
  unfold has_char, str_any. induction s as [|a s IH]; intros Hh; [done|].
  cbn in *. destruct (Ascii.eqb_spec c a) as [->|Hne]; [done|]. cbn in Hh.
  rewrite (proj2 (Ascii.eqb_neq a c)) by congruence. by rewrite IH.
Qed.

Lemma int_str_inj a b : int_str a = int_str b → a = b.
Proof. apply pretty_Z_inj. Qed.

Lemma app_inj_l a b c : a ++s b = a ++s c → b = c.
Proof. induction a as [|x a IH]; [done|]. rewrite !app_cons_s. intros [= H]. auto. Qed.
Lemma str_all_and p q s : str_all p s = true → str_all q s = true → str_all (λ c, p c && q c) s = true.
Proof.
  induction s as [|c s IH]; cbn; [done|]. rewrite !andb_true_iff. intros [? ?] [? ?]. auto.
Qed.
Lemma py_len_ascii s : str_all (λ c, ascii_code c <? 128) s = true → py_len s = byte_len s.
Proof.
  unfold byte_len. induction s as [|c s IH]; [done|]. cbn [str_all py_len String.length].
  intros [Hc Hs]%andb_true_iff. apply Z.ltb_lt in Hc. rewrite IH by done.
  rewrite (proj2 (Z.leb_gt 128 _)) by lia. cbn. lia.
Qed.

(** ** Stripping and mapping what needs none *)

Lemma lstrip_by_none p s : str_all (λ c, negb (p c)) s = true → lstrip_by p s = s.
Proof. destruct s as [|c s]; cbn; [done|]. by destruct (p c). Qed.
Lemma rstrip_by_none p s : str_all (λ c, negb (p c)) s = true → rstrip_by p s = s.
Proof.
  induction s as [|c s IH]; cbn; [done|]. intros [Hc Hs]%andb_true_iff.
  rewrite IH by done. apply negb_true_iff in Hc. destruct s; [by rewrite Hc|done].
Qed.
Lemma str_map_id f s : str_all (λ c, Ascii.eqb (f c) c) s = true → str_map f s = s.
Proof.
  induction s as [|c s IH]; cbn; [done|]. intros [Hc Hs]%andb_true_iff.
  apply Ascii.eqb_eq in Hc. by rewrite Hc, IH.
Qed.
Lemma str_all_impl (p q : ascii → bool) s :
  (∀ c, p c = true → q c = true) → str_all p s = true → str_all q s = true.
Proof.
  intros H. induction s as [|c s IH]; cbn; [done|]. rewrite !andb_true_iff.
  intros [? ?]. auto.
Qed.

Lemma rstrip_by_cons p c s : rstrip_by p s ≠ EmptyString → rstrip_by p (String c s) = String c (rstrip_by p s).
Proof. cbn. by destruct (rstrip_by p s). Qed.

Lemma rstrip_by_app p a b :
  str_all p b = true → rstrip_by p (a ++s b) = rstrip_by p a.
Proof.
  intros Hb. induction a as [|c a IH].
  - rewrite app_empty_l. cbn. induction b as [|d b IHb]; [done|]. cbn in *.
    apply andb_true_iff in Hb as [Hd Hb]. by rewrite IHb, Hd.
  - rewrite app_cons_s. cbn [rstrip_by]. by rewrite IH.
Qed.
Lemma rstrip_by_last p a c : p c = false → rstrip_by p (a ++s String c EmptyString) = a ++s String c EmptyString.
Proof.
  intros Hc. induction a as [|d a IH].
  - rewrite app_empty_l. simpl. by rewrite Hc.
  - rewrite app_cons_s. rewrite rstrip_by_cons; [by rewrite IH|]. rewrite IH. by destruct a.
Qed.
