(* ===== verification/Json.v ===== *)
(** * JSON values *)
(** What [json.loads] hands the gateway, as one inductive type, with the Python
    operations the gateway applies to such a value: [isinstance], [dict.get],
    truth, [str] and [repr].  A [float] is kept as the decimal digits of its
    [repr], which is all that [str], [bool] and (below 2^53) [int] read of it. *)
From S2P Require Export PyStr.
From stdpp Require Import pretty.
From Stdlib Require Import Ascii.
From stdpp Require Import options.
Local Open Scope Z_scope.

(** [coef * 10^exp], negated by [neg]; or an infinity; or a NaN. *)
Inductive pyfloat : Type :=
  | FFin (neg : bool) (coef exp : Z)
  | FInf (neg : bool)
  | FNan.

Inductive json : Type :=
  | JNull
  | JBool (b : bool)
  | JInt (n : Z)
  | JFloat (f : pyfloat)
  | JStr (s : string)
  | JList (l : list json)
  | JObj (fields : list (string * json)).

Global Instance pyfloat_eq_dec : EqDecision pyfloat.
Proof. solve_decision. Defined.

(** ** Tests and accessors *)

Definition is_dict (j : json) : bool := match j with JObj _ => true | _ => false end.
Definition is_list (j : json) : bool := match j with JList _ => true | _ => false end.
Definition is_str (j : json) : bool := match j with JStr _ => true | _ => false end.

Fixpoint assoc_get {A} (k : string) (l : list (string * A)) : option A :=
  match l with
  | [] => None
  | (k', v) :: l' => if String.eqb k k' then Some v else assoc_get k l'
  end.

(** [d.get(k)] of a dict; the gateway asks [isinstance] first, and what is not a
    dict answers [None] here. *)
Definition jget (k : string) (j : json) : json :=
  match j with
  | JObj fields => default JNull (assoc_get k fields)
  | _ => JNull
  end.

(** The truth of a value, as [or] and [if] read it. *)
Definition jtruthy (j : json) : bool :=
  match j with
  | JNull => false
  | JBool b => b
  | JInt n => negb (n =? 0)
  | JFloat (FFin _ c _) => negb (c =? 0)
  | JFloat _ => true
  | JStr s => str_truthy s
  | JList l => negb (bool_decide (l = []))
  | JObj l => match l with [] => false | _ => true end
  end.

(** [a or b] *)
Definition jor (a b : json) : json := if jtruthy a then a else b.

(** ** [str] and [repr] *)

Definition nl : ascii := ascii_of_nat 10.
Definition dquote : ascii := ascii_of_nat 34.
Definition squote : ascii := ascii_of_nat 39.
Definition backslash : ascii := ascii_of_nat 92.
Definition str1 (c : ascii) : string := String c EmptyString.

Definition hex_digit (n : Z) : ascii :=
  if n <? 10 then ascii_of_nat (Z.to_nat (48 + n)) else ascii_of_nat (Z.to_nat (87 + n)).
Definition hex2 (n : Z) : string :=
  String (hex_digit (n / 16)) (str1 (hex_digit (n mod 16))).

Fixpoint repr_chars (quote : ascii) (s : string) : string :=
  match s with
  | EmptyString => EmptyString
  | String c s' =>
      (if Ascii.eqb c quote || Ascii.eqb c backslash then String backslash (str1 c)
       else if ascii_code c =? 10 then String backslash "n"
       else if ascii_code c =? 13 then String backslash "r"
       else if ascii_code c =? 9 then String backslash "t"
       else if (ascii_code c <? 32) || (ascii_code c =? 127)
            then String backslash (String "x"%char (hex2 (ascii_code c)))
       else str1 c)
      ++s repr_chars quote s'
  end.
(** [repr] of a [str]: single quotes unless only they occur in it. *)
Definition str_repr (s : string) : string :=
  let quote := if has_char squote s && negb (has_char dquote s) then dquote else squote in
  String quote (repr_chars quote s ++s str1 quote).

Fixpoint str_repeat (n : nat) (s : string) : string :=
  match n with O => EmptyString | S n' => s ++s str_repeat n' s end.

(** [repr] of a finite float with the shortest digits [digits], the point after
    the first [point] of them. *)
Definition float_digits_repr (digits : string) (point : Z) : string :=
  let n := byte_len digits in
  if (-4 <? point) && (point <=? 16) then
    if point <=? 0 then "0." ++s str_repeat (Z.to_nat (- point)) "0" ++s digits
    else if point <? n
         then str_take (Z.to_nat point) digits ++s "." ++s str_drop (Z.to_nat point) digits
    else digits ++s str_repeat (Z.to_nat (point - n)) "0" ++s ".0"
  else
    let e := point - 1 in
    str_take 1 digits
    ++s (if n =? 1 then EmptyString else "." ++s str_drop 1 digits)
    ++s "e" ++s (if e <? 0 then "-" else "+")
    ++s (if Z.abs e <? 10 then "0" else EmptyString) ++s int_str (Z.abs e).

Definition float_repr (f : pyfloat) : string :=
  match f with
  | FNan => "nan"
  | FInf neg => if neg then "-inf" else "inf"
  | FFin neg c e =>
      (if neg then "-" else EmptyString)
      ++s (if c =? 0 then "0.0"
           else let d := int_str c in float_digits_repr d (byte_len d + e))
  end.

Fixpoint py_repr (j : json) : string :=
  match j with
  | JNull => "None"
  | JBool b => if b then "True" else "False"
  | JInt n => int_str n
  | JFloat f => float_repr f
  | JStr s => str_repr s
  | JList l => "[" ++s str_join ", " (map py_repr l) ++s "]"
  | JObj l =>
      "{" ++s str_join ", " (map (λ kv, str_repr kv.1 ++s ": " ++s py_repr kv.2) l) ++s "}"
  end.
(** [str(v)]: a string is itself, anything else its [repr]. *)
Definition py_str (j : json) : string :=
  match j with JStr s => s | _ => py_repr j end.

(** [str(v or "")] *)
Definition str_or_empty (j : json) : string := py_str (jor j (JStr EmptyString)).

Lemma rstrip_str1 p a c : p c = false → rstrip_by p (a ++s str1 c) = a ++s str1 c.
Proof. apply rstrip_by_last. Qed.
Lemma str_repeat_length n c : String.length (str_repeat n (str1 c)) = n.
Proof. induction n as [|n IH]; [done|]. cbn [str_repeat]. rewrite str_length_app, IH. done. Qed.
Lemma str_repeat_snoc n c : str_repeat (S n) (str1 c) = str_repeat n (str1 c) ++s str1 c.
Proof.
  induction n as [|n IH]; [done|]. cbn [str_repeat] in *. rewrite IH at 1. by rewrite app_assoc_s.
Qed.
Lemma str_or_empty_str s : str_or_empty (JStr s) = s.
Proof. unfold str_or_empty, jor; cbn. by destruct s. Qed.
Lemma str_or_empty_null : str_or_empty JNull = EmptyString.
Proof. done. Qed.

Lemma jget_not_dict k j : is_dict j = false → jget k j = JNull.
Proof. by destruct j. Qed.

Example float_repr_examples :
  map float_repr [FFin false 1 (-1); FFin false 15 0; FFin true 123 20; FFin false 1 (-5)]
  = ["0.1"; "15.0"; "-1.23e+22"; "1e-05"]%string.
Proof. vm_compute. reflexivity. Qed.
