(* ===== verification/X402Wire.v ===== *)
(** * The x402 documents *)
(** The shapes of [domain/x402.py]: payment requirements, the 402 body, the
    verification and settlement answers and what they look like on the wire. *)
From S2P Require Export Json.
From stdpp Require Import options.
Local Open Scope Z_scope.

Definition X402_VERSION : Z := 1.
Definition SCHEME : string := "exact".
Definition PAYMENT_HEADER : string := "x-payment".
Definition RESPONSE_HEADER : string := "x-payment-response".
Definition MAX_PAYLOAD_BYTES : Z := 16 * 1024.

Record PaymentRequirements : Type := mkPaymentRequirements {
  req_scheme : string;
  req_network : string;
  max_amount_required : string;
  req_resource : string;
  req_description : string;
  pay_to : string;
  req_asset : string;
  max_timeout_seconds : Z;
  mime_type : string;
  req_extra : list (string * json)
}.

Definition requirements_as_json (r : PaymentRequirements) : json :=
  JObj [("scheme", JStr (req_scheme r));
        ("network", JStr (req_network r));
        ("maxAmountRequired", JStr (max_amount_required r));
        ("resource", JStr (req_resource r));
        ("description", JStr (req_description r));
        ("mimeType", JStr (mime_type r));
        ("payTo", JStr (pay_to r));
        ("maxTimeoutSeconds", JInt (max_timeout_seconds r));
        ("asset", JStr (req_asset r));
        ("extra", JObj (req_extra r))]%string.

Record PaymentRequired : Type := mkPaymentRequired {
  required_error : string;
  accepts : list PaymentRequirements
}.

Definition required_as_json (d : PaymentRequired) : json :=
  JObj [("x402Version", JInt X402_VERSION);
        ("error", JStr (required_error d));
        ("accepts", JList (map requirements_as_json (accepts d)))]%string.

Record PaymentPayload : Type := mkPaymentPayload {
  payload_scheme : string;
  payload_network : string;
  payload_fields : list (string * json);
  payload_version : Z
}.

(** The signed envelope, [""] when the client sent none. *)
Definition payload_transaction (p : PaymentPayload) : string :=
  match jget "transaction" (JObj (payload_fields p)) with
  | JStr s => s
  | _ => EmptyString
  end.

Definition payload_as_json (p : PaymentPayload) : json :=
  JObj [("x402Version", JInt (payload_version p));
        ("scheme", JStr (payload_scheme p));
        ("network", JStr (payload_network p));
        ("payload", JObj (payload_fields p))]%string.

Record VerifyResult : Type := mkVerifyResult {
  valid : bool;
  verify_payer : string;
  verify_reason : string;
  verify_amount : string
}.

(** [s or None] *)
Definition str_or_null (s : string) : json := if str_truthy s then JStr s else JNull.

Definition verify_as_json (v : VerifyResult) : json :=
  JObj [("isValid", JBool (valid v));
        ("payer", JStr (verify_payer v));
        ("invalidReason", str_or_null (verify_reason v));
        ("amount", JStr (verify_amount v))]%string.

Record SettleResult : Type := mkSettleResult {
  settle_success : bool;
  settle_network : string;
  settle_transaction : string;
  settle_payer : string;
  settle_reason : string
}.

Definition settle_as_json (r : SettleResult) : json :=
  JObj [("success", JBool (settle_success r));
        ("transaction", JStr (settle_transaction r));
        ("network", JStr (settle_network r));
        ("payer", JStr (settle_payer r));
        ("errorReason", str_or_null (settle_reason r))]%string.

Definition supported_as_json (kinds : list (string * string)) : json :=
  JObj [("kinds", JList (map (λ k,
          JObj [("x402Version", JInt X402_VERSION);
                ("scheme", JStr k.1); ("network", JStr k.2)]) kinds))]%string.
