(* ===== verification/Errors.v ===== *)
(** * Exceptions *)
(** The exceptions of [domain/exceptions.py] and of the other modules that derive
    from them, with the classes they are instances of; and [api/errors.py], which
    turns one into a status and a code by walking the class hierarchy. *)
From S2P Require Export X402Wire.
From stdpp Require Import options.
Local Open Scope Z_scope.

(** ** Classes *)

Inductive exn_class : Type :=
  | cBaseException | cCancelledError | cGeneratorExit
  | cException | cValueError | cTypeError | cArithmeticError | cOverflowError
  | cInvalidOperation | cRuntimeError | cIntegrityError | cForeign
  | cPaymentNetworkError
  | cGatewayError
  | cServiceNotFoundError | cInstanceNotFoundError | cDuplicateServiceError
  | cUpstreamError | cUpstreamTimeoutError | cUpstreamConnectionError
  | cOrchestrationError
  | cCircuitOpenError | cRunNotFoundError | cConsoleDisabledError
  | cNoProjectError | cProjectGoneError | cIllegalTransitionError
  | cBillingError | cInsufficientFundsError | cUnknownProductError
  | cInvoiceNotFoundError | cSubscriptionContractError
  | cIdentityError | cUnverifiableError | cX402Error | cPaymentRequiredError.

Global Instance exn_class_eq_dec : EqDecision exn_class.
Proof. solve_decision. Defined.

(** The base class each class is declared with. *)
Definition base_of (c : exn_class) : option exn_class :=
  match c with
  | cBaseException => None
  | cCancelledError | cGeneratorExit | cException => Some cBaseException
  | cValueError | cTypeError | cArithmeticError | cRuntimeError | cIntegrityError
  | cForeign | cPaymentNetworkError | cGatewayError => Some cException
  | cOverflowError | cInvalidOperation => Some cArithmeticError
  | cServiceNotFoundError | cInstanceNotFoundError | cDuplicateServiceError
  | cUpstreamError | cCircuitOpenError | cRunNotFoundError | cConsoleDisabledError
  | cNoProjectError | cProjectGoneError | cIllegalTransitionError
  | cBillingError | cIdentityError | cX402Error | cPaymentRequiredError =>
      Some cGatewayError
  | cUpstreamTimeoutError | cUpstreamConnectionError | cOrchestrationError =>
      Some cUpstreamError
  | cInsufficientFundsError | cUnknownProductError | cInvoiceNotFoundError
  | cSubscriptionContractError => Some cBillingError
  | cUnverifiableError => Some cIdentityError
  end.

(** [type(e).__mro__]: the class and its bases.  Five steps reach the root from
    every class ([mro_complete]). *)
Fixpoint mro_fuel (fuel : nat) (c : exn_class) : list exn_class :=
  c :: match fuel, base_of c with
       | S n, Some b => mro_fuel n b
       | _, _ => []
       end.
Definition mro (c : exn_class) : list exn_class := mro_fuel 5 c.

Definition subclass (c d : exn_class) : bool := bool_decide (d ∈ mro c).

(** ** Instances *)

Inductive exn : Type :=
  (* domain/exceptions.py *)
  | ServiceNotFoundError (service_name : string)
  | InstanceNotFoundError (service_name instance_id : string)
  | DuplicateServiceError (service_name : string)
  | UpstreamError (service_name message : string) (request_sent : bool)
  | UpstreamTimeoutError (service_name : string) (request_sent : bool)
  | UpstreamConnectionError (service_name : string) (request_sent : bool)
  | CircuitOpenError (service_name : string)
  | RunNotFoundError (run_id : string)
  | ConsoleDisabledError
  | NoProjectError (run_id : string)
  | ProjectGoneError
  (* domain/runs.py, application/orchestration.py *)
  | IllegalTransitionError (state event : string)
  | OrchestrationError (service_name message : string)
  (* domain/billing.py, infrastructure/billing *)
  | BillingError (message : string)
  | InsufficientFundsError (needed available : Z)
  | UnknownProductError (sku : string)
  | InvoiceNotFoundError (invoice_id : string)
  | SubscriptionContractError (message : string)
  | PaymentNetworkError (message : string)
  (* application/identity_service.py, domain/x402.py, api/payment_gate.py *)
  | IdentityError (message : string)
  | UnverifiableError (message : string)
  | X402Error (message : string)
  | PaymentRequiredError (document : PaymentRequired)
  (* Python's own *)
  | ValueError (message : string)
  | TypeError (message : string)
  | OverflowError (message : string)
  | InvalidOperation
  | RuntimeError (message : string)
  | IntegrityError (message : string)
  | CancelledError
  | GeneratorExit
  (* any other [Exception] of a library *)
  | ForeignError (class_name message : string).

Definition class_of (e : exn) : exn_class :=
  match e with
  | ServiceNotFoundError _ => cServiceNotFoundError
  | InstanceNotFoundError _ _ => cInstanceNotFoundError
  | DuplicateServiceError _ => cDuplicateServiceError
  | UpstreamError _ _ _ => cUpstreamError
  | UpstreamTimeoutError _ _ => cUpstreamTimeoutError
  | UpstreamConnectionError _ _ => cUpstreamConnectionError
  | CircuitOpenError _ => cCircuitOpenError
  | RunNotFoundError _ => cRunNotFoundError
  | ConsoleDisabledError => cConsoleDisabledError
  | NoProjectError _ => cNoProjectError
  | ProjectGoneError => cProjectGoneError
  | IllegalTransitionError _ _ => cIllegalTransitionError
  | OrchestrationError _ _ => cOrchestrationError
  | BillingError _ => cBillingError
  | InsufficientFundsError _ _ => cInsufficientFundsError
  | UnknownProductError _ => cUnknownProductError
  | InvoiceNotFoundError _ => cInvoiceNotFoundError
  | SubscriptionContractError _ => cSubscriptionContractError
  | PaymentNetworkError _ => cPaymentNetworkError
  | IdentityError _ => cIdentityError
  | UnverifiableError _ => cUnverifiableError
  | X402Error _ => cX402Error
  | PaymentRequiredError _ => cPaymentRequiredError
  | ValueError _ => cValueError
  | TypeError _ => cTypeError
  | OverflowError _ => cOverflowError
  | InvalidOperation => cInvalidOperation
  | RuntimeError _ => cRuntimeError
  | IntegrityError _ => cIntegrityError
  | CancelledError => cCancelledError
  | GeneratorExit => cGeneratorExit
  | ForeignError _ _ => cForeign
  end.

(** [isinstance(e, c)], what an [except c] clause asks. *)
Definition isinstance (e : exn) (c : exn_class) : bool := subclass (class_of e) c.

(** [except c: k e] *)
Definition except {S A} (c : exn_class) (k : exn → M S exn A) : exn → option (M S exn A) :=
  λ e, if isinstance e c then Some (k e) else None.

(** [f"{n:,}"]: digits in groups of three. *)
Fixpoint group3 (fuel : nat) (s : string) : string :=
  match fuel with
  | O => s
  | S n => if byte_len s <=? 3 then s
           else group3 n (str_take (String.length s - 3) s) ++s "," ++s str_last 3 s
  end.
Definition comma_str (n : Z) : string :=
  (if n <? 0 then "-" else EmptyString)
  ++s (let s := int_str (Z.abs n) in group3 (String.length s) s).

(** [str(e)] *)
Definition exn_message (e : exn) : string :=
  match e with
  | ServiceNotFoundError s => "Service '" ++s s ++s "' is not registered"
  | InstanceNotFoundError s i => "Service '" ++s s ++s "' has no instance '" ++s i ++s "'"
  | DuplicateServiceError s => "Service '" ++s s ++s "' is registered more than once"
  | UpstreamError _ m _ => m
  | UpstreamTimeoutError s _ => "Service '" ++s s ++s "' did not respond in time"
  | UpstreamConnectionError s _ => "Service '" ++s s ++s "' is unreachable"
  | CircuitOpenError s => "Service '" ++s s ++s "' is temporarily unavailable"
  | RunNotFoundError _ => "That run does not exist, or it expired"
  | ConsoleDisabledError =>
      "The console is switched off on this gateway (GATEWAY_ORCHESTRATION__CONSOLE)"
  | NoProjectError _ => "This run has no generated project yet"
  | ProjectGoneError => "The agent no longer has this project (it keeps them for an hour)"
  | IllegalTransitionError s e => e ++s " is not allowed from " ++s s
  | OrchestrationError _ m => m
  | BillingError m => m
  | InsufficientFundsError needed available =>
      "This account has " ++s comma_str available ++s " tokens and needs "
      ++s comma_str needed ++s " for that run"
  | UnknownProductError sku => "There is no plan or token pack called " ++s str_repr sku
  | InvoiceNotFoundError _ => "That invoice does not exist, or it expired"
  | SubscriptionContractError m => m
  | PaymentNetworkError m => m
  | IdentityError m => m
  | UnverifiableError m => m
  | X402Error m => m
  | PaymentRequiredError d => required_error d
  | ValueError m => m
  | TypeError m => m
  | OverflowError m => m
  | InvalidOperation => "[<class 'decimal.InvalidOperation'>]"
  | RuntimeError m => m
  | IntegrityError m => m
  | CancelledError => EmptyString
  | GeneratorExit => EmptyString
  | ForeignError _ m => m
  end.

(** [type(e).__name__] *)
Definition type_name (e : exn) : string :=
  match e with
  | ServiceNotFoundError _ => "ServiceNotFoundError"
  | InstanceNotFoundError _ _ => "InstanceNotFoundError"
  | DuplicateServiceError _ => "DuplicateServiceError"
  | UpstreamError _ _ _ => "UpstreamError"
  | UpstreamTimeoutError _ _ => "UpstreamTimeoutError"
  | UpstreamConnectionError _ _ => "UpstreamConnectionError"
  | CircuitOpenError _ => "CircuitOpenError"
  | RunNotFoundError _ => "RunNotFoundError"
  | ConsoleDisabledError => "ConsoleDisabledError"
  | NoProjectError _ => "NoProjectError"
  | ProjectGoneError => "ProjectGoneError"
  | IllegalTransitionError _ _ => "IllegalTransitionError"
  | OrchestrationError _ _ => "OrchestrationError"
  | BillingError _ => "BillingError"
  | InsufficientFundsError _ _ => "InsufficientFundsError"
  | UnknownProductError _ => "UnknownProductError"
  | InvoiceNotFoundError _ => "InvoiceNotFoundError"
  | SubscriptionContractError _ => "SubscriptionContractError"
  | PaymentNetworkError _ => "PaymentNetworkError"
  | IdentityError _ => "IdentityError"
  | UnverifiableError _ => "UnverifiableError"
  | X402Error _ => "X402Error"
  | PaymentRequiredError _ => "PaymentRequiredError"
  | ValueError _ => "ValueError"
  | TypeError _ => "TypeError"
  | OverflowError _ => "OverflowError"
  | InvalidOperation => "InvalidOperation"
  | RuntimeError _ => "RuntimeError"
  | IntegrityError _ => "IntegrityError"
  | CancelledError => "CancelledError"
  | GeneratorExit => "GeneratorExit"
  | ForeignError c _ => c
  end.

(** [error.request_sent] of an [UpstreamError]. *)
Definition exn_request_sent (e : exn) : bool :=
  match e with
  | UpstreamError _ _ b | UpstreamTimeoutError _ b | UpstreamConnectionError _ b => b
  | _ => true
  end.

(** ** api/errors.py *)

Definition error_status (c : exn_class) : option (Z * string) :=
  match c with
  | cServiceNotFoundError => Some (404, "service_not_found")
  | cRunNotFoundError => Some (404, "run_not_found")
  | cIllegalTransitionError => Some (409, "illegal_transition")
  | cInstanceNotFoundError => Some (404, "instance_not_found")
  | cConsoleDisabledError => Some (404, "console_disabled")
  | cNoProjectError => Some (409, "no_project")
  | cProjectGoneError => Some (410, "project_gone")
  | cUpstreamConnectionError => Some (502, "bad_gateway")
  | cOrchestrationError => Some (502, "upstream_failed")
  | cCircuitOpenError => Some (503, "service_unavailable")
  | cUpstreamTimeoutError => Some (504, "gateway_timeout")
  | cInsufficientFundsError => Some (402, "insufficient_funds")
  | cInvoiceNotFoundError => Some (404, "invoice_not_found")
  | cBillingError => Some (400, "billing_error")
  | cX402Error => Some (400, "invalid_payment")
  | cUnverifiableError => Some (501, "not_implemented")
  | cIdentityError => Some (401, "unauthorized")
  | cGatewayError => Some (500, "gateway_error")
  | _ => None
  end%string.

(** The loop of [classify] over the class hierarchy. *)
Fixpoint classify_in (cs : list exn_class) : Z * string :=
  match cs with
  | [] => (500, "internal_error"%string)
  | c :: cs' =>
      match error_status c with
      | Some answer => answer
      | None => classify_in cs'
      end
  end.
Definition classify (e : exn) : Z * string := classify_in (mro (class_of e)).

(** The body and headers of an error response. *)
Record error_answer : Type := mkErrorAnswer {
  answer_status : Z;
  answer_headers : list (string * string);
  answer_body : json
}.

Definition error_response (request_id : option string) (status : Z) (code message : string)
    : error_answer :=
  {| answer_status := status;
     answer_headers :=
       if status =? 401 then [("WWW-Authenticate", "Bearer")]%string else [];
     answer_body :=
       JObj [("error", JObj [("code", JStr code); ("message", JStr message);
               ("request_id", match request_id with Some i => JStr i | None => JNull end)])]%string
  |}.

(** The handler Starlette picks for an exception: the one registered for the first
    class of its hierarchy that has one.  [None] for what is not an [Exception]. *)
Inductive handler : Type := HBadRequest | HPaymentRequired | HGatewayError | HUnexpected.

Definition registered_handler (c : exn_class) : option handler :=
  match c with
  | cValueError => Some HBadRequest
  | cPaymentRequiredError => Some HPaymentRequired
  | cGatewayError => Some HGatewayError
  | cException => Some HUnexpected
  | _ => None
  end.

Fixpoint first_handler (cs : list exn_class) : option handler :=
  match cs with
  | [] => None
  | c :: cs' =>
      match registered_handler c with Some h => Some h | None => first_handler cs' end
  end.

Definition run_handler (request_id : option string) (h : handler) (e : exn) : error_answer :=
  match h with
  | HBadRequest => error_response request_id 400 "bad_request" (exn_message e)
  | HPaymentRequired =>
      match e with
      | PaymentRequiredError d =>
          {| answer_status := 402; answer_headers := []; answer_body := required_as_json d |}
      | _ => error_response request_id 500 "internal_error" "Internal server error"
      end
  | HGatewayError =>
      let '(status, code) := classify e in
      error_response request_id status code (exn_message e)
  | HUnexpected => error_response request_id 500 "internal_error" "Internal server error"
  end.

Definition answer_for (request_id : option string) (e : exn) : option error_answer :=
  (λ h, run_handler request_id h e) <$> first_handler (mro (class_of e)).

(** ** Lemmas *)

Lemma mro_complete c : cBaseException ∈ mro c.
Proof. destruct c; vm_compute; set_solver. Qed.

Lemma mro_self c : c ∈ mro c.
Proof. unfold mro; cbn [mro_fuel]. set_solver. Qed.

Lemma classify_in_app cs ds :
  Forall (λ c, error_status c = None) cs → classify_in (cs ++ ds) = classify_in ds.
Proof. induction 1 as [|c cs Hc _ IH]; cbn; [done|]. by rewrite Hc. Qed.

(** Every domain error answers with a client or server status of its
    own table row, and only the errors that are not the gateway's fall through to
    [internal_error]. *)
Theorem classify_gateway_errors e :
  (isinstance e cGatewayError = true →
     400 <= (classify e).1 < 600 ∧ (classify e).2 ≠ "internal_error"%string)
  ∧ (isinstance e cGatewayError = false → classify e = (500, "internal_error"%string)).
Proof. by destruct e; vm_compute; repeat split; intros. Qed.
