(* ===== verification/Sha256.v ===== *)
(** * SHA-256 and HMAC *)
(** [hashlib.sha256] and [hmac.new(key, body, sha256)], executable on byte strings
    (FIPS 180-4, RFC 2104).  The gateway derives instance ids from the first and
    seals its tokens with the second. *)
From S2P Require Export PyStr Json.
From Stdlib Require Import Ascii.
From stdpp Require Import options.
Local Open Scope Z_scope.

Definition word_size : Z := 2 ^ 32.
Definition add32 (a b : Z) : Z := (a + b) mod word_size.
Definition not32 (a : Z) : Z := word_size - 1 - a.
Definition rotr (n x : Z) : Z :=
  Z.lor (Z.shiftr x n) (Z.shiftl x (32 - n) mod word_size).

Definition ch (x y z : Z) : Z := Z.lxor (Z.land x y) (Z.land (not32 x) z).
Definition maj (x y z : Z) : Z := Z.lxor (Z.lxor (Z.land x y) (Z.land x z)) (Z.land y z).
Definition big_sigma0 (x : Z) : Z := Z.lxor (Z.lxor (rotr 2 x) (rotr 13 x)) (rotr 22 x).
Definition big_sigma1 (x : Z) : Z := Z.lxor (Z.lxor (rotr 6 x) (rotr 11 x)) (rotr 25 x).
Definition small_sigma0 (x : Z) : Z :=
  Z.lxor (Z.lxor (rotr 7 x) (rotr 18 x)) (Z.shiftr x 3).
Definition small_sigma1 (x : Z) : Z :=
  Z.lxor (Z.lxor (rotr 17 x) (rotr 19 x)) (Z.shiftr x 10).

(** The constants, from their definition: the first 32 bits of the fractional parts
    of the cube roots of the first 64 primes, and of the square roots of the first 8. *)
Definition prime (n : Z) : bool :=
  forallb (λ d, negb (n mod d =? 0)) (seqZ 2 (Z.max 0 (Z.sqrt n - 1))).
Definition primes (n : nat) : list Z := take n (filter (λ k, prime k = true) (seqZ 2 320)).

(** The integer cube root, bit by bit from bit [k]. *)
Fixpoint cube_root_from (k : nat) (r n : Z) : Z :=
  let r' := r + 2 ^ Z.of_nat k in
  let r := if r' * r' * r' <=? n then r' else r in
  match k with
  | O => r
  | S k' => cube_root_from k' r n
  end.
Definition round_constants : list Z :=
  Eval vm_compute in
    map (λ p, cube_root_from 36 0 (p * 2 ^ 96) mod word_size) (primes 64).
Definition initial_hash : list Z :=
  Eval vm_compute in map (λ p, Z.sqrt (p * 2 ^ 64) mod word_size) (primes 8).

(** ** Bytes *)

Fixpoint bytes_of (s : string) : list Z :=
  match s with
  | EmptyString => []
  | String c s' => ascii_code c :: bytes_of s'
  end.
Fixpoint of_bytes (l : list Z) : string :=
  match l with
  | [] => EmptyString
  | b :: l' => String (ascii_of_nat (Z.to_nat b)) (of_bytes l')
  end.
(** [n] as [k] big-endian bytes. *)
Fixpoint be_bytes (k : nat) (n : Z) : list Z :=
  match k with
  | O => []
  | S k' => be_bytes k' (n / 256) ++ [n mod 256]
  end.
Fixpoint be_words (fuel : nat) (l : list Z) : list Z :=
  match fuel, l with
  | S n, a :: b :: c :: d :: l' =>
      (a * 2 ^ 24 + b * 2 ^ 16 + c * 2 ^ 8 + d) :: be_words n l'
  | _, _ => []
  end.

(** The message padded to whole blocks of 64 bytes. *)
Definition pad (msg : list Z) : list Z :=
  let n := Z.of_nat (length msg) in
  msg ++ [128] ++ replicate (Z.to_nat ((55 - n) mod 64)) 0 ++ be_bytes 8 (8 * n).

(** ** The compression function *)

(** The message schedule, the latest word first: sixteen words of the block, then
    each from the four the recurrence names. *)
Fixpoint schedule (n : nat) (rev_w : list Z) : list Z :=
  match n with
  | O => rev_w
  | S n' =>
      let at_ k := nth k rev_w 0 in
      schedule n' (add32 (add32 (small_sigma1 (at_ 1%nat)) (at_ 6%nat))
                         (add32 (small_sigma0 (at_ 14%nat)) (at_ 15%nat)) :: rev_w)
  end.

Definition round (h : list Z) (kw : Z * Z) : list Z :=
  match h with
  | [a; b; c; d; e; f; g; hh] =>
      let t1 := add32 (add32 (add32 hh (big_sigma1 e)) (ch e f g)) (add32 kw.1 kw.2) in
      let t2 := add32 (big_sigma0 a) (maj a b c) in
      [add32 t1 t2; a; b; c; add32 d t1; e; f; g]
  | _ => h
  end.

Definition compress (h : list Z) (block : list Z) : list Z :=
  let w := rev (schedule 48 (rev (be_words 16 block))) in
  zip_with add32 h (foldl round h (zip round_constants w)).

Fixpoint hash_blocks (fuel : nat) (h : list Z) (msg : list Z) : list Z :=
  match fuel, msg with
  | S n, _ :: _ => hash_blocks n (compress h (take 64 msg)) (drop 64 msg)
  | _, _ => h
  end.

Definition sha256_bytes (msg : list Z) : list Z :=
  let p := pad msg in
  h ← hash_blocks (length p) initial_hash p; be_bytes 4 h.

(** [hashlib.sha256(data).digest()] and [.hexdigest()] *)
Definition sha256 (data : string) : string := of_bytes (sha256_bytes (bytes_of data)).
Definition sha256_hex (data : string) : string :=
  foldr (λ b s, hex2 b ++s s) EmptyString (sha256_bytes (bytes_of data)).

(** [hmac.new(key, body, hashlib.sha256).digest()] *)
Definition hmac_sha256 (key body : string) : string :=
  let k := bytes_of key in
  let k := if 64 <? Z.of_nat (length k) then sha256_bytes k else k in
  let k := k ++ replicate (64 - length k) 0 in
  let inner := sha256_bytes (map (Z.lxor 54) k ++ bytes_of body) in
  of_bytes (sha256_bytes (map (Z.lxor 92) k ++ inner)).

Example sha256_empty :
  sha256_hex "" = "e3b0c44298fc1c149afbf4c8996fb92427ae41e4649b934ca495991b7852b855"%string.
Proof. vm_compute. reflexivity. Qed.
Example sha256_abc :
  sha256_hex "abc" = "ba7816bf8f01cfea414140de5dae2223b00361a396177a9cb410ff61f20015ad"%string.
Proof. vm_compute. reflexivity. Qed.
Example hmac_rfc4231_2 :
  foldr (λ b s, hex2 b ++s s) EmptyString
    (bytes_of (hmac_sha256 "Jefe" "what do ya want for nothing?"))
  = "5bdcc146bf60754e6a042426089575c75a003f089d2739839dec58b964ec3843"%string.
Proof. vm_compute. reflexivity. Qed.
