(* ===== verification/PyDecimal.v ===== *)
(** * Decimal arithmetic *)
(** [decimal.Decimal] in the default context, as [domain/billing.py] and
    [infrastructure/billing/stellar.py] use it: construction from a string,
    multiplication and division to 28 digits (half even), [quantize], comparison and
    fixed-point formatting.  The context traps invalid operations and overflow. *)
From S2P Require Export Errors.
From stdpp Require Import pretty.
From Stdlib Require Import Ascii.
From stdpp Require Import options.
Local Open Scope Z_scope.

(** [coef * 10^exp], negated by [neg]. *)
Inductive decimal : Type :=
  | DFin (neg : bool) (coef exp : Z)
  | DInf (neg : bool)
  | DNan.

Definition DEC_PREC : Z := 28.
Definition DEC_EMAX : Z := 999999.
Definition DEC_ETINY : Z := -999999 - (DEC_PREC - 1).
(** The exponents a [Decimal] can be constructed with. *)
Definition DEC_MAX_EMAX : Z := 999999999999999999.

Definition DecimalOverflow : exn := ForeignError "Overflow" "[<class 'decimal.Overflow'>]".

(** ** Digits *)

Definition digit_val (c : ascii) : Z := ascii_code c - 48.
(** The number a digit string denotes, continued from [acc]. *)
Fixpoint num_from (acc : Z) (s : string) : Z :=
  match s with
  | EmptyString => acc
  | String c s' => num_from (10 * acc + digit_val c) s'
  end.
Definition num (s : string) : Z := num_from 0 s.
Definition all_digits (s : string) : bool := str_all digit_char s.

Fixpoint ndigits_fuel (fuel : nat) (c : Z) : Z :=
  match fuel with
  | O => 1
  | S n => if c <? 10 then 1 else 1 + ndigits_fuel n (c / 10)
  end.
(** How many digits [c >= 0] has. *)
Definition ndigits (c : Z) : Z := ndigits_fuel (Z.to_nat (Z.log2 c)) c.

(** ** Construction from a string *)

Definition minus : ascii := ascii_of_nat 45.
Definition plus : ascii := ascii_of_nat 43.
Definition dot : ascii := ascii_of_nat 46.
Definition underscore : ascii := ascii_of_nat 95.

Fixpoint str_remove (c : ascii) (s : string) : string :=
  match s with
  | EmptyString => EmptyString
  | String a s' => if Ascii.eqb a c then str_remove c s' else String a (str_remove c s')
  end.

(** A leading sign, and what follows it. *)
Definition take_sign (s : string) : bool * string :=
  match s with
  | String c s' => if Ascii.eqb c minus then (true, s')
                   else if Ascii.eqb c plus then (false, s') else (false, s)
  | EmptyString => (false, s)
  end.

Definition parse_exponent (s : string) : option Z :=
  let '(neg, ds) := take_sign s in
  if str_truthy ds && all_digits ds then Some (if neg then - num ds else num ds) else None.

(** Digits, a point, digits, an exponent. *)
Definition parse_number (neg : bool) (s : string) : option decimal :=
  let '(mantissa, has_exp, e) := str_partition "e" (str_lower s) in
  let '(int, _, frac) := str_partition dot mantissa in
  exp ← (if has_exp : bool then parse_exponent e else Some 0);
  if str_truthy (int ++s frac) && all_digits int && all_digits frac then
    let c := num (int ++s frac) in
    let x := exp - byte_len frac in
    if negb (c =? 0) && (DEC_MAX_EMAX <? Z.abs (x + ndigits c - 1)) then None
    else Some (DFin neg c x)
  else None.

(** [Decimal(s)]; [None] for [InvalidOperation]. *)
Definition dec_parse (s : string) : option decimal :=
  let '(neg, body) := take_sign (str_remove underscore (str_strip s)) in
  let low := str_lower body in
  if existsb (String.eqb low) ["inf"; "infinity"]%string then Some (DInf neg)
  else if (starts_with "nan" low && all_digits (str_drop 3 low))
          || (starts_with "snan" low && all_digits (str_drop 4 low)) then Some DNan
  else parse_number neg body.

Definition dec_of_int (n : Z) : decimal := DFin (n <? 0) (Z.abs n) 0.

Definition is_finite (d : decimal) : bool := match d with DFin _ _ _ => true | _ => false end.

(** ** Context arithmetic *)

(** [c / 10^k], half even; far below one digit it is zero. *)
Definition shift_half_even (c k : Z) : Z :=
  if ndigits c + 1 <? k then 0 else round_half_even c (10 ^ k).

(** [_fix]: round to the precision and the exponent range. *)
Definition dec_fix (neg : bool) (c e : Z) : result exn decimal :=
  if c =? 0 then Ok (DFin neg 0 (Z.max DEC_ETINY (Z.min DEC_EMAX e)))
  else
    let exp_min := ndigits c + e - DEC_PREC in
    if DEC_EMAX - DEC_PREC + 1 <? exp_min then Raise DecimalOverflow
    else
      let exp_min := Z.max exp_min DEC_ETINY in
      if e <? exp_min then
        let c' := shift_half_even c (exp_min - e) in
        if DEC_PREC <? ndigits c'
        then if DEC_EMAX - DEC_PREC + 1 <? exp_min + 1 then Raise DecimalOverflow
             else Ok (DFin neg (c' / 10) (exp_min + 1))
        else Ok (DFin neg c' exp_min)
      else Ok (DFin neg c e).

Definition dec_mul (a b : decimal) : result exn decimal :=
  match a, b with
  | DFin na ca ea, DFin nb cb eb => dec_fix (xorb na nb) (ca * cb) (ea + eb)
  | DNan, _ | _, DNan => Ok DNan
  | DInf na, DFin nb cb _ | DFin nb cb _, DInf na =>
      if cb =? 0 then Raise InvalidOperation else Ok (DInf (xorb na nb))
  | DInf na, DInf nb => Ok (DInf (xorb na nb))
  end.

(** Drop zeros from an exact quotient while its exponent is below the ideal one. *)
Fixpoint strip_zeros (fuel : nat) (c e ideal : Z) : Z * Z :=
  match fuel with
  | O => (c, e)
  | S n => if (e <? ideal) && (c mod 10 =? 0) then strip_zeros n (c / 10) (e + 1) ideal
           else (c, e)
  end.

(** The quotient of finite decimals, the divisor not zero. *)
Definition dec_div (a b : decimal) : result exn decimal :=
  match a, b with
  | DFin na ca ea, DFin nb cb eb =>
      let neg := xorb na nb in
      if cb =? 0 then Raise InvalidOperation
      else if ca =? 0 then dec_fix neg 0 (ea - eb)
      else
        let shift := ndigits cb - ndigits ca + DEC_PREC + 1 in
        let n := if 0 <=? shift then ca * 10 ^ shift else ca in
        let d := if 0 <=? shift then cb else cb * 10 ^ (- shift) in
        let q := n / d in
        let e := ea - eb - shift in
        if n mod d =? 0
        then let '(q', e') := strip_zeros (Z.to_nat (Z.abs shift + 1)) q e (ea - eb) in
             dec_fix neg q' e'
        else dec_fix neg (if q mod 5 =? 0 then q + 1 else q) e
  | _, _ => Raise InvalidOperation
  end.

(** [int(d.quantize(Decimal(1), rounding=ROUND_HALF_UP))] *)
Definition dec_quantize_int (d : decimal) : result exn Z :=
  match d with
  | DFin neg c e =>
      if c =? 0 then Ok 0
      else if DEC_PREC <? ndigits c + e then Raise InvalidOperation
      else
        let n := if 0 <=? e then c * 10 ^ e
                 else if ndigits c <? - e then 0 else round_half_up c (10 ^ (- e)) in
        if DEC_PREC <? ndigits n then Raise InvalidOperation
        else Ok (if neg then - n else n)
  | _ => Raise InvalidOperation
  end.

(** The signed value of a finite decimal scaled by [10^k], where that is an integer. *)
Definition scaled_value (k : Z) (d : decimal) : Z :=
  match d with
  | DFin neg c e => (if neg then -1 else 1) * (c * 10 ^ (e + k))
  | _ => 0
  end.

(** [a >= b]; comparing with a NaN is an invalid operation. *)
Definition dec_ge (a b : decimal) : result exn bool :=
  match a, b with
  | DNan, _ | _, DNan => Raise InvalidOperation
  | DFin _ ca ea, DFin _ cb eb =>
      let k := - Z.min ea eb in Ok (scaled_value k b <=? scaled_value k a)
  | DInf false, _ => Ok true
  | _, DInf true => Ok true
  | DInf true, _ => Ok false
  | _, DInf false => Ok false
  end.

(** ** Formatting *)

Definition zero_char : ascii := ascii_of_nat 48.
(** [n >= 0] on at least [k] digits. *)
Definition pad_left (k : nat) (s : string) : string :=
  str_repeat (k - String.length s) "0" ++s s.

(** [f"{d:.{k}f}"] *)
Definition dec_format (k : nat) (d : decimal) : string :=
  match d with
  | DFin neg c e =>
      let p := Z.of_nat k in
      let n := if - p <=? e then c * 10 ^ (e + p) else shift_half_even c (- p - e) in
      (if neg then "-" else EmptyString)
      ++s int_str (n / 10 ^ p) ++s "." ++s pad_left k (int_str (n mod 10 ^ p))
  | DInf neg => if neg then "-Infinity" else "Infinity"
  | DNan => "NaN"
  end.

Example dec_parse_examples :
  map dec_parse ["19.00"; " -1.5e3 "; "1_000"; "nan"; "-Infinity"; "."; "1e"; "abc"; ".5"; "5."]%string
  = [Some (DFin false 1900 (-2)); Some (DFin true 15 2); Some (DFin false 1000 0); Some DNan;
     Some (DInf true); None; None; None; Some (DFin false 5 (-1)); Some (DFin false 5 0)].
Proof. vm_compute. reflexivity. Qed.
Example dec_div_examples :
  (dec_div (dec_of_int 1) (dec_of_int 3), dec_div (dec_of_int 9900) (dec_of_int 10000),
   dec_div (dec_of_int 5000000) (dec_of_int 1000000))
  = (Ok (DFin false 3333333333333333333333333333 (-28)), Ok (DFin false 99 (-2)),
     Ok (DFin false 5 0)).
Proof. vm_compute. reflexivity. Qed.

(** ** Digits of integers *)

Lemma num_from_app acc a b : num_from acc (a ++s b) = num_from (num_from acc a) b.
Proof. revert acc. induction a as [|c a IH]; intros acc; [done|]. rewrite app_cons_s. apply IH. Qed.

Lemma pow10_S n : 10 ^ Z.of_nat (S n) = 10 * 10 ^ Z.of_nat n.
Proof. rewrite Nat2Z.inj_succ, Z.pow_succ_r by lia. done. Qed.

Lemma num_from_acc acc s : num_from acc s = acc * 10 ^ byte_len s + num s.
Proof.
  unfold num, byte_len. revert acc. induction s as [|c s IH]; intros acc.
  - cbn. lia.
  - cbn [num_from String.length]. rewrite IH, (IH (10 * 0 + digit_val c)), pow10_S. lia.
Qed.
Lemma num_app a b : num (a ++s b) = num a * 10 ^ byte_len b + num b.
Proof. unfold num at 1. rewrite num_from_app. apply num_from_acc. Qed.

Lemma digit_val_range c : digit_char c = true → 0 <= digit_val c < 10.
Proof.
  unfold digit_char, digit_val. rewrite andb_true_iff, !Z.leb_le. lia.
Qed.
Lemma num_range s : all_digits s = true → 0 <= num s < 10 ^ byte_len s.
Proof.
  unfold all_digits. induction s as [|c s IH]; intros H; [vm_compute; by split|].
  cbn in H. apply andb_true_iff in H as [Hc Hs]. apply digit_val_range in Hc.
  change (num (String c s)) with (num_from (digit_val c) s). rewrite num_from_acc.
  specialize (IH Hs). unfold byte_len in *. cbn [String.length]. rewrite pow10_S. nia.
Qed.

Lemma pretty_char_digit x :
  (x < 10)%N → digit_char (pretty_N_char x) = true ∧ digit_val (pretty_N_char x) = Z.of_N x.
Proof.
  intros Hx. assert (x = 0 ∨ x = 1 ∨ x = 2 ∨ x = 3 ∨ x = 4 ∨ x = 5 ∨ x = 6 ∨ x = 7 ∨ x = 8
    ∨ x = 9)%N as H by lia.
  repeat (destruct H as [->|H]; [by vm_compute|]). by subst.
Qed.

Lemma pretty_go_spec x s :
  all_digits s = true →
  num (pretty_N_go x s) = num_from (Z.of_N x) s ∧ all_digits (pretty_N_go x s) = true.
Proof.
  revert s. induction (N.lt_wf_0 x) as [x _ IH]; intros s Hs.
  destruct (decide (0 < x)%N) as [Hx|Hx].
  - rewrite pretty_N_go_step by done.
    destruct (pretty_char_digit (x mod 10)) as [Hd Hv]; [by apply N.mod_lt|].
    assert (all_digits (String (pretty_N_char (x mod 10)) s) = true) as Hs'.
    { unfold all_digits. cbn. by rewrite Hd. }
    destruct (IH (x / 10)%N (N.div_lt x 10 Hx eq_refl) _ Hs') as [Hn Ha].
    split; [|done]. rewrite Hn. cbn [num_from]. f_equal. rewrite Hv.
    rewrite (N.div_mod x 10) at 3 by done. lia.
  - assert (x = 0%N) as -> by lia. by rewrite pretty_N_go_0.
Qed.

Lemma int_str_digits n :
  0 <= n → num (int_str n) = n ∧ all_digits (int_str n) = true ∧ int_str n ≠ EmptyString.
Proof.
  intros Hn. destruct n as [|p|p]; [by vm_compute| |lia].
  change (int_str (Z.pos p)) with (pretty_N_go (N.pos p) EmptyString).
  destruct (pretty_go_spec (N.pos p) EmptyString eq_refl) as [Hv Ha].
  split_and!; [done|done|]. intros He. rewrite He in Hv. by vm_compute in Hv.
Qed.

Lemma pretty_go_length k x s :
  Z.of_N x < 10 ^ Z.of_nat k → (String.length (pretty_N_go x s) ≤ k + String.length s)%nat.
Proof.
  revert x s. induction k as [|k IH]; intros x s Hx.
  - assert (x = 0%N) as -> by (cbn in Hx; lia). rewrite pretty_N_go_0. lia.
  - destruct (decide (0 < x)%N) as [H0|H0].
    + rewrite pretty_N_go_step by done. rewrite pow10_S in Hx.
      etrans; [apply IH|cbn; lia]. rewrite N2Z.inj_div.
      apply Z.div_lt_upper_bound; lia.
    + assert (x = 0%N) as -> by lia. rewrite pretty_N_go_0. lia.
Qed.
Lemma int_str_length n k :
  0 <= n < 10 ^ Z.of_nat k → (0 < k)%nat → (String.length (int_str n) ≤ k)%nat.
Proof.
  intros Hn Hk. destruct n as [|p|p]; [by cbn; lia| |lia].
  change (int_str (Z.pos p)) with (pretty_N_go (N.pos p) EmptyString).
  etrans; [apply (pretty_go_length k); cbn; lia|]. cbn. lia.
Qed.

Lemma zeros_digits n : all_digits (str_repeat n "0") = true ∧ num (str_repeat n "0") = 0.
Proof.
  induction n as [|n [IHa IHn]]; [done|]. cbn [str_repeat]. change "0"%string with (str1 zero_char) in *.
  split; [unfold all_digits in *; by rewrite str_all_app, IHa|].
  rewrite num_app, IHn. change (num (str1 zero_char)) with 0. lia.
Qed.
Lemma pad_left_spec k n :
  0 <= n < 10 ^ Z.of_nat k →
  (0 < k)%nat →
  all_digits (pad_left k (int_str n)) = true ∧ num (pad_left k (int_str n)) = n
  ∧ byte_len (pad_left k (int_str n)) = Z.of_nat k.
Proof.
  intros Hn Hk. destruct (int_str_digits n (proj1 Hn)) as (Hv & Ha & Hne). unfold pad_left.
  set (z := (k - String.length (int_str n))%nat). destruct (zeros_digits z) as [Hza Hzn].
  split_and!.
  - unfold all_digits in *. by rewrite str_all_app, Hza, Ha.
  - rewrite num_app, Hzn, Hv. lia.
  - rewrite byte_len_app. unfold byte_len at 1. change "0"%string with (str1 zero_char).
    rewrite str_repeat_length. assert (String.length (int_str n) ≤ k)%nat; [|unfold byte_len; lia].
    by apply int_str_length.
Qed.

Lemma ndigits_fuel_spec fuel c :
  0 < c < 10 ^ (Z.of_nat fuel + 1) →
  1 <= ndigits_fuel fuel c ∧ 10 ^ (ndigits_fuel fuel c - 1) <= c < 10 ^ ndigits_fuel fuel c.
Proof.
  revert c. induction fuel as [|fuel IH]; intros c Hc; cbn [ndigits_fuel].
  - change (10 ^ (Z.of_nat 0 + 1)) with 10 in Hc. cbn. lia.
  - destruct (Z.ltb_spec c 10) as [Hlt|Hge]; [cbn; lia|].
    pose proof (Z.div_mod c 10 ltac:(lia)). pose proof (Z.mod_pos_bound c 10 ltac:(lia)).
    replace (Z.of_nat (S fuel) + 1) with (Z.succ (Z.of_nat fuel + 1)) in Hc by lia.
    rewrite Z.pow_succ_r in Hc by lia.
    destruct (IH (c / 10)) as (H1 & H2 & H3); [lia|].
    set (k := ndigits_fuel fuel (c / 10)) in *.
    replace (1 + k - 1) with (Z.succ (k - 1)) by lia.
    replace (1 + k) with (Z.succ k) by lia. rewrite !Z.pow_succ_r by lia. lia.
Qed.
Lemma ndigits_spec c : 0 < c → 1 <= ndigits c ∧ 10 ^ (ndigits c - 1) <= c < 10 ^ ndigits c.
Proof.
  intros Hc. apply ndigits_fuel_spec. split; [done|].
  pose proof (Z.log2_spec c Hc) as [_ H]. pose proof (Z.log2_nonneg c).
  rewrite Z2Nat.id by done. eapply Z.lt_le_trans; [exact H|].
  apply Z.pow_le_mono_l. lia.
Qed.
Lemma ndigits_le c k : 0 < c < 10 ^ k → ndigits c <= k.
Proof.
  intros [H0 Hk]. destruct (ndigits_spec c H0) as (H1 & H2 & _).
  assert (ndigits c - 1 < k); [|lia]. apply (Z.pow_lt_mono_r_iff 10); [lia| |lia].
  destruct (Z.lt_ge_cases k 0); [|done]. rewrite Z.pow_neg_r in Hk by done. lia.
Qed.
Lemma ndigits_ge c k : 0 <= k → 10 ^ k <= c → k < ndigits c.
Proof.
  intros Hk0 Hk. assert (0 < c) as Hc by (pose proof (Z.pow_pos_nonneg 10 k); lia).
  destruct (ndigits_spec c Hc) as (H1 & _ & H3).
  apply (Z.pow_lt_mono_r_iff 10); lia.
Qed.
Lemma ndigits_mul_pow c k : 0 < c → 0 <= k → ndigits (c * 10 ^ k) = ndigits c + k.
Proof.
  intros Hc Hk. destruct (ndigits_spec c Hc) as (H1 & H2 & H3).
  assert (0 < 10 ^ k) by (apply Z.pow_pos_nonneg; lia).
  apply Z.le_antisymm.
  - apply ndigits_le. rewrite Z.pow_add_r by lia. nia.
  - assert (ndigits c - 1 + k < ndigits (c * 10 ^ k)); [|lia].
    apply ndigits_ge; [lia|]. rewrite Z.pow_add_r by lia. nia.
Qed.

(** ** Rounding that changes nothing *)

Lemma shift_half_even_exact c k : 0 < c → 0 <= k → shift_half_even (c * 10 ^ k) k = c.
Proof.
  intros Hc Hk. unfold shift_half_even. rewrite ndigits_mul_pow by done.
  pose proof (ndigits_spec c Hc) as [? _].
  destruct (Z.ltb_spec (ndigits c + k + 1) k); [lia|].
  apply round_half_even_exact. apply Z.pow_pos_nonneg; lia.
Qed.

(** Within the precision nothing is rounded; beyond it, zeros at the end are
    dropped without loss. *)
Lemma dec_fix_exact neg c e j :
  0 < c → 0 <= j → -1000 <= e → e + j <= 1000 → ndigits c <= DEC_PREC →
  ∃ c' e', dec_fix neg (c * 10 ^ j) e = Ok (DFin neg c' e')
    ∧ 0 < c' ∧ e <= e' <= e + j ∧ c' * 10 ^ (e' - e) = c * 10 ^ j.
Proof.
  intros Hc Hj He Hej Hn. unfold dec_fix. assert (0 < 10 ^ j) by (apply Z.pow_pos_nonneg; lia).
  destruct (Z.eqb_spec (c * 10 ^ j) 0) as [|_]; [nia|].
  rewrite ndigits_mul_pow by done. pose proof (ndigits_spec c Hc) as [Hn1 _].
  unfold DEC_EMAX, DEC_PREC, DEC_ETINY in *. cbn [Z.sub].
  destruct (Z.ltb_spec (999999 - 28 + 1) (ndigits c + j + e - 28)); [lia|].
  rewrite Z.max_l by (unfold DEC_PREC; lia).
  destruct (Z.ltb_spec e (ndigits c + j + e - 28)) as [Hlt|Hge].
  - set (k := ndigits c + j + e - 28 - e). assert (0 <= k <= j) as Hk by lia.
    assert (0 < c * 10 ^ (j - k)) as Hpos
      by (pose proof (Z.pow_pos_nonneg 10 (j - k)); nia).
    assert (shift_half_even (c * 10 ^ j) k = c * 10 ^ (j - k)) as ->.
    { rewrite <- (shift_half_even_exact (c * 10 ^ (j - k)) k) by lia. f_equal.
      rewrite <- Z.mul_assoc, <- Z.pow_add_r by lia. do 2 f_equal. lia. }
    rewrite ndigits_mul_pow by lia. destruct (Z.ltb_spec 28 (ndigits c + (j - k))); [lia|].
    eexists _, _. split; [reflexivity|]. split_and!; [done|lia|lia|].
    replace (ndigits c + j + e - 28 - e) with k by done.
    rewrite <- Z.mul_assoc, <- Z.pow_add_r by lia. do 2 f_equal. lia.
  - eexists _, _. split; [reflexivity|]. split_and!; [nia|lia|lia|].
    rewrite Z.sub_diag. lia.
Qed.

Lemma dec_quantize_int_exact neg c e n :
  0 < c → 0 < n < 10 ^ DEC_PREC →
  (if 0 <=? e then n = c * 10 ^ e else n * 10 ^ (- e) = c) →
  dec_quantize_int (DFin neg c e) = Ok (if neg then - n else n).
Proof.
  intros Hc Hn He. cbn [dec_quantize_int]. destruct (Z.eqb_spec c 0) as [|_]; [lia|].
  pose proof (ndigits_le n _ Hn) as Hd.
  destruct (Z.leb_spec 0 e) as [H0|H0].
  - subst n. rewrite ndigits_mul_pow in Hd by lia.
    destruct (Z.ltb_spec DEC_PREC (ndigits c + e)); [lia|].
    rewrite ndigits_mul_pow by lia. destruct (Z.ltb_spec DEC_PREC (ndigits c + e)); [lia|done].
  - subst c. rewrite ndigits_mul_pow by lia.
    destruct (Z.ltb_spec DEC_PREC (ndigits n + - e + e)); [lia|].
    pose proof (ndigits_spec n (proj1 Hn)) as [? _].
    destruct (Z.ltb_spec (ndigits n + - e) (- e)); [lia|].
    rewrite round_half_up_exact by (apply Z.pow_pos_nonneg; lia).
    destruct (Z.ltb_spec DEC_PREC (ndigits n)); [lia|done].
Qed.

(** ** Exact division by a power of ten *)

Lemma strip_zeros_spec fuel c e ideal c' e' :
  e <= ideal → strip_zeros fuel c e ideal = (c', e') →
  e <= e' <= ideal ∧ c = c' * 10 ^ (e' - e)
  ∧ (e' = ideal ∨ c' mod 10 ≠ 0 ∨ e' = e + Z.of_nat fuel).
Proof.
  revert c e. induction fuel as [|fuel IH]; intros c e He; cbn [strip_zeros].
  - intros [= <- <-]. rewrite Z.sub_diag. split_and!; [lia|lia|lia|]. right. right. lia.
  - destruct (Z.ltb_spec e ideal) as [Hlt|Hge]; cbn [andb].
    + destruct (Z.eqb_spec (c mod 10) 0) as [H0|H0].
      * intros H. apply IH in H as (Hr & Hc & Hend); [|lia]. split; [lia|].
        pose proof (Z.div_mod c 10 ltac:(lia)). rewrite H0, Hc in H.
        split; [|destruct Hend as [?|[?|?]]; [by left|by right; left|right; right; lia]].
        rewrite H. replace (e' - e) with (Z.succ (e' - (e + 1))) by lia.
        rewrite Z.pow_succ_r by lia. lia.
      * intros [= <- <-]. rewrite Z.sub_diag. split_and!; [lia|lia|lia|]. by right; left.
    + intros [= <- <-]. rewrite Z.sub_diag. split_and!; [lia|lia|lia|]. left. lia.
Qed.

Lemma dec_div_pow10 m k :
  0 < Z.abs m < 10 ^ DEC_PREC → 0 <= k <= 28 →
  ∃ c e, dec_div (dec_of_int m) (dec_of_int (10 ^ k)) = Ok (DFin (m <? 0) c e)
    ∧ - k <= e <= 0 ∧ 0 < c ∧ c * 10 ^ (e + k) = Z.abs m.
Proof.
  intros Hm Hk. assert (0 < 10 ^ k) as Hp by (apply Z.pow_pos_nonneg; lia).
  unfold dec_div, dec_of_int. rewrite (Z.abs_eq (10 ^ k)) by lia.
  destruct (Z.eqb_spec (10 ^ k) 0) as [|_]; [lia|].
  destruct (Z.eqb_spec (Z.abs m) 0) as [|_]; [lia|].
  assert ((10 ^ k <? 0) = false) as -> by (apply Z.ltb_ge; lia). rewrite xorb_false_r.
  assert (ndigits (10 ^ k) = k + 1) as ->
    by (rewrite <- (Z.mul_1_l (10 ^ k)), ndigits_mul_pow by lia; change (ndigits 1) with 1; lia).
  pose proof (ndigits_le _ _ Hm) as Hd. pose proof (ndigits_spec _ (proj1 Hm)) as [Hd1 _].
  set (s := k + 1 - ndigits (Z.abs m) + DEC_PREC + 1). assert (k + 2 <= s <= 58) as Hs
    by (unfold s, DEC_PREC in *; lia).
  assert ((0 <=? s) = true) as -> by (apply Z.leb_le; lia).
  assert (Z.abs m * 10 ^ s = Z.abs m * 10 ^ (s - k) * 10 ^ k) as Hnum
    by (rewrite <- Z.mul_assoc, <- Z.pow_add_r by lia; do 2 f_equal; lia).
  rewrite Hnum, Z.div_mul, Z_mod_mult by lia. cbn [Z.eqb].
  destruct (strip_zeros _ _ _ _) as [c e] eqn:Hst. apply strip_zeros_spec in Hst; [|lia].
  destruct Hst as (He & Hc & Hend). rewrite Z.sub_diag in *.
  assert (e <= 0 ∧ - k <= e) as [He0 Hek].
  { split; [lia|]. destruct (Z.le_gt_cases (- k) e) as [|Hlt]; [done|]. exfalso.
    destruct Hend as [?|[Hmod|?]]; [lia| |lia]. apply Hmod.
    replace (s - k) with ((e - (0 - s)) + Z.succ (- k - e - 1)) in Hc by lia.
    rewrite Z.pow_add_r, Z.pow_succ_r in Hc by lia.
    set (t := 10 ^ (- k - e - 1)) in *. set (u := 10 ^ (e - (0 - s))) in *.
    assert (0 < u) by (apply Z.pow_pos_nonneg; lia).
    assert (c = Z.abs m * t * 10) as -> by nia. apply Z_mod_mult. }
  assert (c * 10 ^ (e + k) = Z.abs m) as Hval.
  { assert (c * 10 ^ (e + k) * 10 ^ (s - k) = Z.abs m * 10 ^ (s - k)) as Heq.
    { rewrite Hc, <- Z.mul_assoc, <- Z.pow_add_r by lia. do 2 f_equal. lia. }
    assert (0 < 10 ^ (s - k)) by (apply Z.pow_pos_nonneg; lia). nia. }
  assert (0 < c) as Hcpos.
  { assert (0 < 10 ^ (e + k)) by (apply Z.pow_pos_nonneg; lia). nia. }
  exists c, e. split; [|by split_and!].
  unfold dec_fix. destruct (Z.eqb_spec c 0) as [|_]; [lia|].
  assert (ndigits c <= 28) as Hnc.
  { apply ndigits_le. split; [done|]. eapply Z.le_lt_trans; [|apply Hm].
    assert (0 < 10 ^ (e + k)) by (apply Z.pow_pos_nonneg; lia). nia. }
  pose proof (ndigits_spec c Hcpos) as [? _]. unfold DEC_EMAX, DEC_PREC, DEC_ETINY.
  destruct (Z.ltb_spec (999999 - 28 + 1) (ndigits c + e - 28)); [lia|].
  rewrite Z.max_l by (unfold DEC_PREC; lia).
  destruct (Z.ltb_spec e (ndigits c + e - 28)); [lia|done].
Qed.

(** ** Parsing plain decimal numbers *)

Lemma str_remove_none a s : str_all (λ c, negb (Ascii.eqb c a)) s = true → str_remove a s = s.
Proof.
  induction s as [|c s IH]; cbn; [done|]. intros [Hc Hs]%andb_true_iff.
  apply negb_true_iff in Hc. by rewrite Hc, IH.
Qed.
(** Digits and a point, perhaps with a minus in front. *)
Definition plain_char (c : ascii) : bool := digit_char c || Ascii.eqb c dot.
Definition sign_str (neg : bool) : string := if neg then str1 minus else EmptyString.

Lemma plain_facts s :
  str_all plain_char s = true →
  str_strip s = s ∧ str_remove underscore s = s ∧ str_lower s = s ∧ has_char "e" s = false.
Proof.
  intros H. unfold str_strip, str_lower, has_char, str_any. split_and!.
  - rewrite lstrip_by_none; [apply rstrip_by_none|];
      (eapply str_all_impl; [|exact H]); intros c; all_ascii c.
  - apply str_remove_none. eapply str_all_impl; [|exact H]. intros c; all_ascii c.
  - apply str_map_id. eapply str_all_impl; [|exact H]. intros c; all_ascii c.
  - apply negb_false_iff. eapply str_all_impl; [|exact H]. intros c; all_ascii c.
Qed.

Lemma signed_facts neg s :
  str_all plain_char s = true → s ≠ EmptyString →
  str_strip (sign_str neg ++s s) = sign_str neg ++s s
  ∧ str_remove underscore (sign_str neg ++s s) = sign_str neg ++s s
  ∧ take_sign (sign_str neg ++s s) = (neg, s).
Proof.
  intros Hs Hne. destruct (plain_facts s Hs) as (H1 & H2 & _). destruct neg; cbn [sign_str].
  - unfold str1. rewrite app_cons_s, app_empty_l. split_and!.
    + unfold str_strip in *. cbn [lstrip_by].
      change (space_char minus) with false. cbn iota.
      assert (lstrip_by space_char s = s) as Hl.
      { apply lstrip_by_none. eapply str_all_impl; [|exact Hs]. intros c; all_ascii c. }
      rewrite Hl in H1. rewrite rstrip_by_cons; by rewrite H1.
    + cbn. by rewrite H2.
    + done.
  - rewrite app_empty_l. split_and!; [done|done|].
    destruct s as [|c s]; [done|]. cbn in Hs. apply andb_true_iff in Hs as [Hc _].
    unfold take_sign. by revert Hc; all_ascii c.
Qed.

Lemma digits_plain s : all_digits s = true → str_all plain_char s = true.
Proof. apply str_all_impl. intros c Hc. unfold plain_char. by rewrite Hc. Qed.
Lemma digits_no_dot s : all_digits s = true → has_char dot s = false.
Proof.
  intros H. unfold has_char, str_any. apply negb_false_iff. eapply str_all_impl; [|exact H].
  intros c; all_ascii c.
Qed.

Lemma not_special s :
  str_all plain_char s = true → s ≠ EmptyString →
  existsb (String.eqb s) ["inf"; "infinity"]%string = false
  ∧ starts_with "nan" s = false ∧ starts_with "snan" s = false.
Proof.
  destruct s as [|c s]; [done|]. cbn [str_all]. intros [Hc _]%andb_true_iff _.
  assert (Ascii.eqb c "i" = false ∧ Ascii.eqb "n" c = false ∧ Ascii.eqb "s" c = false)
    as (Hi & Hn & Hs) by (revert Hc; all_ascii c).
  split_and!.
  - cbn. by rewrite Hi.
  - cbn [starts_with]. by rewrite Hn.
  - cbn [starts_with]. by rewrite Hs.
Qed.

(** [int] or [int.frac], with a sign in front. *)
Lemma dec_parse_plain neg int frac has_frac :
  all_digits int = true → all_digits frac = true → int ≠ EmptyString →
  (has_frac = false → frac = EmptyString) → byte_len int + byte_len frac <= 1000 →
  dec_parse (sign_str neg ++s (int ++s (if has_frac : bool then String dot frac else EmptyString)))
  = Some (DFin neg (num (int ++s frac)) (- byte_len frac)).
Proof.
  intros Hint Hfrac Hne Hno Hlen.
  set (body := int ++s (if has_frac : bool then String dot frac else EmptyString)).
  assert (str_all plain_char body = true) as Hplain.
  { unfold body. rewrite str_all_app, digits_plain by done. cbn [andb].
    destruct has_frac; [|done]. cbn. by apply digits_plain. }
  assert (body ≠ EmptyString) as Hbody by (unfold body; by destruct int).
  destruct (signed_facts neg body Hplain Hbody) as (H1 & H2 & H3).
  destruct (plain_facts body Hplain) as (_ & _ & Hlow & He).
  destruct (not_special body Hplain Hbody) as (Hs1 & Hs2 & Hs3).
  unfold dec_parse. rewrite H1, H2, H3, Hlow, Hs1, Hs2, Hs3. cbn [andb orb].
  unfold parse_number. rewrite Hlow, (str_partition_none _ _ He).
  assert (str_partition dot body = (int, has_frac, frac)) as Hp.
  { unfold body. destruct has_frac.
    - apply str_partition_first. by apply digits_no_dot.
    - rewrite app_empty_r, (Hno eq_refl). apply str_partition_none. by apply digits_no_dot. }
  rewrite Hp. cbn [mbind option_bind]. rewrite Hint, Hfrac.
  assert (str_truthy (int ++s frac) = true) as -> by (by destruct int).
  cbn [andb]. set (c := num (int ++s frac)).
  assert (0 <= c < 10 ^ byte_len (int ++s frac)) as Hc.
  { apply num_range. unfold all_digits in *. by rewrite str_all_app, Hint, Hfrac. }
  rewrite byte_len_app in Hc. pose proof (byte_len_nonneg int). pose proof (byte_len_nonneg frac).
  destruct (Z.eqb_spec c 0) as [|Hc0]; [done|]. cbn [negb andb].
  assert (1 <= ndigits c <= 1000) as Hd.
  { split; [by apply ndigits_spec; lia|]. etrans; [apply ndigits_le|exact Hlen]. lia. }
  unfold DEC_MAX_EMAX. destruct (Z.ltb_spec 999999999999999999
    (Z.abs (0 - byte_len frac + ndigits c - 1))); [lia|done].
Qed.
