(* ===== verification/PyTime.v ===== *)
(** * Date and time *)
(** An aware UTC [datetime] is the number of microseconds since the Unix epoch;
    [isoformat] prints it the way Python does, through the proleptic Gregorian
    calendar. *)
From S2P Require Export PyDecimal.
From Stdlib Require Import Ascii.
From stdpp Require Import options.
Local Open Scope Z_scope.

Definition SECOND : Z := 1000000.
Definition DAY : Z := 86400 * SECOND.
(** [timedelta(minutes=n)], [timedelta(days=n)] *)
Definition minutes (n : Z) : Z := n * 60 * SECOND.
Definition days (n : Z) : Z := n * DAY.

(** Year, month and day of a day counted from 1970-01-01; years start in March
    while counting, so that a leap day ends one. *)
Definition civil_of_day (day : Z) : Z * Z * Z :=
  let z := day + 719468 in
  let era := z / 146097 in
  let doe := z mod 146097 in
  let yoe := (doe - doe / 1460 + doe / 36524 - doe / 146096) / 365 in
  let doy := doe - (365 * yoe + yoe / 4 - yoe / 100) in
  let mp := (5 * doy + 2) / 153 in
  let d := doy - (153 * mp + 2) / 5 + 1 in
  let m := if mp <? 10 then mp + 3 else mp - 9 in
  let y := yoe + era * 400 + (if m <=? 2 then 1 else 0) in
  (y, m, d).

(** [f"{n:0{k}d}"] *)
Definition fixed (k : nat) (n : Z) : string := pad_left k (int_str n).

Definition isoformat (t : Z) : string :=
  let '(y, m, d) := civil_of_day (t / DAY) in
  let us := t mod DAY in
  let s := us / SECOND in
  let frac := us mod SECOND in
  fixed 4 y ++s "-" ++s fixed 2 m ++s "-" ++s fixed 2 d ++s "T"
  ++s fixed 2 (s / 3600) ++s ":" ++s fixed 2 (s / 60 mod 60) ++s ":" ++s fixed 2 (s mod 60)
  ++s (if frac =? 0 then EmptyString else "." ++s fixed 6 frac) ++s "+00:00".

Example isoformat_examples :
  map isoformat [0; 951782400000000; 1767225599999999]
  = ["1970-01-01T00:00:00+00:00"; "2000-02-29T00:00:00+00:00";
     "2025-12-31T23:59:59.999999+00:00"]%string.
Proof. vm_compute. reflexivity. Qed.
