(* ===== verification/PyTimeFacts.v ===== *)
(** * Dates as text *)
(** [isoformat] read back and compared: the calendar counts days in order, the text of a
    later time is a later text, and reading the text gives the time. *)
From S2P Require Export PyTime.
From Stdlib Require Import Ascii.
From stdpp Require Import options.
Local Open Scope Z_scope.

(** ** Comparing part by part *)

Definition lexc (c c' : comparison) : comparison := match c with Eq => c' | _ => c end.
Infix "&>" := lexc (at level 55, right associativity) : gw_scope.

(** The times Python has, of the years 1 to 9999. *)
Definition datetime_ok (t : Z) : Prop := -62135596800 * SECOND <= t < 253402300800 * SECOND.
Global Instance datetime_ok_dec t : Decision (datetime_ok t).
Proof. unfold datetime_ok. apply _. Defined.

Lemma compare_div_mod k a b : 0 < k → (a ?= b) = (a / k ?= b / k) &> (a mod k ?= b mod k).
Proof.
  intros Hk. pose proof (Z.div_mod a k ltac:(lia)) as Ha. pose proof (Z.div_mod b k ltac:(lia)) as Hb.
  pose proof (Z.mod_pos_bound a k Hk). pose proof (Z.mod_pos_bound b k Hk).
  destruct (Z.compare_spec (a / k) (b / k)) as [Hq|Hq|Hq]; cbn.
  - rewrite Hq in Ha. destruct (Z.compare_spec (a mod k) (b mod k));
      [apply Z.compare_eq_iff|apply Z.compare_lt_iff|apply Z.compare_gt_iff]; lia.
  - apply Z.compare_lt_iff. nia.
  - apply Z.compare_gt_iff. nia.
Qed.

(** ** The calendar *)

(** The day of a date; the inverse of [civil_of_day]. *)
Definition day_of_civil (y m d : Z) : Z :=
  let y := if m <=? 2 then y - 1 else y in
  let mp := if m <=? 2 then m + 9 else m - 3 in
  let yoe := y mod 400 in
  y / 400 * 146097 + (yoe * 365 + yoe / 4 - yoe / 100 + ((153 * mp + 2) / 5 + d - 1)) - 719468.

(** The year of a day of the era, and the day of that year. *)
Definition year_of_era (doe : Z) : Z := (doe - doe / 1460 + doe / 36524 - doe / 146096) / 365.
Definition first_of_year (yoe : Z) : Z := 365 * yoe + yoe / 4 - yoe / 100.

(** [f] holds of [n] consecutive numbers. *)
Fixpoint all_from (n : nat) (from : Z) (f : Z → bool) : bool :=
  match n with O => true | S n' => f from && all_from n' (from + 1) f end.
Lemma all_from_spec n from f :
  all_from n from f = true → ∀ x, from <= x < from + Z.of_nat n → f x = true.
Proof.
  revert from. induction n as [|n IH]; intros from; cbn [all_from]; [lia|].
  intros [Hf H]%andb_true_iff x Hx. destruct (decide (x = from)) as [->|]; [done|].
  apply (IH (from + 1)); [done|lia].
Qed.

(** Later days are of later years. *)
Lemma next_day_year a : 0 <= a < 146096 → year_of_era a <= year_of_era (a + 1).
Proof.
  intros Ha. unfold year_of_era. apply Z.div_le_mono; [lia|].
  assert ((a + 1) / 1460 <= a / 1460 + 1) by (Z.to_euclidean_division_equations; lia).
  assert (a / 36524 <= (a + 1) / 36524) by (apply Z.div_le_mono; lia).
  destruct (decide (a = 146095)) as [->|]; [by vm_compute|].
  rewrite (Z.div_small a 146096), (Z.div_small (a + 1) 146096) by lia. lia.
Qed.
Lemma era_years_ordered a b : 0 <= a → a <= b → b < 146097 → year_of_era a <= year_of_era b.
Proof.
  intros Ha Hab. revert b Hab. apply (Zlt_lower_bound_ind (λ b, b < 146097 → _ <= year_of_era b) a).
  intros x IH Hx Hlt. destruct (decide (x = a)) as [->|]; [lia|].
  specialize (IH (x - 1) ltac:(lia) ltac:(lia)).
  pose proof (next_day_year (x - 1) ltac:(lia)) as H. replace (x - 1 + 1) with x in H by lia. lia.
Qed.

(** The first and the last day of every year of an era, and how long it is. *)
Definition year_ok (y : Z) : bool :=
  (year_of_era (first_of_year y) =? y) && (year_of_era (first_of_year (y + 1) - 1) =? y)
  && (first_of_year (y + 1) - first_of_year y <=? 366).
Lemma era_years : all_from 400 0 year_ok = true.
Proof. vm_compute. reflexivity. Qed.
Lemma year_bounds y :
  0 <= y <= 399 →
  year_of_era (first_of_year y) = y ∧ year_of_era (first_of_year (y + 1) - 1) = y
  ∧ first_of_year (y + 1) - first_of_year y <= 366.
Proof.
  intros H. pose proof (all_from_spec _ _ _ era_years y ltac:(lia)) as Hok. unfold year_ok in Hok.
  rewrite !andb_true_iff, !Z.eqb_eq, Z.leb_le in Hok. tauto.
Qed.

(** A day of an era is of the year that began last before it. *)
Lemma era_day doe :
  0 <= doe < 146097 →
  0 <= year_of_era doe <= 399 ∧ 0 <= doe - first_of_year (year_of_era doe) <= 365.
Proof.
  intros H. remember (year_of_era doe) as y eqn:Ey.
  assert (0 <= y <= 399) as Hy.
  { pose proof (era_years_ordered 0 doe ltac:(lia) ltac:(lia) ltac:(lia)).
    pose proof (era_years_ordered doe 146096 ltac:(lia) ltac:(lia) ltac:(lia)) as Hend.
    change (year_of_era 0) with 0 in *. change (year_of_era 146096) with 399 in Hend. lia. }
  split; [exact Hy|]. destruct (year_bounds y Hy) as (_ & _ & Hlen).
  assert (first_of_year y <= doe) as Hle.
  { destruct (decide (y = 0)) as [Hy0|]; [rewrite Hy0; change (first_of_year 0) with 0; lia|].
    destruct (decide (first_of_year y <= doe)) as [|Hlt]; [done|exfalso].
    destruct (year_bounds (y - 1) ltac:(lia)) as (_ & Hlast & _). replace (y - 1 + 1) with y in Hlast by lia.
    pose proof (era_years_ordered doe (first_of_year y - 1) ltac:(lia) ltac:(lia)) as Hm.
    assert (first_of_year y - 1 < 146097).
    { unfold first_of_year. Z.to_euclidean_division_equations. lia. }
    specialize (Hm ltac:(done)). lia. }
  destruct (decide (y = 399)) as [Hy9|]; [rewrite Hy9; change (first_of_year 399) with 145731; rewrite Hy9 in Hle; change (first_of_year 399) with 145731 in Hle; lia|].
  assert (doe < first_of_year (y + 1)); [|lia].
  destruct (decide (doe < first_of_year (y + 1))) as [|Hge]; [done|exfalso].
  destruct (year_bounds (y + 1) ltac:(lia)) as (Hfirst & _ & _).
  pose proof (era_years_ordered (first_of_year (y + 1)) doe) as Hm.
  assert (0 <= first_of_year (y + 1)).
  { unfold first_of_year. Z.to_euclidean_division_equations. lia. }
  specialize (Hm ltac:(done) ltac:(lia) ltac:(lia)). lia.
Qed.

(** Months counted from March have 30 or 31 days but the last. *)
Definition month_ok (doy : Z) : bool :=
  let mp := (5 * doy + 2) / 153 in
  let d := doy - (153 * mp + 2) / 5 + 1 in
  (0 <=? mp) && (mp <=? 11) && (1 <=? d) && (d <=? 31).
Lemma month_days : all_from 366 0 month_ok = true.
Proof. vm_compute. reflexivity. Qed.
Lemma month_bounds doy :
  0 <= doy <= 365 →
  0 <= (5 * doy + 2) / 153 <= 11 ∧ 1 <= doy - (153 * ((5 * doy + 2) / 153) + 2) / 5 + 1 <= 31.
Proof.
  intros H. pose proof (all_from_spec _ _ _ month_days doy ltac:(lia)) as Hok. unfold month_ok in Hok.
  rewrite !andb_true_iff, !Z.leb_le in Hok. tauto.
Qed.

(** A date in years that start in March: era and year, month from March, day. *)
Lemma civil_parts day :
  ∃ doe, doe = (day + 719468) mod 146097 ∧ 0 <= doe < 146097
    ∧ ∃ y mp d, y = year_of_era doe + (day + 719468) / 146097 * 400
        ∧ mp = (5 * (doe - first_of_year (year_of_era doe)) + 2) / 153 ∧ 0 <= mp <= 11
        ∧ d = doe - first_of_year (year_of_era doe) - (153 * mp + 2) / 5 + 1 ∧ 1 <= d <= 31
        ∧ civil_of_day day = (if mp <? 10 then (y, mp + 3, d) else (y + 1, mp - 9, d)).
Proof.
  pose proof (Z.mod_pos_bound (day + 719468) 146097 ltac:(lia)) as Hr.
  eexists. split; [done|]. split; [exact Hr|]. set (doe := _ mod 146097) in *.
  destruct (era_day doe Hr) as [_ Hdoy].
  set (doy := doe - first_of_year (year_of_era doe)) in *.
  destruct (month_bounds doy Hdoy) as [Hmp Hd].
  eexists _, _, _. split; [done|]. split; [done|]. split; [exact Hmp|]. split; [done|]. split; [exact Hd|].
  unfold civil_of_day. fold doe. change (doe - (365 * ((doe - doe / 1460 + doe / 36524 - doe / 146096) / 365)
    + (doe - doe / 1460 + doe / 36524 - doe / 146096) / 365 / 4
    - (doe - doe / 1460 + doe / 36524 - doe / 146096) / 365 / 100)) with doy.
  fold (year_of_era doe). clearbody doy. set (mp := (5 * doy + 2) / 153) in *. clearbody mp.
  destruct (Z.ltb_spec mp 10).
  - rewrite (proj2 (Z.leb_gt (mp + 3) 2)) by lia. by rewrite Z.add_0_r.
  - by rewrite (proj2 (Z.leb_le (mp - 9) 2)) by lia.
Qed.

Lemma day_of_civil_of_day day : let '(y, m, d) := civil_of_day day in day_of_civil y m d = day.
Proof.
  destruct (civil_parts day) as (doe & Hdoe & Hr & y & mp & d & Hy & _ & Hmp & Hd & _ & ->).
  destruct (era_day doe Hr) as [Hyoe _].
  assert (y / 400 * 146097 + (y mod 400 * 365 + y mod 400 / 4 - y mod 400 / 100
    + ((153 * mp + 2) / 5 + d - 1)) - 719468 = day) as H.
  { rewrite Hy, Z.div_add, Z.mod_add, Z.div_small, Z.mod_small by lia.
    pose proof (Z.div_mod (day + 719468) 146097 ltac:(lia)). unfold first_of_year in Hd. lia. }
  unfold day_of_civil. destruct (Z.ltb_spec mp 10).
  - rewrite (proj2 (Z.leb_gt (mp + 3) 2)) by lia. by replace (mp + 3 - 3) with mp by lia.
  - rewrite (proj2 (Z.leb_le (mp - 9) 2)) by lia.
    replace (y + 1 - 1) with y by lia. by replace (mp - 9 + 9) with mp by lia.
Qed.

Lemma lexc_lt a b c : (a ?= b) &> c = Lt ↔ a < b ∨ (a = b ∧ c = Lt).
Proof. destruct (Z.compare_spec a b); cbn; intuition (lia || congruence). Qed.

(** Comparing is antisymmetric, so that an earlier one is enough to look at. *)
Definition civil_compare (a b : Z) : comparison :=
  let '(y, m, d) := civil_of_day a in let '(y', m', d') := civil_of_day b in
  (y ?= y') &> (m ?= m') &> (d ?= d').
Lemma civil_compare_antisym a b : civil_compare b a = CompOpp (civil_compare a b).
Proof.
  unfold civil_compare. destruct (civil_of_day a) as [[y m] d], (civil_of_day b) as [[y' m'] d'].
  rewrite (Z.compare_antisym y y'), (Z.compare_antisym m m'), (Z.compare_antisym d d').
  by destruct (y ?= y'), (m ?= m'), (d ?= d').
Qed.

(** A later day is a later date. *)
Lemma civil_ordered a b : a < b → civil_compare a b = Lt.
Proof.
  intros Hab. unfold civil_compare.
  destruct (civil_parts a) as (doe & Hdoe & Hr & y & mp & d & Hy & Hmp & Hm & Hd & Hd' & ->).
  destruct (civil_parts b) as (doe2 & Hdoe2 & Hr2 & y2 & mp2 & d2 & Hy2 & Hmp2 & Hm2 & Hd2 & Hd2' & ->).
  destruct (era_day doe Hr) as [Hyoe _], (era_day doe2 Hr2) as [Hyoe2 _].
  assert (y < y2 ∨ y = y2 ∧ (mp < mp2 ∨ mp = mp2 ∧ d < d2)) as Hlex.
  { pose proof (Z.div_mod (a + 719468) 146097 ltac:(lia)) as Ha.
    pose proof (Z.div_mod (b + 719468) 146097 ltac:(lia)) as Hb.
    rewrite <- Hdoe in Ha. rewrite <- Hdoe2 in Hb.
    set (era := (a + 719468) / 146097) in *. set (era2 := (b + 719468) / 146097) in *.
    assert (era < era2 ∨ era = era2 ∧ doe < doe2) as [He|[He Hlt]] by lia; [lia|].
    pose proof (era_years_ordered doe doe2 ltac:(lia) ltac:(lia) ltac:(lia)) as Hle.
    destruct (decide (year_of_era doe < year_of_era doe2)); [lia|].
    assert (year_of_era doe = year_of_era doe2) as Hsame by lia. rewrite Hsame in *.
    right. split; [lia|].
    assert (mp <= mp2) by (rewrite Hmp, Hmp2; apply Z.div_le_mono; lia).
    destruct (decide (mp = mp2)) as [Heq|]; [|lia]. right. split; [done|]. rewrite Heq in Hd. lia. }
  clear -Hlex Hm Hm2.
  destruct (Z.ltb_spec mp 10), (Z.ltb_spec mp2 10); rewrite !lexc_lt, Z.compare_lt_iff; lia.
Qed.
Lemma compare_civil a b : (a ?= b) = civil_compare a b.
Proof.
  destruct (Z.compare_spec a b) as [->|H|H].
  - unfold civil_compare. destruct (civil_of_day b) as [[y m] d]. by rewrite !Z.compare_refl.
  - by rewrite civil_ordered.
  - by rewrite civil_compare_antisym, civil_ordered.
Qed.

Lemma civil_years a b : a <= b → (civil_of_day a).1.1 <= (civil_of_day b).1.1.
Proof.
  intros Hab. destruct (decide (a = b)) as [->|]; [lia|].
  pose proof (civil_ordered a b ltac:(lia)) as H. unfold civil_compare in H.
  destruct (civil_of_day a) as [[y m] d], (civil_of_day b) as [[y' m'] d']. apply lexc_lt in H. cbn. lia.
Qed.

(** ** The text *)

Lemma ascii_compare_spec c c' : Ascii.compare c c' = (ascii_code c ?= ascii_code c').
Proof.
  unfold Ascii.compare, ascii_code, nat_of_ascii. rewrite <- N2Z.inj_compare.
  f_equal; by rewrite N_nat_Z || idtac.
Qed.

Lemma compare_app a a' b b' :
  String.length a = String.length a' →
  String.compare (a ++s b) (a' ++s b') = String.compare a a' &> String.compare b b'.
Proof.
  revert a'. induction a as [|c a IH]; intros [|c' a']; try done.
  intros [= Hl]. rewrite !app_cons_s. cbn [String.compare]. destruct (Ascii.compare c c'); [by apply IH|done..].
Qed.
Lemma compare_same a : String.compare a a = Eq.
Proof. induction a as [|c a IH]; [done|]. cbn. by rewrite ascii_compare_spec, Z.compare_refl. Qed.

(** Digits of one length compare as the numbers they are. *)
Lemma compare_digits a b :
  all_digits a = true → all_digits b = true → String.length a = String.length b →
  String.compare a b = (num a ?= num b).
Proof.
  revert b. induction a as [|c a IH]; intros [|c' b]; try done. unfold all_digits in *. cbn [str_all].
  intros [Hc Ha]%andb_true_iff [Hc' Hb]%andb_true_iff [= Hl]. cbn [String.compare].
  rewrite ascii_compare_spec, (IH b Ha Hb Hl).
  change (String c a) with (str1 c ++s a). change (String c' b) with (str1 c' ++s b). rewrite !num_app.
  assert (byte_len a = byte_len b) as -> by (unfold byte_len; lia).
  pose proof (num_range a Ha) as Hra. pose proof (num_range b Hb) as Hrb.
  assert (byte_len a = byte_len b) as Hlen by (unfold byte_len; lia). rewrite Hlen in Hra.
  change (num (str1 c)) with (digit_val c). change (num (str1 c')) with (digit_val c').
  unfold digit_val. destruct (Z.compare_spec (ascii_code c) (ascii_code c')) as [->|Hlt|Hgt].
  - by rewrite Z.add_compare_mono_l.
  - symmetry. apply Z.compare_lt_iff. nia.
  - symmetry. apply Z.compare_gt_iff. nia.
Qed.

Lemma fixed_spec k n :
  0 <= n < 10 ^ Z.of_nat k → (0 < k)%nat →
  all_digits (fixed k n) = true ∧ num (fixed k n) = n ∧ String.length (fixed k n) = k.
Proof.
  intros Hn Hk. destruct (pad_left_spec k n Hn Hk) as (Ha & Hv & Hl).
  split_and!; [done|done|]. unfold byte_len in Hl. unfold fixed. lia.
Qed.
Lemma compare_fixed k n n' a a' :
  0 <= n < 10 ^ Z.of_nat k → 0 <= n' < 10 ^ Z.of_nat k → (0 < k)%nat →
  String.compare (fixed k n ++s a) (fixed k n' ++s a') = (n ?= n') &> String.compare a a'.
Proof.
  intros Hn Hn' Hk. destruct (fixed_spec k n Hn Hk) as (Ha & Hv & Hl).
  destruct (fixed_spec k n' Hn' Hk) as (Ha' & Hv' & Hl').
  by rewrite compare_app, compare_digits, Hv, Hv' by congruence.
Qed.
Lemma compare_prefix p a a' : String.compare (p ++s a) (p ++s a') = String.compare a a'.
Proof. by rewrite compare_app, compare_same. Qed.

(** The parts of a text of [isoformat], and their bounds. *)
Record iso_parts (t y m d h mi s us : Z) : Prop := mkIso {
  iso_civil : civil_of_day (t / DAY) = (y, m, d);
  iso_year : 1 <= y <= 9999;
  iso_month : 1 <= m <= 12;
  iso_day : 1 <= d <= 31;
  iso_hour : h = t mod DAY / SECOND / 3600 ∧ 0 <= h < 24;
  iso_minute : mi = t mod DAY / SECOND / 60 mod 60 ∧ 0 <= mi < 60;
  iso_second : s = t mod DAY / SECOND mod 60 ∧ 0 <= s < 60;
  iso_micros : us = t mod DAY mod SECOND ∧ 0 <= us < SECOND
}.
Definition iso_fraction (us : Z) : string :=
  (if us =? 0 then EmptyString else "." ++s fixed 6 us) ++s "+00:00".
Definition iso_text (y m d h mi s us : Z) : string :=
  fixed 4 y ++s "-" ++s fixed 2 m ++s "-" ++s fixed 2 d ++s "T"
  ++s fixed 2 h ++s ":" ++s fixed 2 mi ++s ":" ++s fixed 2 s ++s iso_fraction us.

Lemma year_in_range t y m d : datetime_ok t → civil_of_day (t / DAY) = (y, m, d) → 1 <= y <= 9999.
Proof.
  intros [Hlo Hhi] Hc.
  assert (-719162 <= t / DAY <= 2932896) as [Hl Hh].
  { unfold DAY, SECOND in *. split; [apply Z.div_le_lower_bound; lia|].
    enough (t / (86400 * 1000000) < 2932897) by lia. apply Z.div_lt_upper_bound; lia. }
  pose proof (civil_years _ _ Hl) as H1. pose proof (civil_years _ _ Hh) as H2. rewrite Hc in H1, H2.
  change (civil_of_day (-719162)) with (1, 1, 1) in H1. change (civil_of_day 2932896) with (9999, 12, 31) in H2.
  by split.
Qed.

Lemma isoformat_parts t :
  datetime_ok t → ∃ y m d h mi s us, iso_parts t y m d h mi s us ∧ isoformat t = iso_text y m d h mi s us.
Proof.
  intros Ht. destruct (civil_of_day (t / DAY)) as [[y m] d] eqn:Hc.
  pose proof (Z.mod_pos_bound t DAY ltac:(unfold DAY, SECOND; lia)) as Hus.
  set (us := t mod DAY) in *.
  assert (0 <= us / SECOND < 86400) as Hs.
  { unfold DAY, SECOND in *. split; [apply Z.div_pos; lia|apply Z.div_lt_upper_bound; lia]. }
  exists y, m, d, (us / SECOND / 3600), (us / SECOND / 60 mod 60), (us / SECOND mod 60), (us mod SECOND). split.
  - constructor; try (split; [reflexivity|]); fold us; try (apply Z.mod_pos_bound; unfold SECOND; lia); try done.
    + by eapply year_in_range.
    + destruct (civil_parts (t / DAY)) as (? & _ & _ & y' & mp & d' & _ & _ & Hmp & _ & Hd & Hcv).
      rewrite Hc in Hcv. destruct (Z.ltb_spec mp 10); injection Hcv as -> -> ->; lia.
    + destruct (civil_parts (t / DAY)) as (? & _ & _ & y' & mp & d' & _ & _ & Hmp & _ & Hd & Hcv).
      rewrite Hc in Hcv. destruct (Z.ltb_spec mp 10); injection Hcv as -> -> ->; lia.
    + split; [apply Z.div_pos; lia|apply Z.div_lt_upper_bound; lia].
  - unfold isoformat, iso_text, iso_fraction. rewrite Hc. fold us. done.
Qed.

Lemma compare_fraction us us' :
  0 <= us < SECOND → 0 <= us' < SECOND → String.compare (iso_fraction us) (iso_fraction us') = (us ?= us').
Proof.
  intros H H'. unfold iso_fraction.
  destruct (Z.eqb_spec us 0) as [->|Hn], (Z.eqb_spec us' 0) as [->|Hn'].
  - done.
  - symmetry. by apply Z.compare_lt_iff; lia.
  - symmetry. by apply Z.compare_gt_iff; lia.
  - rewrite !app_assoc_s, compare_prefix, compare_fixed by (unfold SECOND in *; lia).
    rewrite compare_same. by destruct (us ?= us').
Qed.

(** Later times are later texts. *)
Lemma compare_isoformat t t' :
  datetime_ok t → datetime_ok t' → String.compare (isoformat t) (isoformat t') = (t ?= t').
Proof.
  intros Ht Ht'.
  destruct (isoformat_parts t Ht) as (y & m & d & h & mi & s & us & [Hc Hy Hm Hd [Hh ?] [Hmi ?] [Hs ?] [Hus ?]] & ->).
  destruct (isoformat_parts t' Ht')
    as (y' & m' & d' & h' & mi' & s' & us' & [Hc' Hy' Hm' Hd' [Hh' ?] [Hmi' ?] [Hs' ?] [Hus' ?]] & ->).
  unfold iso_text.
  rewrite !compare_fixed, compare_prefix, !compare_fixed, compare_prefix, !compare_fixed, compare_prefix,
    !compare_fixed, compare_prefix, !compare_fixed, compare_prefix, !compare_fixed, compare_fraction by lia.
  rewrite (compare_div_mod DAY t t'), (compare_civil (t / DAY)) by (unfold DAY, SECOND; lia). unfold civil_compare. rewrite Hc, Hc'.
  rewrite (compare_div_mod SECOND (t mod DAY) (t' mod DAY)) by (unfold SECOND; lia).
  rewrite (compare_div_mod 60 (t mod DAY / SECOND) (t' mod DAY / SECOND)) by lia.
  rewrite (compare_div_mod 60 (t mod DAY / SECOND / 60) (t' mod DAY / SECOND / 60)) by lia.
  rewrite !(Z.div_div (_ / SECOND)) by lia. change (60 * 60) with 3600.
  rewrite <- Hh, <- Hh', <- Hmi, <- Hmi', <- Hs, <- Hs', <- Hus, <- Hus'.
  by destruct (y ?= y'), (m ?= m'), (d ?= d'), (h ?= h'), (mi ?= mi'), (s ?= s').
Qed.

(** ** Reading it back *)

(** [k] digits at the front, and what follows. *)
Fixpoint read_digits (k : nat) (acc : Z) (s : string) : option (Z * string) :=
  match k, s with
  | O, _ => Some (acc, s)
  | S k', String c s' => if digit_char c then read_digits k' (10 * acc + digit_val c) s' else None
  | S _, EmptyString => None
  end.
Definition read_char (c : ascii) (s : string) : option string :=
  match s with String c' s' => if Ascii.eqb c c' then Some s' else None | EmptyString => None end.
Definition in_range (lo hi n : Z) : option unit := if (lo <=? n) && (n <=? hi) then Some tt else None.
(** A number of [k] digits within bounds. *)
Definition read_field (k : nat) (lo hi : Z) (s : string) : option (Z * string) :=
  r ← read_digits k 0 s; in_range lo hi r.1;; Some r.

(** What follows the seconds: a fraction of six digits, if there is one. *)
Definition read_fraction (s : string) : option (Z * string) :=
  match read_char "." s with Some s' => read_digits 6 0 s' | None => Some (0, s) end.
(** The offset in microseconds: none, [Z], hours and minutes. *)
Definition read_offset (s : string) : option (option Z) :=
  match s with
  | EmptyString => Some None
  | String c s' =>
      if Ascii.eqb c "Z" then (if str_truthy s' then None else Some (Some 0))
      else if has_char c "+-" then
        h ← read_field 2 0 23 s'; s' ← read_char ":" h.2; m ← read_field 2 0 59 s';
        if str_truthy m.2 then None
        else Some (Some ((if Ascii.eqb c "-" then -1 else 1) * minutes (60 * h.1 + m.1)))
      else None
  end.

(** [datetime.fromisoformat] on the texts [isoformat] writes, and on those of another
    offset or of none: the local time and the offset.  A day must exist in its month.  The
    other spellings of ISO 8601 are not read. *)
Definition read_isoformat (s : string) : option (Z * option Z) :=
  y ← read_field 4 1 9999 s; s ← read_char "-" y.2;
  m ← read_field 2 1 12 s; s ← read_char "-" m.2;
  d ← read_field 2 1 31 s; s ← read_char "T" d.2;
  h ← read_field 2 0 23 s; s ← read_char ":" h.2;
  mi ← read_field 2 0 59 s; s ← read_char ":" mi.2;
  se ← read_field 2 0 59 s; us ← read_fraction se.2; offset ← read_offset us.2;
  let day := day_of_civil y.1 m.1 d.1 in
  if bool_decide (civil_of_day day = (y.1, m.1, d.1))
  then Some (day * DAY + ((h.1 * 60 + mi.1) * 60 + se.1) * SECOND + us.1, offset) else None.

Example read_isoformat_examples :
  map read_isoformat ["2000-02-29T00:00:00+00:00"; "1900-02-29T00:00:00";
                      "1970-01-01T02:00:00.000001-02:30"; "1970-01-02T00:00:00"]%string
  = [Some (951782400000000, Some 0); None; Some (7200000001, Some (-9000000000));
     Some (86400000000, None)].
Proof. vm_compute. reflexivity. Qed.

Lemma read_digits_front k acc a s :
  all_digits a = true → String.length a = k → read_digits k acc (a ++s s) = Some (num_from acc a, s).
Proof.
  revert acc a. induction k as [|k IH]; intros acc [|c a]; try done. unfold all_digits. cbn [str_all].
  intros [Hc Ha]%andb_true_iff [= Hl]. rewrite app_cons_s. cbn [read_digits]. rewrite Hc. exact (IH _ a Ha Hl).
Qed.
Lemma read_digits_fixed k n s :
  0 <= n < 10 ^ Z.of_nat k → (0 < k)%nat → read_digits k 0 (fixed k n ++s s) = Some (n, s).
Proof.
  intros Hn Hk. destruct (fixed_spec k n Hn Hk) as (Ha & Hv & Hl).
  rewrite read_digits_front by done. by rewrite <- Hv at 2.
Qed.
Lemma read_field_fixed k lo hi n s :
  0 <= n < 10 ^ Z.of_nat k → (0 < k)%nat → lo <= n <= hi → read_field k lo hi (fixed k n ++s s) = Some (n, s).
Proof.
  intros Hn Hk [Hlo Hhi]. unfold read_field. rewrite read_digits_fixed by done. cbn. unfold in_range.
  by rewrite (proj2 (Z.leb_le _ _) Hlo), (proj2 (Z.leb_le _ _) Hhi).
Qed.
Lemma read_char_app c s : read_char c (str1 c ++s s) = Some s.
Proof. change (read_char c (str1 c ++s s)) with (if Ascii.eqb c c then Some s else None). by rewrite Ascii.eqb_refl. Qed.
Lemma read_fraction_iso us : 0 <= us < SECOND → read_fraction (iso_fraction us) = Some (us, "+00:00"%string).
Proof.
  intros Hus. unfold iso_fraction. destruct (Z.eqb_spec us 0) as [->|Hne]; [done|].
  unfold read_fraction. rewrite app_assoc_s, (read_char_app "."). apply read_digits_fixed; [exact Hus|lia].
Qed.

(** Seconds of a day are hours, minutes and seconds. *)
Lemma clock_parts s : ((s / 3600 * 60 + s / 60 mod 60) * 60 + s mod 60) = s.
Proof.
  pose proof (Z.div_mod s 60 ltac:(lia)). pose proof (Z.div_mod (s / 60) 60 ltac:(lia)) as H2.
  rewrite Z.div_div in H2 by lia. change (60 * 60) with 3600 in H2. lia.
Qed.

(** A time printed is read back, with no offset from UTC. *)
Lemma read_isoformat_iso t : datetime_ok t → read_isoformat (isoformat t) = Some (t, Some 0).
Proof.
  intros Ht.
  destruct (isoformat_parts t Ht) as (y & m & d & h & mi & s & us & [Hc Hy Hm Hd [Hh ?] [Hmi ?] [Hs ?] [Hus ?]] & ->).
  unfold iso_text, read_isoformat.
  repeat first [rewrite read_field_fixed by lia; cbn [mbind option_bind fst snd]
               |rewrite read_fraction_iso by lia; cbn [mbind option_bind fst snd]
               |match goal with |- context [read_char ?c (?p ++s _)] =>
                  change (read_char c (p ++s ?x)) with (read_char c (str1 c ++s x)); rewrite (read_char_app c) end;
                  cbn [mbind option_bind fst snd]].
  change (read_offset "+00:00") with (Some (Some 0)). cbn [mbind option_bind fst snd].
  pose proof (day_of_civil_of_day (t / DAY)) as Hday. rewrite Hc in Hday. rewrite Hday, Hc.
  rewrite bool_decide_eq_true_2 by done. do 2 f_equal.
  rewrite Hh, Hmi, Hs, Hus, clock_parts.
  pose proof (Z.div_mod t DAY ltac:(unfold DAY, SECOND; lia)).
  pose proof (Z.div_mod (t mod DAY) SECOND ltac:(unfold SECOND; lia)). lia.
Qed.
