(* ===== verification/PyDict.v ===== *)
(** * Python dictionaries *)
(** A [dict] with string keys where its insertion order matters: the list of its
    items, oldest first, with the assignment, deletion and reads of Python. *)
From S2P Require Export Json.
From stdpp Require Import options.
Local Open Scope Z_scope.

Abbreviation dict A := (list (string * A)).

Section dicts.
Context {A : Type}.
Implicit Types (d : dict A) (k : string) (v : A).

(** [k in d] *)
Definition dmem k d : bool := existsb (λ kv, String.eqb k kv.1) d.
(** [d[k] = v]: a key that is there keeps its place. *)
Fixpoint dset k v d : dict A :=
  match d with
  | [] => [(k, v)]
  | (k', v') :: d' => if String.eqb k k' then (k', v) :: d' else (k', v') :: dset k v d'
  end.
(** [d.pop(k, None)] *)
Definition ddel k d : dict A := filter (λ kv, kv.1 ≠ k) d.

Lemma dmem_spec k d : dmem k d = true ↔ k ∈ d.*1.
Proof.
  unfold dmem. rewrite existsb_exists, list_elem_of_fmap. split.
  - intros ([k' v] & Hin & He%String.eqb_eq). exists (k', v). by rewrite list_elem_of_In.
  - intros ([k' v] & -> & Hin). exists (k', v). rewrite <- list_elem_of_In. cbn.
    by rewrite String.eqb_refl.
Qed.

Lemma assoc_get_None k d : assoc_get k d = None ↔ k ∉ d.*1.
Proof.
  induction d as [|[k' v] d IH]; cbn; [set_solver|].
  destruct (String.eqb_spec k k') as [->|Hne]; [set_solver|]. rewrite IH. set_solver.
Qed.
Lemma assoc_get_Some_elem k v d : assoc_get k d = Some v → (k, v) ∈ d.
Proof.
  induction d as [|[k' v'] d IH]; cbn; [done|].
  destruct (String.eqb_spec k k') as [->|Hne]; [intros [= ->]|intros H%IH]; set_solver.
Qed.
Lemma assoc_get_elem k v d : NoDup d.*1 → (k, v) ∈ d → assoc_get k d = Some v.
Proof.
  induction d as [|[k' v'] d IH]; cbn; [set_solver|]. intros [Hk Hd]%NoDup_cons.
  intros [[= -> ->]|Hin]%elem_of_cons; [by rewrite String.eqb_refl|].
  destruct (String.eqb_spec k k') as [->|Hne]; [|by apply IH].
  destruct Hk. by apply (list_elem_of_fmap_2 fst) in Hin.
Qed.

Lemma assoc_get_app k d d' :
  assoc_get k (d ++ d') = match assoc_get k d with Some v => Some v | None => assoc_get k d' end.
Proof.
  induction d as [|[k' v] d IH]; cbn; [done|]. by destruct (String.eqb k k').
Qed.

Lemma assoc_get_dset k k' v d :
  assoc_get k (dset k' v d) = if String.eqb k k' then Some v else assoc_get k d.
Proof.
  induction d as [|[k2 v2] d IH]; cbn; [done|].
  destruct (String.eqb_spec k' k2) as [->|Hne]; cbn.
  - by destruct (String.eqb_spec k k2).
  - rewrite IH. destruct (String.eqb_spec k k2) as [->|Hne2]; [|done].
    destruct (String.eqb_spec k2 k'); congruence.
Qed.

Lemma dset_keys k v d : (dset k v d).*1 = if dmem k d then d.*1 else d.*1 ++ [k].
Proof.
  induction d as [|[k' v'] d IH]; cbn; [done|].
  destruct (String.eqb_spec k k') as [->|Hne]; cbn; [done|]. rewrite IH.
  change (existsb _ d) with (dmem k d). by destruct (dmem k d).
Qed.
Lemma dset_NoDup k v d : NoDup d.*1 → NoDup (dset k v d).*1.
Proof.
  intros Hd. rewrite dset_keys. destruct (dmem k d) eqn:Hm; [done|].
  apply NoDup_app. split_and!; [done| |apply NoDup_singleton].
  intros x Hx. rewrite list_elem_of_singleton. intros ->.
  apply dmem_spec in Hx. congruence.
Qed.
Lemma dset_nil_elem k v d x : x ∈ dset k v d → x = (k, v) ∨ x ∈ d.
Proof.
  induction d as [|[k' v'] d IH]; cbn; [set_solver|].
  destruct (String.eqb_spec k k') as [->|Hne]; set_solver.
Qed.

Lemma ddel_keys k d : (ddel k d).*1 = filter (λ k', k' ≠ k) d.*1.
Proof.
  unfold ddel. induction d as [|[k' v] d IH]; [done|].
  rewrite fmap_cons, !filter_cons. cbn [fst]. case_decide; cbn; by rewrite IH.
Qed.
Lemma filter_keys_NoDup (P : string * A → Prop) `{!∀ x, Decision (P x)} d :
  NoDup d.*1 → NoDup (filter P d).*1.
Proof.
  intros Hd. eapply sublist_NoDup; [exact Hd|].
  apply fmap_sublist, sublist_filter.
Qed.
Lemma ddel_absent k d : k ∉ d.*1 → ddel k d = d.
Proof.
  intros Hk. apply filter_all, Forall_forall. intros [k' v] Hin; cbn. intros ->. destruct Hk.
  by apply (list_elem_of_fmap_2 fst) in Hin.
Qed.
Lemma assoc_get_filter (P : string * A → Prop) `{!∀ x, Decision (P x)} k d :
  NoDup d.*1 →
  assoc_get k (filter P d)
  = match assoc_get k d with
    | Some v => if decide (P (k, v)) then Some v else None
    | None => None
    end.
Proof.
  induction d as [|[k' v] d IH]; [done|]. rewrite fmap_cons. intros [Hk Hd]%NoDup_cons.
  rewrite filter_cons. cbn [assoc_get fst] in *. destruct (String.eqb_spec k k') as [->|Hne].
  - case_decide; cbn; [by rewrite String.eqb_refl|].
    apply assoc_get_None. intros Hin. destruct Hk. apply list_elem_of_fmap in Hin as (x & -> & Hx).
    apply list_elem_of_filter in Hx as [_ Hx]. by apply list_elem_of_fmap_2.
  - case_decide; cbn; [rewrite (proj2 (String.eqb_neq _ _) Hne)|]; by apply IH.
Qed.
Lemma assoc_get_ddel k k' d :
  assoc_get k (ddel k' d) = if String.eqb k k' then None else assoc_get k d.
Proof.
  unfold ddel. induction d as [|[k2 v2] d IH]; [by destruct (String.eqb _ _)|].
  rewrite filter_cons. cbn [assoc_get fst]. case_decide as Hk.
  - cbn [assoc_get]. rewrite IH. destruct (String.eqb_spec k k2) as [->|]; [|done].
    by rewrite (proj2 (String.eqb_neq _ _) Hk).
  - subst k2. rewrite IH. by destruct (String.eqb k k').
Qed.
Lemma dmem_get k d : dmem k d = bool_decide (is_Some (assoc_get k d)).
Proof.
  apply eq_bool_prop_intro. rewrite bool_decide_spec, <- not_eq_None_Some, assoc_get_None.
  rewrite <- dmem_spec. destruct (dmem k d); cbn; naive_solver.
Qed.
Lemma dset_length k v d : length (dset k v d) = if dmem k d then length d else S (length d).
Proof.
  pose proof (dset_keys k v d) as H. apply (f_equal length) in H.
  rewrite length_fmap in H. rewrite H. destruct (dmem k d); rewrite ?length_app, length_fmap; cbn; lia.
Qed.
Lemma ddel_head k v d : NoDup ((k, v) :: d).*1 → ddel k ((k, v) :: d) = d.
Proof.
  rewrite fmap_cons. intros [Hk _]%NoDup_cons. unfold ddel. rewrite filter_cons.
  rewrite decide_False by (cbn; tauto). by apply ddel_absent.
Qed.
End dicts.
