(* ===== verification/PyJson.v ===== *)
(** * json.dumps and json.loads *)
(** The two functions of Python's [json] the gateway calls, with its default
    arguments: ASCII-only output, floats through the shortest decimal that reads back
    as the same double, and the parser's acceptance of [NaN], [Infinity] and repeated
    keys.  What the library's exceptions say is a parameter of the code that prints
    them; every one of them is a [ValueError].  UTF-16 and UTF-32 input, which
    [json.loads] would recognise by its zero bytes, and the interpreter's recursion
    limit are not modelled. *)
From S2P Require Export PyDict.
From Stdlib Require Import Ascii.
From stdpp Require Import options.
Local Open Scope Z_scope.

(** ** Doubles *)

(** [floor (log2 (n / d))] *)
Definition log2_ratio (n d : Z) : Z :=
  let k := Z.log2 n - Z.log2 d in
  if n * 2 ^ Z.max 0 (- k) <? d * 2 ^ Z.max 0 k then k - 1 else k.

(** The double nearest to [n / d], ties to even, as [m * 2^e]; [None] when it is
    too large to be one. *)
Definition nearest_double (n d : Z) : option (Z * Z) :=
  if n =? 0 then Some (0, 0)
  else
    let e := Z.max (log2_ratio n d - 52) (-1074) in
    let m := round_half_even (n * 2 ^ Z.max 0 (- e)) (d * 2 ^ Z.max 0 e) in
    if (971 <=? e) && (2 ^ 53 <=? m) then None
    else if 971 <? e then None
    else if m =? 2 ^ 53 then Some (2 ^ 52, e + 1) else Some (m, e).

Definition pow10_ratio (coef exp : Z) : Z * Z :=
  (coef * 10 ^ Z.max 0 exp, 10 ^ Z.max 0 (- exp)).

Fixpoint strip_zeros (fuel : nat) (c e : Z) : Z * Z :=
  match fuel with
  | O => (c, e)
  | S n => if c =? 0 then (0, 0)
           else if c mod 10 =? 0 then strip_zeros n (c / 10) (e + 1) else (c, e)
  end.

(** The shortest decimal that rounds to [m * 2^e], the closest of them: the digits
    of [repr].  [p] digits stand before the point; seventeen digits always do. *)
Fixpoint shortest_digits (fuel : nat) (digits : Z) (m e p : Z) : Z * Z :=
  let num := m * 2 ^ Z.max 0 e in
  let den := 2 ^ Z.max 0 (- e) in
  let '(sn, sd) := pow10_ratio 1 (digits - p) in
  let lo := (num * sn) / (den * sd) in
  let reads q := let '(n, d) := pow10_ratio q (p - digits) in
                 bool_decide (nearest_double n d = Some (m, e)) in
  let far q := Z.abs (q * (den * sd) - num * sn) in
  match fuel with
  | O => (lo, p - digits)
  | S fuel' =>
      match reads lo, reads (lo + 1) with
      | true, true => if far (lo + 1) <? far lo then (lo + 1, p - digits) else (lo, p - digits)
      | true, false => (lo, p - digits)
      | false, true => (lo + 1, p - digits)
      | false, false => shortest_digits fuel' (digits + 1) m e p
      end
  end.

(** [floor (log10 (m * 2^e)) + 1], found from the number of digits. *)
Definition digits_before_point (m e : Z) : Z :=
  if 0 <=? e then byte_len (int_str (m * 2 ^ e))
  else
    (* m / 2^-e = (m * 10^k / 2^-e) / 10^k, with k large enough for an integer part *)
    let k := 400 in
    byte_len (int_str (m * 10 ^ k / 2 ^ (- e))) - k.

(** [float(text)] of the decimal [coef * 10^exp]. *)
Definition float_of_decimal (neg : bool) (coef exp : Z) : pyfloat :=
  if coef =? 0 then FFin neg 0 0
  else
    let magnitude := byte_len (int_str coef) + exp in
    if 400 <? magnitude then FInf neg
    else if magnitude <? -400 then FFin neg 0 0
    else
      let '(n, d) := pow10_ratio coef exp in
      match nearest_double n d with
      | None => FInf neg
      | Some (0, _) => FFin neg 0 0
      | Some (m, e) =>
          let '(c, x) := shortest_digits 17 1 m e (digits_before_point m e) in
          let '(c, x) := strip_zeros 20 c x in
          FFin neg c x
      end.

Example float_examples :
  map float_repr [float_of_decimal false 1 (-1); float_of_decimal false 1 23;
                  float_of_decimal true 100000000000000005 (-17);
                  float_of_decimal false 5 (-324); float_of_decimal false 17976931348623157 292;
                  float_of_decimal false 9007199254740993 0; float_of_decimal false 123456 (-2);
                  float_of_decimal false 1 400; float_of_decimal false 18446744073709551616 0]
  = ["0.1"; "1e+23"; "-1.0"; "5e-324"; "1.7976931348623157e+308"; "9007199254740992.0";
     "1234.56"; "inf"; "1.8446744073709552e+19"]%string.
Proof. vm_compute. reflexivity. Qed.

(** ** Code points *)

Definition byte (n : Z) : ascii := ascii_of_nat (Z.to_nat n).

Definition utf8_encode (n : Z) : string :=
  if n <? 128 then str1 (byte n)
  else if n <? 2048 then String (byte (192 + n / 64)) (str1 (byte (128 + n mod 64)))
  else if n <? 65536 then
    String (byte (224 + n / 4096)) (String (byte (128 + n / 64 mod 64)) (str1 (byte (128 + n mod 64))))
  else
    String (byte (240 + n / 262144)) (String (byte (128 + n / 4096 mod 64))
      (String (byte (128 + n / 64 mod 64)) (str1 (byte (128 + n mod 64))))).

Definition continues (c : ascii) : bool := (128 <=? ascii_code c) && (ascii_code c <? 192).
Definition low6 (c : ascii) : Z := ascii_code c mod 64.

(** The code points of a string, surrogates included; [None] where it is not UTF-8. *)
Fixpoint utf8_decode (s : string) : option (list Z) :=
  match s with
  | EmptyString => Some []
  | String a s1 =>
      let x := ascii_code a in
      if x <? 128 then l ← utf8_decode s1; Some (x :: l)
      else match s1 with
      | String b s2 =>
          if negb (continues b) then None
          else if (194 <=? x) && (x <? 224) then
            l ← utf8_decode s2; Some ((x - 192) * 64 + low6 b :: l)
          else match s2 with
          | String c s3 =>
              if negb (continues c) then None
              else if (224 <=? x) && (x <? 240) then
                let n := (x - 224) * 4096 + low6 b * 64 + low6 c in
                if n <? 2048 then None else l ← utf8_decode s3; Some (n :: l)
              else match s3 with
              | String d s4 =>
                  if negb (continues d) then None
                  else if (240 <=? x) && (x <? 245) then
                    let n := (x - 240) * 262144 + low6 b * 4096 + low6 c * 64 + low6 d in
                    if (n <? 65536) || (1114112 <=? n) then None
                    else l ← utf8_decode s4; Some (n :: l)
                  else None
              | EmptyString => None
              end
          | EmptyString => None
          end
      | EmptyString => None
      end
  end.

(** ** json.dumps *)

Definition hex4 (n : Z) : string :=
  String (hex_digit (n / 4096 mod 16)) (String (hex_digit (n / 256 mod 16))
    (String (hex_digit (n / 16 mod 16)) (str1 (hex_digit (n mod 16))))).
Definition escape_u (n : Z) : string := String backslash (String "u"%char (hex4 n)).

Definition escape_code (n : Z) : string :=
  if n =? 34 then String backslash (str1 dquote)
  else if n =? 92 then String backslash (str1 backslash)
  else if n =? 10 then String backslash "n"
  else if n =? 13 then String backslash "r"
  else if n =? 9 then String backslash "t"
  else if n =? 12 then String backslash "f"
  else if n =? 8 then String backslash "b"
  else if (32 <=? n) && (n <? 127) then str1 (byte n)
  else if n <? 65536 then escape_u n
  else escape_u (55296 + (n - 65536) / 1024) ++s escape_u (56320 + (n - 65536) mod 1024).

Definition dumps_str (s : string) : string :=
  String dquote
    (str_join EmptyString (map escape_code (default [] (utf8_decode s))) ++s str1 dquote).

(** [json.dumps(value, separators=(comma, colon))] *)
Fixpoint dumps_sep (comma colon : string) (j : json) : string :=
  match j with
  | JNull => "null"
  | JBool b => if b then "true" else "false"
  | JInt n => int_str n
  | JFloat FNan => "NaN"
  | JFloat (FInf neg) => if neg then "-Infinity" else "Infinity"
  | JFloat f => float_repr f
  | JStr s => dumps_str s
  | JList l => "[" ++s (str_join comma (map (dumps_sep comma colon) l) ++s "]")
  | JObj l =>
      "{" ++s (str_join comma
        (map (λ kv, dumps_str kv.1 ++s (colon ++s dumps_sep comma colon kv.2)) l) ++s "}")
  end.
(** [json.dumps(value)], and [json.dumps(value, separators=(",", ":"))]. *)
Definition dumps : json → string := dumps_sep ", " ": ".
Definition dumps_compact : json → string := dumps_sep "," ":".

(** What [sort_keys=True] prints instead: every object's keys in order, which is the
    order of their code points and of their bytes. *)
Fixpoint insert_key {A} (k : string) (v : A) (d : dict A) : dict A :=
  match d with
  | [] => [(k, v)]
  | (k', v') :: d' => if String.leb k k' then (k, v) :: d else (k', v') :: insert_key k v d'
  end.
Fixpoint sort_keys (j : json) : json :=
  match j with
  | JList l => JList (map sort_keys l)
  | JObj l => JObj (foldr (λ kv, insert_key kv.1 (sort_keys kv.2)) [] l)
  | _ => j
  end.

(** ** json.loads *)

Definition json_space (c : ascii) : bool := has_char c (String (byte 32) (String (byte 9) (String nl (str1 (byte 13))))).
Definition skip (s : string) : string := lstrip_by json_space s.

Definition hex_value (c : ascii) : option Z :=
  let n := ascii_code c in
  if digit_char c then Some (n - 48)
  else if (97 <=? n) && (n <=? 102) then Some (n - 87)
  else if (65 <=? n) && (n <=? 70) then Some (n - 55)
  else None.
(** Four hexadecimal digits and what follows them. *)
Definition read_hex4 (s : string) : option (Z * string) :=
  match s with
  | String a (String b (String c (String d s'))) =>
      x ← hex_value a; y ← hex_value b; z ← hex_value c; w ← hex_value d;
      Some (((x * 16 + y) * 16 + z) * 16 + w, s')
  | _ => None
  end.
Definition high_surrogate (n : Z) : bool := (55296 <=? n) && (n <? 56320).
Definition low_surrogate (n : Z) : bool := (56320 <=? n) && (n <? 57344).

(** After [\u]: the code point, a pair of surrogates joined. *)
Definition read_u (s : string) : option (Z * string) :=
  '(n, s1) ← read_hex4 s;
  match s1 with
  | String b (String u s2) =>
      if high_surrogate n && Ascii.eqb b backslash && Ascii.eqb u "u"%char then
        '(n2, s3) ← read_hex4 s2;
        Some (if low_surrogate n2 then (65536 + (n - 55296) * 1024 + (n2 - 56320), s3) else (n, s1))
      else Some (n, s1)
  | _ => Some (n, s1)
  end.

Definition simple_escape (c : ascii) : option ascii :=
  if Ascii.eqb c dquote || Ascii.eqb c backslash || Ascii.eqb c "/" then Some c
  else if Ascii.eqb c "b" then Some (byte 8)
  else if Ascii.eqb c "f" then Some (byte 12)
  else if Ascii.eqb c "n" then Some nl
  else if Ascii.eqb c "r" then Some (byte 13)
  else if Ascii.eqb c "t" then Some (byte 9)
  else None.

(** The rest of a string literal, after its opening quote. *)
Fixpoint read_string (fuel : nat) (s : string) : option (string * string) :=
  match fuel, s with
  | S n, String c s' =>
      if Ascii.eqb c dquote then Some (EmptyString, s')
      else if Ascii.eqb c backslash then
        match s' with
        | String e s2 =>
            if Ascii.eqb e "u" then
              '(code, s3) ← read_u s2; '(t, r) ← read_string n s3; Some (utf8_encode code ++s t, r)
            else
              d ← simple_escape e; '(t, r) ← read_string n s2; Some (String d t, r)
        | EmptyString => None
        end
      else if ascii_code c <? 32 then None
      else '(t, r) ← read_string n s'; Some (String c t, r)
  | _, _ => None
  end.

(** The longest prefix of digits, and the rest. *)
Fixpoint read_digits (s : string) : string * string :=
  match s with
  | String c s' => if digit_char c then let '(d, r) := read_digits s' in (String c d, r)
                   else (EmptyString, s)
  | EmptyString => (EmptyString, EmptyString)
  end.
Fixpoint digits_value (acc : Z) (s : string) : Z :=
  match s with
  | EmptyString => acc
  | String c s' => digits_value (acc * 10 + (ascii_code c - 48)) s'
  end.

(** [(\.\d+)?]: the digits after the point. *)
Definition read_fraction (s : string) : option string * string :=
  match s with
  | String p s' =>
      if Ascii.eqb p "." then
        match read_digits s' with
        | (EmptyString, _) => (None, s)
        | (d, r) => (Some d, r)
        end
      else (None, s)
  | EmptyString => (None, s)
  end.
(** [([eE][-+]?\d+)?] *)
Definition read_exponent (s : string) : option Z * string :=
  match s with
  | String e s' =>
      if Ascii.eqb e "e" || Ascii.eqb e "E" then
        let '(neg, s2) := match s' with
          | String g s2 => if Ascii.eqb g "-" then (true, s2) else if Ascii.eqb g "+" then (false, s2)
                           else (false, s')
          | EmptyString => (false, s')
          end in
        match read_digits s2 with
        | (EmptyString, _) => (None, s)
        | (d, r) => (Some (if neg : bool then - digits_value 0 d else digits_value 0 d), r)
        end
      else (None, s)
  | EmptyString => (None, s)
  end.

(** Python refuses to read an integer of more digits than this. *)
Definition MAX_INT_DIGITS : Z := 4300.

Definition read_number (s : string) : option (json * string) :=
  let '(neg, s1) := match s with
    | String m s' => if Ascii.eqb m "-" then (true, s') else (false, s)
    | EmptyString => (false, s)
    end in
  let '(d, s2) := match read_digits s1 with
    | (String z t, r) => if Ascii.eqb z "0" then ("0"%string, t ++s r) else (String z t, r)
    | (EmptyString, r) => (EmptyString, r)
    end in
  if negb (str_truthy d) then None
  else
    let '(frac, s3) := read_fraction s2 in
    let '(exp, s4) := read_exponent s3 in
    match frac, exp with
    | None, None =>
        if MAX_INT_DIGITS <? byte_len d then None
        else Some (JInt (if neg : bool then - digits_value 0 d else digits_value 0 d), s4)
    | _, _ =>
        let f := default EmptyString frac in
        Some (JFloat (float_of_decimal neg (digits_value 0 (d ++s f)) (default 0 exp - byte_len f)), s4)
    end.

(** A literal that starts the text, and what follows it. *)
Definition literals : list (string * json) :=
  [("null", JNull); ("true", JBool true); ("false", JBool false); ("NaN", JFloat FNan);
   ("Infinity", JFloat (FInf false)); ("-Infinity", JFloat (FInf true))]%string.
Definition read_literal (s : string) : option (json * string) :=
  match filter (λ lv, starts_with lv.1 s = true) literals with
  | (l, v) :: _ => Some (v, str_drop (String.length l) s)
  | [] => None
  end.

(** A value, the members of an array, the members of an object.  Every call reads at
    least one character or closes one level, so twice the length is enough fuel. *)
Fixpoint read_value (fuel : nat) (s : string) : option (json * string) :=
  match fuel, s with
  | S n, String c s' =>
      if Ascii.eqb c dquote then '(t, r) ← read_string (String.length s') s'; Some (JStr t, r)
      else if Ascii.eqb c "{" then
        match skip s' with
        | String q r => if Ascii.eqb q "}" then Some (JObj [], r)
                        else '(l, r') ← read_members n [] (String q r); Some (JObj l, r')
        | EmptyString => None
        end
      else if Ascii.eqb c "[" then
        match skip s' with
        | String q r => if Ascii.eqb q "]" then Some (JList [], r)
                        else '(l, r') ← read_items n (String q r); Some (JList l, r')
        | EmptyString => None
        end
      else match read_literal s with
           | Some vr => Some vr
           | None => read_number s
           end
  | _, _ => None
  end
with read_items (fuel : nat) (s : string) : option (list json * string) :=
  match fuel with
  | O => None
  | S n =>
      '(v, r) ← read_value n s;
      match skip r with
      | String c r' =>
          if Ascii.eqb c "]" then Some ([v], r')
          else if Ascii.eqb c "," then '(vs, r'') ← read_items n (skip r'); Some (v :: vs, r'')
          else None
      | EmptyString => None
      end
  end
with read_members (fuel : nat) (d : dict json) (s : string) : option (dict json * string) :=
  match fuel, s with
  | S n, String q s' =>
      if negb (Ascii.eqb q dquote) then None
      else
        '(k, r) ← read_string (String.length s') s';
        match skip r with
        | String c r1 =>
            if negb (Ascii.eqb c ":") then None
            else
              '(v, r2) ← read_value n (skip r1);
              let d := dset k v d in
              match skip r2 with
              | String e r3 =>
                  if Ascii.eqb e "}" then Some (d, r3)
                  else if Ascii.eqb e "," then read_members n d (skip r3)
                  else None
              | EmptyString => None
              end
        | EmptyString => None
        end
  | _, _ => None
  end.

(** [json.loads(text)] of a [str]. *)
Definition loads_str (s : string) : option json :=
  '(v, r) ← read_value (2 * String.length s) (skip s);
  match skip r with EmptyString => Some v | _ => None end.

(** [json.loads(data)] of [bytes]: decoded first, a byte order mark dropped. *)
Definition loads (data : string) : option json :=
  let s := if starts_with (utf8_encode 65279) data then str_drop 3 data else data in
  _ ← utf8_decode s;
  loads_str s.

Definition quoted (s : string) : string := String dquote (s ++s str1 dquote).

Example loads_examples :
  loads ("{" ++s quoted "a" ++s ": [1, -2.50, true, null, {}], " ++s quoted "a" ++s ":"
         ++s quoted "\u00e9\ud83d\ude00\n" ++s " }")
    = Some (JObj [("a", JStr (utf8_encode 233 ++s utf8_encode 128512 ++s str1 nl))])%string
  ∧ loads "[1, -2.50, 1e2, 00]" = None
  ∧ loads " [1, -2.50, 1e2, 0] " = Some (JList [JInt 1; JFloat (FFin true 25 (-1));
                                               JFloat (FFin false 1 2); JInt 0])
  ∧ loads "{}x" = None ∧ loads EmptyString = None ∧ loads "[1,]" = None
  ∧ dumps (JObj [("a", JList [JStr (utf8_encode 233 ++s utf8_encode 128512 ++s str1 nl); JInt (-5)])])%string
    = ("{" ++s quoted "a" ++s ": [" ++s quoted "\u00e9\ud83d\ude00\n" ++s ", -5]}")%string.
Proof. vm_compute. split_and!; reflexivity. Qed.
