(* ===== verification/PyJsonFacts.v ===== *)
(** * json.loads inverts json.dumps *)
(** For values without floats whose strings hold no lone surrogate, whose keys are
    distinct and whose integers are within the interpreter's digit limit, what
    [dumps_sep] prints is read back by [loads], whichever of the separators the gateway
    uses it is printed with. *)
From S2P Require Export PyJson PyDecimal.
From Stdlib Require Import Ascii.
From stdpp Require Import options.
Local Open Scope Z_scope.

(** ** Code points *)

Definition scalar (n : Z) : bool :=
  (0 <=? n) && (n <? 1114112) && negb (high_surrogate n) && negb (low_surrogate n).
Definition text (s : string) : bool :=
  match utf8_decode s with Some l => forallb scalar l | None => false end.

Lemma byte_code n : 0 <= n < 256 → ascii_code (byte n) = n.
Proof.
  intros H. unfold ascii_code, byte. rewrite nat_ascii_embedding by lia. lia.
Qed.
Lemma code_byte c : byte (ascii_code c) = c.
Proof. unfold byte, ascii_code. rewrite Nat2Z.id. apply ascii_nat_embedding. Qed.
Lemma code_range c : 0 <= ascii_code c < 256.
Proof. unfold ascii_code. pose proof (nat_ascii_bounded c). lia. Qed.

Lemma byte_eq x c : x = ascii_code c → byte x = c.
Proof. intros ->. apply code_byte. Qed.

Ltac utf8_arith :=
  unfold low6, continues in *; bool_to_Z;
  repeat match goal with
  | H : _ && _ = false |- _ => apply andb_false_iff in H
  | H : _ || _ = false |- _ => apply orb_false_iff in H as [? ?]; bool_to_Z
  | |- context [ascii_code ?c] =>
      lazymatch goal with
      | _ : 0 <= ascii_code c < 256 |- _ => fail
      | _ => pose proof (code_range c)
      end
  end; Z.div_mod_to_equations; lia.

Definition encode_all (l : list Z) : string := str_join EmptyString (map utf8_encode l).

Lemma str_join_nil_cons x l : str_join EmptyString (x :: l) = x ++s str_join EmptyString l.
Proof. destruct l; cbn; [by rewrite app_empty_r|done]. Qed.

(** A decoded string is the encoding of its code points. *)
Lemma utf8_decode_encode n s l :
  (String.length s ≤ n)%nat → utf8_decode s = Some l →
  encode_all l = s ∧ Forall (λ x, 0 <= x < 1114112) l.
Proof.
  unfold encode_all. revert s l. induction n as [|n IH]; intros s l Hn Hd.
  { destruct s; cbn in Hn; [|lia]. by injection Hd as <-. }
  destruct s as [|a s1]; [by injection Hd as <-|]. cbn [utf8_decode] in Hd.
  cbn [String.length] in Hn.
  destruct (ascii_code a <? 128) eqn:Ha.
  { destruct (utf8_decode s1) as [l1|] eqn:H1; [|done]. injection Hd as <-.
    destruct (IH s1 l1) as [He Hr]; [lia|done|]. cbn [map]. rewrite str_join_nil_cons, He.
    unfold utf8_encode at 1. rewrite Ha, code_byte. split; [done|].
    constructor; [utf8_arith|done]. }
  destruct s1 as [|b s2]; [done|]. destruct (continues b) eqn:Hb; [cbn [negb] in Hd|done].
  cbn [String.length] in Hn.
  destruct ((194 <=? ascii_code a) && (ascii_code a <? 224)) eqn:Ha2.
  { destruct (utf8_decode s2) as [l1|] eqn:H1; [|done]. injection Hd as <-.
    destruct (IH s2 l1) as [He Hr]; [lia|done|]. cbn [map]. rewrite str_join_nil_cons, He.
    unfold utf8_encode at 1.
    rewrite (proj2 (Z.ltb_ge _ 128)), (proj2 (Z.ltb_lt _ 2048)) by utf8_arith.
    split; [|constructor; [utf8_arith|done]].
    unfold str1. rewrite !app_cons_s, app_empty_l. f_equal; [|f_equal]; apply byte_eq; utf8_arith. }
  destruct s2 as [|c s3]; [done|]. destruct (continues c) eqn:Hc; [cbn [negb] in Hd|done].
  cbn [String.length] in Hn.
  destruct ((224 <=? ascii_code a) && (ascii_code a <? 240)) eqn:Ha3.
  { destruct (_ <? 2048) eqn:Hlo; [done|].
    destruct (utf8_decode s3) as [l1|] eqn:H1; [|done]. injection Hd as <-.
    destruct (IH s3 l1) as [He Hr]; [lia|done|]. cbn [map]. rewrite str_join_nil_cons, He.
    unfold utf8_encode at 1.
    rewrite (proj2 (Z.ltb_ge _ 128)), (proj2 (Z.ltb_ge _ 2048)), (proj2 (Z.ltb_lt _ 65536))
      by utf8_arith.
    split; [|constructor; [utf8_arith|done]].
    unfold str1. rewrite !app_cons_s, app_empty_l.
    f_equal; [|f_equal; [|f_equal]]; apply byte_eq; utf8_arith. }
  destruct s3 as [|d s4]; [done|]. destruct (continues d) eqn:Hd'; [cbn [negb] in Hd|done].
  cbn [String.length] in Hn.
  destruct ((240 <=? ascii_code a) && (ascii_code a <? 245)) eqn:Ha4; [|done].
  destruct (_ || _) eqn:Hlo; [done|].
  destruct (utf8_decode s4) as [l1|] eqn:H1; [|done]. injection Hd as <-.
  destruct (IH s4 l1) as [He Hr]; [lia|done|]. cbn [map]. rewrite str_join_nil_cons, He.
  unfold utf8_encode at 1.
  rewrite (proj2 (Z.ltb_ge _ 128)), (proj2 (Z.ltb_ge _ 2048)), (proj2 (Z.ltb_ge _ 65536))
    by utf8_arith.
  split; [|constructor; [utf8_arith|done]].
  unfold str1. rewrite !app_cons_s, app_empty_l.
  f_equal; [|f_equal; [|f_equal; [|f_equal]]]; apply byte_eq; utf8_arith.
Qed.

(** Decoding goes through a concatenation piece by piece. *)
Lemma utf8_decode_app n a b l :
  (String.length a ≤ n)%nat → utf8_decode a = Some l →
  utf8_decode (a ++s b) = (app l) <$> utf8_decode b.
Proof.
  revert a l. induction n as [|n IH]; intros a l Hn Hd.
  { destruct a; cbn in Hn; [|lia]. injection Hd as <-. rewrite app_empty_l.
    by destruct (utf8_decode b). }
  assert (∀ s x l, (String.length s ≤ n)%nat →
    (l0 ← utf8_decode s; Some (x :: l0)) = Some l →
    (l0 ← utf8_decode (s ++s b); Some (x :: l0)) = app l <$> utf8_decode b) as Hstep.
  { intros s x l' Hs. destruct (utf8_decode s) as [l0|] eqn:H0; [|done]. intros [= <-].
    rewrite (IH s l0) by done. by destruct (utf8_decode b). }
  destruct a as [|c s1]; [injection Hd as <-; rewrite app_empty_l; by destruct (utf8_decode b)|].
  cbn [String.length] in Hn. rewrite app_cons_s. cbn [utf8_decode] in *.
  destruct (_ <? 128); [apply Hstep; [lia|done]|].
  destruct s1 as [|c2 s2]; [done|]. cbn [String.length] in Hn. rewrite app_cons_s.
  destruct (negb _); [done|]. destruct (_ && _); [apply Hstep; [lia|done]|].
  destruct s2 as [|c3 s3]; [done|]. cbn [String.length] in Hn. rewrite app_cons_s.
  destruct (negb _); [done|]. destruct (_ && _); [destruct (_ <? 2048); [done|apply Hstep; [lia|done]]|].
  destruct s3 as [|c4 s4]; [done|]. cbn [String.length] in Hn. rewrite app_cons_s.
  destruct (negb _); [done|]. destruct (_ && _); [|done].
  destruct (_ || _); [done|apply Hstep; [lia|done]].
Qed.
Lemma text_app a b : text a = true → text b = true → text (a ++s b) = true.
Proof.
  unfold text. destruct (utf8_decode a) as [l|] eqn:Ha; [|done].
  destruct (utf8_decode b) as [l'|] eqn:Hb; [|done].
  rewrite (utf8_decode_app _ a b l (le_n _) Ha), Hb. cbn. rewrite forallb_app. by intros -> ->.
Qed.

(** ** Strings *)

Lemma hex_digit_value d : 0 <= d < 16 → hex_value (hex_digit d) = Some d.
Proof.
  intros H.
  assert (forallb (λ d, bool_decide (hex_value (hex_digit d) = Some d)) (seqZ 0 16) = true) as Hall
    by (vm_compute; reflexivity).
  rewrite forallb_forall in Hall. eapply bool_decide_eq_true, Hall, list_elem_of_In, elem_of_seqZ.
  lia.
Qed.
Lemma read_hex4_hex4 n r : 0 <= n < 65536 → read_hex4 (hex4 n ++s r) = Some (n, r).
Proof.
  intros H. unfold hex4, str1. rewrite !app_cons_s, app_empty_l. cbn [read_hex4].
  rewrite !hex_digit_value by (apply Z.mod_pos_bound; lia). cbn. do 2 f_equal.
  Z.div_mod_to_equations. lia.
Qed.

Lemma read_u_plain n r :
  0 <= n < 65536 → high_surrogate n = false → read_u (hex4 n ++s r) = Some (n, r).
Proof.
  intros H Hn. unfold read_u. rewrite read_hex4_hex4 by done. cbn.
  destruct r as [|b [|u r]]; [done..|]. by rewrite Hn.
Qed.
Lemma read_u_pair n r :
  65536 <= n < 1114112 →
  read_u (hex4 (55296 + (n - 65536) / 1024) ++s (escape_u (56320 + (n - 65536) mod 1024) ++s r))
  = Some (n, r).
Proof.
  intros H. unfold read_u. rewrite read_hex4_hex4 by (Z.div_mod_to_equations; lia).
  cbn [mbind option_bind]. unfold escape_u. rewrite !app_cons_s.
  assert (high_surrogate (55296 + (n - 65536) / 1024) = true) as ->.
  { unfold high_surrogate. apply andb_true_iff. rewrite Z.leb_le, Z.ltb_lt.
    Z.div_mod_to_equations; lia. }
  rewrite !Ascii.eqb_refl. cbn [andb]. rewrite read_hex4_hex4 by (Z.div_mod_to_equations; lia).
  cbn [mbind option_bind].
  assert (low_surrogate (56320 + (n - 65536) mod 1024) = true) as ->.
  { unfold low_surrogate. apply andb_true_iff. rewrite Z.leb_le, Z.ltb_lt.
    Z.div_mod_to_equations; lia. }
  do 2 f_equal. Z.div_mod_to_equations. lia.
Qed.

(** One escaped code point is read in one step. *)
Lemma read_string_code fuel n s :
  scalar n = true →
  read_string (S fuel) (escape_code n ++s s)
  = ('(t, r) ← read_string fuel s; Some (utf8_encode n ++s t, r)).
Proof.
  unfold scalar. rewrite !andb_true_iff, !negb_true_iff, Z.leb_le, Z.ltb_lt.
  intros [[[H0 H1] Hh] Hl]. unfold escape_code.
  repeat match goal with
  | |- context [n =? ?k] => destruct (Z.eqb_spec n k) as [->|?]; [reflexivity|]
  end.
  destruct ((32 <=? n) && (n <? 127)) eqn:Hp.
  { apply andb_true_iff in Hp as [Hp1 Hp2]. bool_to_Z. unfold str1. rewrite app_cons_s, app_empty_l.
    cbn [read_string]. pose proof (byte_code n ltac:(lia)) as Hc.
    rewrite (proj2 (Ascii.eqb_neq (byte n) dquote)) by (intros He; rewrite He in Hc; change (34 = n) in Hc; lia).
    rewrite (proj2 (Ascii.eqb_neq (byte n) backslash)) by (intros He; rewrite He in Hc; change (92 = n) in Hc; lia).
    rewrite Hc, (proj2 (Z.ltb_ge n 32)) by lia. unfold utf8_encode.
    rewrite (proj2 (Z.ltb_lt n 128)) by lia. by destruct (read_string fuel s) as [[]|]. }
  destruct (n <? 65536) eqn:H16; bool_to_Z.
  - unfold escape_u. rewrite !app_cons_s. cbn [read_string].
    change (Ascii.eqb backslash dquote) with false. rewrite !Ascii.eqb_refl.
    by rewrite read_u_plain.
  - unfold escape_u at 1. rewrite !app_assoc_s, !app_cons_s. cbn [read_string].
    change (Ascii.eqb backslash dquote) with false. rewrite !Ascii.eqb_refl.
    by rewrite read_u_pair.
Qed.

Lemma read_string_codes l fuel rest :
  forallb scalar l = true → (length l < fuel)%nat →
  read_string fuel (str_join EmptyString (map escape_code l) ++s String dquote rest)
  = Some (encode_all l, rest).
Proof.
  unfold encode_all. revert fuel. induction l as [|n l IH]; intros fuel Hl Hf.
  - destruct fuel; [cbn in Hf; lia|]. cbn [map str_join]. by rewrite app_empty_l.
  - destruct fuel as [|fuel]; [cbn in Hf; lia|]. cbn [forallb] in Hl. apply andb_true_iff in Hl as [Hn Hl].
    cbn [map]. rewrite !str_join_nil_cons, app_assoc_s, read_string_code by done.
    rewrite IH by (cbn in Hf; auto with lia). done.
Qed.

Lemma escape_code_length n : (1 ≤ String.length (escape_code n))%nat.
Proof.
  unfold escape_code, escape_u, str1.
  repeat match goal with |- context [if ?b then _ else _] => destruct b; [cbn; lia|] end.
  rewrite !app_cons_s. cbn [String.length]. lia.
Qed.
Lemma escapes_length l :
  (length l ≤ String.length (str_join EmptyString (map escape_code l)))%nat.
Proof.
  induction l as [|n l IH]; [done|]. cbn [map]. rewrite str_join_nil_cons, str_length_app.
  pose proof (escape_code_length n). cbn [length]. lia.
Qed.

(** The literal of a string, after its quote, is read back. *)
Lemma read_string_dumps s rest :
  text s = true → ∃ t, dumps_str s ++s rest = String dquote t
    ∧ read_string (String.length t) t = Some (s, rest).
Proof.
  unfold text, dumps_str. destruct (utf8_decode s) as [l|] eqn:Hd; [|done]. intros Hl.
  change (default [] (Some l)) with l. eexists. rewrite app_cons_s. split; [done|].
  unfold str1. rewrite app_assoc_s, app_cons_s, app_empty_l.
  destruct (utf8_decode_encode _ s l (le_n _) Hd) as [He _].
  rewrite read_string_codes; [by rewrite He|done|].
  rewrite str_length_app. cbn [String.length]. pose proof (escapes_length l). lia.
Qed.

(** ** Integers *)

Lemma digits_value_num acc s : digits_value acc s = num_from acc s.
Proof.
  revert acc. induction s as [|c s IH]; intros acc; [done|]. cbn [digits_value num_from].
  rewrite IH. f_equal. unfold digit_val. lia.
Qed.

(** What may follow a number without being read as part of it. *)
Definition stops (r : string) : bool :=
  match r with
  | EmptyString => true
  | String c _ => negb (digit_char c || Ascii.eqb c "." || Ascii.eqb c "e" || Ascii.eqb c "E")
  end.

Lemma read_digits_app d r :
  all_digits d = true → stops r = true → read_digits (d ++s r) = (d, r).
Proof.
  unfold all_digits. intros Hd Hr. induction d as [|c d IH].
  - rewrite app_empty_l. destruct r as [|c r]; [done|]. cbn in *.
    destruct (digit_char c); [done|]. done.
  - cbn [str_all] in Hd. apply andb_true_iff in Hd as [Hc Hd]. rewrite app_cons_s.
    cbn [read_digits]. by rewrite Hc, IH.
Qed.
Lemma no_fraction r : stops r = true → read_fraction r = (None, r).
Proof.
  destruct r as [|c r]; [done|]. cbn [stops read_fraction]. rewrite !negb_orb, !andb_true_iff, !negb_true_iff.
  intros [[[_ ->] _] _]. done.
Qed.
Lemma no_exponent r : stops r = true → read_exponent r = (None, r).
Proof.
  destruct r as [|c r]; [done|]. cbn [stops read_exponent]. rewrite !negb_orb, !andb_true_iff, !negb_true_iff.
  intros [[_ ->] ->]. done.
Qed.

(** No leading zero, except in zero. *)
Lemma int_str_head n t : 0 <= n → int_str n = String "0" t → t = EmptyString.
Proof.
  intros Hn He. destruct (int_str_digits n Hn) as (Hv & Hd & _). rewrite He in Hv, Hd.
  cbn in Hd. change (num (String "0" t)) with (num t) in Hv.
  pose proof (num_range t Hd) as Hr. destruct t as [|c t]; [done|].
  pose proof (int_str_length n (String.length (String c t)) ltac:(unfold byte_len in Hr; lia)
    ltac:(cbn; lia)) as Hl. rewrite He in Hl. cbn in Hl. lia.
Qed.

Definition int_ok (n : Z) : bool := byte_len (int_str (Z.abs n)) <=? MAX_INT_DIGITS.

Lemma read_number_digits n r :
  0 <= n → int_ok n = true → stops r = true → read_number (int_str n ++s r) = Some (JInt n, r).
Proof.
  intros Hn Hok Hr. unfold int_ok in Hok. rewrite Z.abs_eq in Hok by done.
  destruct (int_str_digits n Hn) as (Hv & Hd & Hne). pose proof (int_str_head n) as H0.
  destruct (int_str n) as [|c t]; [done|]. unfold read_number.
  rewrite app_cons_s. pose proof Hd as Hc. unfold all_digits in Hc. cbn [str_all] in Hc.
  apply andb_true_iff in Hc as [Hc _].
  assert (Ascii.eqb c "-" = false) as -> by (revert Hc; all_ascii c).
  rewrite <- app_cons_s, read_digits_app by done.
  assert ((if Ascii.eqb c "0" then ("0"%string, t ++s r) else (String c t, r)) = (String c t, r)) as ->.
  { destruct (Ascii.eqb_spec c "0") as [->|_]; [|done]. by rewrite (H0 t Hn eq_refl). }
  cbn [str_truthy negb]. rewrite no_fraction, no_exponent by done. cbn iota.
  rewrite (proj2 (Z.ltb_ge _ _)) by (by apply Z.leb_le).
  rewrite digits_value_num. unfold num in Hv. by rewrite Hv.
Qed.

Lemma read_number_int n r :
  int_ok n = true → stops r = true → read_number (int_str n ++s r) = Some (JInt n, r).
Proof.
  intros Hok Hr. destruct (Z.le_gt_cases 0 n) as [Hn|Hn]; [by apply read_number_digits|].
  assert (int_str n = String "-" (int_str (- n))) as -> by (destruct n; done).
  pose proof (read_number_digits (- n) r ltac:(lia)) as H.
  unfold int_ok in *. rewrite Z.abs_opp in H. specialize (H Hok Hr).
  revert H. unfold read_number. rewrite app_cons_s. cbn [Ascii.eqb Bool.eqb].
  destruct (int_str_digits (- n)) as (_ & Hd & Hne); [lia|].
  destruct (int_str (- n)) as [|c t]; [done|]. rewrite app_cons_s.
  pose proof Hd as Hc. unfold all_digits in Hc. cbn [str_all] in Hc.
  apply andb_true_iff in Hc as [Hc _].
  assert (Ascii.eqb c "-" = false) as -> by (revert Hc; all_ascii c).
  destruct (match read_digits _ with (EmptyString, _) => _ | (String _ _, _) => _ end) as [d s2].
  destruct (negb (str_truthy d)); [done|]. destruct (read_fraction s2) as [[f|] s3].
  - destruct (read_exponent s3) as [[]]; intros [=].
  - destruct (read_exponent s3) as [[e|] s4]; [intros [=]|].
    destruct (MAX_INT_DIGITS <? byte_len d); [done|].
    intros [= Hv ->]. do 3 f_equal. lia.
Qed.

(** A literal is none of the words. *)
Lemma not_literal c t s :
  digit_char c = true ∨ (Ascii.eqb c "-" = true ∧ ∃ d t', t = String d t' ∧ digit_char d = true) →
  read_literal (String c (t ++s s)) = None.
Proof.
  intros H. unfold read_literal.
  assert (filter (λ lv, starts_with lv.1 (String c (t ++s s)) = true) literals = []) as ->; [|done].
  destruct H as [H|[H (d & t' & -> & Hd)]].
  - apply filter_none. unfold literals.
    repeat constructor; cbn [fst starts_with]; revert H; all_ascii c.
  - apply Ascii.eqb_eq in H as ->. apply filter_none. unfold literals.
    repeat constructor; rewrite app_cons_s; cbn [fst starts_with]; revert Hd; all_ascii d.
Qed.
Lemma int_not_literal n r : read_literal (int_str n ++s r) = None.
Proof.
  assert (∀ m, 0 <= m → ∃ c t, int_str m = String c t ∧ digit_char c = true) as Hpos.
  { intros m Hm. destruct (int_str_digits m Hm) as (_ & Hd & Hne).
    destruct (int_str m) as [|c t]; [done|]. exists c, t. split; [done|].
    unfold all_digits in Hd. cbn [str_all] in Hd. by apply andb_true_iff in Hd as [? _]. }
  destruct (Z.le_gt_cases 0 n) as [Hn|Hn].
  - destruct (Hpos n Hn) as (c & t & -> & Hc). rewrite app_cons_s. apply not_literal. by left.
  - assert (int_str n = String "-" (int_str (- n))) as -> by (destruct n; done).
    destruct (Hpos (- n)) as (c & t & He & Hc); [lia|]. rewrite app_cons_s.
    apply not_literal. right. eauto.
Qed.

(** ** Values *)

Fixpoint plain_json (j : json) : bool :=
  match j with
  | JNull | JBool _ => true
  | JInt n => int_ok n
  | JFloat _ => false
  | JStr s => text s
  | JList l => forallb plain_json l
  | JObj l => bool_decide (NoDup l.*1) && forallb (λ kv, text kv.1 && plain_json kv.2) l
  end.

Lemma json_nested_ind (P : json → Prop) :
  P JNull → (∀ b, P (JBool b)) → (∀ n, P (JInt n)) → (∀ f, P (JFloat f)) → (∀ s, P (JStr s)) →
  (∀ l, Forall P l → P (JList l)) → (∀ l, Forall (λ kv, P kv.2) l → P (JObj l)) → ∀ j, P j.
Proof.
  intros H1 H2 H3 H4 H5 H6 H7. fix IH 1. intros [|b|n|f|s|l|l].
  - apply H1.
  - apply H2.
  - apply H3.
  - apply H4.
  - apply H5.
  - apply H6. induction l as [|x l IHl]; constructor; [apply IH|apply IHl].
  - apply H7. induction l as [|[k x] l IHl]; constructor; [apply (IH x)|apply IHl].
Qed.

(** The calls a value takes: what the parser's fuel must cover. *)
Fixpoint calls (j : json) : nat :=
  match j with
  | JList l => 1 + sum_list_with (λ v, S (calls v)) l
  | JObj l => 1 + sum_list_with (λ kv, S (calls kv.2)) l
  | _ => 1
  end.

(** ** ASCII output *)

Definition ascii_text : string → bool := str_all (λ c, ascii_code c <? 128).

Lemma join_all p sep l :
  str_all p sep = true → Forall (λ s, str_all p s = true) l → str_all p (str_join sep l) = true.
Proof.
  intros Hs. induction 1 as [|x l Hx Hl IH]; [done|]. destruct l as [|y l]; [done|].
  rewrite str_join_cons, !str_all_app, Hx, Hs. done.
Qed.
Lemma hex_digit_ascii d : 0 <= d < 16 → (ascii_code (hex_digit d) <? 128) = true.
Proof.
  intros H.
  assert (forallb (λ d, ascii_code (hex_digit d) <? 128) (seqZ 0 16) = true) as Hall
    by (vm_compute; reflexivity).
  rewrite forallb_forall in Hall. apply Hall, list_elem_of_In, elem_of_seqZ. lia.
Qed.
Lemma escape_u_ascii n : ascii_text (escape_u n) = true.
Proof.
  unfold ascii_text, escape_u, hex4, str1. cbn [str_all].
  rewrite !hex_digit_ascii by (apply Z.mod_pos_bound; lia). done.
Qed.
Lemma escape_code_ascii n : ascii_text (escape_code n) = true.
Proof.
  unfold escape_code. repeat (destruct (_ =? _); [done|]).
  destruct ((32 <=? n) && (n <? 127)) eqn:H.
  - apply andb_true_iff in H as [H1 H2]. bool_to_Z. unfold ascii_text, str1. cbn [str_all].
    rewrite byte_code by lia. rewrite (proj2 (Z.ltb_lt n 128)) by lia. done.
  - destruct (n <? 65536); [apply escape_u_ascii|]. unfold ascii_text. rewrite str_all_app.
    change (ascii_text (escape_u (55296 + (n - 65536) / 1024))
            && ascii_text (escape_u (56320 + (n - 65536) mod 1024)) = true).
    by rewrite !escape_u_ascii.
Qed.
Lemma dumps_str_ascii s : ascii_text (dumps_str s) = true.
Proof.
  unfold ascii_text, dumps_str. cbn [str_all]. rewrite str_all_app. apply andb_true_iff. split; [done|].
  apply andb_true_iff. split; [|done]. apply join_all; [done|]. apply Forall_forall.
  intros x Hx. apply list_elem_of_In, in_map_iff in Hx as (n & <- & _). apply escape_code_ascii.
Qed.
Lemma int_str_ascii n : ascii_text (int_str n) = true.
Proof.
  assert (∀ m, 0 <= m → ascii_text (int_str m) = true) as Hpos.
  { intros m Hm. destruct (int_str_digits m Hm) as (_ & Hd & _).
    eapply str_all_impl; [|exact Hd]. intros c; all_ascii c. }
  destruct (Z.le_gt_cases 0 n) as [Hn|Hn]; [by apply Hpos|].
  assert (int_str n = String "-" (int_str (- n))) as -> by (destruct n; done).
  apply (Hpos (- n)). lia.
Qed.

Lemma space_ascii sp : str_all json_space sp = true → ascii_text sp = true.
Proof. apply str_all_impl. intros c; all_ascii c. Qed.
Lemma utf8_decode_ascii s : ascii_text s = true → is_Some (utf8_decode s).
Proof.
  unfold ascii_text. induction s as [|c s IH]; [by eexists|]. cbn [str_all utf8_decode].
  intros [Hc Hs]%andb_true_iff. rewrite Hc. destruct (IH Hs) as [l ->]. by eexists.
Qed.
Lemma ascii_no_bom s : ascii_text s = true → starts_with (utf8_encode 65279) s = false.
Proof.
  destruct s as [|c s]; [done|]. unfold ascii_text. cbn [str_all]. intros [Hc _]%andb_true_iff.
  change (utf8_encode 65279) with (String (byte 239) (String (byte 187) (str1 (byte 191)))).
  cbn [starts_with]. revert Hc. all_ascii c.
Qed.

(** ** Lists of members *)

Lemma sum_map {A} (f : A → nat) (g : A → string) l :
  Forall (λ x, f x ≤ 2 * String.length (g x) + 1)%nat l →
  (sum_list_with f l ≤ 2 * sum_list_with String.length (map g l) + length l)%nat.
Proof. induction 1; cbn; lia. Qed.
Lemma dset_fresh {A} k (v : A) d : k ∉ d.*1 → dset k v d = d ++ [(k, v)].
Proof.
  induction d as [|[k' v'] d IH]; cbn; [done|]. intros Hk.
  destruct (String.eqb_spec k k') as [->|Hne]; [set_solver|]. rewrite IH; set_solver.
Qed.

Section separators.
(** A comma and a colon, each followed by white space only. *)
Context (comma colon sp1 sp2 : string).
Context (Hcomma : comma = String "," sp1) (Hcolon : colon = String ":" sp2).
Context (Hsp1 : str_all json_space sp1 = true) (Hsp2 : str_all json_space sp2 = true).
#[local] Set Default Proof Using "All".

Abbreviation print := (dumps_sep comma colon).

(** ** What printed text starts with *)

Definition starter (c : ascii) : bool :=
  negb (json_space c) && negb (Ascii.eqb c "]") && negb (Ascii.eqb c "}").

Lemma print_head j : plain_json j = true → ∃ c t, print j = String c t ∧ starter c = true.
Proof.
  destruct j as [|b|n|f|s|l|l]; cbn [print plain_json]; intros Hj.
  - by eexists _, _.
  - destruct b; by eexists _, _.
  - destruct (int_str n) as [|c t] eqn:He.
    + destruct n as [|p|p]; [done| |done].
      by destruct (int_str_digits (Z.pos p) ltac:(lia)) as (_ & _ & ?).
    + exists c, t. split; [done|].
      destruct (Z.le_gt_cases 0 n) as [Hn|Hn].
      * destruct (int_str_digits n Hn) as (_ & Hd & _). rewrite He in Hd.
        unfold all_digits in Hd. cbn [str_all] in Hd. apply andb_true_iff in Hd as [Hc _].
        revert Hc. all_ascii c.
      * assert (int_str n = String "-" (int_str (- n))) as H by (destruct n; done).
        rewrite H in He. injection He as <- _. by vm_compute.
  - done.
  - unfold dumps_str. by eexists _, _.
  - by eexists _, _.
  - by eexists _, _.
Qed.

Lemma skip_starter c t : starter c = true → skip (String c t) = String c t.
Proof.
  unfold starter, skip. rewrite !andb_true_iff, !negb_true_iff. intros [[H _] _].
  cbn [lstrip_by]. by rewrite H.
Qed.
Lemma skip_spaces sp s : str_all json_space sp = true → skip (sp ++s s) = skip s.
Proof.
  unfold skip. induction sp as [|c sp IH]; [done|]. cbn [str_all]. rewrite app_cons_s. cbn [lstrip_by].
  intros [Hc Hs]%andb_true_iff. rewrite Hc. auto.
Qed.

Lemma skip_print sp j s : str_all json_space sp = true → plain_json j = true →
  skip (sp ++s (print j ++s s)) = print j ++s s.
Proof.
  intros Hs Hj. rewrite skip_spaces by done. destruct (print_head j Hj) as (c & t & -> & Hc).
  rewrite app_cons_s. by apply skip_starter.
Qed.

(** ** Reading back *)

Definition reads_back (j : json) : Prop :=
  plain_json j = true → ∀ fuel rest, (calls j ≤ fuel)%nat → stops rest = true →
  read_value fuel (print j ++s rest) = Some (j, rest).

Lemma read_items_print l fuel rest :
  Forall reads_back l → l ≠ [] → forallb plain_json l = true →
  (sum_list_with (λ v, S (calls v)) l ≤ fuel)%nat →
  read_items fuel (str_join comma (map print l) ++s String "]" rest) = Some (l, rest).
Proof.
  intros Hall Hne. revert fuel. induction Hall as [|v l Hv Hall IH]; [done|].
  intros fuel Hp Hf. cbn [forallb] in Hp. apply andb_true_iff in Hp as [Hpv Hpl].
  cbn [sum_list_with] in Hf. destruct fuel as [|fuel]; [lia|]. cbn [read_items].
  destruct l as [|v2 l].
  - cbn [map str_join]. rewrite Hv by (done || lia). done.
  - cbn [map]. rewrite str_join_cons, !app_assoc_s.
    change (print v2 :: map print l) with (map print (v2 :: l)).
    rewrite Hv; [|done|lia|by rewrite Hcomma]. cbn [mbind option_bind].
    rewrite Hcomma at 1. rewrite app_cons_s. rewrite skip_starter by done.
    change (Ascii.eqb "," "]") with false. change (Ascii.eqb "," ",") with true. cbn iota.
    assert (skip (sp1 ++s (str_join comma (map print (v2 :: l)) ++s String "]" rest))
            = str_join comma (map print (v2 :: l)) ++s String "]" rest) as ->.
    { cbn [forallb] in Hpl. apply andb_true_iff in Hpl as [Hv2 _]. destruct l as [|v3 l].
      - cbn [map str_join]. by apply skip_print.
      - cbn [map]. rewrite str_join_cons, !app_assoc_s. by apply skip_print. }
    rewrite IH by (done || lia). done.
Qed.

Definition print_member (kv : string * json) : string := dumps_str kv.1 ++s (colon ++s print kv.2).

Lemma skip_member sp kv s : str_all json_space sp = true →
  skip (sp ++s (print_member kv ++s s)) = print_member kv ++s s.
Proof.
  intros Hs. rewrite skip_spaces by done. unfold print_member, dumps_str. rewrite !app_cons_s.
  by apply skip_starter.
Qed.

Lemma read_members_print l d fuel rest :
  Forall (λ kv, reads_back kv.2) l → l ≠ [] → NoDup (d ++ l).*1 →
  forallb (λ kv, text kv.1 && plain_json kv.2) l = true →
  (sum_list_with (λ kv, S (calls kv.2)) l ≤ fuel)%nat →
  read_members fuel d (str_join comma (map print_member l) ++s String "}" rest) = Some (d ++ l, rest).
Proof.
  intros Hall Hne. revert d fuel. induction Hall as [|[k v] l Hv Hall IH]; [done|].
  intros d fuel Hnd Hp Hf. cbn [forallb fst snd] in Hp. apply andb_true_iff in Hp as [Hpk Hpl].
  apply andb_true_iff in Hpk as [Hpk Hpv].
  cbn [sum_list_with snd] in Hf. destruct fuel as [|fuel]; [lia|]. cbn [snd] in Hv.
  assert (k ∉ d.*1) as Hk.
  { rewrite fmap_app in Hnd. apply NoDup_app in Hnd as (_ & Hd & _). intros Hin.
    apply (Hd k Hin). cbn. set_solver. }
  set (tail := match l with [] => String "}" rest
               | _ => comma ++s (str_join comma (map print_member l) ++s String "}" rest) end).
  assert (str_join comma (map print_member ((k, v) :: l)) ++s String "}" rest
          = dumps_str k ++s (colon ++s (print v ++s tail))) as ->.
  { unfold tail. destruct l; cbn [map].
    - cbn [str_join]. unfold print_member. cbn [fst snd]. by rewrite !app_assoc_s.
    - rewrite str_join_cons. unfold print_member at 1. cbn [fst snd]. by rewrite !app_assoc_s. }
  destruct (read_string_dumps k (colon ++s (print v ++s tail)) Hpk) as (t & -> & Ht).
  cbn [read_members]. rewrite Ascii.eqb_refl. cbn [negb]. rewrite Ht. cbn [mbind option_bind].
  rewrite Hcolon at 1. rewrite app_cons_s, skip_starter by done. cbn [Ascii.eqb Bool.eqb negb].
  rewrite skip_print by done.
  assert (stops tail = true) as Hst by (unfold tail; destruct l; [done|by rewrite Hcomma]).
  rewrite Hv by (done || lia). cbn [mbind option_bind]. rewrite dset_fresh by done.
  unfold tail. destruct l as [|[k2 v2] l].
  - done.
  - rewrite Hcomma at 1. rewrite app_cons_s, skip_starter by done.
    cbn [Ascii.eqb Bool.eqb].
    assert (∀ s, skip (sp1 ++s (str_join comma (map print_member ((k2, v2) :: l)) ++s s))
            = str_join comma (map print_member ((k2, v2) :: l)) ++s s) as Hskip.
    { intros s. destruct l; cbn [map]; [cbn [str_join]; by apply skip_member|].
      rewrite str_join_cons, !app_assoc_s. by apply skip_member. }
    rewrite Hskip, IH; [by rewrite <- app_assoc|done|by rewrite <- app_assoc|done|lia].
Qed.

Lemma read_value_print j : reads_back j.
Proof.
  induction j as [|b|n|f|s|l IH|l IH] using json_nested_ind; intros Hp fuel rest Hf Hr;
    (destruct fuel as [|fuel]; [cbn in Hf; lia|]).
  - done.
  - by destruct b.
  - cbn [print]. pose proof (int_not_literal n rest) as Hl. pose proof (read_number_int n rest Hp Hr) as Hn.
    destruct (print_head (JInt n) Hp) as (c & t & He & _). cbn [print] in He.
    destruct (decide (Ascii.eqb c dquote = true ∨ Ascii.eqb c "{" = true ∨ Ascii.eqb c "[" = true)) as [Hc|Hc].
    { exfalso. rewrite He, app_cons_s in Hn. unfold read_number in Hn.
      destruct Hc as [Hc|[Hc|Hc]]; apply Ascii.eqb_eq in Hc as ->; cbn in Hn; done. }
    rewrite He in *. rewrite app_cons_s in *. cbn [read_value].
    destruct (Ascii.eqb c dquote), (Ascii.eqb c "{"), (Ascii.eqb c "["); try tauto.
    by rewrite Hl.
  - done.
  - cbn [print plain_json] in *. destruct (read_string_dumps s rest Hp) as (t & -> & Ht).
    cbn [read_value]. rewrite Ascii.eqb_refl, Ht. done.
  - cbn [print plain_json calls] in *. rewrite !app_assoc_s, !app_cons_s, app_empty_l.
    cbn [read_value]. cbn [Ascii.eqb Bool.eqb]. rewrite app_empty_l.
    destruct l as [|v l]; [done|].
    pose proof (read_items_print (v :: l) fuel rest IH ltac:(done) Hp ltac:(lia)) as Hi.
    cbn [forallb] in Hp. apply andb_true_iff in Hp as [Hv _].
    destruct (print_head v Hv) as (c & t & He & Hc).
    assert (∃ t', str_join comma (map print (v :: l)) ++s String "]" rest = String c t') as [t' Ht'].
    { destruct l; cbn [map]; [cbn [str_join]|rewrite str_join_cons]; rewrite He, ?app_cons_s; eauto. }
    rewrite Ht' in *. rewrite skip_starter by done.
    unfold starter in Hc. rewrite !andb_true_iff, !negb_true_iff in Hc. destruct Hc as [[_ ->] _].
    by rewrite Hi.
  - cbn [print plain_json calls] in *. rewrite !app_assoc_s, !app_cons_s, app_empty_l.
    cbn [read_value]. cbn [Ascii.eqb Bool.eqb]. rewrite app_empty_l.
    apply andb_true_iff in Hp as [Hnd Hp]. apply bool_decide_eq_true in Hnd.
    destruct l as [|kv l]; [done|].
    pose proof (read_members_print (kv :: l) [] fuel rest IH ltac:(done) Hnd Hp ltac:(lia)) as Hi.
    assert (∃ t', str_join comma (map print_member (kv :: l)) ++s String "}" rest = String dquote t')
      as [t' Ht'].
    { unfold print_member at 1, dumps_str. destruct l; cbn [map]; [cbn [str_join]|rewrite str_join_cons];
        rewrite !app_cons_s; eauto. }
    change (map (λ kv0, dumps_str kv0.1 ++s (colon ++s print kv0.2)) (kv :: l))
      with (map print_member (kv :: l)).
    rewrite Ht' in *. rewrite skip_starter by done.
    change (Ascii.eqb dquote "}") with false. cbn iota. by rewrite Hi.
Qed.

(** ** Whole documents *)

Lemma print_ascii j : plain_json j = true → ascii_text (print j) = true.
Proof.
  assert (ascii_text comma = true) as Hc by (rewrite Hcomma; exact (space_ascii _ Hsp1)).
  assert (ascii_text colon = true) as Hk by (rewrite Hcolon; exact (space_ascii _ Hsp2)).
  unfold ascii_text in *.
  induction j as [|b|n|f|s|l IH|l IH] using json_nested_ind; cbn [print plain_json]; intros Hp.
  - done.
  - by destruct b.
  - apply int_str_ascii.
  - done.
  - apply dumps_str_ascii.
  - rewrite !str_all_app, andb_true_r. apply join_all; [done|]. apply Forall_forall.
    intros x (v & <- & Hv)%list_elem_of_In%in_map_iff. rewrite forallb_forall in Hp.
    rewrite Forall_forall in IH. apply IH; [by apply list_elem_of_In|by apply Hp].
  - apply andb_true_iff in Hp as [_ Hp]. rewrite !str_all_app, andb_true_r.
    apply join_all; [done|]. apply Forall_forall.
    intros x (v & <- & Hv)%list_elem_of_In%in_map_iff. rewrite forallb_forall in Hp.
    rewrite Forall_forall in IH. specialize (Hp v Hv). apply andb_true_iff in Hp as [_ Hp].
    apply list_elem_of_In in Hv. rewrite !str_all_app, Hk, (IH v Hv Hp).
    rewrite (dumps_str_ascii v.1 : str_all _ _ = true). done.
Qed.

Lemma commas_length l :
  (sum_list_with String.length l + pred (length l) ≤ String.length (str_join comma l))%nat.
Proof.
  induction l as [|x l IH]; [done|]. destruct l as [|y l]; [cbn; lia|].
  rewrite str_join_cons, !str_length_app.
  assert (1 ≤ String.length comma)%nat by (rewrite Hcomma; cbn; lia).
  cbn [length pred sum_list_with] in *. lia.
Qed.

(** The fuel of [loads] covers the calls the document takes. *)
Lemma calls_print j : plain_json j = true → (calls j ≤ 2 * String.length (print j))%nat.
Proof.
  induction j as [|b|n|f|s|l IH|l IH] using json_nested_ind; cbn [print plain_json calls]; intros Hp.
  - cbn; lia.
  - destruct b; cbn; lia.
  - destruct (print_head (JInt n) Hp) as (c & t & He & _). cbn [print] in He. rewrite He. cbn. lia.
  - done.
  - unfold dumps_str. cbn [String.length]. lia.
  - rewrite !str_length_app. pose proof (commas_length (map print l)) as Hl.
    rewrite length_map in Hl.
    assert (sum_list_with (λ v, S (calls v)) l
            ≤ 2 * sum_list_with String.length (map print l) + length l)%nat as Hs.
    { apply sum_map. apply Forall_forall. intros v Hv. rewrite Forall_forall in IH.
      rewrite forallb_forall in Hp.
      specialize (IH v Hv (Hp v (proj1 (list_elem_of_In _ _) Hv))). lia. }
    destruct l; cbn [length pred] in *; cbn [String.length]; lia.
  - apply andb_true_iff in Hp as [_ Hp]. rewrite !str_length_app.
    pose proof (commas_length (map print_member l)) as Hl. rewrite length_map in Hl.
    assert (sum_list_with (λ kv, S (calls kv.2)) l
            ≤ 2 * sum_list_with String.length (map print_member l) + length l)%nat as Hs.
    { apply sum_map. apply Forall_forall. intros v Hv. rewrite Forall_forall in IH.
      rewrite forallb_forall in Hp.
      pose proof (Hp v (proj1 (list_elem_of_In _ _) Hv)) as Hv2.
      apply andb_true_iff in Hv2 as [_ Hv2]. specialize (IH v Hv Hv2).
      unfold print_member. rewrite !str_length_app. lia. }
    change (map (λ kv, dumps_str kv.1 ++s (colon ++s print kv.2)) l) with (map print_member l).
    destruct l; cbn [length pred] in *; cbn [String.length]; lia.
Qed.

Lemma loads_print j : plain_json j = true → loads (print j) = Some j.
Proof.
  intros Hp. pose proof (print_ascii j Hp) as Ha. unfold loads.
  rewrite ascii_no_bom by done. destruct (utf8_decode_ascii _ Ha) as [codes ->].
  cbn [mbind option_bind]. unfold loads_str.
  pose proof (skip_print EmptyString j EmptyString eq_refl Hp) as Hs.
  rewrite app_empty_l, app_empty_r in Hs. rewrite Hs.
  pose proof (read_value_print j Hp (2 * String.length (print j))%nat EmptyString (calls_print j Hp) eq_refl)
    as Hr. rewrite app_empty_r in Hr. by rewrite Hr.
Qed.
End separators.

(** [json.loads(json.dumps(value))] and the same of the compact form. *)
Lemma loads_dumps j : plain_json j = true → loads (dumps j) = Some j.
Proof. by apply (loads_print _ _ " " " "). Qed.
Lemma loads_dumps_compact j : plain_json j = true → loads (dumps_compact j) = Some j.
Proof. by apply (loads_print _ _ "" ""). Qed.
