(* ===== verification/PyBase64.v ===== *)
(** * base64 *)
(** The functions of Python's [base64] the gateway calls.  Decoding is the loop of
    [binascii.a2b_base64] as CPython 3.11 runs it: without [strict_mode] it skips what
    is not in the alphabet and stops at the first complete padding, with it either is
    an error.  [None] is [binascii.Error] or, for text outside ASCII, [ValueError]. *)
From S2P Require Export Json.
From Stdlib Require Import Ascii.
From stdpp Require Import options.
Local Open Scope Z_scope.

(** ** The alphabet *)

Definition chr (n : Z) : ascii := ascii_of_nat (Z.to_nat n).

Definition b64_char (v : Z) : ascii :=
  if v <? 26 then chr (v + 65)
  else if v <? 52 then chr (v + 71)
  else if v <? 62 then chr (v - 4)
  else if v =? 62 then "+"%char else "/"%char.
Definition b64_value (c : ascii) : option Z :=
  let n := ascii_code c in
  if (65 <=? n) && (n <=? 90) then Some (n - 65)
  else if (97 <=? n) && (n <=? 122) then Some (n - 71)
  else if (48 <=? n) && (n <=? 57) then Some (n + 4)
  else if n =? 43 then Some 62
  else if n =? 47 then Some 63
  else None.
Definition b64_pad : ascii := "="%char.

(** ** Encoding *)

(** [base64.b64encode(data)] *)
Fixpoint b64encode (data : string) : string :=
  match data with
  | String a (String b (String c rest)) =>
      let x := ascii_code a in let y := ascii_code b in let z := ascii_code c in
      String (b64_char (x / 4)) (String (b64_char (x mod 4 * 16 + y / 16))
        (String (b64_char (y mod 16 * 4 + z / 64)) (String (b64_char (z mod 64))
          (b64encode rest))))
  | String a (String b EmptyString) =>
      let x := ascii_code a in let y := ascii_code b in
      String (b64_char (x / 4)) (String (b64_char (x mod 4 * 16 + y / 16))
        (String (b64_char (y mod 16 * 4)) (str1 b64_pad)))
  | String a EmptyString =>
      let x := ascii_code a in
      String (b64_char (x / 4)) (String (b64_char (x mod 4 * 16)) (String b64_pad (str1 b64_pad)))
  | EmptyString => EmptyString
  end.

(** ** Decoding *)

(** The loop: whether a padding character was seen, the characters read of the
    current group of four, the bits left over from the last of them, and the padding
    characters since. *)
Fixpoint a2b_loop (strict started : bool) (quad left pads : Z) (s : string) : option string :=
  match s with
  | EmptyString => if quad =? 0 then Some EmptyString else None
  | String c s' =>
      if Ascii.eqb c b64_pad then
        let pads := if 2 <=? quad then pads + 1 else pads in
        if (2 <=? quad) && (4 <=? quad + pads)
        then if strict && str_truthy s' then None else Some EmptyString
        else a2b_loop strict true quad left pads s'
      else match b64_value c with
      | None => if strict then None else a2b_loop strict started quad left pads s'
      | Some v =>
          if strict && started then None
          else if quad =? 0 then a2b_loop strict started 1 v 0 s'
          else if quad =? 1 then
            String (chr (left * 4 + v / 16)) <$> a2b_loop strict started 2 (v mod 16) 0 s'
          else if quad =? 2 then
            String (chr (left * 16 + v / 4)) <$> a2b_loop strict started 3 (v mod 4) 0 s'
          else String (chr (left * 64 + v)) <$> a2b_loop strict started 0 0 0 s'
      end
  end.

(** [binascii.a2b_base64(data, strict_mode=strict)] *)
Definition a2b_base64 (strict : bool) (s : string) : option string :=
  if strict && starts_with (str1 b64_pad) s then None else a2b_loop strict false 0 0 0 s.

Definition ascii_only : string → bool := str_all (λ c, ascii_code c <? 128).

(** [base64.b64decode(text, validate=validate)] of a [str] *)
Definition b64decode (validate : bool) (text : string) : option string :=
  if ascii_only text then a2b_base64 validate text else None.

(** ** The URL-safe alphabet *)

Definition to_urlsafe (c : ascii) : ascii :=
  if Ascii.eqb c "+" then "-"%char else if Ascii.eqb c "/" then "_"%char else c.
Definition from_urlsafe (c : ascii) : ascii :=
  if Ascii.eqb c "-" then "+"%char else if Ascii.eqb c "_" then "/"%char else c.
Definition urlsafe_b64encode (data : string) : string := str_map to_urlsafe (b64encode data).
Definition urlsafe_b64decode (text : string) : option string :=
  if ascii_only text then a2b_base64 false (str_map from_urlsafe text) else None.

Example base64_examples :
  map b64encode [""; "f"; "fo"; "foo"; "foobar"]%string
    = [""; "Zg=="; "Zm8="; "Zm9v"; "Zm9vYmFy"]%string
  ∧ map (b64decode true) ["Zm8="; "Zm8"; "Zm8=="; "Z m8="; "=Zm8"; "Zm=8"; "Zg=="; "Zm9v="]%string
    = [Some "fo"; None; None; None; None; None; Some "f"; Some "foo"]%string
  ∧ map (b64decode false) ["Zm8="; "Zm8"; "Zm8=="; "Z m8="; "=Zm8="; "Zm=8"; "Zg==xx"; "Z"]%string
    = [Some "fo"; None; Some "fo"; Some "fo"; Some "fo"; None; Some "f"; None]%string
  ∧ urlsafe_b64encode (String (chr 251) (str1 (chr 255))) = "-_8="%string.
Proof. vm_compute. split_and!; reflexivity. Qed.

(** ** Facts *)

Lemma ascii_code_range c : 0 <= ascii_code c < 256.
Proof. unfold ascii_code. pose proof (nat_ascii_bounded c). lia. Qed.
Lemma chr_code c : chr (ascii_code c) = c.
Proof. unfold chr, ascii_code. rewrite Nat2Z.id. apply ascii_nat_embedding. Qed.

(** What holds of 0..63 when it is checked of each. *)
Lemma below_64 (P : Z → bool) v : forallb P (seqZ 0 64) = true → 0 <= v < 64 → P v = true.
Proof.
  intros H Hv. rewrite forallb_forall in H. apply H, list_elem_of_In, elem_of_seqZ. lia.
Qed.
Definition sextet_facts (v : Z) : bool :=
  let c := b64_char v in
  let u := to_urlsafe c in
  bool_decide (b64_value c = Some v)
  && (negb (Ascii.eqb c b64_pad)
  && (Ascii.eqb (from_urlsafe u) c
  && (negb (Ascii.eqb u b64_pad)
  && (negb (Ascii.eqb u ".")
  && (((ascii_code u <? 128) && (ascii_code c <? 128))
  && (negb (space_char u) && negb (space_char c))))))).
Lemma b64_char_spec v :
  0 <= v < 64 →
  let c := b64_char v in
  let u := to_urlsafe c in
  b64_value c = Some v ∧ Ascii.eqb c b64_pad = false
  ∧ from_urlsafe u = c ∧ Ascii.eqb u b64_pad = false ∧ Ascii.eqb u "." = false
  ∧ ((ascii_code u <? 128) = true ∧ (ascii_code c <? 128) = true)
  ∧ space_char u = false ∧ space_char c = false.
Proof.
  intros Hv c u.
  assert (sextet_facts v = true) as H by (apply below_64; [vm_compute; reflexivity|done]).
  unfold sextet_facts in H. fold c in H. fold u in H.
  rewrite !andb_true_iff, !negb_true_iff, bool_decide_eq_true, Ascii.eqb_eq in H. tauto.
Qed.

Lemma a2b_value strict quad left s v :
  0 <= v < 64 →
  a2b_loop strict false quad left 0 (String (b64_char v) s)
  = if quad =? 0 then a2b_loop strict false 1 v 0 s
    else if quad =? 1 then
      String (chr (left * 4 + v / 16)) <$> a2b_loop strict false 2 (v mod 16) 0 s
    else if quad =? 2 then
      String (chr (left * 16 + v / 4)) <$> a2b_loop strict false 3 (v mod 4) 0 s
    else String (chr (left * 64 + v)) <$> a2b_loop strict false 0 0 0 s.
Proof.
  intros Hv. destruct (b64_char_spec v Hv) as (H1 & H2 & _). cbn [a2b_loop].
  rewrite H2, H1. by rewrite andb_false_r.
Qed.

(** Recursion three bytes at a time. *)
Lemma string_ind3 (P : string → Prop) :
  P EmptyString → (∀ a, P (str1 a)) → (∀ a b, P (String a (str1 b))) →
  (∀ a b c s, P s → P (String a (String b (String c s)))) → ∀ s, P s.
Proof.
  intros H0 H1 H2 H3. fix IH 1. intros [|a [|b [|c s]]]; [done|apply H1|apply H2|].
  apply H3, IH.
Qed.

Ltac byte_range :=
  repeat match goal with
  | |- context [ascii_code ?c] =>
      lazymatch goal with
      | _ : 0 <= ascii_code c < 256 |- _ => fail
      | _ => pose proof (ascii_code_range c)
      end
  end.
(** Bounds of quotients and remainders by the constants of the encoding. *)
Ltac bits := byte_range; Z.div_mod_to_equations; lia.

Lemma chr_sextets x a : x = ascii_code a → chr x = a.
Proof. intros ->. apply chr_code. Qed.

(** The loop reads back what was encoded. *)
Lemma a2b_loop_encode strict s : a2b_loop strict false 0 0 0 (b64encode s) = Some s.
Proof.
  induction s as [|a|a b|a b c s IH] using string_ind3; [done| | |];
    unfold str1; cbn [b64encode]; rewrite !a2b_value by bits; cbn [Z.eqb Pos.eqb].
  - assert (∀ left, a2b_loop strict false 2 left 0 (String b64_pad (String b64_pad EmptyString))
                    = Some EmptyString) as Hp by (intros; by destruct strict).
    unfold str1. rewrite Hp. cbn. do 2 f_equal. apply chr_sextets; bits.
  - assert (∀ left, a2b_loop strict false 3 left 0 (String b64_pad EmptyString)
                    = Some EmptyString) as Hp by (intros; by destruct strict).
    rewrite Hp. cbn. do 2 f_equal; [|f_equal]; apply chr_sextets; bits.
  - rewrite IH. cbn. do 2 f_equal; [|f_equal; [|f_equal]]; apply chr_sextets; bits.
Qed.

(** The text of [data] without its padding. *)
Fixpoint b64_body (data : string) : string :=
  match data with
  | String a (String b (String c rest)) =>
      let x := ascii_code a in let y := ascii_code b in let z := ascii_code c in
      String (b64_char (x / 4)) (String (b64_char (x mod 4 * 16 + y / 16))
        (String (b64_char (y mod 16 * 4 + z / 64)) (String (b64_char (z mod 64)) (b64_body rest))))
  | String a (String b EmptyString) =>
      let x := ascii_code a in let y := ascii_code b in
      String (b64_char (x / 4)) (String (b64_char (x mod 4 * 16 + y / 16))
        (str1 (b64_char (y mod 16 * 4))))
  | String a EmptyString =>
      let x := ascii_code a in String (b64_char (x / 4)) (str1 (b64_char (x mod 4 * 16)))
  | EmptyString => EmptyString
  end.
Definition b64_padding (data : string) : string :=
  str_repeat (Z.to_nat ((- byte_len (b64_body data)) mod 4)) (str1 b64_pad).

Lemma mod4_step n : (- (4 + n)) mod 4 = (- n) mod 4.
Proof. replace (- (4 + n)) with (- n + (-1) * 4) by lia. apply Z_mod_plus_full. Qed.

Lemma b64encode_body s : b64encode s = b64_body s ++s b64_padding s.
Proof.
  induction s as [|a|a b|a b c s IH] using string_ind3; [done..|].
  cbn [b64encode b64_body]. unfold b64_padding, byte_len in *. cbn [b64_body String.length].
  rewrite !Nat2Z.inj_succ.
  match goal with |- context [Z.succ (Z.succ (Z.succ (Z.succ ?n)))] =>
    replace (Z.succ (Z.succ (Z.succ (Z.succ n)))) with (4 + n) by lia end.
  rewrite mod4_step. rewrite !app_cons_s. by rewrite IH.
Qed.

(** Every character of the body is a sextet's. *)
Lemma b64_body_all (p : ascii → bool) s :
  (∀ v, 0 <= v < 64 → p (b64_char v) = true) → str_all p (b64_body s) = true.
Proof.
  intros H. induction s as [|a|a b|a b c s IH] using string_ind3; [done| | |];
    unfold str1; cbn [b64_body str_all str1]; rewrite ?andb_true_iff, ?IH;
    split_and?; try apply H; try done; bits.
Qed.

(** Three bytes make four characters. *)
Lemma b64encode_length s : byte_len (b64encode s) = 4 * ((byte_len s + 2) / 3).
Proof.
  unfold byte_len. induction s as [|a|a b|a b c s IH] using string_ind3; [done..|].
  cbn [b64encode String.length]. rewrite !Nat2Z.inj_succ, IH.
  replace (Z.succ (Z.succ (Z.succ (Z.of_nat (String.length s)))) + 2)
    with (Z.of_nat (String.length s) + 2 + 1 * 3) by lia.
  rewrite Z.div_add by lia. lia.
Qed.

Lemma pads_all p k : p b64_pad = true → str_all p (str_repeat k (str1 b64_pad)) = true.
Proof. intros H. induction k as [|k IH]; [done|]. cbn [str_repeat]. rewrite str_all_app, IH. cbn. by rewrite H. Qed.

(** A property of the alphabet and of the padding holds of all encoded text. *)
Lemma b64encode_all p s :
  (∀ v, 0 <= v < 64 → p (b64_char v) = true) → p b64_pad = true → str_all p (b64encode s) = true.
Proof.
  intros H Hp. rewrite b64encode_body, str_all_app. unfold b64_padding.
  rewrite pads_all by done. by rewrite b64_body_all.
Qed.

Lemma sextet_not_pad v s : 0 <= v < 64 → starts_with (str1 b64_pad) (String (b64_char v) s) = false.
Proof.
  intros Hv. destruct (b64_char_spec v Hv) as (_ & H & _). unfold str1. cbn [starts_with].
  rewrite Ascii.eqb_sym. cbn zeta in H. by rewrite H.
Qed.
Lemma b64encode_start s : starts_with (str1 b64_pad) (b64encode s) = false.
Proof. destruct s as [|a [|b [|c s]]]; [done|..]; apply sextet_not_pad; bits. Qed.

(** [b64decode] inverts [b64encode], whether it validates or not. *)
Lemma b64decode_encode validate s : b64decode validate (b64encode s) = Some s.
Proof.
  unfold b64decode, ascii_only. rewrite b64encode_all; [|intros v Hv; apply (b64_char_spec v Hv)|done].
  unfold a2b_base64. rewrite b64encode_start, andb_false_r. apply a2b_loop_encode.
Qed.

Lemma str_map_sextets f g s :
  (∀ v, 0 <= v < 64 → f (g (b64_char v)) = b64_char v) → f (g b64_pad) = b64_pad →
  str_map f (str_map g (b64encode s)) = b64encode s.
Proof.
  intros H Hp. rewrite str_map_compose. apply str_map_id.
  apply b64encode_all; [|by rewrite Hp]. intros v Hv. rewrite H by done. apply Ascii.eqb_refl.
Qed.

Lemma str_all_map p f s : str_all p (str_map f s) = str_all (λ c, p (f c)) s.
Proof. induction s as [|c s IH]; cbn; [done|]. by rewrite IH. Qed.
Lemma str_map_length f s : String.length (str_map f s) = String.length s.
Proof. induction s as [|c s IH]; cbn; [done|]. by rewrite IH. Qed.
Lemma str_map_repeat f k c : str_map f (str_repeat k (str1 c)) = str_repeat k (str1 (f c)).
Proof. induction k as [|k IH]; [done|]. cbn [str_repeat]. by rewrite str_map_app, IH. Qed.

Lemma urlsafe_b64decode_encode s : urlsafe_b64decode (urlsafe_b64encode s) = Some s.
Proof.
  unfold urlsafe_b64decode, urlsafe_b64encode, ascii_only. rewrite str_all_map.
  rewrite b64encode_all; [|intros v Hv; apply (b64_char_spec v Hv)|done].
  rewrite str_map_sextets; [|intros v Hv; apply (b64_char_spec v Hv)|done].
  unfold a2b_base64. cbn [andb]. apply a2b_loop_encode.
Qed.

(** Without its padding, and with it put back. *)
Lemma urlsafe_strip_pad s :
  rstrip_char b64_pad (urlsafe_b64encode s) = str_map to_urlsafe (b64_body s)
  ∧ str_map to_urlsafe (b64_body s)
    ++s str_repeat (Z.to_nat ((- byte_len (str_map to_urlsafe (b64_body s))) mod 4)) (str1 b64_pad)
    = urlsafe_b64encode s.
Proof.
  unfold urlsafe_b64encode. rewrite b64encode_body, str_map_app. unfold b64_padding.
  rewrite str_map_repeat. change (to_urlsafe b64_pad) with b64_pad. split.
  - unfold rstrip_char. rewrite rstrip_by_app by (by apply pads_all).
    apply rstrip_by_none. rewrite str_all_map. apply b64_body_all. intros v Hv.
    destruct (b64_char_spec v Hv) as (_ & _ & _ & H & _). rewrite Ascii.eqb_sym in H.
    cbn beta zeta in *. by rewrite H.
  - unfold byte_len. by rewrite str_map_length.
Qed.
