(* ===== verification/Models.v ===== *)
(** * Domain models *)
(** [domain/models.py]: services and their instances, the requests and responses
    every layer passes on, health reports.  Durations are nanoseconds. *)
From S2P Require Export Errors Sha256.
From Stdlib Require Import Ascii.
From stdpp Require Import options.
Local Open Scope Z_scope.

(** Ordered name/value pairs; a repeated name stays repeated. *)
Abbreviation Headers := (list (string * string)).

Definition IDEMPOTENT_METHODS : list string := ["GET"; "HEAD"; "OPTIONS"; "PUT"; "DELETE"]%string.

Definition mem_str (s : string) (l : list string) : bool := existsb (String.eqb s) l.

Lemma mem_str_spec s l : mem_str s l = true ↔ s ∈ l.
Proof.
  unfold mem_str. rewrite existsb_exists, list_elem_of_In. split.
  - intros (x & Hx & He). by apply String.eqb_eq in He as ->.
  - intros H. exists s. by rewrite String.eqb_refl.
Qed.
Lemma mem_str_false s l : mem_str s l = false ↔ s ∉ l.
Proof. rewrite <- not_true_iff_false, mem_str_spec. done. Qed.

(** ** Services *)

Record ServiceInstance : Type := mkInstance {
  base_url : string;
  instance_id : string
}.

Global Instance ServiceInstance_eq_dec : EqDecision ServiceInstance.
Proof. solve_decision. Defined.

(** [ServiceInstance(base_url)]: the id is the head of the URL's SHA-256. *)
Definition ServiceInstance_new (url : string) : ServiceInstance :=
  {| base_url := url; instance_id := str_take 8 (sha256_hex url) |}.

Record ServiceDefinition : Type := mkService {
  service_name : string;
  base_urls : list string;
  timeout_seconds : Z;
  health_path : string;
  read_timeout_seconds : option Z;
  service_headers : Headers;
  instances : list ServiceInstance
}.

Definition read_timeout (s : ServiceDefinition) : Z :=
  match read_timeout_seconds s with
  | None => timeout_seconds s
  | Some t => t
  end.

(** [len({instance.id ...}) != len(instances)] *)
Definition ids_repeat (ins : list ServiceInstance) : bool :=
  negb (bool_decide (NoDup (instance_id <$> ins))).

(** The constructor with its [__post_init__]. *)
Definition ServiceDefinition_new (name : string) (urls : list string) (timeout : Z)
    (health : string) (read : option Z) (headers : Headers) : result exn ServiceDefinition :=
  let ins := ServiceInstance_new <$> urls in
  match ins with
  | [] => Raise (ValueError ("Service '" ++s name ++s "' needs at least one base URL"))
  | _ =>
      if ids_repeat ins
      then Raise (ValueError ("Service '" ++s name ++s "' lists the same base URL twice"))
      else Ok {| service_name := name; base_urls := urls; timeout_seconds := timeout;
                 health_path := health; read_timeout_seconds := read;
                 service_headers := headers; instances := ins |}
  end.

Fixpoint find_instance (id : string) (ins : list ServiceInstance) : option ServiceInstance :=
  match ins with
  | [] => None
  | i :: ins' => if String.eqb (instance_id i) id then Some i else find_instance id ins'
  end.

(** [ServiceDefinition.instance] *)
Definition service_instance (s : ServiceDefinition) (id : string)
    : result exn ServiceInstance :=
  match find_instance id (instances s) with
  | Some i => Ok i
  | None => Raise (InstanceNotFoundError (service_name s) id)
  end.

(** ** Requests *)

Record InboundRequest : Type := mkInbound {
  in_method : string;
  in_path : string;
  in_headers : Headers;
  in_query_params : Headers;
  in_body : string;
  client_host : option string;
  scheme : string;
  host : option string;
  request_id : option string
}.

Record OutboundRequest : Type := mkOutbound {
  out_service : ServiceDefinition;
  out_method : string;
  out_path : string;
  out_headers : Headers;
  out_query_params : Headers;
  out_body : string;
  out_instance : option ServiceInstance
}.

(** [dataclasses.replace(request, instance=i)] *)
Definition with_instance (i : ServiceInstance) (r : OutboundRequest) : OutboundRequest :=
  {| out_service := out_service r; out_method := out_method r; out_path := out_path r;
     out_headers := out_headers r; out_query_params := out_query_params r;
     out_body := out_body r; out_instance := Some i |}.

Definition target (r : OutboundRequest) : string :=
  match out_instance r with
  | Some i => service_name (out_service r) ++s "@" ++s instance_id i
  | None => service_name (out_service r)
  end.

Definition is_idempotent (r : OutboundRequest) : bool :=
  mem_str (str_upper (out_method r)) IDEMPOTENT_METHODS.

(** *** [urllib.parse.quote] *)

Definition alnum_char (c : ascii) : bool :=
  digit_char c || ((65 <=? ascii_code c) && (ascii_code c <=? 90))
  || ((97 <=? ascii_code c) && (ascii_code c <=? 122)).
Definition upper_hex_digit (n : Z) : ascii :=
  if n <? 10 then ascii_of_nat (Z.to_nat (48 + n)) else ascii_of_nat (Z.to_nat (55 + n)).
Definition percent : ascii := ascii_of_nat 37.
Definition percent_encode (c : ascii) : string :=
  String percent (String (upper_hex_digit (ascii_code c / 16))
                         (str1 (upper_hex_digit (ascii_code c mod 16)))).
Fixpoint quote (safe : string) (s : string) : string :=
  match s with
  | EmptyString => EmptyString
  | String c s' =>
      (if alnum_char c || has_char c "_.-~" || has_char c safe then str1 c else percent_encode c)
      ++s quote safe s'
  end.

Definition PATH_SAFE_CHARS : string := "/:@!$&'()*+,;=-._~".

Definition resolved_instance (r : OutboundRequest) : result exn ServiceInstance :=
  match out_instance r with
  | Some i => Ok i
  | None =>
      match instances (out_service r) with
      | [i] => Ok i
      | _ => Raise (RuntimeError ("No instance of '" ++s service_name (out_service r)
                                  ++s "' was chosen for this request"))
      end
  end.

Definition slash : ascii := ascii_of_nat 47.

Definition url (r : OutboundRequest) : result exn string :=
  i ← resolved_instance r;
  let base := rstrip_char slash (base_url i) in
  let path := quote PATH_SAFE_CHARS (lstrip_char slash (out_path r)) in
  mret (base ++s "/" ++s path).

(** ** Responses *)

(** A response body that is read as it arrives: what the iteration yields and how
    it ends, and the connection that [aclose] releases. *)
Record Body : Type := mkBody {
  body_chunks : list string;
  body_error : option exn;
  body_connection : nat
}.

Record UpstreamResponse : Type := mkResponse {
  response_status : Z;
  response_headers : Headers;
  response_body : string;
  response_stream : option Body;
  response_instance : option string
}.

Record UpstreamStream : Type := mkStream {
  stream_status : Z;
  stream_headers : Headers;
  stream_chunks : Body;
  stream_instance : option string
}.

(** What the resilience layers use of either of them: [_Outcome] in the source. *)
Class Outcome (O : Type) : Type := {
  status_code : O → Z;
  outcome_headers : O → Headers;
  outcome_instance : O → option string;
  set_instance : string → O → O;
  set_headers : Headers → O → O;
  status_set_instance i o : status_code (set_instance i o) = status_code o;
  instance_set_instance i o : outcome_instance (set_instance i o) = Some i;
  headers_set_instance i o : outcome_headers (set_instance i o) = outcome_headers o;
  status_set_headers h o : status_code (set_headers h o) = status_code o;
  instance_set_headers h o : outcome_instance (set_headers h o) = outcome_instance o;
  headers_set_headers h o : outcome_headers (set_headers h o) = h
}.

Global Program Instance UpstreamResponse_outcome : Outcome UpstreamResponse := {|
  status_code := response_status;
  outcome_headers := response_headers;
  outcome_instance := response_instance;
  set_instance i o := mkResponse (response_status o) (response_headers o) (response_body o)
                        (response_stream o) (Some i);
  set_headers h o := mkResponse (response_status o) h (response_body o)
                       (response_stream o) (response_instance o)
|}.
Solve Obligations with done.

Global Program Instance UpstreamStream_outcome : Outcome UpstreamStream := {|
  status_code := stream_status;
  outcome_headers := stream_headers;
  outcome_instance := stream_instance;
  set_instance i o := mkStream (stream_status o) (stream_headers o) (stream_chunks o) (Some i);
  set_headers h o := mkStream (stream_status o) h (stream_chunks o) (stream_instance o)
|}.
Solve Obligations with done.

(** ** Health *)

Inductive HealthStatus : Type := UP | DEGRADED | DOWN.
Global Instance HealthStatus_eq_dec : EqDecision HealthStatus.
Proof. solve_decision. Defined.

Record InstanceHealth : Type := mkInstanceHealth {
  health_id : string;
  health_status : HealthStatus;
  latency : option Z;
  detail : option string
}.
Record ServiceHealth : Type := mkServiceHealth {
  health_name : string;
  health_instances : list InstanceHealth
}.

Definition is_up (h : InstanceHealth) : bool := bool_decide (health_status h = UP).

Definition service_status (h : ServiceHealth) : HealthStatus :=
  let up := length (filter (λ i, is_up i = true) (health_instances h)) in
  if (up =? length (health_instances h))%nat then UP
  else if (up =? 0)%nat then DOWN else DEGRADED.

Definition is_healthy (services : list ServiceHealth) : bool :=
  forallb (λ s, bool_decide (service_status s = UP)) services.

(** ** Well-formed services *)

(** What the constructor establishes and every layer relies on. *)
Record service_wf (s : ServiceDefinition) : Prop := mkServiceWf {
  wf_instances : instances s = ServiceInstance_new <$> base_urls s;
  wf_nonempty : instances s ≠ [];
  wf_ids : NoDup (instance_id <$> instances s)
}.

Lemma ServiceDefinition_new_wf name urls t h r hs s :
  ServiceDefinition_new name urls t h r hs = Ok s → service_wf s ∧ service_name s = name.
Proof.
  unfold ServiceDefinition_new, ids_repeat. destruct urls as [|u us]; [done|].
  cbn [fmap list_fmap]. destruct (bool_decide _) eqn:Hd; cbn [negb]; [|done].
  apply bool_decide_eq_true in Hd. intros [= <-]. by split.
Qed.

Lemma find_instance_Some id ins i :
  find_instance id ins = Some i → i ∈ ins ∧ instance_id i = id.
Proof.
  induction ins as [|j ins IH]; cbn; [done|].
  destruct (String.eqb_spec (instance_id j) id) as [<-|Hne].
  - intros [= <-]. split; [set_solver|done].
  - intros H%IH. set_solver.
Qed.

Lemma find_instance_None id ins :
  find_instance id ins = None ↔ id ∉ instance_id <$> ins.
Proof.
  induction ins as [|j ins IH]; cbn; [set_solver|].
  destruct (String.eqb_spec (instance_id j) id) as [<-|Hne]; [set_solver|].
  rewrite IH. set_solver.
Qed.

Lemma find_instance_elem ins i :
  NoDup (instance_id <$> ins) → i ∈ ins → find_instance (instance_id i) ins = Some i.
Proof.
  induction ins as [|j ins IH]; intros Hnd Hin; [set_solver|].
  apply NoDup_cons in Hnd as [Hj Hnd]. cbn.
  apply elem_of_cons in Hin as [->|Hin]; [by rewrite String.eqb_refl|].
  destruct (String.eqb_spec (instance_id j) (instance_id i)) as [He|Hne]; [|by apply IH].
  destruct Hj. rewrite He. by apply list_elem_of_fmap_2.
Qed.

Lemma service_instance_id s i :
  service_wf s → i ∈ instances s → service_instance s (instance_id i) = Ok i.
Proof.
  intros [_ _ Hnd] Hi. unfold service_instance. by rewrite find_instance_elem.
Qed.

(** Breakers are keyed by [target]: two instances share a key only when they are
    the same instance of the same service. *)
Lemma target_inj s1 s2 i1 i2 m1 m2 p1 p2 h1 h2 q1 q2 b1 b2 :
  has_char "@" (service_name s1) = false → has_char "@" (service_name s2) = false →
  target (mkOutbound s1 m1 p1 h1 q1 b1 (Some i1)) = target (mkOutbound s2 m2 p2 h2 q2 b2 (Some i2)) →
  service_name s1 = service_name s2 ∧ instance_id i1 = instance_id i2.
Proof.
  unfold target; cbn. intros H1 H2 He.
  pose proof (str_partition_first "@" _ (instance_id i1) H1) as P1.
  pose proof (str_partition_first "@" _ (instance_id i2) H2) as P2.
  change ("@" ++s instance_id i1) with (String "@" (instance_id i1)) in He.
  change ("@" ++s instance_id i2) with (String "@" (instance_id i2)) in He.
  rewrite He, P2 in P1. by simplify_eq.
Qed.

(** ** Percent-encoding *)

Definition from_upper_hex (c : ascii) : Z :=
  if ascii_code c <? 58 then ascii_code c - 48 else ascii_code c - 55.

(** The decoding that [quote] is to be undone by: each [%XY] is the byte [0xXY]. *)
Fixpoint unquote (s : string) : string :=
  match s with
  | String p s' =>
      if Ascii.eqb p percent then
        match s' with
        | String a (String b s'') =>
            String (ascii_of_nat (Z.to_nat (16 * from_upper_hex a + from_upper_hex b)))
                   (unquote s'')
        | _ => String p (unquote s')
        end
      else String p (unquote s')
  | EmptyString => EmptyString
  end.

Lemma percent_decode_encode c :
  ascii_of_nat (Z.to_nat (16 * from_upper_hex (upper_hex_digit (ascii_code c / 16))
                          + from_upper_hex (upper_hex_digit (ascii_code c mod 16)))) = c.
Proof. all_ascii c. Qed.

Lemma unquote_quote safe s :
  has_char percent safe = false → unquote (quote safe s) = s.
Proof.
  intros Hsafe. induction s as [|c s IH]; [done|]. cbn [quote].
  destruct (alnum_char c || has_char c "_.-~" || has_char c safe) eqn:Hc.
  - unfold str1. rewrite app_cons_s, app_empty_l. cbn [unquote].
    destruct (Ascii.eqb_spec c percent) as [->|Hne]; [|by rewrite IH].
    cbn in Hc. by rewrite Hsafe in Hc.
  - unfold percent_encode, str1. rewrite !app_cons_s, app_empty_l. cbn [unquote].
    rewrite Ascii.eqb_refl, percent_decode_encode. by rewrite IH.
Qed.

Lemma quote_chars safe s :
  str_all (λ c, alnum_char c || has_char c "_.-~" || Ascii.eqb c percent || has_char c safe)
          (quote safe s) = true.
Proof.
  induction s as [|c s IH]; [done|]. cbn [quote]. rewrite str_all_app, IH, andb_true_r.
  destruct (alnum_char c || has_char c "_.-~" || has_char c safe) eqn:Hc.
  - cbn. apply orb_true_iff in Hc as [-> | ->]; by rewrite ?orb_true_r.
  - clear. unfold percent_encode, str1. cbn [str_all].
    all_ascii c.
Qed.

(** ** Health status *)

Lemma service_status_up h :
  service_status h = UP ↔ Forall (λ i, health_status i = UP) (health_instances h).
Proof.
  unfold service_status. set (l := health_instances h). split.
  - intros H. destruct (Nat.eqb_spec (length (filter (λ i, is_up i = true) l)) (length l))
      as [He|He]; [|by destruct (Nat.eqb _ 0)].
    apply filter_length_all in He. eapply Forall_impl; [exact He|].
    intros i Hi. by apply bool_decide_eq_true in Hi.
  - intros H. rewrite filter_all; [by rewrite Nat.eqb_refl|].
    eapply Forall_impl; [exact H|]. intros i Hi. by apply bool_decide_eq_true.
Qed.

Lemma service_status_down h :
  health_instances h ≠ [] →
  service_status h = DOWN ↔ Forall (λ i, health_status i ≠ UP) (health_instances h).
Proof.
  unfold service_status. set (l := health_instances h). intros Hne. split.
  - intros H. destruct (Nat.eqb _ _); [done|].
    destruct (Nat.eqb_spec (length (filter (λ i, is_up i = true) l)) 0) as [He|He]; [|done].
    apply nil_length_inv in He. apply Forall_forall. intros i Hi Hup.
    eapply (filter_nil_not_elem_of _ _ _ He); [|exact Hi]. by apply bool_decide_eq_true.
  - intros H. rewrite filter_none; [by destruct l|].
    eapply Forall_impl; [exact H|]. intros i Hi Hup%bool_decide_eq_true. done.
Qed.
