(* ===== verification/OpenApi.v ===== *)
(** * The OpenAPI document *)
(** [api/openapi.py]: the errors of the gateway as responses of the document, and the
    contracts of registered services added to it.  The framework's own document and the
    schemas of models are parameters. *)
From S2P Require Export Errors PyDict.
From Stdlib Require Import Ascii.
From stdpp Require Import options.
Local Open Scope Z_scope.

Definition EXAMPLE_REQUEST_ID : string := "5f0c6b0e7d2a4c1e9b3f8a6d4e2c1b0a".

(** [_GATEWAY_ERRORS] *)
Definition GATEWAY_ERRORS : list (exn * string) :=
  [(ServiceNotFoundError "billing", "no service is registered under that name.");
   (InstanceNotFoundError "mirag" "0badc0de",
    "the service has no instance with that id (the request was pinned with `@`).");
   (UpstreamConnectionError "users" true,
    "the service could not be reached: connection refused, unknown host or reset.");
   (CircuitOpenError "users",
    "every instance of the service failed repeatedly and has its circuit open: the gateway "
    ++s "answers at once, without calling them, until the recovery timeout passes.");
   (UpstreamTimeoutError "users" true,
    "the service took longer than its `timeout_seconds` to connect or to send the next "
    ++s "piece of its response.")]%string.

(** ** Models *)

(** A class of the validation library: what its fields are, which have a default, and what
    else is said about them.  What such a class validates is the library's. *)
Inductive annotation : Type :=
  | AStr | AFloat | ABool | AAny
  | ALiteral (values : list string)
  | AOptional (a : annotation)
  | AList (a : annotation)
  | ADict (a : annotation)
  | AModel (m : PyModel)
with PyModel : Type :=
  | mkModel (name : string) (doc : option string) (extra : bool) (fields : list ModelField)
with ModelField : Type :=
  | mkField (field : string) (a : annotation) (default : option json) (info : list (string * json)).

(** [model.__name__] *)
Definition model_name (m : PyModel) : string := let 'mkModel name _ _ _ := m in name.

(** The models a model's schema needs, itself first. *)
Fixpoint model_closure (m : PyModel) : list string :=
  let 'mkModel name _ _ fields := m in
  name :: concat (map (λ f, let 'mkField _ a _ _ := f in annotation_closure a) fields)
with annotation_closure (a : annotation) : list string :=
  match a with
  | AOptional a | AList a | ADict a => annotation_closure a
  | AModel m => model_closure m
  | _ => []
  end.

(** [ErrorDetail] and [ErrorResponse] of [api/schemas.py]. *)
Definition ErrorDetail : PyModel :=
  mkModel "ErrorDetail" None false
    [mkField "code" AStr None [("description", JStr "Stable, machine-readable identifier of the error.")];
     mkField "message" AStr None [("description", JStr "Human-readable explanation. Do not parse it.")];
     mkField "request_id" (AOptional AStr) (Some JNull)
       [("description", JStr "The `X-Request-ID` of the request, to find it in the logs.")]]%string.
Definition ErrorResponse : PyModel :=
  mkModel "ErrorResponse" (Some "The body of every error produced by the gateway itself.") false
    [mkField "error" (AModel ErrorDetail) None []]%string.

Definition REF_TEMPLATE (model : string) : string := "#/components/schemas/" ++s model.

(** [schema_ref(model)] *)
Definition schema_ref (model : PyModel) : json :=
  JObj [("$ref", JStr (REF_TEMPLATE (model_name model)))]%string.

(** ** The errors of the gateway *)

(** One entry of [responses] while it is filled: its description and its examples. *)
Record doc_response : Type := mkDocResponse {
  doc_description : string;
  doc_examples : dict json
}.
Definition response_as_json (r : doc_response) : json :=
  JObj [("description", JStr (doc_description r));
        ("content", JObj [("application/json",
           JObj [("schema", schema_ref ErrorResponse); ("examples", JObj (doc_examples r))])])]%string.

(** [example.model_dump()] of [ErrorResponse]. *)
Definition example_of (e : exn) : json :=
  JObj [("error", JObj [("code", JStr (classify e).2); ("message", JStr (exn_message e));
                        ("request_id", JStr EXAMPLE_REQUEST_ID)])]%string.

(** [filter(None, [before, line])], joined. *)
Definition paragraphs (before line : string) : string :=
  if str_truthy before then before ++s str1 nl ++s str1 nl ++s line else line.

(** One turn of the loop of [gateway_error_responses]. *)
Definition document_error (codes : list Z) (responses : dict doc_response) (entry : exn * string)
    : dict doc_response :=
  let '(e, description) := entry in
  let '(status, code) := classify e in
  if negb (bool_decide (status ∈ codes)) then responses
  else
    let r := default (mkDocResponse EmptyString []) (assoc_get (int_str status) responses) in
    dset (int_str status)
      (mkDocResponse (paragraphs (doc_description r) ("`" ++s code ++s "`: " ++s description))
         (dset code (JObj [("value", example_of e)]%string) (doc_examples r))) responses.

(** [gateway_error_responses] *)
Definition error_responses (codes : list Z) : dict doc_response :=
  foldl (document_error codes) [] GATEWAY_ERRORS.
Definition gateway_error_responses (codes : list Z) : dict json :=
  prod_map id response_as_json <$> error_responses codes.

(** ** Contracts *)

Record DownstreamContract : Type := mkContract {
  contract_tag : json;
  contract_paths : dict json;
  contract_models : list PyModel
}.

(** The part of a document the contracts change. *)
Record Document : Type := mkDocument {
  doc_paths : dict json;
  doc_tags : list json;
  doc_schemas : dict json
}.

(** [d.update(items)] *)
Definition dupdate {A} (items d : dict A) : dict A := foldl (λ d kv, dset kv.1 kv.2 d) d items.

(** [_add_contract] *)
Definition add_contract (doc : Document) (service_name : string) (c : DownstreamContract) : Document :=
  let prefix := "/api/" ++s service_name in
  mkDocument (dupdate (foldl (λ d kv, dset (prefix ++s kv.1) kv.2 d) [] (contract_paths c)) (doc_paths doc))
    (doc_tags doc ++ [contract_tag c]) (doc_schemas doc).

Section document.
(** [get_openapi] of the application's own routes; the definitions that
    [models_json_schema] makes of some models. *)
Context (own : Document) (models_json_schema : list PyModel → dict json).

(** [_add_models] *)
Definition add_models (models : list PyModel) (doc : Document) : Document :=
  mkDocument (doc_paths doc) (doc_tags doc) (dupdate (models_json_schema models) (doc_schemas doc)).

(** [install_openapi]: the contracts of the registered services that have one. *)
Definition documented (service_names : list string) (contracts : dict DownstreamContract)
    : dict DownstreamContract :=
  foldl (λ d n, match assoc_get n contracts with Some c => dset n c d | None => d end) [] service_names.

(** [openapi], the first time it is asked for. *)
Definition build_document (service_names : list string) (contracts : dict DownstreamContract) : Document :=
  let documented := documented service_names contracts in
  foldl (λ doc nc, add_contract doc nc.1 nc.2)
    (add_models (ErrorResponse :: (documented ≫= λ nc, contract_models nc.2)) own) documented.

(** [openapi], with what it keeps on the application. *)
Definition openapi (service_names : list string) (contracts : dict DownstreamContract)
    (kept : option Document) : Document * option Document :=
  match kept with
  | Some doc => (doc, Some doc)
  | None => let doc := build_document service_names contracts in (doc, Some doc)
  end.
End document.

(** ** What is documented is what is answered *)

Lemma error_responses_cases codes :
  error_responses codes
  = foldl (λ d e, if bool_decide ((classify e.1).1 ∈ codes) then document_error [(classify e.1).1] d e else d)
      [] GATEWAY_ERRORS.
Proof.
  unfold error_responses. generalize ([] : dict doc_response). generalize GATEWAY_ERRORS.
  induction l as [|[e text] l IH]; intros d; [done|]. cbn [foldl fst]. rewrite <- IH. f_equal.
  unfold document_error. destruct (classify e) as [status code]. cbn [fst].
  rewrite (bool_decide_true (status ∈ [status])) by set_solver.
  by destruct (bool_decide (status ∈ codes)).
Qed.

(** The document cannot drift: for every error the proxy can answer whose status a route
    documents, the document has a response of that status, with an example under the
    error's code that is, to the letter, what the error handler answers for it. *)
Theorem documented_errors_are_answered codes e text :
  (e, text) ∈ GATEWAY_ERRORS → (classify e).1 ∈ codes →
  ∃ r a, assoc_get (int_str (classify e).1) (error_responses codes) = Some r
    ∧ answer_for (Some EXAMPLE_REQUEST_ID) e = Some a ∧ answer_status a = (classify e).1
    ∧ assoc_get (classify e).2 (doc_examples r) = Some (JObj [("value"%string, answer_body a)]).
Proof.
  rewrite error_responses_cases. intros He Hc. apply (bool_decide_eq_true_2 (_ ∈ codes)) in Hc.
  unfold GATEWAY_ERRORS in *. cbn [foldl fst].
  repeat (apply elem_of_cons in He as [[= -> ->]|He]);
    [..|by apply not_elem_of_nil in He]; rewrite ?Hc;
    repeat match goal with |- context [bool_decide (?s ∈ codes)] =>
      let s' := eval vm_compute in s in change (bool_decide (s ∈ codes)) with (bool_decide (s' ∈ codes)) end;
    repeat match goal with |- context [bool_decide (?s ∈ codes)] => destruct (bool_decide (s ∈ codes)) end;
    eexists _, _; (split; [vm_compute; reflexivity|]); (split; [vm_compute; reflexivity|]);
    by split; vm_compute.
Qed.

Lemma documented_errors_are_answered_witness :
  ∃ r, assoc_get "502" (error_responses [502; 503; 504]) = Some r.
Proof.
  destruct (documented_errors_are_answered [502; 503; 504] (UpstreamConnectionError "users" true)
    "the service could not be reached: connection refused, unknown host or reset.") as (r & a & Hr & _).
  - do 2 apply list_elem_of_further. apply list_elem_of_here.
  - vm_compute. apply list_elem_of_here.
  - exists r. exact Hr.
Defined.
