(* ===== verification/CircuitBreaker.v ===== *)
(** * Circuit breaker *)
(** [infrastructure/resilience/circuit_breaker.py]: the three-state breaker, the
    client that keeps one per service instance, and what happens to a breaker
    when the calls it let through end in any order. *)
From S2P Require Export Models.
From stdpp Require Import options.
Local Open Scope Z_scope.

Inductive CircuitState : Type := CLOSED | OPEN | HALF_OPEN.
Global Instance CircuitState_eq_dec : EqDecision CircuitState.
Proof. solve_decision. Defined.

Record CircuitBreaker : Type := mkBreaker {
  failure_threshold : Z;
  recovery_timeout : Z;
  breaker_state : CircuitState;
  failures : Z;
  opened_at : Z;
  probe_in_flight : bool
}.

Definition CircuitBreaker_new (threshold recovery : Z) : result exn CircuitBreaker :=
  if threshold <? 1 then Raise (ValueError "failure_threshold must be at least 1")
  else if recovery <=? 0 then Raise (ValueError "recovery_timeout_seconds must be positive")
  else Ok (mkBreaker threshold recovery CLOSED 0 0 false).

(** The record with the fields an operation assigns. *)
Definition set_breaker (b : CircuitBreaker) (st : CircuitState) (n at_ : Z) (probe : bool)
    : CircuitBreaker :=
  mkBreaker (failure_threshold b) (recovery_timeout b) st n at_ probe.

(** [_trip]; [now] is what the clock answers. *)
Definition trip (now : Z) (b : CircuitBreaker) : CircuitBreaker :=
  set_breaker b OPEN 0 now false.

(** [try_acquire]: may a request proceed, and the breaker after asking. *)
Definition try_acquire (now : Z) (b : CircuitBreaker) : bool * CircuitBreaker :=
  let half_open b :=
    if probe_in_flight b then (false, b)
    else (true, set_breaker b HALF_OPEN (failures b) (opened_at b) true) in
  match breaker_state b with
  | OPEN =>
      if now - opened_at b <? recovery_timeout b then (false, b)
      else half_open (set_breaker b HALF_OPEN (failures b) (opened_at b) (probe_in_flight b))
  | HALF_OPEN => half_open b
  | CLOSED => (true, b)
  end.

Definition on_success (b : CircuitBreaker) : CircuitBreaker :=
  match breaker_state b with
  | HALF_OPEN => set_breaker b CLOSED 0 (opened_at b) false
  | st => set_breaker b st 0 (opened_at b) (probe_in_flight b)
  end.

Definition on_failure (now : Z) (b : CircuitBreaker) : CircuitBreaker :=
  match breaker_state b with
  | HALF_OPEN => trip now b
  | CLOSED =>
      let b' := set_breaker b CLOSED (failures b + 1) (opened_at b) (probe_in_flight b) in
      if failure_threshold b' <=? failures b' then trip now b' else b'
  | OPEN => b
  end.

Definition on_abort (b : CircuitBreaker) : CircuitBreaker :=
  set_breaker b (breaker_state b) (failures b) (opened_at b) false.

(** ** The client: one breaker per instance *)

Section client.
Context {W : Type} `{!Field W (gmap string CircuitBreaker)}.
(** The constructor's arguments. *)
Context (clock : M W exn Z) (breaker_factory : result exn CircuitBreaker)
        (failure_status_codes : list Z).

(** [_breaker_for]: the breaker of a target, made on first use.  The object is
    shared by every call to the target, so it is named by its key. *)
Definition breaker_for (target : string) : M W exn CircuitBreaker :=
  bs ← gets getf;
  match (bs : gmap string CircuitBreaker) !! target with
  | Some b => mret b
  | None =>
      b ← lift breaker_factory;
      modify (updf (λ bs : gmap string CircuitBreaker, <[target := b]> bs)) ;;
      mret b
  end.

(** A method that changes the breaker object in place. *)
Definition on_breaker (target : string) (f : CircuitBreaker → CircuitBreaker) : M W exn unit :=
  modify (updf (λ bs : gmap string CircuitBreaker, alter f target bs)).

Definition state_of (target : string) : M W exn CircuitState :=
  b ← breaker_for target; mret (breaker_state b).

Definition acquire (target : string) : M W exn bool :=
  b ← breaker_for target;
  now ← clock;
  on_breaker target (λ b, (try_acquire now b).2) ;;
  mret (try_acquire now b).1.

Definition breaker_failed (target : string) : M W exn unit :=
  now ← clock; on_breaker target (on_failure now).

(** [_guarded] *)
Definition guarded {O} `{!Outcome O} (request : OutboundRequest)
    (call : OutboundRequest → M W exn O) : M W exn O :=
  granted ← acquire (target request);
  if negb granted
  then raise (CircuitOpenError (service_name (out_service request)))
  else
    outcome ← try_except (call request) (λ e,
      if isinstance e cUpstreamError
      then Some (breaker_failed (target request) ;; raise e)
      else Some (on_breaker (target request) on_abort ;; raise e));
    (if bool_decide (status_code outcome ∈ failure_status_codes)
     then breaker_failed (target request)
     else on_breaker (target request) on_success) ;;
    mret outcome.
End client.

(** ** One breaker: bounds and consecutive failures *)

(** The invariant of a breaker. *)
Record breaker_wf (b : CircuitBreaker) : Prop := mkBreakerWf {
  wf_threshold : 1 <= failure_threshold b;
  wf_recovery : 0 < recovery_timeout b;
  wf_failures : 0 <= failures b < failure_threshold b;
  wf_probe : probe_in_flight b = true → breaker_state b = HALF_OPEN;
  wf_not_closed : breaker_state b ≠ CLOSED → failures b = 0
}.

Lemma CircuitBreaker_new_wf threshold recovery b :
  CircuitBreaker_new threshold recovery = Ok b → breaker_wf b ∧ breaker_state b = CLOSED.
Proof.
  unfold CircuitBreaker_new. destruct (_ <? _) eqn:H1; [done|].
  destruct (_ <=? _) eqn:H2; [done|]. bool_to_Z. intros [= <-]. split; [|done].
  constructor; cbn; done || lia.
Qed.

Ltac breaker_cases :=
  repeat match goal with
  | H : breaker_wf _ |- _ => destruct H
  | b : CircuitBreaker |- _ => destruct b as [? ? [] ? ? []]
  end; cbn in *; repeat case_match; cbn in *; bool_to_Z.

Lemma try_acquire_wf now b : breaker_wf b → breaker_wf (try_acquire now b).2.
Proof.
  intros H. breaker_cases; simplify_eq/=; constructor; cbn; naive_solver lia.
Qed.
Lemma on_success_wf b : breaker_wf b → breaker_wf (on_success b).
Proof. intros H. breaker_cases; constructor; cbn; naive_solver lia. Qed.
Lemma on_failure_wf now b : breaker_wf b → breaker_wf (on_failure now b).
Proof.
  intros H. unfold on_failure, trip. breaker_cases; constructor; cbn; naive_solver lia.
Qed.
Lemma on_abort_wf b : breaker_wf b → breaker_wf (on_abort b).
Proof. intros H. breaker_cases; constructor; cbn; naive_solver lia. Qed.

Create HintDb gw_breaker.
#[export] Hint Resolve try_acquire_wf on_success_wf on_failure_wf on_abort_wf : gw_breaker.

(** The verdict of a call a breaker let through: when it came and whether it was a
    success. *)
Definition verdict (b : CircuitBreaker) (v : Z * bool) : CircuitBreaker :=
  if v.2 then on_success b else on_failure v.1 b.

(** ** Interleaved calls *)

(** A breaker and the calls it has let through that have not ended: [true] marks
    one granted as the probe of a half-open circuit. *)
Record breaker_sys : Type := mkSys { sys_breaker : CircuitBreaker; sys_calls : list bool }.

Inductive sys_step (allowed : CircuitState → bool → Prop) : breaker_sys → breaker_sys → Prop :=
  (** A request is let through. *)
  | sys_grant now b b' calls :
      try_acquire now b = (true, b') →
      sys_step allowed (mkSys b calls)
        (mkSys b' (bool_decide (breaker_state b' = HALF_OPEN) :: calls))
  (** A request is refused. *)
  | sys_refuse now b b' calls :
      try_acquire now b = (false, b') → sys_step allowed (mkSys b calls) (mkSys b' calls)
  (** One of the calls in flight ends: well, badly, or without a verdict. *)
  | sys_success b probe l r :
      allowed (breaker_state b) probe →
      sys_step allowed (mkSys b (l ++ probe :: r)) (mkSys (on_success b) (l ++ r))
  | sys_failure now b probe l r :
      allowed (breaker_state b) probe →
      sys_step allowed (mkSys b (l ++ probe :: r)) (mkSys (on_failure now b) (l ++ r))
  | sys_abort b probe l r :
      allowed (breaker_state b) probe →
      sys_step allowed (mkSys b (l ++ probe :: r)) (mkSys (on_abort b) (l ++ r)).

Definition sys_init (threshold recovery : Z) (s : breaker_sys) : Prop :=
  CircuitBreaker_new threshold recovery = Ok (sys_breaker s) ∧ sys_calls s = [].

(** No restriction on when a call may end. *)
Definition any_end (st : CircuitState) (probe : bool) : Prop := True.
(** No call of an earlier closed period ends while the circuit is half open. *)
Definition no_stale_end (st : CircuitState) (probe : bool) : Prop :=
  st = HALF_OPEN → probe = true.

Definition probes (calls : list bool) : nat := length (filter (λ p, p = true) calls).
Arguments probes : simpl never.

Lemma probes_app l r : probes (l ++ r) = (probes l + probes r)%nat.
Proof. unfold probes. by rewrite filter_app, length_app. Qed.
Lemma probes_cons p l : probes (p :: l) = ((if p then 1 else 0) + probes l)%nat.
Proof. unfold probes. by destruct p. Qed.

Lemma sys_step_wf allowed s s' :
  sys_step allowed s s' → breaker_wf (sys_breaker s) → breaker_wf (sys_breaker s').
Proof.
  destruct 1 as [now b b' calls H|now b b' calls H| | |]; cbn; auto with gw_breaker;
    intros Hb; apply (try_acquire_wf now) in Hb; by rewrite H in Hb.
Qed.

(** What the probe slot says of the calls in flight, when no stale call ends in it. *)
Definition probe_slot (s : breaker_sys) : Prop :=
  probes (sys_calls s) = (if probe_in_flight (sys_breaker s) then 1 else 0)%nat.

Lemma try_acquire_granted now b b' :
  try_acquire now b = (true, b') →
  (breaker_state b = CLOSED ∧ b' = b)
  ∨ (breaker_state b ≠ CLOSED ∧ probe_in_flight b = false
     ∧ breaker_state b' = HALF_OPEN ∧ probe_in_flight b' = true).
Proof.
  unfold try_acquire. destruct b as [? ? [] ? ? []]; cbn; try case_match; cbn;
    intros; simplify_eq/=; auto.
Qed.
Lemma try_acquire_refused now b b' :
  try_acquire now b = (false, b') →
  breaker_state b ≠ CLOSED ∧ probe_in_flight b' = probe_in_flight b.
Proof.
  unfold try_acquire. destruct b as [? ? [] ? ? []]; cbn; try case_match; cbn;
    intros; simplify_eq/=; auto.
Qed.
Lemma probe_on_success b :
  probe_in_flight (on_success b) =
    if bool_decide (breaker_state b = HALF_OPEN) then false else probe_in_flight b.
Proof. by destruct b as [? ? [] ? ? ?]. Qed.
Lemma probe_on_failure now b :
  probe_in_flight b = true → probe_in_flight (on_failure now b) = true →
  breaker_state b ≠ HALF_OPEN.
Proof. by destruct b as [? ? [] ? ? ?]. Qed.
Lemma probe_on_failure_false now b :
  probe_in_flight b = false → probe_in_flight (on_failure now b) = false.
Proof. destruct b as [? ? [] ? ? []]; cbn; unfold on_failure; cbn; by try case_match. Qed.

(** Removing a call that ended: the probe slot is empty afterwards exactly when no
    probe is left. *)
Lemma probe_slot_end b b' p l r :
  breaker_wf b → no_stale_end (breaker_state b) p →
  (breaker_state b = HALF_OPEN → probe_in_flight b' = false) →
  (probe_in_flight b = false → probe_in_flight b' = false) →
  probe_slot (mkSys b (l ++ p :: r)) → probe_slot (mkSys b' (l ++ r)).
Proof.
  unfold probe_slot, no_stale_end; cbn. rewrite !probes_app, !probes_cons.
  intros Hwf Hp Hhalf Hfree Hs. destruct (probe_in_flight b) eqn:Hb.
  - pose proof (wf_probe b Hwf Hb) as Hst. rewrite (Hhalf Hst).
    rewrite (Hp Hst) in Hs. cbn in Hs. lia.
  - rewrite Hfree by done. destruct p; cbn in Hs; lia.
Qed.

Lemma probe_slot_step s s' :
  sys_step no_stale_end s s' → breaker_wf (sys_breaker s) → probe_slot s → probe_slot s'.
Proof.
  destruct 1 as [now b b' calls H|now b b' calls H|b p l r Ha|now b p l r Ha|b p l r Ha];
    cbn; intros Hwf Hs.
  - unfold probe_slot in *; cbn in *. rewrite probes_cons.
    apply try_acquire_granted in H as [[Hst ->]|(Hst & Hp & Hst' & Hp')].
    + by rewrite bool_decide_eq_false_2 by congruence.
    + rewrite bool_decide_eq_true_2, Hp' by done. rewrite Hp in Hs. lia.
  - unfold probe_slot in *; cbn in *.
    by apply try_acquire_refused in H as [_ ->].
  - eapply probe_slot_end; [exact Hwf|done| | |done]; rewrite probe_on_success;
      intros H; [by rewrite bool_decide_eq_true_2|by case_match].
  - eapply probe_slot_end; [exact Hwf|done| |by apply probe_on_failure_false|done].
    intros H. unfold on_failure. by rewrite H.
  - by eapply probe_slot_end; [exact Hwf|done| | |done].
Qed.

Section breaker_reach.
Context (threshold recovery : Z).

Lemma sys_reach_wf allowed s :
  reachable (sys_init threshold recovery) (sys_step allowed) s → breaker_wf (sys_breaker s).
Proof.
  apply (reachable_inv _ _ (λ s, breaker_wf (sys_breaker s))).
  - intros s0 [H _]. by apply CircuitBreaker_new_wf in H as [? _].
  - intros s0 s1 _ Hwf Hstep. by eapply sys_step_wf.
Qed.

Lemma sys_reach_slot s :
  reachable (sys_init threshold recovery) (sys_step no_stale_end) s → probe_slot s.
Proof.
  apply reachable_inv.
  - intros [b calls] [H Hc]; cbn in *; subst.
    unfold CircuitBreaker_new in H. repeat case_match; simplify_eq. done.
  - intros s0 s1 Hr Hs Hstep.
    eapply probe_slot_step; [exact Hstep| |done]. by eapply sys_reach_wf.
Qed.
End breaker_reach.

(** ** Consecutive failures open the circuit *)

(** The failures counted so far are the failures at the end of the verdicts. *)
Definition trailing_failures (vs : list bool) (n : nat) : Prop :=
  (∃ pre, vs = pre ++ replicate n false)
  ∧ ∀ k pre, vs = pre ++ replicate k false → (k ≤ n)%nat.

Lemma trailing_nil : trailing_failures [] 0.
Proof.
  split; [by exists []|]. intros k pre H. destruct k; [lia|].
  destruct pre; simplify_eq/=.
Qed.
Lemma trailing_true vs : trailing_failures (vs ++ [true]) 0.
Proof.
  split; [exists (vs ++ [true]); by rewrite app_nil_r|]. intros [|k] pre H; [lia|].
  rewrite replicate_S_end, app_assoc in H. by apply app_inj_tail in H as [_ ?].
Qed.
Lemma trailing_false vs n : trailing_failures vs n → trailing_failures (vs ++ [false]) (S n).
Proof.
  intros [[pre ->] Hmax]. split.
  - exists pre. by rewrite replicate_S_end, app_assoc.
  - intros [|k] pre' H; [lia|]. rewrite replicate_S_end, app_assoc in H.
    apply app_inj_tail in H as [H _]. apply Hmax in H. lia.
Qed.

Definition failure_run (k : nat) (vs : list bool) : Prop :=
  ∃ pre post, vs = pre ++ replicate k false ++ post.

Lemma failure_run_snoc k vs v :
  (0 < k)%nat → failure_run k (vs ++ [v]) →
  failure_run k vs ∨ (v = false ∧ ∃ pre, vs = pre ++ replicate (k - 1) false).
Proof.
  intros Hk (pre & post & H). destruct post as [|w post] using rev_ind; [|clear IHpost].
  - right. rewrite app_nil_r in H. destruct k as [|k]; [lia|].
    rewrite replicate_S_end, app_assoc in H. apply app_inj_tail in H as [-> ->].
    split; [done|]. exists pre. by rewrite Nat.sub_1_r.
  - left. rewrite !app_assoc in H. apply app_inj_tail in H as [-> _].
    exists pre, post. by rewrite <- app_assoc.
Qed.

Lemma verdicts_track threshold recovery b vs :
  CircuitBreaker_new threshold recovery = Ok b →
  let b' := foldl verdict b vs in
  failure_threshold b' = threshold ∧
  ((breaker_state b' = OPEN ∧ failure_run (Z.to_nat threshold) (snd <$> vs))
   ∨ (breaker_state b' = CLOSED ∧ ¬ failure_run (Z.to_nat threshold) (snd <$> vs)
      ∧ failures b' < threshold ∧ 0 <= failures b'
      ∧ trailing_failures (snd <$> vs) (Z.to_nat (failures b')))).
Proof.
  unfold CircuitBreaker_new. destruct (threshold <? 1) eqn:HT; [done|].
  destruct (_ <=? _); [done|]. bool_to_Z. intros [= <-].
  induction vs as [|[now v] vs IH] using rev_ind.
  - cbn. split; [done|]. right. split_and!; [done| |lia|lia|apply trailing_nil].
    intros (pre & post & H). destruct (Z.to_nat threshold) eqn:E; [lia|].
    destruct pre; simplify_eq/=.
  - rewrite foldl_snoc, fmap_app. cbn [fmap list_fmap snd]. set (b' := foldl _ _ vs) in *. cbn zeta in IH.
    destruct IH as [HTb [[Hst Hrun]|(Hst & Hrun & Hlt & Hge & Htr)]].
    + assert (verdict b' (now, v) = if v then set_breaker b' OPEN 0 (opened_at b')
               (probe_in_flight b') else b') as ->.
      { destruct v; cbn; unfold on_success, on_failure; by rewrite Hst. }
      split; [by destruct v|]. left. split; [by destruct v|].
      destruct Hrun as (pre & post & Hrun). rewrite Hrun. exists pre, (post ++ [v]). by rewrite <- !app_assoc.
    + destruct v; unfold verdict; cbn [fst snd]; unfold on_success, on_failure; rewrite Hst.
      * cbn. split; [done|]. right. split_and!; [done| |lia|lia|apply trailing_true].
        intros Hf. apply failure_run_snoc in Hf as [?|[? _]]; [done|done|lia].
      * cbn [failure_threshold set_breaker failures]. rewrite HTb.
        destruct (threshold <=? failures b' + 1) eqn:E; bool_to_Z; cbn; (split; [done|]).
        -- left. split; [done|]. apply trailing_false in Htr as [[pre Hpre] _].
           rewrite Hpre. exists pre, []. rewrite app_nil_r. f_equal. f_equal. lia.
        -- right. split_and!; [done| |lia|lia|].
           ++ intros Hf. apply failure_run_snoc in Hf as [?|[_ [pre Hpre]]]; [done| |lia].
              apply (proj2 Htr) in Hpre. lia.
           ++ replace (Z.to_nat (failures b' + 1)) with (S (Z.to_nat (failures b'))) by lia.
              by apply trailing_false.
Qed.

(** C18. The circuit of an instance opens exactly when [failure_threshold]
    consecutive calls failed: fed any sequence of verdicts, a new breaker ends
    open if and only if that many failures stand next to each other in it. *)
Theorem breaker_opens_iff threshold recovery b vs
    (Hnew : CircuitBreaker_new threshold recovery = Ok b) :
  breaker_state (foldl verdict b vs) = OPEN
  ↔ ∃ pre post, (snd <$> vs) = pre ++ replicate (Z.to_nat threshold) false ++ post.
Proof.
  destruct (verdicts_track _ _ _ vs Hnew) as [_ [[Hst Hr]|(Hst & Hr & _)]];
    rewrite Hst; [done|]. split; [done|]. intros Hf. by destruct Hr.
Qed.

Lemma breaker_opens_iff_witness :
  breaker_state (foldl verdict (mkBreaker 2 30 CLOSED 0 0 false)
    [(1, false); (2, true); (3, false); (4, false)]) = OPEN.
Proof.
  apply (breaker_opens_iff 2 30 _ [(1, false); (2, true); (3, false); (4, false)]).
  - reflexivity.
  - exists [false; true], []. reflexivity.
Defined.

(** ** Recovery *)

(** Requests asking one after the other, each at its own time, none of them ending
    in between. *)
Fixpoint acquire_all (ts : list Z) (b : CircuitBreaker) : list bool * CircuitBreaker :=
  match ts with
  | [] => ([], b)
  | t :: ts' =>
      let '(g, b1) := try_acquire t b in
      let '(gs, b2) := acquire_all ts' b1 in (g :: gs, b2)
  end.

Lemma acquire_all_app ts us b :
  acquire_all (ts ++ us) b =
    let '(gs, b1) := acquire_all ts b in
    let '(hs, b2) := acquire_all us b1 in (gs ++ hs, b2).
Proof.
  revert b. induction ts as [|t ts IH]; intros b; cbn.
  - by destruct (acquire_all us b).
  - destruct (try_acquire t b) as [g b1]. rewrite IH.
    destruct (acquire_all ts b1) as [gs b2]. by destruct (acquire_all us b2).
Qed.

Lemma acquire_all_early ts b :
  breaker_state b = OPEN → Forall (λ t, t - opened_at b < recovery_timeout b) ts →
  acquire_all ts b = (replicate (length ts) false, b).
Proof.
  intros Hb. induction 1 as [|t ts Ht _ IH]; [done|]. cbn. unfold try_acquire. rewrite Hb.
  apply Z.ltb_lt in Ht. rewrite Ht. by rewrite IH.
Qed.

Lemma acquire_all_probing ts b :
  breaker_state b = HALF_OPEN → probe_in_flight b = true →
  acquire_all ts b = (replicate (length ts) false, b).
Proof.
  intros Hb Hp. induction ts as [|t ts IH]; [done|]. cbn. unfold try_acquire.
  by rewrite Hb, Hp, IH.
Qed.

(** While the circuit is open every request is refused until
    [recovery_timeout] has passed; the first one after that is let through as the
    probe, and every later one is refused for as long as the probe is in flight. *)
Theorem breaker_recovery b early t late
    (Hwf : breaker_wf b) (Hopen : breaker_state b = OPEN)
    (Hearly : Forall (λ u, u - opened_at b < recovery_timeout b) early)
    (Hlate : recovery_timeout b <= t - opened_at b) :
  (acquire_all (early ++ t :: late) b).1
    = replicate (length early) false ++ true :: replicate (length late) false
  ∧ breaker_state (acquire_all (early ++ t :: late) b).2 = HALF_OPEN.
Proof.
  assert (probe_in_flight b = false) as Hp.
  { destruct (probe_in_flight b) eqn:Hp; [|done]. apply (wf_probe b Hwf) in Hp. congruence. }
  rewrite acquire_all_app, acquire_all_early by done. cbn. unfold try_acquire. rewrite Hopen.
  apply Z.ltb_ge in Hlate. rewrite Hlate. cbn. rewrite Hp.
  by rewrite acquire_all_probing.
Qed.

Lemma breaker_recovery_witness :
  (acquire_all [100; 129; 130; 131] (mkBreaker 5 30 OPEN 0 100 false)).1
  = [false; false; true; false].
Proof.
  apply (breaker_recovery (mkBreaker 5 30 OPEN 0 100 false) [100; 129] 130 [131]).
  - constructor; cbn; done || lia.
  - reflexivity.
  - repeat constructor; cbn; lia.
  - cbn. lia.
Defined.

(** C17. In every interleaving of calls in which no call let through before the
    circuit opened ends while it is half open, at most one probe is in flight at
    a time, and the breaker keeps its invariant (the failure count below the
    threshold, the probe slot taken only when half open). *)
Theorem single_probe threshold recovery s
    (Hreach : reachable (sys_init threshold recovery) (sys_step no_stale_end) s) :
  breaker_wf (sys_breaker s)
  ∧ (probes (sys_calls s) ≤ 1)%nat
  ∧ (probes (sys_calls s) = 1%nat ↔ probe_in_flight (sys_breaker s) = true).
Proof.
  split; [by eapply sys_reach_wf|]. apply sys_reach_slot in Hreach as Hs.
  unfold probe_slot in Hs. rewrite Hs. destruct (probe_in_flight _); split; done || lia.
Qed.

Lemma single_probe_witness :
  (probes [true] ≤ 1)%nat ∧ probe_in_flight (mkBreaker 1 30 HALF_OPEN 0 100 true) = true.
Proof.
  assert (reachable (sys_init 1 30) (sys_step no_stale_end)
            (mkSys (mkBreaker 1 30 HALF_OPEN 0 100 true) [true])) as H.
  { eapply reach_step;
      [|apply (sys_grant _ 130 (mkBreaker 1 30 OPEN 0 100 false) (mkBreaker 1 30 HALF_OPEN 0 100 true)); reflexivity].
    eapply reach_step;
      [|by apply (sys_failure no_stale_end 100 (mkBreaker 1 30 CLOSED 0 0 false) false [] [])].
    eapply reach_step; [|apply (sys_grant _ 0 (mkBreaker 1 30 CLOSED 0 0 false) (mkBreaker 1 30 CLOSED 0 0 false)); reflexivity].
    by apply reach_init. }
  destruct (single_probe 1 30 _ H) as (_ & Hle & Hiff). split; [exact Hle|].
  apply Hiff. reflexivity.
Defined.

(** Two calls let through while closed; the failure of one opens the circuit. *)
Definition stale_run : breaker_sys → Prop :=
  reachable (sys_init 1 30) (sys_step any_end).

Lemma stale_reach_1 : stale_run (mkSys (mkBreaker 1 30 OPEN 0 100 false) [false]).
Proof.
  eapply reach_step.
  { eapply reach_step.
    { eapply reach_step; [|apply (sys_grant any_end 0 (mkBreaker 1 30 CLOSED 0 0 false) (mkBreaker 1 30 CLOSED 0 0 false)); reflexivity].
      by apply reach_init. }
    apply (sys_grant any_end 0 (mkBreaker 1 30 CLOSED 0 0 false) (mkBreaker 1 30 CLOSED 0 0 false)); reflexivity. }
  apply (sys_failure _ 100 (mkBreaker 1 30 CLOSED 0 0 false) false [] [false]). done.
Qed.

(** Without that restriction the single-probe promise fails: a call let through
    before the circuit opened, ending without a verdict (a client that hangs up)
    while the probe is in flight, frees the probe's slot, and a second probe
    joins the first. *)
Theorem stale_abort_two_probes :
  ∃ s, reachable (sys_init 1 30) (sys_step any_end) s
       ∧ breaker_state (sys_breaker s) = HALF_OPEN ∧ probes (sys_calls s) = 2%nat.
Proof.
  exists (mkSys (mkBreaker 1 30 HALF_OPEN 0 100 true) [true; true]). split; [|done].
  eapply reach_step;
    [|apply (sys_grant _ 131 (mkBreaker 1 30 HALF_OPEN 0 100 false) (mkBreaker 1 30 HALF_OPEN 0 100 true)); reflexivity].
  eapply reach_step;
    [|by apply (sys_abort any_end (mkBreaker 1 30 HALF_OPEN 0 100 true) false [true] [])].
  eapply reach_step;
    [apply stale_reach_1|apply (sys_grant _ 130 (mkBreaker 1 30 OPEN 0 100 false) (mkBreaker 1 30 HALF_OPEN 0 100 true)); reflexivity].
Qed.

(** ** The client *)

Section client_laws.
Context {W : Type} `{!Field W (gmap string CircuitBreaker)}.
Context (clock : M W exn Z) (factory : result exn CircuitBreaker) (codes : list Z).

Definition breakers (w : W) : gmap string CircuitBreaker := getf w.

Lemma breakers_updf f w : breakers (updf f w) = f (breakers w).
Proof. apply getf_updf. Qed.

(** The breaker kept for [t], as [breaker_for] would answer it. *)
Definition holds_breaker (t : string) (x : option CircuitBreaker) (w : W) : Prop :=
  breakers w !! t = x.

Lemma breaker_for_other t t' x :
  t ≠ t' → preserves (holds_breaker t' x) (breaker_for (W:=W) factory t).
Proof.
  intros Hne. unfold breaker_for. apply preserves_bind; [apply preserves_gets|]. intros bs.
  destruct (bs !! t); [apply preserves_ret|].
  apply preserves_bind; [apply preserves_lift|]. intros b.
  apply preserves_bind; [|intros; apply preserves_ret].
  apply preserves_modify. intros w Hw. unfold holds_breaker.
  by rewrite breakers_updf, lookup_insert_ne.
Qed.
Lemma on_breaker_other t t' x f :
  t ≠ t' → preserves (holds_breaker t' x) (on_breaker (W:=W) t f).
Proof.
  intros Hne. apply preserves_modify. intros w Hw. unfold holds_breaker.
  by rewrite breakers_updf, lookup_alter_ne.
Qed.
Lemma breaker_failed_other t t' x :
  t ≠ t' → preserves (holds_breaker t' x) clock →
  preserves (holds_breaker t' x) (breaker_failed clock t).
Proof.
  intros Hne Hc. apply preserves_bind; [done|]. intros. by apply on_breaker_other.
Qed.
Lemma acquire_other t t' x :
  t ≠ t' → preserves (holds_breaker t' x) clock →
  preserves (holds_breaker t' x) (acquire clock factory t).
Proof.
  intros Hne Hc. apply preserves_bind; [by apply breaker_for_other|]. intros b.
  apply preserves_bind; [done|]. intros now.
  apply preserves_bind; [by apply on_breaker_other|]. intros. apply preserves_ret.
Qed.

Lemma acquire_kept t b now w w' :
  breakers w !! t = Some b → clock w = (Ok now, w') →
  acquire clock factory t w
  = (Ok (try_acquire now b).1,
     updf (λ bs : gmap string CircuitBreaker, alter (λ b, (try_acquire now b).2) t bs) w').
Proof.
  intros Hb Hc. unfold acquire, breaker_for. rewrite !run_bind, run_gets.
  change (getf w) with (breakers w). rewrite Hb. cbn. by rewrite run_bind, Hc.
Qed.

(** A call to one instance never touches the circuit of another: however it
    ends, the breaker of every other target is what it was, provided the call
    itself and the clock leave it alone. *)
Theorem guarded_isolated {O} `{!Outcome O} (request : OutboundRequest)
    (call : OutboundRequest → M W exn O) t' x
    (Hother : target request ≠ t')
    (Hclock : preserves (holds_breaker t' x) clock)
    (Hcall : preserves (holds_breaker t' x) (call request)) :
  preserves (holds_breaker t' x) (guarded clock factory codes request call).
Proof.
  apply preserves_bind; [by apply acquire_other|]. intros [|]; cbn; [|apply preserves_raise].
  apply preserves_bind.
  - apply preserves_try; [done|]. intros e k. destruct (isinstance _ _); intros [= <-].
    + apply preserves_bind; [by apply breaker_failed_other|intros; apply preserves_raise].
    + apply preserves_bind; [by apply on_breaker_other|intros; apply preserves_raise].
  - intros o. apply preserves_bind; [|intros; apply preserves_ret].
    case_bool_decide; [by apply breaker_failed_other|by apply on_breaker_other].
Qed.

(** While the circuit of an instance is open and its timeout has not passed,
    a request to it answers [CircuitOpenError] at once: the call behind the
    breaker is never made (the result does not depend on it) and the breaker
    stays as it is. *)
Theorem guarded_open {O} `{!Outcome O} (request : OutboundRequest)
    (call : OutboundRequest → M W exn O) b now w w'
    (Hb : breakers w !! target request = Some b)
    (Hclock : clock w = (Ok now, w'))
    (Hsame : breakers w' = breakers w)
    (Hopen : breaker_state b = OPEN)
    (Hearly : now - opened_at b < recovery_timeout b) :
  guarded clock factory codes request call w
  = (Raise (CircuitOpenError (service_name (out_service request))), w').
Proof.
  unfold guarded. rewrite run_bind, (acquire_kept _ b now w w') by done.
  unfold try_acquire at 1. rewrite Hopen. apply Z.ltb_lt in Hearly as Hlt. rewrite Hlt. cbn.
  unfold raise. f_equal. apply updf_id. change (getf w') with (breakers w').
  rewrite Hsame. apply map_eq. intros t. destruct (decide (target request = t)) as [<-|Hne].
  - rewrite lookup_alter_eq, Hb. cbn. unfold try_acquire. by rewrite Hopen, Hlt.
  - by rewrite lookup_alter_ne.
Qed.
End client_laws.

Definition sample_service : ServiceDefinition :=
  mkService "orders" ["http://a"; "http://b"]%string 10 "/health" None []
    [mkInstance "http://a" "aa"; mkInstance "http://b" "bb"]%string.
Definition sample_request (i : ServiceInstance) : OutboundRequest :=
  mkOutbound sample_service "GET" "" [] [] "" (Some i).
Definition sample_clock : M (gmap string CircuitBreaker) exn Z := mret 110.
Definition sample_breakers : gmap string CircuitBreaker :=
  {["orders@aa"%string := mkBreaker 5 30 OPEN 0 100 false]}.

Lemma guarded_isolated_witness :
  holds_breaker "orders@aa" (Some (mkBreaker 5 30 OPEN 0 100 false))
    (guarded sample_clock (CircuitBreaker_new 1 30) [502]
       (sample_request (mkInstance "http://b" "bb"))
       (λ _, mret (mkStream 502 [] (mkBody [] None 0) None)) sample_breakers).2.
Proof.
  refine (guarded_isolated sample_clock (CircuitBreaker_new 1 30) [502]
            (sample_request (mkInstance "http://b" "bb"))
            (λ _, mret (mkStream 502 [] (mkBody [] None 0) None))
            "orders@aa" (Some (mkBreaker 5 30 OPEN 0 100 false)) _ _ _ sample_breakers _).
  - discriminate.
  - apply preserves_ret.
  - apply preserves_ret.
  - reflexivity.
Defined.

Lemma guarded_open_witness :
  (guarded sample_clock (CircuitBreaker_new 1 30) [502]
     (sample_request (mkInstance "http://a" "aa"))
     (λ _, mret (mkStream 200 [] (mkBody [] None 0) None)) sample_breakers).1
  = Raise (CircuitOpenError "orders").
Proof.
  rewrite (guarded_open sample_clock _ _ _ _ (mkBreaker 5 30 OPEN 0 100 false) 110 _ sample_breakers);
    try reflexivity.
Defined.
