(* ===== verification/HeaderPolicy.v ===== *)
(** * Header policy and registry *)
(** [application/header_policy.py], the rules deciding which headers cross the
    gateway in each direction; and [infrastructure/registry.py], the static map of
    service names to their definitions. *)
From S2P Require Export Models PyDict.
From Stdlib Require Import Ascii.
From stdpp Require Import options.
Local Open Scope Z_scope.

(** ** Registry *)

(** The dict of services, in insertion order. *)
Definition ServiceRegistry : Type := list (string * ServiceDefinition).

Fixpoint registry_fill (known : ServiceRegistry) (services : list ServiceDefinition)
    : result exn ServiceRegistry :=
  match services with
  | [] => Ok known
  | s :: services' =>
      match assoc_get (service_name s) known with
      | Some _ => Raise (DuplicateServiceError (service_name s))
      | None => registry_fill (known ++ [(service_name s, s)]) services'
      end
  end.
Definition InMemoryServiceRegistry (services : list ServiceDefinition)
    : result exn ServiceRegistry :=
  registry_fill [] services.

Definition registry_get (r : ServiceRegistry) (name : string) : result exn ServiceDefinition :=
  match assoc_get name r with
  | Some s => Ok s
  | None => Raise (ServiceNotFoundError name)
  end.

Definition registry_all (r : ServiceRegistry) : list ServiceDefinition := snd <$> r.

(** ** Header policy *)

Definition HOP_BY_HOP_HEADERS : list string :=
  ["connection"; "keep-alive"; "proxy-authenticate"; "proxy-authorization"; "te"; "trailer";
   "trailers"; "transfer-encoding"; "upgrade"]%string.
Definition RECOMPUTED_REQUEST_HEADERS : list string := ["host"; "content-length"]%string.
Definition FORWARDING_HEADERS : list string :=
  ["x-forwarded-for"; "x-forwarded-proto"; "x-forwarded-host"; "x-request-id"]%string.
Definition STALE_RESPONSE_HEADERS : list string :=
  ["content-encoding"; "content-length"]%string.

Definition comma : ascii := ascii_of_nat 44.

(** [_connection_tokens] *)
Definition connection_tokens (headers : Headers) : list string :=
  headers ≫= λ h,
    if String.eqb (str_lower h.1) "connection"
    then (λ token, str_lower (str_strip token)) <$>
           filter (λ token, str_truthy (str_strip token) = true) (str_split comma h.2)
    else [].

(** The values of the headers called [n], whatever the case of their names. *)
Definition values (n : string) (hs : Headers) : list string :=
  snd <$> filter (λ h, String.eqb (str_lower h.1) n = true) hs.

(** [_forwarding_headers] *)
Definition forwarding_headers (inbound : InboundRequest) : Headers :=
  let truthy (o : option string) := match o with Some s => str_truthy s | None => false end in
  let chain := values "x-forwarded-for" (in_headers inbound)
               ++ (if truthy (client_host inbound) then option_list (client_host inbound) else []) in
  [("x-forwarded-proto"%string, scheme inbound)]
  ++ match chain with [] => [] | _ => [("x-forwarded-for"%string, str_join ", " chain)] end
  ++ (if truthy (host inbound)
      then (λ h, ("x-forwarded-host"%string, h)) <$> option_list (host inbound) else [])
  ++ (if truthy (request_id inbound)
      then (λ i, ("x-request-id"%string, i)) <$> option_list (request_id inbound) else []).

Definition upstream_dropped (inbound : InboundRequest) (service_headers : Headers) : list string :=
  HOP_BY_HOP_HEADERS ++ RECOMPUTED_REQUEST_HEADERS ++ FORWARDING_HEADERS
  ++ connection_tokens (in_headers inbound)
  ++ ((λ h, str_lower h.1) <$> service_headers).

Definition keep_headers (dropped : list string) (hs : Headers) : Headers :=
  filter (λ h, mem_str (str_lower h.1) dropped = false) hs.

Definition for_upstream (inbound : InboundRequest) (service_headers : Headers) : Headers :=
  keep_headers (upstream_dropped inbound service_headers) (in_headers inbound)
  ++ forwarding_headers inbound ++ service_headers.

Definition client_dropped (headers : Headers) : list string :=
  HOP_BY_HOP_HEADERS ++ STALE_RESPONSE_HEADERS ++ connection_tokens headers.

Definition for_client (headers : Headers) : Headers :=
  keep_headers (client_dropped headers) headers.

(** ** Registry laws *)

Lemma registry_fill_spec services known :
  match registry_fill known services with
  | Ok r => r = known ++ ((λ s, (service_name s, s)) <$> services)
            ∧ NoDup (service_name <$> services)
            ∧ (∀ s, s ∈ services → service_name s ∉ known.*1)
  | Raise e => (∃ s, s ∈ services ∧ e = DuplicateServiceError (service_name s))
               ∧ (NoDup (service_name <$> services) →
                  ∃ s, s ∈ services ∧ service_name s ∈ known.*1)
  end.
Proof.
  revert known. induction services as [|s services IH]; intros known; cbn.
  - rewrite app_nil_r. split_and!; [done|constructor|set_solver].
  - destruct (assoc_get (service_name s) known) eqn:Hg.
    + assert (service_name s ∈ known.*1) as Hin.
      { destruct (decide (service_name s ∈ known.*1)) as [|Hn]; [done|].
        apply assoc_get_None in Hn. congruence. }
      split; [set_solver|]. intros _. exists s. set_solver.
    + apply assoc_get_None in Hg. specialize (IH (known ++ [(service_name s, s)])).
      destruct (registry_fill _ services) as [r|e].
      * destruct IH as (-> & Hnd & Hfresh). rewrite <- app_assoc. split; [done|].
        assert (service_name s ∉ service_name <$> services) as Hs.
        { intros (s' & He & Hs')%list_elem_of_fmap_1.
          apply (Hfresh s' Hs'). rewrite fmap_app. set_solver. }
        split; [by constructor|]. intros s' [->|Hs']%elem_of_cons; [done|].
        specialize (Hfresh s' Hs'). rewrite fmap_app in Hfresh. set_solver.
      * destruct IH as [(s' & Hs' & ->) Hd]. split; [exists s'; set_solver|].
        intros [Hs Hnd]%NoDup_cons. destruct (Hd Hnd) as (s2 & Hs2 & Hk).
        rewrite fmap_app, elem_of_app in Hk. destruct Hk as [Hk|Hk].
        -- exists s2. set_solver.
        -- cbn in Hk. apply list_elem_of_singleton in Hk. destruct Hs. rewrite <- Hk.
           by apply list_elem_of_fmap_2.
Qed.

Lemma assoc_get_services services s :
  NoDup (service_name <$> services) → s ∈ services →
  assoc_get (service_name s) ((λ s, (service_name s, s)) <$> services) = Some s.
Proof.
  induction services as [|s' services IH]; cbn; intros Hnd Hin; [set_solver|].
  apply NoDup_cons in Hnd as [Hn Hnd]. apply elem_of_cons in Hin as [->|Hin].
  - by rewrite String.eqb_refl.
  - destruct (String.eqb_spec (service_name s) (service_name s')) as [He|_]; [|by apply IH].
    destruct Hn. rewrite <- He. by apply list_elem_of_fmap_2.
Qed.

(** The registry is built exactly when no two services share a name; it then
    answers every configured service under its own name and
    [ServiceNotFoundError] under any other, and lists them in the order of the
    configuration. *)
Theorem registry_correct services :
  (NoDup (service_name <$> services) →
     ∃ r, InMemoryServiceRegistry services = Ok r
          ∧ registry_all r = services
          ∧ (∀ s, s ∈ services → registry_get r (service_name s) = Ok s)
          ∧ (∀ n, n ∉ service_name <$> services →
               registry_get r n = Raise (ServiceNotFoundError n)))
  ∧ (¬ NoDup (service_name <$> services) →
     ∃ s, s ∈ services ∧
       InMemoryServiceRegistry services = Raise (DuplicateServiceError (service_name s))).
Proof.
  unfold InMemoryServiceRegistry. pose proof (registry_fill_spec services []) as H.
  destruct (registry_fill [] services) as [r|e].
  - destruct H as (-> & Hnd & _). cbn [app]. split; [|done]. intros _. eexists. split; [done|].
    split_and!.
    + unfold registry_all. rewrite <- list_fmap_compose. apply list_fmap_id.
    + intros s Hs. unfold registry_get. by rewrite assoc_get_services.
    + intros n Hn. unfold registry_get.
      rewrite (proj2 (assoc_get_None _ _)); [done|]. rewrite <- list_fmap_compose. exact Hn.
  - destruct H as [(s & Hs & ->) Hd]. split; [|eauto]. intros Hnd.
    destruct (Hd Hnd) as (s' & _ & Hk). set_solver.
Qed.

(** ** Header laws *)

Lemma values_app n hs hs' : values n (hs ++ hs') = values n hs ++ values n hs'.
Proof. unfold values. by rewrite filter_app, fmap_app. Qed.
Lemma values_cons n k v hs :
  values n ((k, v) :: hs) = (if String.eqb (str_lower k) n then [v] else []) ++ values n hs.
Proof. unfold values. rewrite filter_cons. cbn. by destruct (String.eqb _ n). Qed.
Lemma values_keep n dropped hs :
  values n (keep_headers dropped hs) = if mem_str n dropped then [] else values n hs.
Proof.
  unfold keep_headers. induction hs as [|[k v] hs IH]; [by destruct (mem_str n dropped)|].
  rewrite filter_cons. cbn [fst]. destruct (mem_str (str_lower k) dropped) eqn:Hd.
  - rewrite decide_False by congruence. rewrite IH, values_cons.
    destruct (String.eqb_spec (str_lower k) n) as [He|]; [by rewrite <- He, Hd|done].
  - rewrite decide_True by done. rewrite !values_cons, IH.
    destruct (String.eqb_spec (str_lower k) n) as [He|]; [by rewrite <- He, Hd|done].
Qed.
Lemma values_nil n hs :
  Forall (λ h, str_lower h.1 ≠ n) hs → values n hs = [].
Proof.
  intros H. unfold values. rewrite filter_none; [done|]. eapply Forall_impl; [exact H|].
  intros h Hh He. apply String.eqb_eq in He. done.
Qed.
Lemma mem_str_app n l l' : mem_str n (l ++ l') = mem_str n l || mem_str n l'.
Proof. apply existsb_app. Qed.
Lemma mem_lower_names n hs :
  mem_str n ((λ h : string * string, str_lower h.1) <$> hs) = false → values n hs = [].
Proof.
  intros H%mem_str_false. apply values_nil, Forall_forall. intros h Hh He. apply H.
  rewrite <- He. by apply list_elem_of_fmap_2 with (f := λ h : string * string, str_lower h.1).
Qed.

(** What the gateway states about the client, by header name. *)
Definition forwarded (inbound : InboundRequest) (n : string) : list string :=
  let some (o : option string) := filter (λ s, str_truthy s = true) (option_list o) in
  if String.eqb n "x-forwarded-proto" then [scheme inbound]
  else if String.eqb n "x-forwarded-for" then
    match values "x-forwarded-for" (in_headers inbound) ++ some (client_host inbound) with
    | [] => []
    | chain => [str_join ", " chain]
    end
  else if String.eqb n "x-forwarded-host" then some (host inbound)
  else if String.eqb n "x-request-id" then some (request_id inbound)
  else [].

Lemma some_truthy (o : option string) :
  (if match o with Some s => str_truthy s | None => false end then option_list o else [])
  = filter (λ s, str_truthy s = true) (option_list o).
Proof.
  destruct o as [s|]; [|done]. cbn. by destruct (str_truthy s).
Qed.
Lemma values_named n k (l : list string) :
  str_lower k = k → values n ((λ v, (k, v)) <$> l) = if String.eqb k n then l else [].
Proof.
  intros Hk. induction l as [|v l IH]; [by destruct (String.eqb k n)|]. rewrite fmap_cons.
  rewrite values_cons, Hk, IH. by destruct (String.eqb k n).
Qed.

Lemma values_forwarding inbound n : values n (forwarding_headers inbound) = forwarded inbound n.
Proof.
  unfold forwarding_headers. rewrite !values_app.
  rewrite (values_cons n "x-forwarded-proto"), some_truthy. change (values n []) with (@nil string).
  set (chain := _ ++ filter _ (option_list (client_host inbound))).
  assert (∀ k (o : option string), str_lower k = k →
    values n (if match o with Some s => str_truthy s | None => false end
              then (λ h, (k, h)) <$> option_list o else [])
    = if String.eqb k n then filter (λ s, str_truthy s = true) (option_list o) else []) as Hopt.
  { intros k o Hk. rewrite <- some_truthy. destruct o as [s|]; [|by destruct (String.eqb k n)].
    destruct (str_truthy s); [|by destruct (String.eqb k n)]. by apply values_named. }
  rewrite !Hopt by done.
  replace (values n match chain with [] => [] | _ => [("x-forwarded-for"%string, str_join ", " chain)] end)
    with (if String.eqb "x-forwarded-for" n
          then match chain with [] => [] | _ => [str_join ", " chain] end else [])
    by (destruct chain; [by destruct (String.eqb _ n)|];
        rewrite values_cons; change (str_lower "x-forwarded-for") with "x-forwarded-for"%string;
        by destruct (String.eqb _ n)).
  change (str_lower "x-forwarded-proto") with "x-forwarded-proto"%string.
  unfold forwarded. rewrite !(String.eqb_sym n). fold chain.
  destruct (String.eqb_spec "x-forwarded-proto" n) as [<-|]; [done|].
  destruct (String.eqb_spec "x-forwarded-for" n) as [<-|]; [cbn; rewrite !app_nil_r; by destruct chain|].
  destruct (String.eqb_spec "x-forwarded-host" n) as [<-|]; [cbn; by rewrite !app_nil_r|].
  destruct (String.eqb_spec "x-request-id" n) as [<-|]; done.
Qed.

(** What reaches a service, header name by header name and in order: the
    client's own values unless the name is hop-by-hop, named in [Connection],
    recomputed, one of the gateway's forwarding headers or configured for the
    service; then what the gateway states about the client; then the service's
    configured values.  So a client can override neither. *)
Theorem for_upstream_values inbound service_headers n :
  values n (for_upstream inbound service_headers)
  = (if mem_str n (upstream_dropped inbound service_headers) then []
     else values n (in_headers inbound))
    ++ forwarded inbound n ++ values n service_headers.
Proof. unfold for_upstream. by rewrite !values_app, values_keep, values_forwarding. Qed.

(** A name the service is configured with carries the configured values and
    nothing else, and no client can spoof the gateway's forwarding headers; no
    hop-by-hop header and no header named in [Connection] passes unless the
    service is configured with it. *)
Theorem for_upstream_unspoofable inbound service_headers n :
  (n ∈ (λ h, str_lower h.1) <$> service_headers → n ∉ FORWARDING_HEADERS →
     values n (for_upstream inbound service_headers) = values n service_headers)
  ∧ (n ∈ FORWARDING_HEADERS → n ∉ (λ h, str_lower h.1) <$> service_headers →
     values n (for_upstream inbound service_headers) = forwarded inbound n)
  ∧ (n ∈ HOP_BY_HOP_HEADERS ++ connection_tokens (in_headers inbound) → n ∉ FORWARDING_HEADERS →
     values n (for_upstream inbound service_headers) = values n service_headers).
Proof.
  assert (∀ hs, values n (for_upstream inbound hs)
    = (if mem_str n (upstream_dropped inbound hs) then [] else values n (in_headers inbound))
      ++ forwarded inbound n ++ values n hs) as Hv.
  { intros hs. unfold for_upstream. by rewrite !values_app, values_keep, values_forwarding. }
  rewrite Hv. unfold upstream_dropped. rewrite !mem_str_app.
  assert (n ∉ FORWARDING_HEADERS → forwarded inbound n = []) as Hf.
  { intros Hn%mem_str_false. unfold forwarded. cbn in Hn.
    repeat (apply orb_false_iff in Hn as [? Hn]).
    by repeat match goal with H : String.eqb _ _ = false |- _ => rewrite H; clear H end. }
  split_and!.
  - intros Hn%mem_str_spec Hnf. rewrite Hn, !orb_true_r, Hf by done. done.
  - intros Hn%mem_str_spec Hs%mem_str_false. rewrite Hn, (mem_lower_names _ _ Hs).
    rewrite !orb_true_r. cbn. by rewrite app_nil_r.
  - rewrite elem_of_app. intros Hn Hnf. rewrite (Hf Hnf).
    destruct Hn as [Hn%mem_str_spec|Hn%mem_str_spec]; rewrite Hn; [done|].
    by rewrite !orb_true_r.
Qed.

Lemma connection_tokens_none hs :
  values "connection" hs = [] → connection_tokens hs = [].
Proof.
  unfold connection_tokens. induction hs as [|[k v] hs IH]; [done|].
  rewrite values_cons. cbn. destruct (String.eqb (str_lower k) "connection"); [done|]. apply IH.
Qed.

(** What the client is sent back: the service's headers in order, without the
    hop-by-hop ones, those its [Connection] names and the stale length and
    encoding of the decoded body; filtering twice changes nothing. *)
Theorem for_client_values headers n :
  values n (for_client headers)
    = (if mem_str n (client_dropped headers) then [] else values n headers)
  ∧ for_client (for_client headers) = for_client headers.
Proof.
  split; [apply values_keep|]. unfold for_client at 1.
  assert (connection_tokens (for_client headers) = []) as Hc.
  { apply connection_tokens_none. unfold for_client. by rewrite values_keep. }
  unfold client_dropped. rewrite Hc, app_nil_r. unfold keep_headers at 1. apply filter_all.
  apply Forall_forall. intros h Hh. unfold for_client, keep_headers in Hh.
  apply list_elem_of_filter in Hh as [Hd _]. unfold client_dropped in Hd.
  rewrite !mem_str_app in *. apply orb_false_iff in Hd as [Hd1 Hd2].
  by apply orb_false_iff in Hd2 as [-> _]; rewrite Hd1.
Qed.

Example for_upstream_example :
  for_upstream
    (mkInbound "GET" "x" [("Authorization", "client"); ("Connection", "close, X-Secret");
       ("x-secret", "1"); ("X-Forwarded-For", "1.2.3.4"); ("X-Keep", "k")] [] "" (Some "9.9.9.9")
       "https" (Some "gw") None)
    [("authorization", "Bearer s")]
  = [("X-Keep", "k"); ("x-forwarded-proto", "https"); ("x-forwarded-for", "1.2.3.4, 9.9.9.9");
     ("x-forwarded-host", "gw"); ("authorization", "Bearer s")]%string.
Proof. vm_compute. reflexivity. Qed.
