(* ===== verification/Retry.v ===== *)
(** * Retries *)
(** [infrastructure/resilience/retry.py]: idempotent requests are sent again after a
    transient failure, waiting longer every time.  Delays are nanoseconds; the power of two in [delay_for] is a float
    and overflows from attempt 1025 on. *)
From S2P Require Export Models.
From stdpp Require Import options.
Local Open Scope Z_scope.

Record RetryPolicy : Type := mkRetryPolicy {
  max_attempts : Z;
  base_delay : Z;
  max_delay : Z;
  retry_on_status : list Z
}.

(** The constructor with its [__post_init__]. *)
Definition RetryPolicy_new (attempts base cap : Z) (statuses : list Z) : result exn RetryPolicy :=
  if attempts <? 1 then Raise (ValueError "max_attempts must be at least 1")
  else if (base <? 0) || (cap <? 0) then Raise (ValueError "delays cannot be negative")
  else Ok (mkRetryPolicy attempts base cap statuses).

(** [2.0 ** (attempt - 1)] is a power of floats: beyond the largest of them it raises. *)
Definition power_too_large : exn := OverflowError "(34, 'Numerical result out of range')".
Definition delay_for (p : RetryPolicy) (attempt : Z) : result exn Z :=
  if attempt <=? 1024 then Ok (Z.min (base_delay p * 2 ^ (attempt - 1)) (max_delay p))
  else Raise power_too_large.

Definition should_retry_status (p : RetryPolicy) (status : Z) : bool :=
  bool_decide (status ∈ retry_on_status p).

(** [_RETRYABLE_ERRORS] *)
Definition is_retryable (e : exn) : bool :=
  isinstance e cUpstreamConnectionError || isinstance e cUpstreamTimeoutError.

(** What the model answers when its fuel ends; [retry_reference] shows it never does. *)
Definition out_of_fuel : exn := ForeignError "OutOfFuel" EmptyString.

Section retry.
Context {W A : Type} `{!Outcome A}.
Context (sleep : Z → M W exn unit) (policy : RetryPolicy).
Context (request : OutboundRequest) (call : OutboundRequest → M W exn A)
        (discard : A → M W exn unit).

(** The [while True] of [_attempts]. *)
Fixpoint attempts_loop (fuel : nat) (attempt : Z) : M W exn A :=
  match fuel with
  | O => raise out_of_fuel
  | S fuel' =>
      tried ← try_except (o ← call request; mret (Some o)) (λ e,
        if is_retryable e
        then Some (if max_attempts policy <=? attempt then raise e else mret None)
        else None);
      answer ← match tried with
               | None => mret None
               | Some o =>
                   if (max_attempts policy <=? attempt)
                      || negb (should_retry_status policy (status_code o))
                   then mret (Some o)
                   else discard o ;; mret None
               end;
      match answer with
      | Some o => mret o
      | None =>
          delay ← lift (delay_for policy attempt);
          (* the log line reads [request.url] *)
          lift (url request) ;;
          sleep delay ;;
          attempts_loop fuel' (attempt + 1)
      end
  end.

(** [_attempts]: one pass of the loop per attempt. *)
Definition attempts : M W exn A :=
  if negb (is_idempotent request) then call request
  else attempts_loop (Z.to_nat (max_attempts policy)) 1.

(** ** The reference *)

(** Send; after a transient failure, wait the next delay and send again; with no
    delay left, the outcome of the send is the outcome, and a delay that cannot be
    computed is the outcome instead of the wait. *)
Definition wait (d : result exn Z) : M W exn unit := d ← lift d; lift (url request) ;; sleep d.
Fixpoint tries (delays : list (result exn Z)) : M W exn A :=
  match delays with
  | [] => call request
  | d :: ds => λ w,
      match call request w with
      | (Ok o, w') =>
          if should_retry_status policy (status_code o)
          then (discard o ;; wait d ;; tries ds) w'
          else (Ok o, w')
      | (Raise e, w') =>
          if is_retryable e
          then (wait d ;; tries ds) w'
          else (Raise e, w')
      end
  end.

Definition delays_from (attempt : Z) : list (result exn Z) :=
  delay_for policy <$> seqZ attempt (max_attempts policy - attempt).

Lemma delays_from_last attempt :
  max_attempts policy <= attempt → delays_from attempt = [].
Proof. intros H. unfold delays_from. by rewrite seqZ_nil by lia. Qed.
Lemma delays_from_cons attempt :
  attempt < max_attempts policy →
  delays_from attempt = delay_for policy attempt :: delays_from (attempt + 1).
Proof.
  intros H. unfold delays_from. rewrite seqZ_cons by lia. cbn. f_equal. f_equal. f_equal; lia.
Qed.

Lemma loop_is_tries fuel attempt w :
  (Z.to_nat (max_attempts policy - attempt + 1) ≤ fuel)%nat → (0 < fuel)%nat →
  attempts_loop fuel attempt w = tries (delays_from attempt) w.
Proof.
  revert attempt w. induction fuel as [|fuel IH]; intros attempt w Hf Hp; [lia|].
  cbn [attempts_loop]. rewrite run_bind. unfold try_except. rewrite run_bind.
  destruct (Z.leb_spec (max_attempts policy) attempt) as [Hle|Hlt].
  - rewrite delays_from_last by done. cbn [tries].
    destruct (call request w) as [[o|e] w']; cbn; [done|]. by destruct (is_retryable e).
  - rewrite delays_from_cons by done. cbn [tries].
    assert (∀ w', attempts_loop fuel (attempt + 1) w' = tries (delays_from (attempt + 1)) w')
      as IH' by (intros w'; apply IH; lia).
    assert (∀ w', (d ← lift (delay_for policy attempt); lift (url request) ;; sleep d ;;
                   attempts_loop fuel (attempt + 1)) w'
                  = (wait (delay_for policy attempt) ;; tries (delays_from (attempt + 1))) w') as IHw.
    { intros w'. unfold wait. rewrite !run_bind, !run_lift. destruct (delay_for _ _); [|done].
      rewrite !run_bind. destruct (lift _ w') as [[] ?]; [|done].
      rewrite !run_bind. destruct (sleep _ _) as [[] ?]; [|done]. apply IH'. }
    destruct (call request w) as [[o|e] w']; cbn.
    + destruct (should_retry_status policy (status_code o)); cbn; [|done].
      rewrite !run_bind. destruct (discard o w') as [[] ?]; cbn; [|done]. apply IHw.
    + destruct (is_retryable e); cbn; [|done]. apply IHw.
Qed.
End retry.

(** ** Theorems *)

Lemma RetryPolicy_new_inv a b c l p :
  RetryPolicy_new a b c l = Ok p →
  p = mkRetryPolicy a b c l ∧ 1 <= a ∧ 0 <= b ∧ 0 <= c.
Proof.
  unfold RetryPolicy_new. destruct (a <? 1) eqn:E1; [done|].
  destruct ((b <? 0) || (c <? 0)) eqn:E2; [done|]. intros [= <-].
  apply orb_false_iff in E2 as [? ?]. bool_to_Z. repeat split; lia.
Qed.

(** C35. The retry loop ends, and it is the obvious procedure: a request that is
    not idempotent is sent once; an idempotent one is sent, and after each
    transient failure or retryable status, with the discarded response released,
    sent again after the next of the [max_attempts - 1] delays; the outcome of the
    last send is the outcome, whatever it is, unless the waits ran past the largest
    power of two a float holds. *)
Theorem retry_reference {W A} `{!Outcome A} (sleep : Z → M W exn unit) policy request
    (call : OutboundRequest → M W exn A) discard (w : W)
    (Hpolicy : 1 <= max_attempts policy) :
  attempts sleep policy request call discard w
  = if is_idempotent request
    then tries sleep policy request call discard
           (delay_for policy <$> seqZ 1 (max_attempts policy - 1)) w
    else call request w.
Proof.
  unfold attempts. destruct (is_idempotent request); cbn [negb]; [|done].
  rewrite loop_is_tries by lia. done.
Qed.

Definition retry_sample_service : ServiceDefinition :=
  mkService "s" ["http://a"]%string 10 "/health" None [] [mkInstance "http://a" "aa"]%string.
Definition retry_sample_request (method : string) : OutboundRequest :=
  mkOutbound retry_sample_service method EmptyString [] [] EmptyString None.
Definition retry_sample_policy : RetryPolicy := mkRetryPolicy 3 100 150 [502].
(** A service that answers 502 twice and then 200, counting the sends and the waits. *)
Definition flaky : OutboundRequest → M (nat * list Z) exn UpstreamStream := λ _ s,
  (Ok (mkStream (if (s.1 <? 2)%nat then 502 else 200) [] (mkBody [] None 0) None), (S s.1, s.2)).
Definition note_sleep (d : Z) : M (nat * list Z) exn unit := modify (λ s, (s.1, s.2 ++ [d])).

Lemma retry_reference_witness :
  (attempts note_sleep retry_sample_policy (retry_sample_request "GET") flaky
     (λ _, mret tt) (0%nat, [])).2 = (3%nat, [100; 150]).
Proof.
  rewrite (retry_reference note_sleep retry_sample_policy (retry_sample_request "GET") flaky
             (λ _, mret tt) (0%nat, [])) by (cbn; lia).
  vm_compute. reflexivity.
Defined.

(** The waits of a policy the constructor accepted: up to the 1024th they are never
    negative, never above the cap, never shorter than the one before, and doubled until
    the cap; there is no later one. *)
Theorem delay_for_backoff a b c l p attempt
    (Hnew : RetryPolicy_new a b c l = Ok p) (Hattempt : 1 <= attempt) :
  delay_for p 1 = Ok (Z.min b c)
  ∧ if attempt <=? 1024
    then ∃ d, delay_for p attempt = Ok d ∧ 0 <= d <= c
      ∧ (attempt < 1024 → ∃ d', delay_for p (attempt + 1) = Ok d' ∧ d <= d' ∧ d' = Z.min (2 * d) c)
    else delay_for p attempt = Raise power_too_large.
Proof.
  apply RetryPolicy_new_inv in Hnew as (-> & Ha & Hb & Hc). unfold delay_for. cbn.
  split; [f_equal; lia|]. destruct (Z.leb_spec attempt 1024); [|done].
  assert (0 < 2 ^ (attempt - 1)) by (apply Z.pow_pos_nonneg; lia).
  eexists. split; [done|]. split; [nia|]. intros Hlt. rewrite (proj2 (Z.leb_le _ _)) by lia.
  eexists. split; [done|]. replace (attempt + 1 - 1) with (Z.succ (attempt - 1)) by lia.
  rewrite Z.pow_succ_r by lia. set (k := 2 ^ (attempt - 1)) in *. assert (0 <= b * k) by nia.
  replace (b * (2 * k)) with (2 * (b * k)) by lia. split; lia.
Qed.

Lemma delay_for_backoff_witness : ∃ d, delay_for (mkRetryPolicy 3 100 350 [502]) 3 = Ok d ∧ d = 350.
Proof.
  destruct (proj2 (delay_for_backoff 3 100 350 [502] _ 2 eq_refl ltac:(lia))) as (d & Hd & _ & H).
  destruct (H ltac:(lia)) as (d' & Hd' & _ & ->). injection Hd as <-. eexists. split; [exact Hd'|reflexivity].
Defined.

(** A policy with more attempts than a float has powers of two is accepted, and instead of
    waiting its capped delay for the 1025th time it raises what is no upstream's error. *)
Example backoff_overflows :
  RetryPolicy_new 2000 100 350 [502] = Ok (mkRetryPolicy 2000 100 350 [502])
  ∧ delay_for (mkRetryPolicy 2000 100 350 [502]) 1024 = Ok 350
  ∧ delay_for (mkRetryPolicy 2000 100 350 [502]) 1025 = Raise power_too_large
  ∧ isinstance power_too_large cGatewayError = false.
Proof. split_and!; vm_compute; reflexivity. Qed.

Section counting.
#[local] Set Default Proof Using "Type*".
Context {W A : Type} `{!Outcome A} (sleep : Z → M W exn unit) (policy : RetryPolicy).
Context (request : OutboundRequest) (call : OutboundRequest → M W exn A)
        (discard : A → M W exn unit).
(** The sends a world has seen. *)
Context (sends : W → nat).
Hypothesis call_counts : ∀ w, sends (call request w).2 = S (sends w).
Hypothesis sleep_keeps : ∀ d n, preserves (λ w, sends w = n) (sleep d).
Hypothesis discard_keeps : ∀ o n, preserves (λ w, sends w = n) (discard o).

Lemma wait_bound d (ds : list (result exn Z)) n m :
  (∀ w, sends w = n → (n < sends (tries sleep policy request call discard ds w).2 ≤ m)%nat) →
  (n ≤ m)%nat →
  ∀ w, sends w = n →
  (n ≤ sends ((wait sleep request d ;; tries sleep policy request call discard ds) w).2 ≤ m)%nat.
Proof.
  intros Htries Hm w Hw. unfold wait. rewrite !run_bind, run_lift. destruct d as [d|]; [|cbn; lia].
  rewrite run_bind, run_lift. destruct (url request); [|cbn; lia].
  specialize (sleep_keeps d n w Hw).
  destruct (sleep d w) as [[] w1]; cbn in *; [|lia]. specialize (Htries w1 sleep_keeps). lia.
Qed.

Lemma tries_bound ds w :
  (sends w < sends (tries sleep policy request call discard ds w).2
   ≤ sends w + S (length ds))%nat.
Proof.
  revert w. induction ds as [|d ds IH]; intros w; pose proof (call_counts w) as Hc.
  - cbn [tries length]. lia.
  - assert (∀ w1, sends w1 = S (sends w) → (S (sends w) ≤
       sends ((wait sleep request d ;; tries sleep policy request call discard ds) w1).2
       ≤ sends w + S (length (d :: ds)))%nat) as Hwait.
    { apply wait_bound; [|cbn; lia]. intros w1 Hw1. specialize (IH w1). cbn. lia. }
    cbn [tries]. destruct (call request w) as [[o|e] w']; cbn [snd] in Hc.
    + destruct (should_retry_status _ _); [|cbn; lia]. rewrite run_bind.
      pose proof (discard_keeps o (S (sends w)) w' Hc) as Hd.
      destruct (discard o w') as [[] w1]; cbn [fst snd] in *; [|cbn; lia].
      specialize (Hwait w1 Hd). lia.
    + destruct (is_retryable e); [|cbn; lia]. specialize (Hwait w' Hc). lia.
Qed.

Lemma attempts_bound w :
  1 <= max_attempts policy →
  let sent := (sends (attempts sleep policy request call discard w).2 - sends w)%nat in
  (sends w < sends (attempts sleep policy request call discard w).2)%nat
  ∧ Z.of_nat sent <= max_attempts policy
  ∧ (is_idempotent request = false → sent = 1%nat).
Proof.
  intros Hpolicy. cbn zeta. unfold attempts. destruct (is_idempotent request); cbn [negb].
  - rewrite loop_is_tries by lia. pose proof (tries_bound (delays_from policy 1) w) as H.
    assert (length (delays_from policy 1) = Z.to_nat (max_attempts policy - 1)) as Hl
      by (unfold delays_from; by rewrite length_fmap, length_seqZ).
    split_and!; [lia|lia|done].
  - rewrite call_counts. split_and!; [lia|lia|]. intros _. lia.
Qed.

(** C39. The loop ends: a request is sent at least once and at most [max_attempts]
    times, and exactly once when its method is not idempotent. *)
Theorem retry_sends_bounded w (Hpolicy : 1 <= max_attempts policy) :
  let sent := (sends (attempts sleep policy request call discard w).2 - sends w)%nat in
  1 <= Z.of_nat sent <= max_attempts policy
  ∧ (is_idempotent request = false → sent = 1%nat).
Proof.
  cbn zeta. destruct (attempts_bound w Hpolicy) as (H1 & H2 & H3). cbn zeta in *. split; [lia|done].
Qed.
End counting.

Lemma retry_sends_bounded_witness :
  1 <= Z.of_nat (fst (attempts note_sleep retry_sample_policy (retry_sample_request "GET") flaky
                        (λ _, mret tt) (0%nat, [])).2 - 0) <= 3.
Proof.
  refine (proj1 (retry_sends_bounded note_sleep retry_sample_policy (retry_sample_request "GET")
                   flaky (λ _, mret tt) fst _ _ _ (0%nat, []) _)).
  - reflexivity.
  - intros d n w Hw. exact Hw.
  - intros o n w Hw. exact Hw.
  - cbn. lia.
Defined.
