(* ===== verification/LoadBalancer.v ===== *)
(** * Load balancer *)
(** [infrastructure/resilience/load_balancer.py]: every request starts at the next
    instance of its service in turn and moves on when that instance cannot take it. *)
From S2P Require Export Models.
From stdpp Require Import options.
Local Open Scope Z_scope.

(** [_next_turn]: the position each service's next request starts at. *)
Abbreviation Turns := (gmap string nat).

(** What Python itself raises for an empty tuple of instances or of errors. *)
Definition ZeroDivisionError : exn := ForeignError "ZeroDivisionError" "integer modulo by zero".
Definition IndexError : exn := ForeignError "IndexError" "list index out of range".

(** [_can_fail_over] *)
Definition can_fail_over (request : OutboundRequest) (e : exn) : bool :=
  is_idempotent request || negb (exn_request_sent e).

(** [(tried or errors)[-1]] *)
Definition error_to_raise (errors : list exn) : exn :=
  let tried := filter (λ e, isinstance e cUpstreamError = true) errors in
  match last (match tried with [] => errors | _ => tried end) with
  | Some e => e
  | None => IndexError
  end.

Section balancer.
Context {W : Type} `{!Field W Turns}.

(** [_rotation] *)
Definition rotation (service : ServiceDefinition) : M W exn (list ServiceInstance) :=
  turns ← gets getf;
  let start := default 0%nat ((turns : Turns) !! service_name service) in
  if bool_decide (instances service = []) then raise ZeroDivisionError
  else
    modify (updf (λ turns : Turns,
      <[service_name service := ((start + 1) mod length (instances service))%nat]> turns)) ;;
    mret (drop start (instances service) ++ take start (instances service)).

Section calls.
Context {A : Type} `{!Outcome A}.
Context (request : OutboundRequest) (call : OutboundRequest → M W exn A).

(** [_send_to] *)
Definition send_to (i : ServiceInstance) : M W exn A :=
  outcome ← call (with_instance i request);
  mret (set_instance (instance_id i) outcome).

(** The [for] loop of [_balanced]; [errors] is what was collected so far. *)
Fixpoint try_instances (ins : list ServiceInstance) (errors : list exn) : M W exn A :=
  match ins with
  | [] => raise (error_to_raise errors)
  | i :: ins' =>
      try_except (send_to i) (λ e,
        if isinstance e cCircuitOpenError then Some (try_instances ins' (errors ++ [e]))
        else if isinstance e cUpstreamError
        then Some (if negb (can_fail_over request e) then raise e
                   else try_instances ins' (errors ++ [e]))
        else None)
  end.

(** [_balanced] *)
Definition balanced : M W exn A :=
  match out_instance request with
  | Some i => send_to i
  | None =>
      ins ← rotation (out_service request);
      try_instances ins []
  end.
End calls.
End balancer.

(** ** Rotation *)

Definition rotate (start : nat) (ins : list ServiceInstance) : list ServiceInstance :=
  drop start ins ++ take start ins.

Section rotation.
Context {W : Type} `{!Field W Turns}.

Definition turns (w : W) : Turns := getf w.
Definition turn_of (name : string) (w : W) : nat := default 0%nat (turns w !! name).

(** Turns stay below the number of instances. *)
Definition turn_ok (s : ServiceDefinition) (w : W) : Prop :=
  (turn_of (service_name s) w < length (instances s))%nat.

Lemma rotation_run s w :
  instances s ≠ [] →
  rotation s w
  = (Ok (rotate (turn_of (service_name s) w) (instances s)),
     updf (λ t : Turns, <[service_name s :=
             ((turn_of (service_name s) w + 1) mod length (instances s))%nat]> t) w).
Proof. intros H. unfold rotation. cbn. by rewrite bool_decide_false. Qed.

Lemma turn_of_other s s' w k :
  service_name s ≠ service_name s' →
  turn_of (service_name s') (updf (λ t : Turns, <[service_name s := k]> t) w)
  = turn_of (service_name s') w.
Proof.
  intros H. unfold turn_of, turns. rewrite getf_updf. by rewrite lookup_insert_ne.
Qed.
Lemma turn_of_same s w k :
  turn_of (service_name s) (updf (λ t : Turns, <[service_name s := k]> t) w) = k.
Proof. unfold turn_of, turns. rewrite getf_updf. by rewrite lookup_insert_eq. Qed.

(** The instance each of a sequence of requests would start at, the requests being
    for any services in any order. *)
Fixpoint starts (requests : list ServiceDefinition) (w : W)
    : list (string * ServiceInstance) * W :=
  match requests with
  | [] => ([], w)
  | s :: requests' =>
      match rotation s w with
      | (Ok (i :: _), w') =>
          let '(l, w'') := starts requests' w' in ((service_name s, i) :: l, w'')
      | (_, w') => starts requests' w'
      end
  end.

Definition starts_of (name : string) (l : list (string * ServiceInstance))
    : list ServiceInstance :=
  snd <$> filter (λ p, p.1 = name) l.
End rotation.

Lemma rotate_perm k ins : rotate k ins ≡ₚ ins.
Proof. unfold rotate. rewrite (Permutation_app_comm (drop k ins)). by rewrite take_drop. Qed.

Lemma rotate_head k ins i :
  ins !! k = Some i → rotate k ins = i :: drop (S k) ins ++ take k ins.
Proof. intros H. unfold rotate. by rewrite (drop_S _ _ _ H). Qed.

Section fairness.
Context {W : Type} `{!Field W Turns}.

(** The positions [k] consecutive requests of one service start at. *)
Definition cycle (n start k : nat) : list nat := (λ j, (start + j) mod n)%nat <$> seq 0 k.

Lemma cycle_S n start k :
  cycle n start (S k) = ((start mod n)%nat) :: cycle n ((start + 1) mod n) k.
Proof.
  unfold cycle. cbn [seq fmap list_fmap]. rewrite Nat.add_0_r. f_equal.
  rewrite <- seq_shift. unfold fmap. rewrite <- (list_fmap_compose S).
  apply list_fmap_ext. intros i j _. cbn.
  rewrite Nat.Div0.add_mod_idemp_l. f_equal. lia.
Qed.

(** Requests of services that are all known by their name: the same name is the
    same service, and every service has an instance. *)
Definition known (requests : list ServiceDefinition) : Prop :=
  ∀ s s', s ∈ requests → s' ∈ requests → service_name s = service_name s' → s = s'.

Lemma starts_cycle requests s (w : W) :
  known (s :: requests) → Forall (λ s, instances s ≠ []) requests →
  (∀ s', s' ∈ requests → turn_ok s' w) → turn_ok s w →
  let n := length (instances s) in
  let k := length (filter (λ s', service_name s' = service_name s) requests) in
  Some <$> starts_of (service_name s) (starts requests w).1
  = (λ j, instances s !! j) <$> cycle n (turn_of (service_name s) w) k.
Proof.
  cbn zeta. revert w. induction requests as [|r requests IH]; intros w Hk Hne Hok Hs; [done|].
  apply Forall_cons in Hne as [Hr Hne]. cbn [starts].
  rewrite rotation_run by done.
  assert (turn_ok r w) as Hrok by (apply Hok; set_solver).
  set (w' := updf _ w).
  assert (∀ s', s' ∈ s :: r :: requests → turn_ok s' w → turn_ok s' w') as Hkeep.
  { intros s' Hs' Hs'ok. unfold turn_ok. destruct (decide (service_name r = service_name s')) as [He|He].
    - assert (s' = r) as -> by (symmetry; apply Hk; [set_solver|done|done]).
      unfold w'. rewrite turn_of_same. apply Nat.mod_upper_bound. unfold turn_ok in Hrok. lia.
    - unfold w'. by rewrite turn_of_other. }
  destruct (lookup_lt_is_Some_2 (instances r) (turn_of (service_name r) w) Hrok) as [i Hi].
  rewrite (rotate_head _ _ i) by done.
  specialize (IH w').
  assert (known (s :: requests)) as Hk' by (intros a b Ha Hb; apply Hk; set_solver).
  destruct (starts requests w') as [l w2] eqn:Hl. cbn [fst] in *.
  assert (∀ s', s' ∈ requests → turn_ok s' w') as Hok'
    by (intros s' Hs'; apply Hkeep; [set_solver|apply Hok; set_solver]).
  assert (turn_ok s w') as Hs' by (apply Hkeep; [set_solver|done]).
  specialize (IH Hk' Hne Hok' Hs').
  unfold starts_of in *. rewrite !filter_cons. cbn [fst].
  destruct (decide (service_name r = service_name s)) as [He|He].
  - assert (r = s) as -> by (apply Hk; [set_solver|set_solver|done]).
    cbn [length fmap list_fmap snd]. rewrite cycle_S. cbn [fmap list_fmap].
    rewrite (Nat.mod_small _ _ Hs). rewrite Hi. f_equal.
    unfold fmap in *. rewrite IH. unfold w'. by rewrite turn_of_same.
  - rewrite IH. unfold w'. by rewrite turn_of_other.
Qed.
End fairness.

Lemma cycle_perm n start : (start < n)%nat → cycle n start n ≡ₚ seq 0 n.
Proof.
  intros Hs. unfold cycle.
  replace (seq 0 n) with (seq 0 (n - start) ++ seq (n - start) start) at 1
    by (rewrite <- seq_app; f_equal; lia).
  rewrite fmap_app.
  assert ((λ j, ((start + j) mod n)%nat) <$> seq 0 (n - start) = seq start (n - start)) as ->.
  { pose proof (fmap_add_seq start 0 (n - start)) as H. rewrite Nat.add_0_r in H.
    rewrite <- H. apply list_fmap_ext.
    intros i x Hx%lookup_seq. apply Nat.mod_small. lia. }
  assert ((λ j, ((start + j) mod n)%nat) <$> seq (n - start) start = seq 0 start) as ->.
  { pose proof (fmap_add_seq (n - start) 0 start) as H. rewrite Nat.add_0_r in H.
    rewrite <- H, <- list_fmap_compose.
    rewrite <- (list_fmap_id (seq 0 start)) at 2. apply list_fmap_ext.
    intros i x Hx%lookup_seq. cbn. replace (start + (n - start + x))%nat with (x + 1 * n)%nat by lia.
    rewrite Nat.Div0.mod_add. apply Nat.mod_small. lia. }
  rewrite Permutation_app_comm, <- seq_app. f_equiv. lia.
Qed.

Lemma lookup_all (ins : list ServiceInstance) :
  (λ j, ins !! j) <$> seq 0 (length ins) = Some <$> ins.
Proof.
  induction ins as [|i ins IH]; [done|]. cbn [length seq]. rewrite !fmap_cons. f_equal.
  rewrite <- IH, <- fmap_S_seq, <- list_fmap_compose. done.
Qed.
Lemma omap_Some {A} (l : list A) : omap id (Some <$> l) = l.
Proof. induction l as [|x l IH]; [done|]. cbn. by f_equal. Qed.

(** Round-robin is fair whatever else is going on: in any sequence of requests
    to any services in which one service gets as many requests as it has instances,
    each of its instances is the starting point of exactly one of them. *)
Theorem rotation_fair {W} `{!Field W Turns} (requests : list ServiceDefinition) s (w : W)
    (Hknown : known (s :: requests))
    (Hsome : Forall (λ s, instances s ≠ []) requests)
    (Hok : ∀ s', s' ∈ s :: requests → turn_ok s' w)
    (Hmany : length (filter (λ s', service_name s' = service_name s) requests)
             = length (instances s)) :
  starts_of (service_name s) (starts requests w).1 ≡ₚ instances s.
Proof.
  assert (turn_ok s w) as Hs by (apply Hok; set_solver).
  pose proof (starts_cycle requests s w Hknown Hsome ltac:(intros; apply Hok; set_solver) Hs) as H.
  cbn zeta in H. rewrite Hmany in H.
  rewrite <- (omap_Some (starts_of _ _)), H, (cycle_perm _ _ Hs), lookup_all.
  by rewrite omap_Some.
Qed.

Definition lb_instances : list ServiceInstance :=
  [mkInstance "http://a" "aa"; mkInstance "http://b" "bb"]%string.
Definition lb_service : ServiceDefinition :=
  mkService "orders" ["http://a"; "http://b"]%string 10 "/health" None [] lb_instances.
Definition lb_other : ServiceDefinition :=
  mkService "users" ["http://c"]%string 10 "/health" None [] [mkInstance "http://c" "cc"]%string.

Lemma rotation_fair_witness :
  starts_of "orders" (starts [lb_service; lb_other; lb_service] (∅ : Turns)).1 ≡ₚ lb_instances.
Proof.
  apply (rotation_fair [lb_service; lb_other; lb_service] lb_service (∅ : Turns)).
  - intros s s' Hs Hs' He. rewrite !elem_of_cons in Hs, Hs'.
    destruct Hs as [->|[->|[->|[->|Hs]]]], Hs' as [->|[->|[->|[->|Hs']]]];
      first [reflexivity | discriminate He | by apply elem_of_nil in Hs | by apply elem_of_nil in Hs'].
  - repeat constructor; discriminate.
  - intros s Hs. rewrite !elem_of_cons in Hs.
    destruct Hs as [->|[->|[->|[->|Hs]]]]; [vm_compute; lia..|]. by apply elem_of_nil in Hs.
  - reflexivity.
Defined.

(** ** Failover *)

Section failover.
Context {W A : Type} `{!Field W Turns} `{!Outcome A}.
Context (request : OutboundRequest) (call : OutboundRequest → M W exn A).

Section answers.
#[local] Set Default Proof Using "Type*".
(** What each instance answers this request with. *)
Context (answers : ServiceInstance → result exn A).
Hypothesis call_answers : ∀ i w, (call (with_instance i request) w).1 = answers i.

(** The balancer stops at this instance. *)
Definition decisive (i : ServiceInstance) : bool :=
  match answers i with
  | Ok _ => true
  | Raise e =>
      negb (isinstance e cCircuitOpenError)
      && negb (isinstance e cUpstreamError && can_fail_over request e)
  end.
Definition errors_of (ins : list ServiceInstance) : list exn :=
  omap (λ i, match answers i with Ok _ => None | Raise e => Some e end) ins.

Definition failover (ins : list ServiceInstance) (errors : list exn) : result exn A :=
  match list_find (λ i, decisive i = true) ins with
  | Some (_, i) =>
      match answers i with Ok o => Ok (set_instance (instance_id i) o) | Raise e => Raise e end
  | None => Raise (error_to_raise (errors ++ errors_of ins))
  end.

Lemma send_to_answers i w :
  (send_to request call i w).1
  = match answers i with Ok o => Ok (set_instance (instance_id i) o) | Raise e => Raise e end.
Proof.
  unfold send_to. rewrite run_bind. specialize (call_answers i w).
  destruct (call _ w) as [[o|e] w']; cbn in *; by rewrite <- call_answers.
Qed.

Lemma try_instances_failover ins errors w :
  (try_instances request call ins errors w).1 = failover ins errors.
Proof.
  revert errors w. induction ins as [|i ins IH]; intros errors w.
  - unfold failover. cbn. by rewrite app_nil_r.
  - cbn [try_instances]. unfold try_except. pose proof (send_to_answers i w) as Hs.
    unfold failover in *. cbn [list_find errors_of omap list_omap].
    destruct (send_to request call i w) as [r w']. cbn [fst] in Hs.
    assert (decisive i = match answers i with
                         | Ok _ => true
                         | Raise e => negb (isinstance e cCircuitOpenError)
                             && negb (isinstance e cUpstreamError && can_fail_over request e)
                         end) as Hd by done.
    assert (∀ e, (try_instances request call ins (errors ++ [e]) w').1
            = failover ins (errors ++ [e])) as IH' by (intros; apply IH).
    unfold failover in IH'.
    destruct (answers i) as [o|e] eqn:Ha; subst r; rewrite Hd.
    + by rewrite decide_True, Ha.
    + specialize (IH' e). rewrite <- app_assoc in IH'. destruct (isinstance e cCircuitOpenError); cbn [negb andb].
      { rewrite decide_False, IH' by done. by destruct (list_find _ ins) as [[k j]|]. }
      destruct (isinstance e cUpstreamError); cbn [negb andb].
      * destruct (can_fail_over request e); cbn [negb].
        -- rewrite decide_False, IH' by done. by destruct (list_find _ ins) as [[k j]|].
        -- rewrite decide_True by done. cbn. by rewrite Ha.
      * rewrite decide_True by done. cbn. by rewrite Ha.
Qed.
End answers.
End failover.

(** C36. Failover, as the instances answer: a request pinned to an instance gets that
    instance's answer.  Any other gets the answer of the first instance in turn
    that is decisive: one that answered, or whose failure must not be repeated
    elsewhere.  When none is, the error is that of the last instance that was
    really tried, and of the last one whose circuit was open only if none was. *)
Theorem balanced_failover {W A} `{!Field W Turns} `{!Outcome A} (request : OutboundRequest)
    (call : OutboundRequest → M W exn A) (answers : ServiceInstance → result exn A) (w : W)
    (Hanswers : ∀ i w, (call (with_instance i request) w).1 = answers i)
    (Hsome : instances (out_service request) ≠ []) :
  (balanced request call w).1
  = match out_instance request with
    | Some i => match answers i with
                | Ok o => Ok (set_instance (instance_id i) o)
                | Raise e => Raise e
                end
    | None => failover request answers
                (rotate (turn_of (service_name (out_service request)) w)
                        (instances (out_service request))) []
    end.
Proof.
  unfold balanced. destruct (out_instance request).
  - by apply send_to_answers.
  - rewrite run_bind, rotation_run by done. by apply try_instances_failover.
Qed.

Definition lb_request (method : string) : OutboundRequest :=
  mkOutbound lb_service method EmptyString [] [] EmptyString None.
(** The first instance refuses connections, the second answers. *)
Definition lb_answers (i : ServiceInstance) : result exn UpstreamStream :=
  if String.eqb (instance_id i) "aa" then Raise (UpstreamConnectionError "orders" false)
  else Ok (mkStream 201 [] (mkBody [] None 0) None).
Definition lb_call (r : OutboundRequest) : M Turns exn UpstreamStream :=
  lift (match out_instance r with Some i => lb_answers i | None => Raise IndexError end).

Lemma balanced_failover_witness :
  (balanced (lb_request "POST") lb_call ∅).1
  = Ok (mkStream 201 [] (mkBody [] None 0) (Some "bb"%string)).
Proof.
  rewrite (balanced_failover (lb_request "POST") lb_call lb_answers ∅); [reflexivity|done|done].
Defined.

Section tried_once.
Context {W A : Type} `{!Field W Turns} `{!Outcome A}.
#[local] Set Default Proof Using "Type*".
Context (request : OutboundRequest) (call : OutboundRequest → M W exn A).
(** The instances the requests of a world were sent to. *)
Context (tried : W → list ServiceInstance).
Hypothesis call_tried :
  ∀ i w, tried (call (with_instance i request) w).2 = tried w ++ [i].
Hypothesis turns_tried : ∀ f w, tried (updf (f : Turns → Turns) w) = tried w.

Lemma send_to_tried i w : tried (send_to request call i w).2 = tried w ++ [i].
Proof.
  unfold send_to. rewrite run_bind. specialize (call_tried i w).
  by destruct (call _ w) as [[o|e] w'].
Qed.

Lemma try_instances_tried ins errors w :
  ∃ l, tried (try_instances request call ins errors w).2 = tried w ++ l
       ∧ l `prefix_of` ins ∧ (ins ≠ [] → l ≠ []).
Proof.
  revert errors w. induction ins as [|i ins IH]; intros errors w.
  - exists []. by rewrite app_nil_r.
  - cbn [try_instances]. unfold try_except. pose proof (send_to_tried i w) as Hs.
    destruct (send_to request call i w) as [[o|e] w']; cbn [snd] in Hs.
    { exists [i]. split_and!; [done| |done]. exists ins. done. }
    assert (∃ l, tried w' = tried w ++ l ∧ l `prefix_of` i :: ins ∧ (i :: ins ≠ [] → l ≠ [])) as Hstop.
    { exists [i]. split_and!; [done| |done]. by exists ins. }
    assert (∃ l, tried (try_instances request call ins (errors ++ [e]) w').2 = tried w ++ l
                 ∧ l `prefix_of` i :: ins ∧ (i :: ins ≠ [] → l ≠ [])) as Hgo.
    { destruct (IH (errors ++ [e]) w') as (l & Hl & Hp & _). exists (i :: l).
      rewrite Hl, Hs, <- app_assoc. split_and!; [done|by apply prefix_cons|done]. }
    destruct (isinstance e cCircuitOpenError); [done|].
    destruct (isinstance e cUpstreamError); [|done].
    by destruct (can_fail_over request e).
Qed.

(** A request that names no instance is sent to at least one instance of its
    service and to none of them twice, in the order of the rotation. *)
Theorem balanced_each_once w
    (Hwf : service_wf (out_service request)) (Hfree : out_instance request = None) :
  ∃ l, tried (balanced request call w).2 = tried w ++ l
       ∧ l ≠ [] ∧ NoDup l
       ∧ l `prefix_of` rotate (turn_of (service_name (out_service request)) w)
                              (instances (out_service request)).
Proof.
  unfold balanced. rewrite Hfree, run_bind, rotation_run by apply Hwf.
  set (ins := rotate _ _). cbn.
  match goal with |- context [try_instances _ _ _ _ ?w'] => set (w1 := w') end.
  destruct (try_instances_tried ins [] w1) as (l & Hl & Hp & Hne).
  exists l. unfold w1 in Hl at 2. rewrite turns_tried in Hl. split; [done|].
  assert (ins ≡ₚ instances (out_service request)) as Hperm by apply rotate_perm.
  split_and!; [|destruct Hp as [l' Hins]|done].
  - apply Hne. intros H0. rewrite H0 in Hperm. apply Permutation_nil_l in Hperm.
    by destruct (wf_nonempty _ Hwf).
  - assert (NoDup ins) as Hnd.
    { rewrite Hperm. eapply NoDup_fmap_1. apply (wf_ids _ Hwf). }
    rewrite Hins in Hnd. by apply NoDup_app in Hnd as [? _].
Qed.
End tried_once.

Definition lb_logged_call (r : OutboundRequest)
    : M (Turns * list ServiceInstance) exn UpstreamStream := λ w,
  (match out_instance r with Some i => lb_answers i | None => Raise IndexError end,
   (w.1, w.2 ++ option_list (out_instance r))).
Definition lb_wf_service : ServiceDefinition :=
  let ins := [ServiceInstance_new "http://a"; ServiceInstance_new "http://b"] in
  mkService "orders" ["http://a"; "http://b"]%string 10 "/health" None [] ins.

Lemma balanced_each_once_witness :
  ∃ l, (balanced (mkOutbound lb_wf_service "GET" "" [] [] "" None) lb_logged_call (∅, [])).2.2
       = [] ++ l ∧ l ≠ [] ∧ NoDup l.
Proof.
  assert (∀ (f : Turns → Turns) (w : Turns * list ServiceInstance), (updf f w).2 = w.2) as Hu
    by reflexivity.
  destruct (balanced_each_once (mkOutbound lb_wf_service "GET" "" [] [] "" None) lb_logged_call
              snd (λ i w, eq_refl) Hu (∅, [])) as (l & Hl & Hne & Hnd & _).
  - constructor; [reflexivity|discriminate|]. vm_compute. repeat constructor; set_solver.
  - reflexivity.
  - exists l. split; [exact Hl|]. split; [exact Hne|exact Hnd].
Defined.
