(* ===== verification/Upstream.v ===== *)
(** * The upstream client and its resilience layers *)
(** [domain/ports.py] ([UpstreamClient]), [infrastructure/httpx_client.py] and the
    composition of [bootstrap.py]: the balancer around the breakers around the
    retries around the transport.  The HTTP library is a parameter. *)
From S2P Require Export CircuitBreaker Retry LoadBalancer.
From stdpp Require Import options.
Local Open Scope Z_scope.

(** ** The port *)

Record UpstreamClient (W : Type) : Type := mkClient {
  send : OutboundRequest → M W exn UpstreamResponse;
  stream : OutboundRequest → M W exn UpstreamStream
}.
Arguments mkClient {_} _ _.
Arguments send {_} _ _.
Arguments stream {_} _ _.

(** [UpstreamClient.stream], the fallback for a client that only sends: the body
    that was read is the one chunk, if there is one. *)
Definition stream_of_send {W} (send : OutboundRequest → M W exn UpstreamResponse)
    (request : OutboundRequest) : M W exn UpstreamStream :=
  response ← send request;
  mret {| stream_status := response_status response;
          stream_headers := response_headers response;
          stream_chunks :=
            match response_stream response with
            | Some b => b
            | None => mkBody (if str_truthy (response_body response)
                              then [response_body response] else []) None 0
            end;
          stream_instance := response_instance response |}.

(** ** The transport *)

(** The exception classes of the HTTP library that the code names. *)
Inductive httpx_class : Type := TimeoutException | ConnectTimeout | PoolTimeout | ConnectError.

Record HttpTimeout : Type := mkHttpTimeout {
  connect_timeout : Z;
  read_channel_timeout : Z;
  write_timeout : Z;
  pool_timeout : Z
}.

(** [_timeout] *)
Definition timeout_of (request : OutboundRequest) : HttpTimeout :=
  let s := out_service request in
  mkHttpTimeout (timeout_seconds s) (read_timeout s) (timeout_seconds s) (timeout_seconds s).

(** What the library is asked to send. *)
Record HttpRequest : Type := mkHttpRequest {
  http_method : string;
  http_url : string;
  http_params : Headers;
  http_headers : Headers;
  http_content : string;
  http_timeout : HttpTimeout
}.

(** What it answers: the status and headers, and the body's decoded chunks, which
    may break off with a transport error. *)
Record HttpResponse (TransportError : Type) : Type := mkHttpResponse {
  http_status : Z;
  http_multi_items : Headers;
  http_body : string;
  http_chunks : list string;
  http_chunks_error : option TransportError;
  http_connection : nat
}.
Arguments http_status {_} _.
Arguments http_multi_items {_} _.
Arguments http_body {_} _.
Arguments http_chunks {_} _.
Arguments http_chunks_error {_} _.
Arguments http_connection {_} _.

Section transport.
Context {W TransportError : Type}.
(** [isinstance] of a transport error, and the library's two ways to send. *)
Context (isa : TransportError → httpx_class → bool)
        (http : bool → HttpRequest → M W exn (TransportError + HttpResponse TransportError)).

(** [_as_domain_error] *)
Definition as_domain_error (request : OutboundRequest) (e : TransportError) : exn :=
  if isa e TimeoutException
  then UpstreamTimeoutError (service_name (out_service request))
         (negb (isa e ConnectTimeout || isa e PoolTimeout))
  else UpstreamConnectionError (service_name (out_service request))
         (negb (isa e ConnectError)).

(** The request as both methods hand it to the library, or its error translated. *)
Definition exchange (streamed : bool) (request : OutboundRequest)
    : M W exn (HttpResponse TransportError) :=
  u ← lift (url request);
  answer ← http streamed (mkHttpRequest (out_method request) u (out_query_params request)
             (out_headers request) (out_body request) (timeout_of request));
  match answer with
  | inl e => raise (as_domain_error request e)
  | inr response => mret response
  end.

(** [HttpxUpstreamClient.send] *)
Definition httpx_send (request : OutboundRequest) : M W exn UpstreamResponse :=
  response ← exchange false request;
  mret (mkResponse (http_status response) (http_multi_items response) (http_body response)
          None None).

(** [HttpxUpstreamClient.stream], the body through [_translated_chunks]. *)
Definition httpx_stream (request : OutboundRequest) : M W exn UpstreamStream :=
  response ← exchange true request;
  mret (mkStream (http_status response) (http_multi_items response)
          (mkBody (http_chunks response)
             (as_domain_error request <$> http_chunks_error response)
             (http_connection response)) None).

Definition HttpxUpstreamClient : UpstreamClient W := mkClient httpx_send httpx_stream.
End transport.

(** ** The layers *)

Section layers.
Context {W : Type} `{!Field W Turns} `{!Field W (gmap string CircuitBreaker)}.
(** Time and the closing of a connection. *)
Context (clock : M W exn Z) (sleep : Z → M W exn unit) (close : nat → M W exn unit).

(** [UpstreamResponse.aclose], [UpstreamStream.aclose] *)
Definition response_aclose (r : UpstreamResponse) : M W exn unit :=
  match response_stream r with
  | Some b => close (body_connection b)
  | None => mret tt
  end.
Definition stream_aclose (s : UpstreamStream) : M W exn unit :=
  close (body_connection (stream_chunks s)).

Definition RetryingUpstreamClient (inner : UpstreamClient W) (policy : RetryPolicy)
    : UpstreamClient W :=
  mkClient (λ r, attempts sleep policy r (send inner) response_aclose)
           (λ r, attempts sleep policy r (stream inner) stream_aclose).

Definition CircuitBreakerUpstreamClient (inner : UpstreamClient W)
    (factory : result exn CircuitBreaker) (codes : list Z) : UpstreamClient W :=
  mkClient (λ r, guarded clock factory codes r (send inner))
           (λ r, guarded clock factory codes r (stream inner)).

Definition LoadBalancingUpstreamClient (inner : UpstreamClient W) : UpstreamClient W :=
  mkClient (λ r, balanced r (send inner)) (λ r, balanced r (stream inner)).

(** [build_container]: outside in, balancer, breakers, retries, transport. *)
Definition resilient_client (policy : RetryPolicy) (factory : result exn CircuitBreaker)
    (codes : list Z) (transport : UpstreamClient W) : UpstreamClient W :=
  LoadBalancingUpstreamClient
    (CircuitBreakerUpstreamClient (RetryingUpstreamClient transport policy) factory codes).
End layers.

(** ** Delivery of a request that must not be repeated *)

(** An error after which the balancer sends the request to another instance although
    it is not idempotent. *)
Definition passes_on {A} (r : result exn A) : bool :=
  match r with
  | Ok _ => false
  | Raise e => isinstance e cCircuitOpenError
               || (isinstance e cUpstreamError && negb (exn_request_sent e))
  end.

Definition count_true (l : list bool) : nat := length (filter (λ b, b = true) l).

Lemma count_true_app l l' : count_true (l ++ l') = (count_true l + count_true l')%nat.
Proof. unfold count_true. by rewrite filter_app, length_app. Qed.

Lemma count_true_single b : (count_true [b] ≤ 1)%nat.
Proof. by destruct b; vm_compute; repeat constructor. Qed.

Section once.
Context {W : Type} (reached : W → list bool).

(** The computation sends at most one request that reaches an instance, and none
    when it ends in an error that lets the balancer go on. *)
Definition once {A} (m : M W exn A) : Prop :=
  ∀ w, ∃ l, reached (m w).2 = reached w ++ l
            ∧ (count_true l ≤ 1)%nat
            ∧ (passes_on (m w).1 = true → count_true l = 0%nat).

(** It sends nothing and raises nothing. *)
Definition silent {A} (m : M W exn A) : Prop :=
  ∀ w, reached (m w).2 = reached w ∧ is_ok (m w).1 = true.

Lemma silent_ret {A} (a : A) : silent (mret a).
Proof. by intros w. Qed.
Lemma silent_bind {A B} (m : M W exn A) (f : A → M W exn B) :
  silent m → (∀ a, silent (f a)) → silent (m ≫= f).
Proof.
  intros Hm Hf w. rewrite run_bind. destruct (Hm w) as [Hr Ho].
  destruct (m w) as [[a|e] w']; [|done]. cbn in *. rewrite <- Hr. apply Hf.
Qed.

Lemma once_silent_bind {A B} (m : M W exn A) (f : A → M W exn B) :
  silent m → (∀ a, once (f a)) → once (m ≫= f).
Proof.
  intros Hm Hf w. rewrite run_bind. destruct (Hm w) as [Hr Ho].
  destruct (m w) as [[a|e] w']; [|done]. cbn in *. rewrite <- Hr. apply Hf.
Qed.
(** A computation that only adds an ending to the way another came out. *)
Lemma once_then {A B} (m : M W exn A) (k : result exn A → M W exn B) :
  once m →
  (∀ r w, reached (k r w).2 = reached w ∧ (passes_on (k r w).1 = true → passes_on r = true)) →
  once (λ w, match m w with (r, w') => k r w' end).
Proof.
  intros Hm Hk w. destruct (Hm w) as (l & Hl & Hc & Hp). exists l.
  destruct (m w) as [r w']. cbn in *. destruct (Hk r w') as [Hr Hpk].
  rewrite Hr. eauto.
Qed.
Lemma once_raise {A} (e : exn) : once (raise (A:=A) e).
Proof. intros w. exists []. rewrite app_nil_r. split_and!; [done|cbn; lia|done]. Qed.
Lemma once_ext {A} (m m' : M W exn A) : (∀ w, m w = m' w) → once m' → once m.
Proof. intros He Hm w. rewrite He. apply Hm. Qed.
End once.

Section delivery.
#[local] Set Default Proof Using "Type*".
Context {W : Type} `{!Field W Turns} `{!Field W (gmap string CircuitBreaker)}.
Context (clock : M W exn Z) (factory : result exn CircuitBreaker) (codes : list Z).
(** One entry per request the transport was given: whether it reached an instance. *)
Context (reached : W → list bool).
Hypothesis turns_keep : ∀ (f : Turns → Turns) w, reached (updf f w) = reached w.
Hypothesis breakers_keep :
  ∀ (f : gmap string CircuitBreaker → gmap string CircuitBreaker) w,
    reached (updf f w) = reached w.
Hypothesis clock_silent : silent reached clock.
Hypothesis factory_ok : is_ok factory = true.

Lemma on_breaker_silent t f : silent reached (on_breaker t f).
Proof. intros w. cbn. split; [apply breakers_keep|done]. Qed.
Lemma breaker_for_silent t : silent reached (breaker_for factory t).
Proof.
  apply silent_bind; [by intros w|]. intros bs. destruct (bs !! t); [apply silent_ret|].
  apply silent_bind; [by intros w|]. intros b.
  apply silent_bind; [|intros; apply silent_ret].
  intros w. cbn. split; [apply breakers_keep|done].
Qed.
Lemma acquire_silent t : silent reached (acquire clock factory t).
Proof.
  apply silent_bind; [apply breaker_for_silent|]. intros b.
  apply silent_bind; [done|]. intros now.
  apply silent_bind; [apply on_breaker_silent|]. intros; apply silent_ret.
Qed.
Lemma breaker_failed_silent t : silent reached (breaker_failed clock t).
Proof. apply silent_bind; [done|]. intros. apply on_breaker_silent. Qed.

Lemma silent_raise_run {A} (m : M W exn unit) (e : exn) w :
  silent reached m →
  reached ((m ;; raise (A:=A) e) w).2 = reached w ∧ ((m ;; raise (A:=A) e) w).1 = Raise e.
Proof.
  intros Hm. rewrite run_bind. destruct (Hm w) as [Hr Ho].
  destruct (m w) as [[]  w']; done.
Qed.
Lemma silent_ret_run {A} (m : M W exn unit) (a : A) w :
  silent reached m →
  reached ((m ;; mret a) w).2 = reached w ∧ ((m ;; mret a) w).1 = Ok a.
Proof.
  intros Hm. rewrite run_bind. destruct (Hm w) as [Hr Ho].
  destruct (m w) as [[] w']; done.
Qed.

Lemma guarded_once {A} `{!Outcome A} request (call : OutboundRequest → M W exn A) :
  once reached (call request) → once reached (guarded clock factory codes request call).
Proof.
  intros Hcall. apply once_silent_bind; [apply acquire_silent|]. intros [|]; cbn [negb];
    [|apply once_raise].
  eapply once_ext; [|apply (once_then reached _ (λ r w,
    match r with
    | Ok o => ((if bool_decide (status_code o ∈ codes) then breaker_failed clock (target request)
                else on_breaker (target request) on_success) ;; mret o) w
    | Raise e => if isinstance e cUpstreamError
                 then (breaker_failed clock (target request) ;; raise e) w
                 else (on_breaker (target request) on_abort ;; raise e) w
    end) Hcall)].
  - intros w. rewrite run_bind. unfold try_except.
    destruct (call request w) as [[o|e] w']; [done|].
    destruct (isinstance e cUpstreamError); [|done].
    rewrite run_bind. by destruct (breaker_failed _ _ w') as [[] ?].
  - intros [o|e] w.
    + destruct (silent_ret_run (if bool_decide (status_code o ∈ codes)
        then breaker_failed clock (target request)
        else on_breaker (target request) on_success) o w) as [-> ->]; [|done].
      case_bool_decide; [apply breaker_failed_silent|apply on_breaker_silent].
    + destruct (isinstance e cUpstreamError).
      * by destruct (silent_raise_run (A:=A) _ e w (breaker_failed_silent (target request)))
          as [-> ->].
      * by destruct (silent_raise_run (A:=A) _ e w (on_breaker_silent (target request) on_abort))
          as [-> ->].
Qed.

Lemma send_to_once {A} `{!Outcome A} request (call : OutboundRequest → M W exn A) i :
  once reached (call (with_instance i request)) → once reached (send_to request call i).
Proof.
  intros Hc. eapply once_ext; [|apply (once_then reached _ (λ r w,
    (match r with Ok o => Ok (set_instance (instance_id i) o) | Raise e => Raise e end, w)) Hc)].
  - intros w. unfold send_to. rewrite run_bind. by destruct (call _ w) as [[] ?].
  - by intros [] w.
Qed.

Lemma try_instances_once {A} `{!Outcome A} request (call : OutboundRequest → M W exn A)
    ins errors :
  is_idempotent request = false →
  (∀ i, once reached (call (with_instance i request))) →
  Forall (λ e, isinstance e cUpstreamError = true → exn_request_sent e = false) errors →
  once reached (try_instances request call ins errors).
Proof.
  intros Hpost Hcall. revert errors. induction ins as [|i ins IH]; intros errors He.
  { intros w. exists []. rewrite app_nil_r. split_and!; [done|cbn; lia|done]. }
  intros w. cbn [try_instances]. unfold try_except.
  destruct (send_to_once request call i (Hcall i) w) as (l & Hl & Hc & Hp).
  destruct (send_to request call i w) as [[o|e] w']; cbn [fst snd] in *; [by exists l|].
  assert (passes_on (A:=A) (Raise e) = true → ∃ l',
    reached (try_instances request call ins (errors ++ [e]) w').2 = reached w ++ l'
    ∧ (count_true l' ≤ 1)%nat
    ∧ (passes_on (try_instances request call ins (errors ++ [e]) w').1 = true →
       count_true l' = 0%nat)) as Hgo.
  { intros Hpe. specialize (Hp Hpe). destruct (IH (errors ++ [e])) with (w := w')
      as (l' & Hl' & Hc' & Hp').
    - apply Forall_app. split; [done|]. constructor; [|done]. intros Hu.
      cbn in Hpe. rewrite Hu in Hpe. destruct e; cbn in *; done || by apply negb_true_iff in Hpe.
    - exists (l ++ l'). rewrite Hl', Hl, app_assoc, count_true_app, Hp.
      split_and!; [done|lia|]. intros H. rewrite Hp' by done. done. }
  destruct (isinstance e cCircuitOpenError) eqn:Hopen.
  { apply Hgo. cbn. by rewrite Hopen. }
  destruct (isinstance e cUpstreamError) eqn:Hup; [|by exists l].
  unfold can_fail_over. rewrite Hpost. cbn [orb].
  destruct (exn_request_sent e) eqn:Hsent; cbn [negb]; [by exists l|].
  apply Hgo. cbn. by rewrite Hopen, Hup, Hsent.
Qed.

Lemma balanced_once {A} `{!Outcome A} request (call : OutboundRequest → M W exn A) :
  is_idempotent request = false →
  (∀ i, once reached (call (with_instance i request))) →
  once reached (balanced request call).
Proof.
  intros Hpost Hcall. unfold balanced. destruct (out_instance request).
  - apply send_to_once, Hcall.
  - intros w. rewrite run_bind. destruct (decide (instances (out_service request) = [])) as [He|He].
    + unfold rotation. cbn. rewrite bool_decide_true by done.
      apply (once_raise reached ZeroDivisionError w).
    + rewrite rotation_run by done. cbn beta iota.
      match goal with |- context [try_instances _ _ _ _ ?x] => set (w1 := x) end.
      match goal with |- context [try_instances _ _ ?x _ _] => set (ins := x) end.
      destruct (try_instances_once request call ins [] Hpost Hcall (Forall_nil_2 _) w1)
        as (l & Hl & Hrest).
      exists l. split; [|done]. rewrite Hl. unfold w1. by rewrite turns_keep.
Qed.
End delivery.

Lemma url_raises request e : url request = Raise e → passes_on (A:=unit) (Raise e) = false.
Proof.
  unfold url, resolved_instance. destruct (out_instance request); [done|].
  destruct (instances _) as [|i [|]]; cbn; intros; by simplify_eq.
Qed.

Lemma with_instance_idempotent i request : is_idempotent (with_instance i request) = is_idempotent request.
Proof. done. Qed.

Section stack.
#[local] Set Default Proof Using "Type*".
Context {W TransportError : Type} `{!Field W Turns} `{!Field W (gmap string CircuitBreaker)}.
Context (isa : TransportError → httpx_class → bool)
        (http : bool → HttpRequest → M W exn (TransportError + HttpResponse TransportError)).
Context (clock : M W exn Z) (sleep : Z → M W exn unit) (close : nat → M W exn unit).
Context (policy : RetryPolicy) (factory : result exn CircuitBreaker) (codes : list Z).

(** The world records, for every request the library is given, whether it reached
    the instance. *)
Context (reached : W → list bool) (arrived : TransportError → bool).
Hypothesis turns_keep : ∀ (f : Turns → Turns) w, reached (updf f w) = reached w.
Hypothesis breakers_keep :
  ∀ (f : gmap string CircuitBreaker → gmap string CircuitBreaker) w,
    reached (updf f w) = reached w.
Hypothesis clock_silent : silent reached clock.
Hypothesis factory_ok : is_ok factory = true.
(** The library: a request that was answered, or failed other than while
    connecting, may have arrived; one whose connection was never made or never
    free did not; and the library raises none of the gateway's own errors. *)
Hypothesis http_reached : ∀ streamed r w,
  reached (http streamed r w).2
  = reached w ++ [match (http streamed r w).1 with Ok (inl e) => arrived e | _ => true end].
Hypothesis connecting_arrives_not : ∀ e,
  isa e ConnectTimeout || isa e PoolTimeout || isa e ConnectError = true → arrived e = false.
Hypothesis http_foreign : ∀ streamed r w e,
  (http streamed r w).1 = Raise e → isinstance e cGatewayError = false.

Lemma not_sent_not_arrived request e :
  passes_on (A:=unit) (Raise (as_domain_error isa request e)) = true → arrived e = false.
Proof.
  unfold as_domain_error. intros H. apply connecting_arrives_not.
  destruct (isa e TimeoutException).
  - by destruct (isa e ConnectTimeout || isa e PoolTimeout).
  - destruct (isa e ConnectError); [by rewrite orb_true_r|done].
Qed.

Lemma foreign_not_passed e :
  isinstance e cGatewayError = false → passes_on (A:=unit) (Raise e) = false.
Proof. by destruct e. Qed.

Lemma exchange_once streamed request : once reached (exchange isa http streamed request).
Proof.
  intros w. unfold exchange. rewrite run_bind, run_lift.
  destruct (url request) as [u|e] eqn:Hu.
  - rewrite run_bind. set (r := mkHttpRequest _ _ _ _ _ _).
    pose proof (http_reached streamed r w) as Hr. pose proof (http_foreign streamed r w) as Hf.
    destruct (http streamed r w) as [[[te|resp]|e] w']; cbn [fst snd] in *.
    + exists [arrived te]. split; [done|]. split; [apply count_true_single|].
      intros Hp. by rewrite (not_sent_not_arrived request te Hp).
    + exists [true]. split_and!; [done|apply count_true_single|done].
    + exists [true]. split_and!; [done|apply count_true_single|].
      intros Hp. specialize (Hf e eq_refl). apply foreign_not_passed in Hf.
      cbn in Hf, Hp. congruence.
  - exists []. rewrite app_nil_r. split_and!; [done|cbn; lia|]. intros Hp.
    apply url_raises in Hu. cbn in *. congruence.
Qed.

Lemma once_map {A B} (m : M W exn A) (f : A → B) :
  once reached m → once reached (a ← m; mret (f a)).
Proof.
  intros Hm. eapply once_ext; [|apply (once_then reached _ (λ r w,
    (match r with Ok a => Ok (f a) | Raise e => Raise e end, w)) Hm)].
  - intros w. rewrite run_bind. by destruct (m w) as [[] ?].
  - by intros [] w.
Qed.

(** The layers around any way to send once. *)
Lemma stack_once {A} `{!Outcome A} request (call : OutboundRequest → M W exn A) discard :
  is_idempotent request = false →
  (∀ r, once reached (call r)) →
  once reached (balanced request (λ r, guarded clock factory codes r
    (λ r, attempts sleep policy r call discard))).
Proof.
  intros Hpost Hcall.
  apply (balanced_once clock reached turns_keep breakers_keep clock_silent); [done|]. intros i.
  apply guarded_once; [done..|]. unfold attempts. rewrite with_instance_idempotent, Hpost.
  apply Hcall.
Qed.

(** C11. A request whose method is not idempotent reaches at most one instance, and
    at most once, through the balancer, the breakers and the retries together:
    whatever fails, of the requests the transport was given for it at most one
    arrived. *)
Theorem delivered_at_most_once request (w : W) (Hpost : is_idempotent request = false) :
  let client := resilient_client clock sleep close policy factory codes
                  (HttpxUpstreamClient isa http) in
  (∃ l, reached (send client request w).2 = reached w ++ l ∧ (count_true l ≤ 1)%nat)
  ∧ (∃ l, reached (stream client request w).2 = reached w ++ l ∧ (count_true l ≤ 1)%nat).
Proof.
  cbn. split.
  - destruct (stack_once request (httpx_send isa http) (response_aclose close) Hpost) with (w := w)
      as (l & Hl & Hc & _); [|by exists l]. intros r. apply once_map, exchange_once.
  - destruct (stack_once request (httpx_stream isa http) (stream_aclose close) Hpost) with (w := w)
      as (l & Hl & Hc & _); [|by exists l]. intros r. apply once_map, exchange_once.
Qed.
End stack.

(** A process with nothing else: the breakers, the turns and the record of requests. *)
Record SampleWorld : Type := mkSampleWorld {
  sample_turns : Turns;
  sample_circuits : gmap string CircuitBreaker;
  sample_reached : list bool
}.
Global Program Instance sample_turns_field : Field SampleWorld Turns :=
  {| getf := sample_turns; setf t w := mkSampleWorld t (sample_circuits w) (sample_reached w) |}.
Solve Obligations with by repeat intros [].
Global Program Instance sample_circuits_field : Field SampleWorld (gmap string CircuitBreaker) :=
  {| getf := sample_circuits; setf c w := mkSampleWorld (sample_turns w) c (sample_reached w) |}.
Solve Obligations with by repeat intros [].

(** Instance [aa] refuses the connection; [bb] breaks it after the request left. *)
Inductive SampleError : Type := Refused | Broken.
Definition sample_isa (e : SampleError) (c : httpx_class) : bool :=
  match e, c with Refused, ConnectError => true | _, _ => false end.
Definition sample_http (streamed : bool) (r : HttpRequest)
    : M SampleWorld exn (SampleError + HttpResponse SampleError) := λ w,
  let e := if starts_with "http://a" (http_url r) then Refused else Broken in
  (Ok (inl e), mkSampleWorld (sample_turns w) (sample_circuits w)
     (sample_reached w ++ [match e with Refused => false | Broken => true end])).
Definition stack_request : OutboundRequest :=
  mkOutbound lb_service "POST" "pay" [] [] EmptyString None.

Lemma delivered_at_most_once_witness :
  ∃ l, (stream (resilient_client (mret 0) (λ _, mret tt) (λ _, mret tt) retry_sample_policy
          (CircuitBreaker_new 5 30) [502] (HttpxUpstreamClient sample_isa sample_http))
          stack_request (mkSampleWorld ∅ ∅ [])).2.(sample_reached) = [] ++ l
       ∧ (count_true l ≤ 1)%nat.
Proof.
  assert (∀ (f : Turns → Turns) w, sample_reached (updf f w) = sample_reached w) as Ht by reflexivity.
  assert (∀ (f : gmap string CircuitBreaker → gmap string CircuitBreaker) w,
    sample_reached (updf f w) = sample_reached w) as Hb by reflexivity.
  refine (proj2 (delivered_at_most_once sample_isa sample_http (mret 0) (λ _, mret tt) (λ _, mret tt)
    retry_sample_policy (CircuitBreaker_new 5 30) [502] sample_reached
    (λ e, match e with Refused => false | Broken => true end) Ht Hb _ _ _ _ _ stack_request
    (mkSampleWorld ∅ ∅ []) _)).
  - intros w. split; reflexivity.
  - reflexivity.
  - intros s r w. cbn. by destruct (starts_with "http://a" (http_url r)).
  - by intros [].
  - by intros s r w e.
  - reflexivity.
Defined.

(** The POST of the witness, evaluated: the refused instance is passed over and the
    one that broke is not repeated. *)
Example delivered_example :
  sample_reached (stream (resilient_client (mret 0) (λ _, mret tt) (λ _, mret tt)
    retry_sample_policy (CircuitBreaker_new 5 30) [502]
    (HttpxUpstreamClient sample_isa sample_http)) stack_request (mkSampleWorld ∅ ∅ [])).2
  = [false; true].
Proof. vm_compute. reflexivity. Qed.

(** ** Where a request goes *)

Section destination.
#[local] Set Default Proof Using "Type*".
Context {W : Type} `{!Field W Turns} `{!Field W (gmap string CircuitBreaker)}.
Context (clock : M W exn Z) (sleep : Z → M W exn unit) (close : nat → M W exn unit)
        (policy : RetryPolicy) (factory : result exn CircuitBreaker) (codes : list Z)
        (transport : UpstreamClient W).
(** The requests the transport was given. *)
Context (given : W → list OutboundRequest).
Definition says_nothing {A} (m : M W exn A) : Prop := ∀ w, given (m w).2 = given w.
Hypothesis turns_keep : ∀ (f : Turns → Turns) w, given (updf f w) = given w.
Hypothesis breakers_keep :
  ∀ (f : gmap string CircuitBreaker → gmap string CircuitBreaker) w, given (updf f w) = given w.
Hypothesis clock_keeps : ∀ w, is_ok (clock w).1 = true ∧ given (clock w).2 = given w.
Hypothesis sleep_keeps : ∀ d, says_nothing (sleep d).
Hypothesis close_keeps : ∀ n, says_nothing (close n).
Hypothesis transport_notes : ∀ r w, given (stream transport r w).2 = given w ++ [r].

(** What was given since is all of a kind. *)
Definition since (l : list OutboundRequest) (Q : OutboundRequest → Prop) (w : W) : Prop :=
  ∃ k, given w = l ++ k ∧ Forall Q k.
Definition sends_only {A} (Q : OutboundRequest → Prop) (m : M W exn A) : Prop :=
  ∀ l, preserves (since l Q) m.

Lemma sends_nothing {A} Q (m : M W exn A) : says_nothing m → sends_only Q m.
Proof. intros Hm l w Hw. unfold since in *. by rewrite Hm. Qed.
Lemma sends_bind {A B} Q (m : M W exn A) (f : A → M W exn B) :
  sends_only Q m → (∀ a, sends_only Q (f a)) → sends_only Q (m ≫= f).
Proof. intros Hm Hf l. apply preserves_bind; [apply Hm|]. intros a. apply Hf. Qed.
Lemma sends_try {A} Q (m : M W exn A) h :
  sends_only Q m → (∀ e k, h e = Some k → sends_only Q k) → sends_only Q (try_except m h).
Proof. intros Hm Hh l. apply preserves_try; [apply Hm|]. intros e k Hk. by apply (Hh e). Qed.
Lemma sends_ret {A} Q (a : A) : sends_only Q (mret a).
Proof. intros l. apply preserves_ret. Qed.
Lemma sends_raise {A} Q e : sends_only (A:=A) Q (raise e).
Proof. intros l. apply preserves_raise. Qed.
Lemma sends_lift {A} Q (r : result exn A) : sends_only Q (lift r).
Proof. intros l. apply preserves_lift. Qed.
Lemma sends_modify Q f : (∀ w, given (f w) = given w) → sends_only Q (modify f).
Proof. intros Hf. apply sends_nothing. intros w. apply Hf. Qed.
Lemma sends_clock Q : sends_only Q clock.
Proof. apply sends_nothing. intros w. by destruct (clock_keeps w). Qed.
Lemma sends_run {A} Q (m : M W exn A) w :
  sends_only Q m → ∃ k, given (m w).2 = given w ++ k ∧ Forall Q k.
Proof. intros Hm. apply (Hm (given w) w). exists []. by rewrite app_nil_r. Qed.

(** *** Layer by layer *)

Lemma discard_keeps o : says_nothing (stream_aclose close o).
Proof. apply close_keeps. Qed.

Lemma attempts_sends Q r (call : OutboundRequest → M W exn UpstreamStream) :
  sends_only Q (call r) → sends_only Q (attempts sleep policy r call (stream_aclose close)).
Proof.
  intros Hcall. unfold attempts. destruct (negb _); [done|].
  generalize 1. induction (Z.to_nat (max_attempts policy)) as [|fuel IH]; intros n; [apply sends_raise|].
  cbn [attempts_loop]. apply sends_bind.
  { apply sends_try; [apply sends_bind; [done|intros; apply sends_ret]|].
    intros e k. destruct (is_retryable e); [|done]. intros [= <-].
    destruct (_ <=? _); [apply sends_raise|apply sends_ret]. }
  intros tried. apply sends_bind.
  { destruct tried as [o|]; [|apply sends_ret]. destruct (_ || _); [apply sends_ret|].
    apply sends_bind; [apply sends_nothing, discard_keeps|intros; apply sends_ret]. }
  intros [o|]; [apply sends_ret|]. apply sends_bind; [apply sends_lift|]. intros delay.
  apply sends_bind; [apply sends_lift|]. intros u.
  apply sends_bind; [apply sends_nothing, sleep_keeps|]. intros v. apply IH.
Qed.

Lemma nothing_bind {A B} (m : M W exn A) (f : A → M W exn B) :
  says_nothing m → (∀ a, says_nothing (f a)) → says_nothing (m ≫= f).
Proof.
  intros Hm Hf w. rewrite run_bind. specialize (Hm w). destruct (m w) as [[a|e] w1]; cbn in *; [|done].
  by rewrite Hf.
Qed.
Lemma nothing_clock : says_nothing clock.
Proof. intros w. by destruct (clock_keeps w). Qed.
Lemma on_breaker_keeps t f : says_nothing (on_breaker t f).
Proof. intros w. apply breakers_keep. Qed.
Lemma breaker_for_keeps t : says_nothing (breaker_for factory t).
Proof.
  apply nothing_bind; [done|]. intros bs. destruct (bs !! t); [done|].
  apply nothing_bind; [done|]. intros b. apply nothing_bind; [intros w; apply breakers_keep|done].
Qed.
Lemma acquire_keeps t : says_nothing (acquire clock factory t).
Proof.
  apply nothing_bind; [apply breaker_for_keeps|]. intros b. apply nothing_bind; [apply nothing_clock|].
  intros now. apply nothing_bind; [apply on_breaker_keeps|done].
Qed.
Lemma failed_keeps t : says_nothing (breaker_failed clock t).
Proof. apply nothing_bind; [apply nothing_clock|]. intros now. apply on_breaker_keeps. Qed.

(** After the call a breaker lets through nothing is sent; before it, nothing either. *)
Lemma guarded_ends r (call : OutboundRequest → M W exn UpstreamStream) w w1 :
  acquire clock factory (target r) w = (Ok true, w1) →
  given (guarded clock factory codes r call w).2 = given (call r w1).2.
Proof.
  intros Ha. unfold guarded. rewrite run_bind, Ha. cbn [negb]. cbn beta iota. rewrite run_bind.
  unfold try_except. destruct (call r w1) as [[o|e] w2].
  - rewrite run_bind. cbn [snd]. case_bool_decide; cbn [snd].
    + pose proof (failed_keeps (target r) w2). by destruct (breaker_failed _ _ w2) as [[] ?].
    + apply on_breaker_keeps.
  - destruct (isinstance e cUpstreamError); rewrite run_bind; cbn [snd].
    + pose proof (failed_keeps (target r) w2). by destruct (breaker_failed _ _ w2) as [[] ?].
    + apply breakers_keep.
Qed.
Lemma guarded_sends Q r (call : OutboundRequest → M W exn UpstreamStream) :
  sends_only Q (call r) → sends_only Q (guarded clock factory codes r call).
Proof.
  intros Hcall l w (k & Hk & HQ).
  destruct (acquire clock factory (target r) w) as [[[|]|e] w1] eqn:Ha.
  all: pose proof (acquire_keeps (target r) w) as Hw1; rewrite Ha in Hw1; cbn in Hw1.
  - unfold since. rewrite (guarded_ends r call w w1 Ha). apply (Hcall l w1). exists k. by rewrite Hw1.
  - unfold guarded. rewrite run_bind, Ha. cbn. exists k. by rewrite Hw1.
  - unfold guarded. rewrite run_bind, Ha. cbn. exists k. by rewrite Hw1.
Qed.

(** *** The whole stack *)

Abbreviation client := (resilient_client clock sleep close policy factory codes transport).
Abbreviation once_guarded := (λ r, guarded clock factory codes r
  (λ r, attempts sleep policy r (stream transport) (stream_aclose close))).

(** The circuit of a target lets requests through without a question. *)
Definition circuit_closed (t : string) (w : W) : Prop :=
  match (getf w : gmap string CircuitBreaker) !! t with
  | Some b => breaker_state b = CLOSED
  | None => ∃ b, factory = Ok b ∧ breaker_state b = CLOSED
  end.

Lemma acquire_closed t w :
  circuit_closed t w → ∃ w1, acquire clock factory t w = (Ok true, w1) ∧ given w1 = given w.
Proof.
  intros Hc.
  assert (∃ b w1, breaker_for factory t w = (Ok b, w1) ∧ breaker_state b = CLOSED) as (b & w1 & Hb & Hs).
  { unfold breaker_for, circuit_closed in *. rewrite run_bind, run_gets. destruct (_ !! t) as [b|]; [by eexists _, _|].
    destruct Hc as (b & -> & Hc). by eexists _, _. }
  pose proof (acquire_keeps t w) as Hk. destruct (clock_keeps w1) as [Hok _].
  destruct (clock w1) as [[now|] w2] eqn:Ht; [|done].
  assert (acquire clock factory t w = (Ok true, (on_breaker t (λ b, (try_acquire now b).2) w2).2)) as Ha.
  { assert ((try_acquire now b).1 = true) as Hg by (unfold try_acquire; by rewrite Hs).
    unfold acquire. by rewrite (run_bind_ok _ _ _ _ _ Hb), (run_bind_ok _ _ _ _ _ Ht), Hg. }
  eexists. split; [exact Ha|]. by rewrite Ha in Hk.
Qed.

Lemma guarded_given r w :
  1 <= max_attempts policy →
  (∃ n, given (once_guarded r w).2 = given w ++ replicate n r
        ∧ (circuit_closed (target r) w → (1 ≤ n)%nat)).
Proof.
  intros Hp.
  destruct (sends_run (eq r) (once_guarded r) w) as (k & Hk & Hall).
  { apply guarded_sends, attempts_sends. intros l w0 (k & Hk & HQ). exists (k ++ [r]).
    rewrite transport_notes, Hk, <- app_assoc. split; [done|]. apply Forall_app. by repeat constructor. }
  assert (k = replicate (length k) r) as Hr.
  { clear -Hall. induction Hall as [|x k <- _ IH]; cbn; [done|by rewrite <- IH]. }
  exists (length k). rewrite <- Hr. split; [done|]. intros Hc.
  destruct (acquire_closed _ _ Hc) as (w1 & Ha & Hg). rewrite (guarded_ends _ _ _ _ Ha) in Hk.
  destruct (attempts_bound sleep policy r (stream transport) (stream_aclose close) (λ w, length (given w))) with (w := w1)
    as (Hlt & _ & _); [| | |done|].
  - intros w'. rewrite transport_notes, length_app. cbn. lia.
  - intros d n w' Hw'. by rewrite sleep_keeps.
  - intros o n w' Hw'. by rewrite discard_keeps.
  - rewrite Hk, Hg, length_app in Hlt. lia.
Qed.

(** A request that names its instance is given to the transport as it is, some number of
    times, and at least once when that instance's circuit is closed. *)
Lemma pinned_given r i w :
  1 <= max_attempts policy → out_instance r = Some i →
  ∃ n, given (stream client r w).2 = given w ++ replicate n (with_instance i r)
       ∧ (circuit_closed (target (with_instance i r)) w → (1 ≤ n)%nat).
Proof.
  intros Hp Hi. destruct (guarded_given (with_instance i r) w Hp) as (n & Hn & Hc).
  exists n. split; [|done]. rewrite <- Hn. cbn [stream resilient_client LoadBalancingUpstreamClient].
  unfold balanced. rewrite Hi. unfold send_to. rewrite run_bind.
  cbn [stream CircuitBreakerUpstreamClient RetryingUpstreamClient].
  by destruct (guarded _ _ _ _ _ w) as [[]].
Qed.

(** One that names none is only ever given for an instance of its service. *)
Lemma unpinned_given r w :
  out_instance r = None →
  ∃ l, given (stream client r w).2 = given w ++ l
       ∧ Forall (λ r', ∃ i, i ∈ instances (out_service r) ∧ r' = with_instance i r) l.
Proof.
  intros Hi. set (Q := λ r', ∃ i, i ∈ instances (out_service r) ∧ r' = with_instance i r).
  apply (sends_run Q (stream client r) w). cbn [stream resilient_client LoadBalancingUpstreamClient].
  unfold balanced. rewrite Hi. intros l w0 Hw0. rewrite run_bind.
  assert (∀ ins errors, (∀ i, i ∈ ins → i ∈ instances (out_service r)) →
    sends_only Q (try_instances r once_guarded ins errors)) as Htry.
  { intros ins. induction ins as [|i ins IH]; intros errors Hin; [apply sends_raise|]. cbn [try_instances].
    assert (∀ errors, sends_only Q (try_instances r once_guarded ins errors)) as IH'
      by (intros; apply IH; set_solver).
    apply sends_try.
    - unfold send_to. apply sends_bind; [|intros; apply sends_ret]. apply guarded_sends, attempts_sends.
      intros l' w' (k & Hk & HQ). exists (k ++ [with_instance i r]). rewrite transport_notes, Hk, <- app_assoc.
      split; [done|]. apply Forall_app. split; [done|]. constructor; [|done]. exists i. split; [apply Hin; left|done].
    - intros e k. destruct (isinstance e cCircuitOpenError); [by intros [= <-]|].
      destruct (isinstance e cUpstreamError); [|done]. intros [= <-].
      destruct (negb _); [apply sends_raise|done]. }
  destruct (decide (instances (out_service r) = [])) as [He|He].
  - unfold rotation. cbn. by rewrite bool_decide_true.
  - rewrite rotation_run by done. cbn beta iota. apply Htry.
    + intros i. by rewrite rotate_perm.
    + destruct Hw0 as (k & Hk & HQ). exists k. by rewrite turns_keep.
Qed.
End destination.
