(* ===== verification/Proxy.v ===== *)
(** * Proxying and health *)
(** [application/proxy_service.py], [application/health_service.py], the proxy route
    and its adapters ([api/routes/proxy.py], [api/adapters.py]) and the request id of
    [api/middleware.py].  The web framework's header collection is a parameter with
    the laws the adapters rely on. *)
From S2P Require Export HeaderPolicy Upstream.
From Stdlib Require Import Ascii.
From stdpp Require Import options.
Local Open Scope Z_scope.

(** ** ProxyService *)

(** [_outbound] *)
Definition outbound (registry : ServiceRegistry) (name : string) (inbound : InboundRequest)
    (instance : option string) : result exn OutboundRequest :=
  service ← registry_get registry name;
  pinned ← match instance with
           | Some id => i ← service_instance service id; mret (Some i)
           | None => mret None
           end;
  mret {| out_service := service; out_method := in_method inbound; out_path := in_path inbound;
          out_headers := for_upstream inbound (service_headers service);
          out_query_params := in_query_params inbound; out_body := in_body inbound;
          out_instance := pinned |}.

Section proxy_service.
Context {W : Type} (registry : ServiceRegistry) (client : UpstreamClient W).

(** [ProxyService.forward] *)
Definition forward (name : string) (inbound : InboundRequest) (instance : option string)
    : M W exn UpstreamResponse :=
  out ← lift (outbound registry name inbound instance);
  response ← send client out;
  mret (set_headers (for_client (outcome_headers response)) response).

(** [ProxyService.stream] *)
Definition proxy_stream (name : string) (inbound : InboundRequest) (instance : option string)
    : M W exn UpstreamStream :=
  out ← lift (outbound registry name inbound instance);
  upstream ← stream client out;
  mret (set_headers (for_client (outcome_headers upstream)) upstream).
End proxy_service.

(** ** Adapters *)

Definition INSTANCE_HEADER : string := "x-gateway-instance".

(** The web framework's response headers: a collection with case-insensitive names. *)
Class MutableHeaders (H : Type) : Type := {
  hvalues : string → H → list string;
  happend : string → string → H → H;
  hset : string → string → H → H;
  hvalues_append n k v h :
    hvalues n (happend k v h)
    = hvalues n h ++ (if String.eqb (str_lower k) (str_lower n) then [v] else []);
  hvalues_set n k v h :
    hvalues n (hset k v h)
    = if String.eqb (str_lower k) (str_lower n) then [v] else hvalues n h
}.

Section adapters.
Context {H : Type} `{!MutableHeaders H}.

(** [_copy_headers] *)
Definition copy_headers (headers : Headers) (h : H) : H :=
  foldl (λ h nv, happend nv.1 nv.2 h) h headers.

(** [_copy_instance_header] *)
Definition copy_instance_header (instance : option string) (h : H) : H :=
  match instance with Some id => hset INSTANCE_HEADER id h | None => h end.

(** The headers [to_response] puts on a fresh response. *)
Definition response_headers_of (upstream : UpstreamResponse) (fresh : H) : H :=
  copy_instance_header (response_instance upstream)
    (copy_headers (response_headers upstream) fresh).

(** The headers [to_streaming_response] puts on a fresh response. *)
Definition streaming_headers_of (upstream : UpstreamStream) (fresh : H) : H :=
  copy_instance_header (stream_instance upstream)
    (copy_headers (stream_headers upstream) (hset "x-accel-buffering" "no" fresh)).
End adapters.

Section relay.
Context {W : Type}.
(** Handing a chunk to the client, which may hang up; and closing a connection. *)
Context (emit : string → M W exn unit) (close : nat → M W exn unit).

Fixpoint emit_all (chunks : list string) : M W exn unit :=
  match chunks with
  | [] => mret tt
  | c :: chunks' => emit c ;; emit_all chunks'
  end.

(** [async for chunk in body: yield chunk] *)
Definition iterate (b : Body) : M W exn unit :=
  emit_all (body_chunks b) ;;
  match body_error b with Some e => raise e | None => mret tt end.

(** [_relay] *)
Definition relay (upstream : UpstreamStream) : M W exn unit :=
  try_finally
    (try_except (iterate (stream_chunks upstream)) (except cUpstreamError (λ _, mret tt)))
    (stream_aclose close upstream).
End relay.

(** ** The route *)

Definition INSTANCE_SEPARATOR : ascii := ascii_of_nat 64.

(** [_forward] up to the response object. *)
Definition route_forward {W} (registry : ServiceRegistry) (client : UpstreamClient W)
    (service_name : string) (inbound : InboundRequest) : M W exn UpstreamStream :=
  let '(name, pinned, id) := str_partition INSTANCE_SEPARATOR service_name in
  proxy_stream registry client name inbound (if pinned : bool then Some id else None).

(** *** The request id *)

Definition request_id_char (c : ascii) : bool :=
  alnum_char c || has_char c "._-".

(** [_VALID_REQUEST_ID.fullmatch] *)
Definition valid_request_id (s : string) : bool :=
  str_all request_id_char s && (1 <=? byte_len s) && (byte_len s <=? 128).

(** [_resolve_request_id]; [fresh] is [uuid.uuid4().hex]. *)
Definition resolve_request_id (incoming : option string) (fresh : string) : string :=
  let incoming := default EmptyString incoming in
  if valid_request_id incoming then incoming else fresh.

(** ** Health *)

Section health.
Context {W : Type} (client : UpstreamClient W) (timer : M W exn Z)
        (close : nat → M W exn unit).

(** [_check_instance] *)
Definition check_instance (service : ServiceDefinition) (i : ServiceInstance)
    : M W exn InstanceHealth :=
  let request := {| out_service := service; out_method := "GET"; out_path := health_path service;
                    out_headers := service_headers service; out_query_params := [];
                    out_body := EmptyString; out_instance := Some i |} in
  started ← timer;
  answer ← try_except (r ← send client request; mret (inr r))
             (except cUpstreamError (λ e, mret (inl e)));
  match answer with
  | inl e => mret (mkInstanceHealth (instance_id i) DOWN None (Some (exn_message e)))
  | inr response =>
      response_aclose close response ;;
      ended ← timer;
      let latency := round_half_even (ended - started) 10000 in
      if (200 <=? response_status response) && (response_status response <? 300)
      then mret (mkInstanceHealth (instance_id i) UP (Some latency) None)
      else mret (mkInstanceHealth (instance_id i) DOWN (Some latency)
                   (Some ("Unexpected status code " ++s int_str (response_status response))))
  end.

(** [asyncio.gather]: every result, in the order asked for.  The checks share
    nothing, so they run here one after the other. *)
Fixpoint gather {A B} (f : A → M W exn B) (l : list A) : M W exn (list B) :=
  match l with
  | [] => mret []
  | x :: l' => y ← f x; ys ← gather f l'; mret (y :: ys)
  end.

(** [HealthService.check] *)
Definition check (service : ServiceDefinition) : M W exn ServiceHealth :=
  results ← gather (check_instance service) (instances service);
  mret (mkServiceHealth (service_name service) results).

(** [HealthService.check_all] *)
Definition check_all (registry : ServiceRegistry) : M W exn (list ServiceHealth) :=
  gather check (registry_all registry).
End health.

(** ** Laws of the adapters *)

Lemma hvalues_copy {H} `{!MutableHeaders H} n headers (h : H) :
  str_lower n = n →
  hvalues n (copy_headers headers h) = hvalues n h ++ values n headers.
Proof.
  intros Hn. unfold copy_headers. revert h. induction headers as [|[k v] headers IH]; intros h.
  - by rewrite app_nil_r.
  - cbn [foldl fst snd]. rewrite IH, hvalues_append, values_cons, Hn, <- app_assoc. done.
Qed.

(** A concrete collection: the pairs in order. *)
Definition set_first (k v : string) (h : Headers) : Headers :=
  filter (λ p, String.eqb (str_lower p.1) (str_lower k) = false) h ++ [(k, v)].
Lemma values_lower_app n h h' :
  values (str_lower n) (h ++ h') = values (str_lower n) h ++ values (str_lower n) h'.
Proof. apply values_app. Qed.
Lemma values_set_first n k v h :
  values (str_lower n) (set_first k v h)
  = if String.eqb (str_lower k) (str_lower n) then [v] else values (str_lower n) h.
Proof.
  unfold set_first. rewrite values_app, values_cons. change (values (str_lower n) []) with (@nil string).
  rewrite app_nil_r. destruct (String.eqb_spec (str_lower k) (str_lower n)) as [He|Hne].
  - rewrite He. rewrite values_nil; [done|]. apply Forall_forall. intros p Hp.
    apply list_elem_of_filter in Hp as [Hp _]. by apply String.eqb_neq in Hp.
  - rewrite app_nil_r. induction h as [|[k' v'] h IH]; [done|]. rewrite filter_cons. cbn [fst].
    destruct (String.eqb_spec (str_lower k') (str_lower k)) as [He|Hne'].
    + rewrite decide_False by done. rewrite IH, values_cons, He.
      destruct (String.eqb_spec (str_lower k) (str_lower n)); [congruence|done].
    + rewrite decide_True by done. by rewrite !values_cons, IH.
Qed.
Lemma values_append n k v h :
  values (str_lower n) (h ++ [(k, v)])
  = values (str_lower n) h ++ (if String.eqb (str_lower k) (str_lower n) then [v] else []).
Proof.
  rewrite values_app, values_cons. change (values (str_lower n) []) with (@nil string).
  by rewrite app_nil_r.
Qed.
Global Instance pairs_mutable_headers : MutableHeaders Headers := {|
  hvalues n h := values (str_lower n) h;
  happend k v h := h ++ [(k, v)];
  hset := set_first;
  hvalues_append n k v h := values_append n k v h;
  hvalues_set n k v h := values_set_first n k v h
|}.

(** ** What the layers tell the client *)

Lemma send_to_names {W A} `{!Outcome A} request (call : OutboundRequest → M W exn A) i w o w' :
  send_to request call i w = (Ok o, w') → outcome_instance o = Some (instance_id i).
Proof.
  unfold send_to. intros H. inv_bind H; [|done]. injection Hk as <- _. apply instance_set_instance.
Qed.

Lemma try_instances_names {W A} `{!Outcome A} request (call : OutboundRequest → M W exn A)
    ins errors w o w' :
  try_instances request call ins errors w = (Ok o, w') →
  ∃ i, i ∈ ins ∧ outcome_instance o = Some (instance_id i).
Proof.
  revert errors w. induction ins as [|i ins IH]; intros errors w; [done|]. cbn [try_instances].
  unfold try_except. destruct (send_to request call i w) as [[o1|e] w1] eqn:Hs.
  - intros [= -> ->]. exists i. split; [set_solver|]. by eapply send_to_names.
  - assert (∀ errors, try_instances request call ins errors w1 = (Ok o, w') →
      ∃ i', i' ∈ i :: ins ∧ outcome_instance o = Some (instance_id i')) as Hgo.
    { intros errors' Ht. destruct (IH _ _ Ht) as (i' & Hi & Ho). exists i'. set_solver. }
    destruct (isinstance e cCircuitOpenError); [apply Hgo|].
    destruct (isinstance e cUpstreamError); [|done].
    destruct (can_fail_over request e); [apply Hgo|done].
Qed.

Lemma balanced_names {W A} `{!Field W Turns} `{!Outcome A} request
    (call : OutboundRequest → M W exn A) w o w' :
  balanced request call w = (Ok o, w') →
  ∃ i, (i ∈ instances (out_service request) ∨ out_instance request = Some i)
       ∧ (∀ j, out_instance request = Some j → i = j)
       ∧ outcome_instance o = Some (instance_id i).
Proof.
  unfold balanced. destruct (out_instance request) as [i|].
  - intros H%send_to_names. exists i. split_and!; [by right|by intros j [= <-]|done].
  - intros H. inv_bind H; [|done]. unfold rotation in Hm. cbn in Hm.
    destruct (bool_decide _); [done|]. injection Hm as <- _.
    apply try_instances_names in Hk as (i & Hi & Ho). exists i.
    split_and!; [left|done|done]. fold (rotate (default 0%nat
      ((getf w : Turns) !! service_name (out_service request))) (instances (out_service request))) in Hi.
    by rewrite rotate_perm in Hi.
Qed.

(** The answer names the instance that gave it, and the service cannot forge the
    name: every response of the proxy comes from an instance of the service asked
    for, from the pinned one when the path pins one, and the client reads exactly
    that instance's id in [X-Gateway-Instance], whatever headers the service sent. *)
Theorem answer_names_instance {W H} `{!Field W Turns} `{!MutableHeaders H}
    registry (inner : UpstreamClient W) name inbound id w upstream w' (fresh : H)
    (Hrun : proxy_stream registry (LoadBalancingUpstreamClient inner) name inbound id w
            = (Ok upstream, w')) :
  ∃ s i, registry_get registry name = Ok s ∧ i ∈ instances s
    ∧ (∀ j, id = Some j → instance_id i = j)
    ∧ hvalues INSTANCE_HEADER (streaming_headers_of upstream fresh) = [instance_id i].
Proof.
  unfold proxy_stream in Hrun. inv_bind Hrun; [|done]. inv_bind Hk; [|done].
  injection Hk0 as Hu <-. unfold lift in Hm. injection Hm as Hout <-.
  unfold outbound in Hout. destruct (registry_get registry name) as [s|] eqn:Hs; [|done]. cbn in Hout.
  apply balanced_names in Hm0 as (i & Hi & Hpin & Ho).
  assert (streaming_headers_of upstream fresh
    = hset INSTANCE_HEADER (instance_id i) (copy_headers (for_client (outcome_headers a0))
        (hset "x-accel-buffering" "no" fresh))) as Hh.
  { rewrite <- Hu. unfold streaming_headers_of. cbn in Ho |- *. by rewrite Ho. }
  exists s, i. rewrite Hh, hvalues_set. split; [done|].
  destruct id as [id|]; cbn in Hout.
  - unfold service_instance in Hout. destruct (find_instance id (instances s)) as [i'|] eqn:Hf; [|done].
    injection Hout as <-. cbn in *. rewrite (Hpin i' eq_refl).
    apply find_instance_Some in Hf as [Hin <-]. split_and!; [done|by intros j [= <-]|done].
  - injection Hout as <-. cbn in Hi. destruct Hi as [Hi|Hi]; [|done]. by split_and!.
Qed.

(** A service that claims to be another instance. *)
Definition forging_client : UpstreamClient Turns :=
  mkClient (λ _, raise IndexError)
    (λ _, mret (mkStream 200 [("X-Gateway-Instance", "zz"); ("Connection", "close")]%string
                  (mkBody ["hi"]%string None 7) None)).
Definition proxy_sample_registry : ServiceRegistry := [("orders"%string, lb_service)].
Definition proxy_sample_inbound : InboundRequest :=
  mkInbound "GET" "x" [] [] EmptyString None "https" None None.

Lemma answer_names_instance_witness :
  match proxy_stream proxy_sample_registry (LoadBalancingUpstreamClient forging_client) "orders"
          proxy_sample_inbound (Some "bb"%string) ∅ with
  | (Ok upstream, _) => hvalues INSTANCE_HEADER (streaming_headers_of upstream ([] : Headers)) = ["bb"%string]
  | _ => False
  end.
Proof.
  destruct (answer_names_instance proxy_sample_registry forging_client "orders"
    proxy_sample_inbound (Some "bb"%string) ∅ _ _ ([] : Headers) eq_refl) as (s & i & _ & _ & Hj & Hv).
  specialize (Hj _ eq_refl). cbn beta iota. etransitivity; [exact Hv|]. by rewrite Hj.
Defined.

(** ** Streams are closed *)

Section relay_laws.
#[local] Set Default Proof Using "Type*".
Context {W : Type} (emit : string → M W exn unit) (close : nat → M W exn unit).
(** The connections a world has closed. *)
Context (closed : W → list nat).
Hypothesis emit_keeps : ∀ c l, preserves (λ w, closed w = l) (emit c).
Hypothesis close_closes : ∀ n w, close n w = (Ok tt, (close n w).2) ∧ closed (close n w).2 = closed w ++ [n].

Lemma emit_all_keeps chunks l : preserves (λ w, closed w = l) (emit_all emit chunks).
Proof.
  induction chunks as [|c chunks IH]; cbn; [apply preserves_ret|].
  apply preserves_bind; [apply emit_keeps|]. intros; apply IH.
Qed.
Lemma iterate_keeps b l : preserves (λ w, closed w = l) (iterate emit b).
Proof.
  apply preserves_bind; [apply emit_all_keeps|]. intros.
  destruct (body_error b); auto with gw_effects.
Qed.

(** However a streamed response ends — the body is complete, the service breaks
    off, the client hangs up — its connection is closed exactly once; and a service
    that breaks off ends the stream early without an error of its own. *)
Theorem relay_closes_once upstream w :
  closed (relay emit close upstream w).2
    = closed w ++ [body_connection (stream_chunks upstream)]
  ∧ (∀ e, (iterate emit (stream_chunks upstream) w).1 = Raise e →
       (relay emit close upstream w).1
       = if isinstance e cUpstreamError then Ok tt else Raise e).
Proof.
  unfold relay, try_finally, try_except, stream_aclose.
  pose proof (iterate_keeps (stream_chunks upstream) (closed w) w eq_refl) as Hk.
  destruct (iterate emit (stream_chunks upstream) w) as [[[]|e] w1]; cbn [fst snd] in Hk |- *.
  - destruct (close_closes (body_connection (stream_chunks upstream)) w1) as [-> Hc].
    rewrite <- Hk. split; [exact Hc|]. done.
  - unfold except. destruct (isinstance e cUpstreamError) eqn:Hu; cbn [mret M_ret];
      destruct (close_closes (body_connection (stream_chunks upstream)) w1) as [-> Hc];
      rewrite <- Hk; (split; [exact Hc|]); intros e' [= <-]; by rewrite Hu.
Qed.
End relay_laws.

(** The client hangs up at the second chunk. *)
Definition hang_up (c : string) : M (list string * list nat) exn unit := λ w,
  if (length w.1 <? 1)%nat then (Ok tt, (w.1 ++ [c], w.2)) else (Raise GeneratorExit, w).

Lemma relay_closes_once_witness :
  (relay hang_up (λ n w, (Ok tt, (w.1, w.2 ++ [n])))
     (mkStream 200 [] (mkBody ["a"; "b"]%string None 7) None) ([], [])).2.2 = [7%nat].
Proof.
  refine (proj1 (relay_closes_once hang_up (λ n w, (Ok tt, (w.1, w.2 ++ [n]))) snd _ _
    (mkStream 200 [] (mkBody ["a"; "b"]%string None 7) None) ([], []))).
  - intros c l w Hw. unfold hang_up. by destruct (_ <? _)%nat.
  - intros n w. split; reflexivity.
Defined.

(** ** Health laws *)

Section health_laws.
Context {W : Type} (client : UpstreamClient W) (timer : M W exn Z) (close : nat → M W exn unit).

(** A health check asks the instance itself, with the service's own headers,
    and reports it up exactly when it answered a 2xx status; a transport failure
    reports it down with the failure's message, anything else propagates. *)
Theorem check_instance_reports service i w started w1
    (Htimer : timer w = (Ok started, w1)) :
  let request := mkOutbound service "GET" (health_path service) (service_headers service) []
                   EmptyString (Some i) in
  match send client request w1 with
  | (Raise e, w2) =>
      check_instance client timer close service i w
      = if isinstance e cUpstreamError
        then (Ok (mkInstanceHealth (instance_id i) DOWN None (Some (exn_message e))), w2)
        else (Raise e, w2)
  | (Ok response, w2) =>
      ∀ ended w3, (response_aclose close response ;; timer) w2 = (Ok ended, w3) →
      ∃ h, check_instance client timer close service i w = (Ok h, w3)
           ∧ health_id h = instance_id i
           ∧ (health_status h = UP ↔ 200 <= response_status response < 300)
           ∧ (health_status h = UP ∨ health_status h = DOWN)
  end.
Proof.
  cbn zeta. set (request := mkOutbound _ _ _ _ _ _ _).
  assert (check_instance client timer close service i w
          = (answer ← try_except (r ← send client request; mret (inr r))
               (except cUpstreamError (λ e, mret (inl e)));
             match answer with
             | inl e => mret (mkInstanceHealth (instance_id i) DOWN None (Some (exn_message e)))
             | inr response =>
                 response_aclose close response ;;
                 ended ← timer;
                 let latency := round_half_even (ended - started) 10000 in
                 if (200 <=? response_status response) && (response_status response <? 300)
                 then mret (mkInstanceHealth (instance_id i) UP (Some latency) None)
                 else mret (mkInstanceHealth (instance_id i) DOWN (Some latency)
                        (Some ("Unexpected status code "
                               ++s int_str (response_status response))))
             end) w1) as ->.
  { unfold check_instance. by rewrite run_bind, Htimer. }
  rewrite run_bind. unfold try_except, except. rewrite run_bind.
  destruct (send client request w1) as [[response|e] w2].
  - intros ended w3 H3. unfold mret, mbind, M_ret, M_bind in H3 |- *.
    destruct (response_aclose close response w2) as [[]  w2']; [|done].
    rewrite H3. cbn beta iota zeta.
    destruct ((200 <=? response_status response) && (response_status response <? 300)) eqn:Hs;
      (eexists; split; [reflexivity|]); cbn.
    + apply andb_true_iff in Hs as [Ha Hb]. bool_to_Z. split_and!; [done| |by left].
      split; [intros _; lia|done].
    + split_and!; [done| |by right]. split; [done|]. intros H.
      apply andb_false_iff in Hs as [Hs|Hs]; bool_to_Z; lia.
  - destruct (isinstance e cUpstreamError); done.
Qed.
End health_laws.

Lemma check_instance_reports_witness :
  ∃ h, check_instance (mkClient (λ _, mret (mkResponse 204 [] EmptyString None None)) (λ _, raise IndexError))
         (mret 5 : M unit exn Z) (λ _, mret tt) lb_service (mkInstance "http://a" "aa") tt
       = (Ok h, tt) ∧ health_status h = UP.
Proof.
  pose proof (check_instance_reports
    (mkClient (λ _, mret (mkResponse 204 [] EmptyString None None)) (λ _, raise IndexError))
    (mret 5 : M unit exn Z) (λ _, mret tt) lb_service (mkInstance "http://a" "aa") tt 5 tt eq_refl) as H.
  hnf in H. destruct (H 5 tt eq_refl) as (h & Hh & _ & Hup & _).
  exists h. split; [exact Hh|]. apply Hup. cbn. lia.
Defined.

(** ** The request id *)

Lemma resolve_request_id_valid incoming fresh :
  valid_request_id fresh = true → valid_request_id (resolve_request_id incoming fresh) = true.
Proof. unfold resolve_request_id. by destruct (valid_request_id (default _ _)) eqn:H. Qed.
