(* ===== verification/Middleware.v ===== *)
(** * The request's context *)
(** [api/middleware.py]: the id every request has, echoed on its response, kept for its
    log lines and let go at its end.  The application below is whatever sends messages;
    logging and the context variable of [logging_config.py] are parts of the world. *)
From S2P Require Export Proxy.
From Stdlib Require Import Ascii.
From stdpp Require Import options.
Local Open Scope Z_scope.

(** An ASGI message of a response, over the framework's headers. *)
Inductive Message (H : Type) : Type :=
  | ResponseStart (status : Z) (headers : H)
  | ResponseBody (chunk : string) (more_body : bool)
  | OtherMessage (type : string).
Arguments ResponseStart {_} _ _.
Arguments ResponseBody {_} _ _.
Arguments OtherMessage {_} _.

(** The variables [send_with_context] closes over, [request_id_var], and the lines logged:
    method, path, status. *)
Record RequestContext : Type := mkRequestContext {
  ctx_status : Z;
  ctx_finished : bool;
  ctx_request_id : option string;
  ctx_lines : list (string * string * Z)
}.

(** [RequestIdFilter.filter] *)
Definition record_request_id (c : RequestContext) : string :=
  match ctx_request_id c with Some i => if str_truthy i then i else "-"%string | None => "-"%string end.

Definition REQUEST_ID_HEADER : string := "x-request-id".

Section middleware.
Context {W H : Type} `{!Field W RequestContext} `{!MutableHeaders H}.
(** The server's [send]. *)
Context (send_message : Message H → M W exn unit).

Definition on_context (f : RequestContext → RequestContext) : M W exn unit := modify (updf f).

(** What the middleware does with a message before passing it on. *)
Definition in_context (request_id : string) (m : Message H) : Message H :=
  match m with
  | ResponseStart status headers => ResponseStart status (hset REQUEST_ID_HEADER request_id headers)
  | _ => m
  end.
Definition seen (m : Message H) (c : RequestContext) : RequestContext :=
  match m with
  | ResponseStart status _ => mkRequestContext status (ctx_finished c) (ctx_request_id c) (ctx_lines c)
  | ResponseBody _ false => mkRequestContext (ctx_status c) true (ctx_request_id c) (ctx_lines c)
  | _ => c
  end.
Definition log_line (method path : string) (c : RequestContext) : RequestContext :=
  mkRequestContext (ctx_status c) (ctx_finished c) (ctx_request_id c)
    (ctx_lines c ++ [(method, path, ctx_status c)]).
Definition set_request_id (i : option string) (c : RequestContext) : RequestContext :=
  mkRequestContext (ctx_status c) (ctx_finished c) i (ctx_lines c).
Definition fresh_closure (c : RequestContext) : RequestContext :=
  mkRequestContext 0 false (ctx_request_id c) (ctx_lines c).

(** [send_with_context] *)
Definition send_with_context (method path request_id : string) (m : Message H) : M W exn unit :=
  on_context (seen m) ;;
  send_message (in_context request_id m) ;;
  finished ← gets (λ w, ctx_finished (getf w));
  if finished : bool then on_context (log_line method path) else mret tt.

(** [__call__]; a connection that is no request is passed through. *)
Definition call_middleware (is_http : bool) (method path : string) (incoming : option string)
    (fresh_id : M W exn string) (app : (Message H → M W exn unit) → option string → M W exn unit)
    : M W exn unit :=
  if negb is_http then app send_message None
  else
    request_id ← (if valid_request_id (default EmptyString incoming)
                  then mret (default EmptyString incoming) else fresh_id);
    before ← gets (λ w, ctx_request_id (getf w));
    on_context (set_request_id (Some request_id)) ;;
    on_context fresh_closure ;;
    try_finally (app (send_with_context method path request_id) (Some request_id))
      (on_context (set_request_id before)).

(** ** What the middleware guarantees *)

(** An application that sends these messages and then returns or raises. *)
Fixpoint send_all (messages : list (Message H)) (send : Message H → M W exn unit) : M W exn unit :=
  match messages with [] => mret tt | m :: messages' => send m ;; send_all messages' send end.
End middleware.

Definition is_final {H} (m : Message H) : bool :=
  match m with ResponseBody _ false => true | _ => false end.
(** The status of the last response that was started. *)
Definition last_status {H} (messages : list (Message H)) (status : Z) : Z :=
  foldl (λ s m, match m with ResponseStart s' _ => s' | _ => s end) status messages.

Lemma send_all_app {W H} (messages rest : list (Message H)) (send : Message H → M W exn unit) w w' :
  send_all messages send w = (Ok tt, w') →
  send_all (messages ++ rest) send w = send_all rest send w'.
Proof.
  revert w. induction messages as [|m messages IH]; intros w; cbn [send_all app].
  - by intros [= ->].
  - rewrite !run_bind. destruct (send m w) as [[[]|e] w2] eqn:Hm; [|done]. apply IH.
Qed.

Section guarantees.
#[local] Set Default Proof Using "Type*".
Context {W H : Type} `{!Field W RequestContext} `{!MutableHeaders H}.
Context (send_message : Message H → M W exn unit) (sent : W → list (Message H)).
(** The server takes what it is sent, and the context is none of its business. *)
Hypothesis server : ∀ m w, ∃ w', send_message m w = (Ok tt, w')
  ∧ (getf w' : RequestContext) = getf w ∧ sent w' = sent w ++ [m].
Hypothesis context_apart : ∀ (f : RequestContext → RequestContext) w, sent (updf f w) = sent w.
Context (method path request_id : string).

Abbreviation sending := (send_with_context send_message method path request_id).

(** One message, before the response is over. *)
Lemma send_run m w :
  ctx_finished (getf w) = false →
  ∃ w', sending m w = (Ok tt, w')
    ∧ sent w' = sent w ++ [in_context request_id m]
    ∧ getf w' = (if is_final m then log_line method path (seen m (getf w)) else seen m (getf w)).
Proof.
  intros Hf. unfold send_with_context, on_context. rewrite run_bind, run_modify, run_bind.
  destruct (server (in_context request_id m) (updf (seen m) w)) as (w1 & -> & Hc & Hs).
  rewrite context_apart in Hs. rewrite getf_updf in Hc. autorewrite with gw_run. rewrite Hc.
  assert (ctx_finished (seen m (getf w)) = is_final m) as -> by (by destruct m as [| ? []|]).
  destruct (is_final m); [|by exists w1].
  exists (updf (log_line method path) w1). rewrite context_apart, getf_updf, Hc. by split_and!.
Qed.

(** Messages that do not end the response. *)
Lemma send_all_run messages w :
  ctx_finished (getf w) = false → Forall (λ m, is_final m = false) messages →
  ∃ w', send_all messages sending w = (Ok tt, w')
    ∧ sent w' = sent w ++ (in_context request_id <$> messages)
    ∧ getf w' = mkRequestContext (last_status messages (ctx_status (getf w))) false
                  (ctx_request_id (getf w)) (ctx_lines (getf w)).
Proof.
  revert w. induction messages as [|m messages IH]; intros w Hf Hall; cbn [send_all].
  - exists w. rewrite fmap_nil, app_nil_r. split_and!; [done|done|]. destruct (getf w). cbn in *. by subst.
  - apply Forall_cons in Hall as [Hm Hall]. destruct (send_run m w Hf) as (w1 & Hs & Hsent & Hctx).
    rewrite Hm in Hctx.
    assert (ctx_finished (getf w1) = false) as Hf1 by (rewrite Hctx; by destruct m as [| ? []|]).
    destruct (IH w1 Hf1 Hall) as (w2 & Hall' & Hsent2 & Hctx2). exists w2.
    rewrite run_bind, Hs. split_and!; [done| |].
    + by rewrite Hsent2, Hsent, <- app_assoc.
    + rewrite Hctx2, Hctx. unfold last_status. by destruct m as [| ? []|].
Qed.
End guarantees.

(** Every response carries the id of its request, one line is logged for it, once its
    last byte is sent and with the status it started with -- none if it breaks off before
    -- and the id is let go of however the application ends.  The id is the client's when
    that is one, a fresh one otherwise. *)
Theorem request_in_context {W H} `{!Field W RequestContext} `{!MutableHeaders H}
    (send_message : Message H → M W exn unit) (sent : W → list (Message H))
    (server : ∀ m w, ∃ w', send_message m w = (Ok tt, w')
       ∧ (getf w' : RequestContext) = getf w ∧ sent w' = sent w ++ [m])
    (context_apart : ∀ (f : RequestContext → RequestContext) w, sent (updf f w) = sent w)
    method path incoming (fresh_id : M W exn string) messages last (ending : result exn unit) w id w0 :
  (if valid_request_id (default EmptyString incoming) then mret (default EmptyString incoming)
   else fresh_id : M W exn string) w = (Ok id, w0) →
  Forall (λ m, is_final m = false) messages →
  last = [] ∨ (∃ chunk, last = [ResponseBody chunk false]) →
  ∃ w', call_middleware send_message true method path incoming fresh_id
          (λ send _, send_all (messages ++ last) send ;; lift ending) w = (ending, w')
    ∧ sent w' = sent w0 ++ (in_context id <$> messages ++ last)
    ∧ ctx_request_id (getf w') = ctx_request_id (getf w0)
    ∧ ctx_lines (getf w') = ctx_lines (getf w0)
        ++ match last with [] => [] | _ => [(method, path, last_status messages 0)] end.
Proof.
  intros Hid Hall Hlast. unfold call_middleware, on_context. cbn [negb].
  rewrite run_bind, Hid, run_bind, run_gets, run_bind, run_modify, run_bind, run_modify, updf_updf.
  set (before := ctx_request_id (getf w0)). set (w1 := updf _ w0).
  assert (getf w1 = mkRequestContext 0 false (Some id) (ctx_lines (getf w0))) as Hctx
    by (unfold w1; by rewrite getf_updf).
  assert (sent w1 = sent w0) as Hsent by apply context_apart.
  destruct (send_all_run send_message sent server context_apart method path id messages w1
    ltac:(by rewrite Hctx) Hall) as (w2 & Hrun & Hsent2 & Hctx2).
  assert (∃ w3, send_all (messages ++ last) (send_with_context send_message method path id) w1 = (Ok tt, w3)
    ∧ sent w3 = sent w0 ++ (in_context id <$> messages ++ last)
    ∧ ctx_lines (getf w3) = ctx_lines (getf w0)
        ++ match last with [] => [] | _ => [(method, path, last_status messages 0)] end)
    as (w3 & Hrun3 & Hsent3 & Hlines).
  { rewrite fmap_app, app_assoc, <- Hsent, <- Hsent2. destruct Hlast as [->|[chunk ->]].
    - exists w2. rewrite !app_nil_r. split_and!; [exact Hrun|done|]. by rewrite Hctx2, Hctx.
    - destruct (send_run send_message sent server context_apart method path id
        (ResponseBody chunk false) w2 ltac:(by rewrite Hctx2)) as (w3 & Hs & Hsent3 & Hctx3).
      exists w3. split_and!; [|by rewrite Hsent3|by rewrite Hctx3, Hctx2, Hctx].
      rewrite (send_all_app _ _ _ _ _ Hrun). cbn [send_all]. by rewrite run_bind, Hs. }
  exists (updf (set_request_id before) w3). unfold try_finally.
  rewrite run_bind, Hrun3, run_lift, run_modify, context_apart, getf_updf. cbn [ctx_request_id ctx_lines set_request_id].
  by destruct ending.
Qed.

(** A server that keeps what it is sent, beside the context of the request. *)
Definition ServerWorld : Type := RequestContext * list (Message Headers).
Definition keep_message (m : Message Headers) : M ServerWorld exn unit := modify (λ w, (w.1, w.2 ++ [m])).

Lemma request_in_context_witness :
  ∃ w', call_middleware keep_message true "GET" "/health" (Some "abc"%string) (mret "fresh"%string)
          (λ send _, send_all ([ResponseStart 200 []] ++ [ResponseBody "ok" false]) send ;; lift (Ok tt))
          (mkRequestContext 0 false None [], []) = (Ok tt, w')
    ∧ ctx_lines w'.1 = [("GET", "/health", 200)]%string.
Proof.
  destruct (request_in_context keep_message snd
    ltac:(intros m w; exists (w.1, w.2 ++ [m]); by split_and!) ltac:(by intros f [])
    "GET" "/health" (Some "abc"%string) (mret "fresh"%string) [ResponseStart 200 []]
    [ResponseBody "ok" false] (Ok tt) (mkRequestContext 0 false None [], []) "abc"
    (mkRequestContext 0 false None [], []) eq_refl ltac:(by repeat constructor)
    ltac:(right; by exists "ok"%string)) as (w' & Hrun & _ & _ & Hl).
  exists w'. split; [exact Hrun|exact Hl].
Defined.

(** ** The proxied request *)

(** What the framework knows of a request: its headers in order, its address, its body. *)
Record ServerRequest : Type := mkServerRequest {
  rq_method : string;
  rq_headers : Headers;
  rq_query_params : Headers;
  rq_body : string;
  rq_client : option string;
  rq_scheme : string
}.

(** [to_inbound_request]; [state] is the id the middleware left on the request's state. *)
Definition to_inbound_request (request : ServerRequest) (state : option string) (path : string) : InboundRequest :=
  mkInbound (rq_method request) path (rq_headers request) (rq_query_params request) (rq_body request)
    (rq_client request) (rq_scheme request) (head (values "host" (rq_headers request))) state.

Definition PROXIED_METHODS : list string :=
  ["GET"; "POST"; "PUT"; "PATCH"; "DELETE"; "HEAD"; "OPTIONS"]%string.

(** [proxy_path] and [proxy_root], up to the response object. *)
Definition proxy_path {W} (registry : ServiceRegistry) (client : UpstreamClient W) (service_name path : string)
    (request : ServerRequest) (state : option string) : M W exn UpstreamStream :=
  route_forward registry client service_name (to_inbound_request request state path).
Definition proxy_root {W} (registry : ServiceRegistry) (client : UpstreamClient W) (service_name : string)
    (request : ServerRequest) (state : option string) : M W exn UpstreamStream :=
  route_forward registry client service_name (to_inbound_request request state EmptyString).

Lemma valid_id_truthy s : valid_request_id s = true → str_truthy s = true.
Proof. destruct s; [by vm_compute|done]. Qed.
Lemma forwarded_id inbound id :
  request_id inbound = Some id → str_truthy id = true → forwarded inbound REQUEST_ID_HEADER = [id].
Proof.
  intros Hi Ht. unfold forwarded. change (String.eqb REQUEST_ID_HEADER "x-request-id") with true.
  change (String.eqb REQUEST_ID_HEADER "x-forwarded-proto") with false.
  change (String.eqb REQUEST_ID_HEADER "x-forwarded-for") with false.
  change (String.eqb REQUEST_ID_HEADER "x-forwarded-host") with false. cbn iota.
  rewrite Hi. cbn. by rewrite Ht.
Qed.

(** One id throughout: whatever id the client claims, the one the request is given is
    what its service is told -- ahead of what the service is configured with, and never
    what the client sent where the two differ -- and what the response says, whatever the
    service answered. *)
Theorem one_id_throughout {H} `{!MutableHeaders H} registry request incoming fresh path name instance out :
  str_truthy fresh = true →
  let id := resolve_request_id incoming fresh in
  outbound registry name (to_inbound_request request (Some id) path) instance = Ok out →
  values REQUEST_ID_HEADER (out_headers out)
    = id :: values REQUEST_ID_HEADER (service_headers (out_service out))
  ∧ ∀ status (h : H), ∃ h', in_context id (ResponseStart status h) = ResponseStart status h'
      ∧ hvalues REQUEST_ID_HEADER h' = [id].
Proof.
  intros Hfresh id Hout. split.
  - assert (str_truthy id = true) as Ht.
    { unfold id, resolve_request_id. destruct (valid_request_id _) eqn:Hv; [by apply valid_id_truthy|done]. }
    unfold outbound in Hout. destruct (registry_get registry name) as [service|e]; [|done].
    cbn [mbind result_bind] in Hout.
    destruct (match instance with Some i => _ | None => _ end) as [pinned|e]; [|done].
    cbn [mbind result_bind mret result_ret] in Hout. injection Hout as <-. cbn [out_headers out_service].
    unfold for_upstream. rewrite !values_app, values_keep, values_forwarding.
    rewrite (forwarded_id _ id) by done.
    assert (mem_str REQUEST_ID_HEADER (upstream_dropped (to_inbound_request request (Some id) path)
      (service_headers service)) = true) as ->; [|done].
    unfold upstream_dropped. rewrite !mem_str_app.
    change (mem_str REQUEST_ID_HEADER FORWARDING_HEADERS) with true. by rewrite !orb_true_r.
  - intros status h. eexists. split; [reflexivity|]. rewrite hvalues_set. by rewrite String.eqb_refl.
Qed.

(** A client that sends two ids, neither of which is one. *)
Definition forging_request : ServerRequest :=
  mkServerRequest "GET" [("X-Request-ID", "a b"); ("x-request-id", "c d")]%string [] "" None "http".
Lemma one_id_throughout_witness :
  match outbound proxy_sample_registry "orders" (to_inbound_request forging_request (Some "f00d"%string) "x") None with
  | Ok out => values REQUEST_ID_HEADER (out_headers out) = ["f00d"%string]
  | Raise _ => False
  end.
Proof.
  destruct (outbound _ _ _ _) as [out|e] eqn:Hout; [|vm_compute in Hout; discriminate Hout].
  destruct (one_id_throughout (H:=Headers) proxy_sample_registry forging_request (Some "a b"%string) "f00d" "x"
    "orders" None out eq_refl Hout) as [H _].
  rewrite H. vm_compute in Hout. injection Hout as <-. reflexivity.
Defined.
