(* ===== verification/Runs.v ===== *)
(** * Runs *)
(** [domain/runs.py]: one idea carried from the first sentence to a generated
    project.  The table of legal moves, the immutable [Run] with one function per
    method, and what a run's history may look like.  A clock reading is the
    argument [now] of the method that takes it, in nanoseconds. *)
From S2P Require Export Errors.
From Stdlib Require Import Ascii.
From stdpp Require Import options.
Local Open Scope Z_scope.

Definition MAX_ROUNDS : Z := 2.
Definition MAX_IDEA_CHARS : Z := 4000.
(** One hour, in nanoseconds. *)
Definition RUN_TTL_SECONDS : Z := 60 * 60 * 1000000000.

(** ** States, events and the table *)

Inductive RunState : Type :=
  | IDEA | PM_ANALYSIS | QUESTIONNAIRE | PLAN_REVIEW | PLAN_REJECTED
  | PM_REVISION | PLAN_APPROVED | BACKEND_GENERATION | ZIP_READY | FAILED.

Inductive RunEvent : Type :=
  | DESCRIBE | ASK | PROPOSE | REJECT | REVISE | APPROVE | GENERATE | DELIVER
  | FAIL | RESET.

Global Instance RunState_eq_dec : EqDecision RunState.
Proof. solve_decision. Defined.
Global Instance RunEvent_eq_dec : EqDecision RunEvent.
Proof. solve_decision. Defined.

(** [str(state)], [str(event)] of the two [StrEnum]s. *)
Definition state_str (s : RunState) : string :=
  match s with
  | IDEA => "IDEA" | PM_ANALYSIS => "PM_ANALYSIS" | QUESTIONNAIRE => "QUESTIONNAIRE"
  | PLAN_REVIEW => "PLAN_REVIEW" | PLAN_REJECTED => "PLAN_REJECTED"
  | PM_REVISION => "PM_REVISION" | PLAN_APPROVED => "PLAN_APPROVED"
  | BACKEND_GENERATION => "BACKEND_GENERATION" | ZIP_READY => "ZIP_READY"
  | FAILED => "FAILED"
  end.
Definition event_str (e : RunEvent) : string :=
  match e with
  | DESCRIBE => "DESCRIBE" | ASK => "ASK" | PROPOSE => "PROPOSE" | REJECT => "REJECT"
  | REVISE => "REVISE" | APPROVE => "APPROVE" | GENERATE => "GENERATE"
  | DELIVER => "DELIVER" | FAIL => "FAIL" | RESET => "RESET"
  end.

(** [TRANSITIONS[state].get(event)] *)
Definition TRANSITIONS (s : RunState) (e : RunEvent) : option RunState :=
  match s, e with
  | IDEA, DESCRIBE => Some PM_ANALYSIS
  | PM_ANALYSIS, ASK => Some QUESTIONNAIRE
  | PM_ANALYSIS, PROPOSE => Some PLAN_REVIEW
  | QUESTIONNAIRE, DESCRIBE => Some PM_ANALYSIS
  | QUESTIONNAIRE, ASK => Some QUESTIONNAIRE
  | QUESTIONNAIRE, PROPOSE => Some PLAN_REVIEW
  | PLAN_REVIEW, REJECT => Some PLAN_REJECTED
  | PLAN_REVIEW, APPROVE => Some PLAN_APPROVED
  | PLAN_REJECTED, REVISE => Some PM_REVISION
  | PM_REVISION, PROPOSE => Some PLAN_REVIEW
  | PLAN_APPROVED, GENERATE => Some BACKEND_GENERATION
  | BACKEND_GENERATION, DELIVER => Some ZIP_READY
  | ZIP_READY, RESET => Some IDEA
  | FAILED, RESET => Some IDEA
  | _, _ => None
  end.

(** Membership of [FAILABLE]: every key of the table but the two final ones. *)
Definition FAILABLE (s : RunState) : bool :=
  negb (bool_decide (s = ZIP_READY)) && negb (bool_decide (s = FAILED)).

(** ** The run *)

Record Answer : Type := mkAnswer { question_id : string; answer_value : string }.

Record Run : Type := mkRun {
  run_id : string;
  idea : string;
  state : RunState;
  rounds : Z;
  answers : list Answer;
  plan : option json;
  summary : string;
  questionnaire : option json;
  artifact_id : string;
  run_error : string;
  account : string;
  charged : Z;
  created_at : Z;
  updated_at : Z
}.

(** [Run.start]; [token] is [secrets.token_hex(16)], the two readings of the clock
    are those of the two default factories. *)
Definition run_start (text owner token : string) (created updated : Z) : result exn Run :=
  let text := str_strip text in
  if negb (str_truthy text) then Raise (ValueError "a run needs an idea")
  else if MAX_IDEA_CHARS <? py_len text
  then Raise (ValueError ("the idea is longer than " ++s int_str MAX_IDEA_CHARS ++s " characters"))
  else Ok {| run_id := token; idea := text; state := IDEA; rounds := 0; answers := [];
             plan := None; summary := EmptyString; questionnaire := None;
             artifact_id := EmptyString; run_error := EmptyString; account := owner;
             charged := 0; created_at := created; updated_at := updated |}.

Definition may (r : Run) (e : RunEvent) : bool :=
  match e with
  | FAIL => FAILABLE (state r)
  | _ => bool_decide (is_Some (TRANSITIONS (state r) e))
  end.

(** [dataclasses.replace(self, state=..., updated_at=...)] *)
Definition with_state (s : RunState) (now : Z) (r : Run) : Run :=
  {| run_id := run_id r; idea := idea r; state := s; rounds := rounds r; answers := answers r;
     plan := plan r; summary := summary r; questionnaire := questionnaire r;
     artifact_id := artifact_id r; run_error := run_error r; account := account r;
     charged := charged r; created_at := created_at r; updated_at := now |}.

(** [_moved]: the changes are applied to the run that moved. *)
Definition moved (e : RunEvent) (changes : Run → Run) (now : Z) (r : Run) : result exn Run :=
  if negb (may r e) then Raise (IllegalTransitionError (state_str (state r)) (event_str e))
  else
    let s := match e with FAIL => FAILED | _ => default (state r) (TRANSITIONS (state r) e) end in
    Ok (changes (with_state s now r)).

Definition set_asked (text : string) (q : json) (r : Run) : Run :=
  {| run_id := run_id r; idea := idea r; state := state r; rounds := rounds r + 1;
     answers := answers r; plan := plan r;
     summary := (if str_truthy text then text else summary r); questionnaire := Some q;
     artifact_id := artifact_id r; run_error := run_error r; account := account r;
     charged := charged r; created_at := created_at r; updated_at := updated_at r |}.
Definition set_plan (p : json) (r : Run) : Run :=
  {| run_id := run_id r; idea := idea r; state := state r; rounds := rounds r;
     answers := answers r; plan := Some p; summary := summary r; questionnaire := None;
     artifact_id := artifact_id r; run_error := run_error r; account := account r;
     charged := charged r; created_at := created_at r; updated_at := updated_at r |}.
Definition set_artifact (a : string) (r : Run) : Run :=
  {| run_id := run_id r; idea := idea r; state := state r; rounds := rounds r;
     answers := answers r; plan := plan r; summary := summary r;
     questionnaire := questionnaire r; artifact_id := a; run_error := run_error r;
     account := account r; charged := charged r; created_at := created_at r;
     updated_at := updated_at r |}.
Definition set_error (e : string) (r : Run) : Run :=
  {| run_id := run_id r; idea := idea r; state := state r; rounds := rounds r;
     answers := answers r; plan := plan r; summary := summary r;
     questionnaire := questionnaire r; artifact_id := artifact_id r; run_error := e;
     account := account r; charged := charged r; created_at := created_at r;
     updated_at := updated_at r |}.

Definition describing : Z → Run → result exn Run := moved DESCRIBE (λ r, r).
Definition asked (text : string) (q : json) : Z → Run → result exn Run :=
  moved ASK (set_asked text q).
Definition proposed (p : json) : Z → Run → result exn Run := moved PROPOSE (set_plan p).
Definition rejected : Z → Run → result exn Run := moved REJECT (λ r, r).
Definition revising : Z → Run → result exn Run := moved REVISE (λ r, r).
Definition approved : Z → Run → result exn Run := moved APPROVE (λ r, r).
Definition generating : Z → Run → result exn Run := moved GENERATE (λ r, r).
Definition delivered (a : string) : Z → Run → result exn Run := moved DELIVER (set_artifact a).
Definition failed (e : string) : Z → Run → result exn Run := moved FAIL (set_error e).

Definition billed (tokens now : Z) (r : Run) : Run :=
  {| run_id := run_id r; idea := idea r; state := state r; rounds := rounds r;
     answers := answers r; plan := plan r; summary := summary r;
     questionnaire := questionnaire r; artifact_id := artifact_id r; run_error := run_error r;
     account := account r; charged := tokens; created_at := created_at r; updated_at := now |}.

(** [merged[answer.question_id] = answer] on the dict of answers: a key that is
    already there keeps its place. *)
Fixpoint merge_answer (d : list Answer) (a : Answer) : list Answer :=
  match d with
  | [] => [a]
  | b :: d' => if String.eqb (question_id b) (question_id a) then a :: d'
               else b :: merge_answer d' a
  end.

Definition answering (given : list Answer) (now : Z) (r : Run) : Run :=
  let merged := foldl merge_answer [] (answers r) in
  {| run_id := run_id r; idea := idea r; state := state r; rounds := rounds r;
     answers := foldl merge_answer merged given; plan := plan r; summary := summary r;
     questionnaire := questionnaire r; artifact_id := artifact_id r; run_error := run_error r;
     account := account r; charged := charged r; created_at := created_at r;
     updated_at := now |}.

Definition rounds_left (r : Run) : Z := Z.max 0 (MAX_ROUNDS - rounds r).
Definition may_generate (r : Run) : bool := may r GENERATE.

Definition run_as_json (r : Run) : json :=
  JObj [("runId", JStr (run_id r)); ("state", JStr (state_str (state r)));
        ("idea", JStr (idea r)); ("summary", JStr (summary r));
        ("questionnaire", default JNull (questionnaire r)); ("plan", default JNull (plan r));
        ("answers", JList (map (λ a, JObj [("questionId", JStr (question_id a));
                                           ("value", JStr (answer_value a))]) (answers r)));
        ("round", JInt (rounds r)); ("maxRounds", JInt MAX_ROUNDS);
        ("artifactId", JStr (artifact_id r)); ("error", JStr (run_error r));
        ("account", JStr (account r)); ("charged", JInt (charged r))]%string.

(** ** Histories *)

(** One call of a method of a run. *)
Inductive RunOp : Type :=
  | Describing | Asked (text : string) (q : json) | Answering (given : list Answer)
  | Proposed (p : json) | Rejected | Revising | Approved | Generating
  | Delivered (a : string) | Failed (e : string) | Billed (tokens : Z).

Definition apply_op (op : RunOp) (now : Z) (r : Run) : result exn Run :=
  match op with
  | Describing => describing now r
  | Asked text q => asked text q now r
  | Answering given => Ok (answering given now r)
  | Proposed p => proposed p now r
  | Rejected => rejected now r
  | Revising => revising now r
  | Approved => approved now r
  | Generating => generating now r
  | Delivered a => delivered a now r
  | Failed e => failed e now r
  | Billed tokens => Ok (billed tokens now r)
  end.

(** The event an operation moves the run by; [None] for the two that are not moves. *)
Definition event_of (op : RunOp) : option RunEvent :=
  match op with
  | Describing => Some DESCRIBE | Asked _ _ => Some ASK | Proposed _ => Some PROPOSE
  | Rejected => Some REJECT | Revising => Some REVISE | Approved => Some APPROVE
  | Generating => Some GENERATE | Delivered _ => Some DELIVER | Failed _ => Some FAIL
  | Answering _ | Billed _ => None
  end.

(** A sequence of timed calls, each on what the one before returned. *)
Fixpoint apply_ops (ops : list (RunOp * Z)) (r : Run) : result exn Run :=
  match ops with
  | [] => Ok r
  | (op, now) :: ops' => r' ← apply_op op now r; apply_ops ops' r'
  end.

Lemma apply_ops_app ops ops' r :
  apply_ops (ops ++ ops') r = (r' ← apply_ops ops r; apply_ops ops' r').
Proof.
  revert r. induction ops as [|[op now] ops IH]; intros r; [done|]. cbn.
  destruct (apply_op op now r); cbn; [apply IH|done].
Qed.

Lemma apply_ops_snoc ops op now r r2 :
  apply_ops (ops ++ [(op, now)]) r = Ok r2 →
  ∃ r1, apply_ops ops r = Ok r1 ∧ apply_op op now r1 = Ok r2.
Proof.
  rewrite apply_ops_app. destruct (apply_ops ops r) as [r1|]; cbn; [|done].
  intros H. exists r1. split; [done|]. destruct (apply_op op now r1); cbn in H; congruence.
Qed.

(** ** Moves *)

(** The state a move leads to. *)
Definition next_state (s : RunState) (e : RunEvent) : option RunState :=
  match e with
  | FAIL => if FAILABLE s then Some FAILED else None
  | _ => TRANSITIONS s e
  end.

Lemma moved_spec e f now r :
  moved e f now r
  = match next_state (state r) e with
    | Some s => Ok (f (with_state s now r))
    | None => Raise (IllegalTransitionError (state_str (state r)) (event_str e))
    end.
Proof. unfold moved, may, next_state. by destruct (state r), e. Qed.

(** What a call that moves changes besides the state and the clock. *)
Definition op_changes (op : RunOp) : Run → Run :=
  match op with
  | Asked text q => set_asked text q
  | Proposed p => set_plan p
  | Delivered a => set_artifact a
  | Failed e => set_error e
  | _ => λ r, r
  end.

Lemma apply_op_spec op now r :
  apply_op op now r
  = match event_of op with
    | Some e => moved e (op_changes op) now r
    | None => match op with
              | Answering given => Ok (answering given now r)
              | Billed tokens => Ok (billed tokens now r)
              | _ => Ok r
              end
    end.
Proof. by destruct op. Qed.

Lemma op_changes_state op r : state (op_changes op r) = state r.
Proof. by destruct op. Qed.

Lemma apply_op_state op now r r' :
  apply_op op now r = Ok r' →
  match event_of op with
  | Some e => next_state (state r) e = Some (state r')
  | None => state r' = state r
  end.
Proof.
  rewrite apply_op_spec. destruct (event_of op) as [e|] eqn:He.
  - rewrite moved_spec. destruct (next_state (state r) e) as [s|]; [|done].
    intros [= <-]. by rewrite op_changes_state.
  - destruct op; try done; by intros [= <-].
Qed.

(** Every method that moves a run succeeds exactly when the table (or, for a
    failure, the set of states in flight) allows its event from the current state; it
    then goes to the table's state at the clock's reading and touches nothing that
    is not its own field; otherwise it raises an [IllegalTransitionError] that
    names both ends.  [may] decides which. *)
Theorem moves_follow_table op e now r (Hop : event_of op = Some e) :
  (is_ok (apply_op op now r) = may r e)
  ∧ match next_state (state r) e with
    | Some s => apply_op op now r = Ok (op_changes op (with_state s now r))
    | None => apply_op op now r
              = Raise (IllegalTransitionError (state_str (state r)) (event_str e))
    end.
Proof.
  rewrite apply_op_spec, Hop, moved_spec. split.
  - unfold may, next_state. destruct (state r), e; done.
  - by destruct (next_state (state r) e).
Qed.

Definition sample_run : Run :=
  match run_start "  a bike shop  " "GABC" "00" 1 2 with Ok r => r | Raise _ =>
    mkRun "" "" FAILED 0 [] None "" None "" "" "" 0 0 0 end.

Lemma moves_follow_table_witness :
  apply_op Generating 5 sample_run = Raise (IllegalTransitionError "IDEA" "GENERATE")
  ∧ is_ok (apply_op Describing 5 sample_run) = true.
Proof.
  split; [exact (proj2 (moves_follow_table Generating GENERATE 5 sample_run eq_refl))|].
  etransitivity; [exact (proj1 (moves_follow_table Describing DESCRIBE 5 sample_run eq_refl))|].
  vm_compute. reflexivity.
Defined.

(** ** The approval gate *)

(** What every history from the start of a run has kept. *)
Definition is_asked (op : RunOp * Z) : bool := match op.1 with Asked _ _ => true | _ => false end.
Definition count_asked (ops : list (RunOp * Z)) : Z :=
  Z.of_nat (length (filter (λ op, is_asked op = true) ops)).

Lemma count_asked_snoc ops op now :
  count_asked (ops ++ [(op, now)])
  = count_asked ops + (match op with Asked _ _ => 1 | _ => 0 end).
Proof.
  unfold count_asked. rewrite filter_app, length_app, filter_cons.
  destruct op; first [rewrite decide_True by done | rewrite decide_False by done]; cbn; lia.
Qed.

Lemma history_rounds ops r0 r :
  apply_ops ops r0 = Ok r → rounds r = rounds r0 + count_asked ops.
Proof.
  revert r. induction ops as [|[op now] ops IH] using rev_ind; intros r.
  - cbn. intros [= <-]. unfold count_asked; cbn. lia.
  - intros (r1 & H1 & H2)%apply_ops_snoc. apply IH in H1. rewrite count_asked_snoc.
    revert H2. rewrite apply_op_spec. destruct (event_of op) as [e|] eqn:He.
    + rewrite moved_spec. destruct (next_state _ _); [|done]. intros [= <-].
      destruct op; cbn in *; lia.
    + destruct op; try done; intros [= <-]; cbn; lia.
Qed.

(** The states a plan's approval leads to. *)
Definition past_approval (s : RunState) : bool :=
  match s with PLAN_APPROVED | BACKEND_GENERATION | ZIP_READY => true | _ => false end.

Lemma past_approval_entered s e s' :
  next_state s e = Some s' → past_approval s' = true →
  past_approval s = true ∨ (s = PLAN_REVIEW ∧ e = APPROVE).
Proof. destruct s, e; cbn; naive_solver. Qed.

Lemma apply_op_plan op now r r' :
  apply_op op now r = Ok r' → plan r' = plan r ∨ (state r' = PLAN_REVIEW ∧ is_Some (plan r')).
Proof.
  rewrite apply_op_spec. destruct (event_of op) as [e|] eqn:He.
  - rewrite moved_spec. destruct (next_state (state r) e) as [s|] eqn:Hs; [|done].
    intros [= <-]. destruct op; simplify_eq/=; eauto. right.
    destruct (state r); simplify_eq/=; eauto.
  - destruct op; try done; intros [= <-]; by left.
Qed.

(** A run under review has a plan. *)
Lemma review_has_plan ops r0 r :
  apply_ops ops r0 = Ok r → state r0 = IDEA → state r = PLAN_REVIEW → is_Some (plan r).
Proof.
  revert r. induction ops as [|[op now] ops IH] using rev_ind; intros r.
  - cbn. intros [= <-]. congruence.
  - intros (r1 & H1 & H2)%apply_ops_snoc Hi Hr.
    pose proof (apply_op_state _ _ _ _ H2) as Hst. rewrite Hr in Hst.
    revert H2. rewrite apply_op_spec. destruct (event_of op) as [e|] eqn:He.
    + rewrite moved_spec, Hst. intros [= <-]. destruct (state r1), op; simplify_eq/=; eauto.
    + specialize (IH _ H1 Hi (eq_sym Hst)). destruct op; try done; intros [= <-]; exact IH.
Qed.

(** C15. The agent never works on a plan nobody approved.  Whatever sequence of
    calls brought a fresh run to generation or delivery, it contains an approval made
    on a plan under review, and the run's plan is still that plan: after approval no
    call can change it. *)
Theorem generation_follows_approval ops r0 r
    (Hrun : apply_ops ops r0 = Ok r) (Hfresh : state r0 = IDEA)
    (Hpast : past_approval (state r) = true) :
  ∃ before now after reviewed p,
    ops = before ++ (Approved, now) :: after
    ∧ apply_ops before r0 = Ok reviewed ∧ state reviewed = PLAN_REVIEW
    ∧ plan reviewed = Some p ∧ plan r = Some p.
Proof.
  revert r Hrun Hpast. induction ops as [|[op now] ops IH] using rev_ind; intros r.
  { cbn. intros [= <-]. by rewrite Hfresh. }
  intros (r1 & H1 & H2)%apply_ops_snoc Hpast.
  pose proof (apply_op_state _ _ _ _ H2) as Hst.
  assert (past_approval (state r1) = true
          ∨ (state r1 = PLAN_REVIEW ∧ event_of op = Some APPROVE)) as [Hp|[Hr He]].
  { destruct (event_of op) as [e|]; [|left; congruence].
    destruct (past_approval_entered _ _ _ Hst Hpast) as [|[? ->]]; eauto. }
  - destruct (IH r1 H1 Hp) as (b & n & a & rv & p & -> & ? & ? & ? & Hplan).
    exists b, n, (a ++ [(op, now)]), rv, p. rewrite <- app_assoc. split_and!; try done.
    destruct (apply_op_plan _ _ _ _ H2) as [->|[Hrev _]]; [done|].
    by rewrite Hrev in Hpast.
  - destruct (review_has_plan _ _ _ H1 Hfresh Hr) as [p Hplan].
    exists ops, now, [], r1, p. split_and!; try done.
    { destruct op; simplify_eq/=; done. }
    destruct (apply_op_plan _ _ _ _ H2) as [->|[Hrev _]]; [done|].
    by rewrite Hrev in Hpast.
Qed.

Definition sample_history : list (RunOp * Z) :=
  [(Describing, 3); (Proposed (JStr "p"), 4); (Approved, 5); (Generating, 6);
   (Answering [mkAnswer "q" "v"], 7)].
Definition sample_generating : Run :=
  match apply_ops sample_history sample_run with Ok r => r | Raise _ => sample_run end.

Lemma generation_follows_approval_witness : is_Some (plan sample_generating).
Proof.
  destruct (generation_follows_approval sample_history sample_run sample_generating
    eq_refl eq_refl eq_refl) as (_ & _ & _ & _ & p & _ & _ & _ & _ & Hp).
  rewrite Hp. by exists p.
Defined.

(** ** Ends *)

(** Some calls lead every run in this state to a delivered project. *)
Definition deliverable (s : RunState) : Prop :=
  ∀ r, state r = s → ∃ ops r', apply_ops ops r = Ok r' ∧ state r' = ZIP_READY.

Lemma apply_op_go op now r e s :
  event_of op = Some e → next_state (state r) e = Some s →
  apply_op op now r = Ok (op_changes op (with_state s now r)).
Proof. intros He Hs. by rewrite apply_op_spec, He, moved_spec, Hs. Qed.

Lemma deliverable_step op e s s' :
  event_of op = Some e → next_state s e = Some s' → deliverable s' → deliverable s.
Proof.
  intros He Hs Hd r <-. pose proof (apply_op_go op 0 r e s' He Hs) as Hgo.
  destruct (Hd (op_changes op (with_state s' 0 r))) as (ops & r' & Hops & Hr').
  { by rewrite op_changes_state. }
  exists ((op, 0) :: ops), r'. cbn. by rewrite Hgo.
Qed.

Lemma all_deliverable s : FAILABLE s = true → deliverable s.
Proof.
  assert (deliverable ZIP_READY) as HZ by (intros r Hr; by exists [], r).
  assert (deliverable BACKEND_GENERATION) as HB
    by by eapply (deliverable_step (Delivered "id")).
  assert (deliverable PLAN_APPROVED) as HA by by eapply (deliverable_step Generating).
  assert (deliverable PLAN_REVIEW) as HR by by eapply (deliverable_step Approved).
  assert (∀ s, next_state s PROPOSE = Some PLAN_REVIEW → deliverable s) as HP
    by (intros s' Hs'; by eapply (deliverable_step (Proposed JNull))).
  assert (deliverable PM_REVISION) as HV by by apply HP.
  assert (deliverable PM_ANALYSIS) as HM by by apply HP.
  destruct s; try done; intros _;
    [by eapply (deliverable_step Describing)|by apply HP|by eapply (deliverable_step Revising)].
Qed.

(** No state is a trap and the two final ones are final: from every state in
    flight some calls deliver the project and one call fails the run, while from
    [ZIP_READY] and [FAILED] no sequence of calls leads anywhere else. *)
Theorem run_ends r :
  (FAILABLE (state r) = true →
     (∃ ops r', apply_ops ops r = Ok r' ∧ state r' = ZIP_READY)
     ∧ (∀ e now, ∃ r', failed e now r = Ok r' ∧ state r' = FAILED ∧ run_error r' = e))
  ∧ (FAILABLE (state r) = false →
     ∀ ops r', apply_ops ops r = Ok r' → state r' = state r).
Proof.
  split.
  - intros Hf. split.
    + by apply (all_deliverable (state r)).
    + intros e now. unfold failed. rewrite moved_spec. unfold next_state.
      rewrite Hf. eexists. by split_and!.
  - intros Hf ops. induction ops as [|[op now] ops IH] using rev_ind; intros r'.
    + by intros [= <-].
    + intros (r1 & H1 & H2)%apply_ops_snoc. specialize (IH _ H1).
      apply apply_op_state in H2. rewrite IH in H2. destruct (event_of op) as [e|] eqn:He; [|done].
      destruct (state r); try done; destruct op; simplify_eq/=; done.
Qed.

Lemma run_ends_witness :
  ∃ ops r', apply_ops ops sample_generating = Ok r' ∧ state r' = ZIP_READY.
Proof. exact (proj1 (proj1 (run_ends sample_generating) eq_refl)). Defined.

(** ** Answers *)

Fixpoint last_answer (q : string) (l : list Answer) : option Answer :=
  match l with
  | [] => None
  | a :: l' => match last_answer q l' with
               | Some b => Some b
               | None => if String.eqb (question_id a) q then Some a else None
               end
  end.

(** The distinct ids of a list, each where it first occurs. *)
Definition add_id (ids : list string) (q : string) : list string :=
  if bool_decide (q ∈ ids) then ids else ids ++ [q].

Lemma last_answer_app q l l' :
  last_answer q (l ++ l')
  = match last_answer q l' with Some a => Some a | None => last_answer q l end.
Proof.
  induction l as [|a l IH]; cbn; [by destruct (last_answer q l')|]. rewrite IH.
  by destruct (last_answer q l').
Qed.

Lemma last_answer_None q l : q ∉ question_id <$> l → last_answer q l = None.
Proof.
  induction l as [|a l IH]; cbn; [done|]. intros [Hne Hq]%not_elem_of_cons.
  rewrite (IH Hq). destruct (String.eqb_spec (question_id a) q); congruence.
Qed.

Lemma merge_answer_ids d a :
  question_id <$> merge_answer d a = add_id (question_id <$> d) (question_id a).
Proof.
  unfold add_id. induction d as [|b d IH]; [done|]. cbn [merge_answer].
  destruct (String.eqb_spec (question_id b) (question_id a)) as [He|Hne].
  - cbn. rewrite bool_decide_true by (rewrite He; set_solver). by rewrite He.
  - rewrite !fmap_cons, IH. repeat case_bool_decide; set_solver.
Qed.

Lemma merge_answer_get q d a :
  NoDup (question_id <$> d) →
  last_answer q (merge_answer d a)
  = if String.eqb (question_id a) q then Some a else last_answer q d.
Proof.
  induction d as [|b d IH]; cbn; [done|]. intros [Hb Hd]%NoDup_cons.
  destruct (String.eqb_spec (question_id b) (question_id a)) as [He|Hne]; cbn.
  - destruct (String.eqb_spec (question_id a) q) as [<-|Hq].
    + by rewrite last_answer_None by (by rewrite <- He).
    + rewrite He. by rewrite (proj2 (String.eqb_neq _ _) Hq).
  - rewrite (IH Hd). destruct (String.eqb_spec (question_id a) q); [done|].
    by destruct (last_answer q d).
Qed.

Lemma add_id_NoDup ids q : NoDup ids → NoDup (add_id ids q).
Proof.
  intros H. unfold add_id. case_bool_decide; [done|].
  apply NoDup_app. split_and!; [done|set_solver|apply NoDup_singleton].
Qed.

Lemma add_id_distinct ids l : NoDup (ids ++ l) → foldl add_id ids l = ids ++ l.
Proof.
  revert ids. induction l as [|q l IH]; intros ids Hd; cbn; [by rewrite app_nil_r|].
  assert (add_id ids q = ids ++ [q]) as ->.
  { unfold add_id. rewrite bool_decide_false; [done|]. apply NoDup_app in Hd as (_ & H & _).
    intros Hq. apply (H q Hq). set_solver. }
  rewrite IH, <- app_assoc; [done|]. by rewrite <- app_assoc.
Qed.

Lemma merge_spec given d :
  NoDup (question_id <$> d) →
  NoDup (question_id <$> foldl merge_answer d given)
  ∧ question_id <$> foldl merge_answer d given
    = foldl add_id (question_id <$> d) (question_id <$> given)
  ∧ ∀ q, last_answer q (foldl merge_answer d given) = last_answer q (d ++ given).
Proof.
  revert d. induction given as [|a given IH]; intros d Hd; cbn; [by rewrite app_nil_r|].
  destruct (IH (merge_answer d a)) as (H1 & H2 & H3).
  { rewrite merge_answer_ids. by apply add_id_NoDup. }
  split_and!; [done|by rewrite H2, merge_answer_ids|].
  intros q. rewrite H3, !last_answer_app, merge_answer_get by done. cbn.
  destruct (last_answer q given); [done|]. by destruct (String.eqb _ _).
Qed.

Definition given_in (op : RunOp * Z) : list Answer :=
  match op.1 with Answering given => given | _ => [] end.

Lemma apply_op_answers op now r r' :
  apply_op op now r = Ok r' →
  answers r' = match op with Answering given => answers (answering given now r)
                           | _ => answers r end.
Proof.
  rewrite apply_op_spec. destruct (event_of op) as [e|] eqn:He.
  - rewrite moved_spec. destruct (next_state _ _); [|done]. intros [= <-]. by destruct op.
  - destruct op; try done; by intros [= <-].
Qed.

(** No answer is lost and none is kept twice: after any history of a fresh run,
    the answer it holds to a question is the last one given to it in any round, each
    question answered is there once, and the questions stand in the order in which
    they were first answered. *)
Theorem answers_accumulate ops r0 r
    (Hrun : apply_ops ops r0 = Ok r) (Hfresh : answers r0 = []) :
  let given := mjoin (given_in <$> ops) in
  (∀ q, last_answer q (answers r) = last_answer q given)
  ∧ NoDup (question_id <$> answers r)
  ∧ question_id <$> answers r = foldl add_id [] (question_id <$> given).
Proof.
  cbv zeta. revert r Hrun. induction ops as [|[op now] ops IH] using rev_ind; intros r.
  - cbn. intros [= <-]. rewrite Hfresh. split_and!; [done|constructor|done].
  - intros (r1 & H1 & H2)%apply_ops_snoc. specialize (IH r1 H1) as (Hq & Hd & Hids).
    apply apply_op_answers in H2. rewrite fmap_app, join_app, fmap_app, foldl_app, <- Hids.
    cbn [fmap list_fmap mjoin list_join]. rewrite app_nil_r, H2. unfold given_in at 1 3; cbn.
    destruct op; cbn; try (rewrite ?app_nil_r; by split_and!).
    destruct (merge_spec (answers r1) [] ltac:(constructor)) as (M1 & M2 & M3).
    destruct (merge_spec given (foldl merge_answer [] (answers r1)) M1) as (N1 & N2 & N3).
    cbn in M2. rewrite (add_id_distinct [] _ Hd) in M2.
    split_and!; [|done|].
    + intros q. rewrite N3, !last_answer_app, M3. cbn. by rewrite Hq.
    + by rewrite N2, M2.
Qed.

Definition answering_history : list (RunOp * Z) :=
  [(Describing, 3); (Answering [mkAnswer "a" "1"; mkAnswer "b" "2"], 4);
   (Asked "s" JNull, 5); (Answering [mkAnswer "c" "3"; mkAnswer "a" "4"], 6)]%string.

Lemma answers_accumulate_witness :
  (∃ r, apply_ops answering_history sample_run = Ok r
        ∧ question_id <$> answers r = ["a"; "b"; "c"]%string)
  ∧ ∀ r, apply_ops answering_history sample_run = Ok r →
         last_answer "a" (answers r) = Some (mkAnswer "a" "4").
Proof.
  split; [by eexists|]. intros r Hr.
  exact (proj1 (answers_accumulate answering_history sample_run r Hr eq_refl) "a"%string).
Defined.

(** ** Starting *)

(** A run starts exactly on an idea that, stripped, is neither empty nor longer
    than [MAX_IDEA_CHARS] characters; it then holds the stripped idea, the account
    that pays, no plan, no answers, no rounds and nothing charged, and may neither
    generate nor be approved.  Otherwise it raises a [ValueError]. *)
Theorem run_start_checks text owner token created updated :
  match run_start text owner token created updated with
  | Ok r =>
      str_strip text ≠ EmptyString ∧ py_len (str_strip text) <= MAX_IDEA_CHARS
      ∧ run_id r = token ∧ idea r = str_strip text ∧ account r = owner
      ∧ state r = IDEA ∧ rounds r = 0 ∧ answers r = [] ∧ plan r = None ∧ charged r = 0
      ∧ may_generate r = false ∧ may r APPROVE = false
  | Raise e =>
      isinstance e cValueError = true
      ∧ (str_strip text = EmptyString ∨ MAX_IDEA_CHARS < py_len (str_strip text))
  end.
Proof.
  unfold run_start. cbv zeta. destruct (str_truthy (str_strip text)) eqn:Ht; cbn [negb].
  - apply str_truthy_spec in Ht. destruct (MAX_IDEA_CHARS <? py_len (str_strip text)) eqn:Hl.
    + bool_to_Z. split; [vm_compute; reflexivity|by right].
    + bool_to_Z. by split_and!.
  - apply str_truthy_false in Ht. split; [vm_compute; reflexivity|by left].
Qed.
