(* ===== verification/RunStore.v ===== *)
(** * The store of runs *)
(** The port [RunStore] of [domain/ports.py] as a class with its laws, and
    [infrastructure/runs.py], the bounded, expiring dictionary that implements it.
    Both methods hold the store's lock from end to end and wait for nothing while they
    do, so each is one atomic step of the process. *)
From S2P Require Export PyDict Runs.
From stdpp Require Import options.
Local Open Scope Z_scope.

(** ** The port *)

Class RunStore (W : Type) : Type := {
  runs_put : Run → M W exn Run;
  runs_get : string → M W exn Run;
  (** what the store would answer for an id *)
  held : W → string → option Run;
  (** what the store's own writes keep of its state *)
  store_ok : W → Prop
}.

(** A store may forget a run at any access (it expires, it is evicted) but never
    alters one, never invents one and always keeps the one just put. *)
Class RunStoreLaws (W : Type) `{!RunStore W} : Prop := {
  put_law r w o w' :
    store_ok w → runs_put r w = (o, w') →
    store_ok w' ∧ o = Ok r ∧ held w' (run_id r) = Some r
    ∧ ∀ k, k ≠ run_id r → held w' k = held w k ∨ held w' k = None;
  get_law k w o w' :
    store_ok w → runs_get k w = (o, w') →
    store_ok w'
    ∧ match o with
      | Ok r => held w k = Some r ∧ held w' k = Some r ∧ run_id r = k
      | Raise e => e = RunNotFoundError k ∧ held w' k = None
      end
    ∧ ∀ k, held w' k = held w k ∨ held w' k = None
}.

(** ** InMemoryRunStore *)

Abbreviation RunTable := (dict Run).

Record RunStoreConfig : Type := mkRunStoreConfig { ttl_seconds : Z; max_runs : Z }.
Definition MAX_RUNS : Z := 500.
Definition default_run_store : RunStoreConfig :=
  {| ttl_seconds := RUN_TTL_SECONDS; max_runs := MAX_RUNS |}.

(** [_sweep] at a reading of the clock. *)
Definition sweep (conf : RunStoreConfig) (now : Z) (runs : RunTable) : RunTable :=
  let cutoff := now - ttl_seconds conf in
  filter (λ kr, ¬ updated_at kr.2 < cutoff) runs.

(** [while len(self._runs) > self._max: self._runs.pop(next(iter(self._runs)))] *)
Fixpoint evict_oldest (max : Z) (runs : RunTable) : result exn RunTable :=
  if Z.of_nat (length runs) <=? max then Ok runs
  else match runs with
       | [] => Raise (RuntimeError "coroutine raised StopIteration")
       | _ :: runs' => evict_oldest max runs'
       end.

(** [put] at a reading of the clock. *)
Definition put_run (conf : RunStoreConfig) (now : Z) (r : Run) (runs : RunTable)
    : result exn RunTable :=
  let runs := sweep conf now runs in
  let runs := dset (run_id r) r runs in
  (* self._runs[run.id] = self._runs.pop(run.id) *)
  let runs := ddel (run_id r) runs ++ [(run_id r, r)] in
  evict_oldest (max_runs conf) runs.

Section in_memory.
Context {W : Type} `{!Field W RunTable} (conf : RunStoreConfig) (monotonic : M W exn Z).

(** [InMemoryRunStore.put] *)
Definition memory_put (r : Run) : M W exn Run :=
  now ← monotonic;
  runs ← gets getf;
  runs' ← lift (put_run conf now r runs);
  modify (setf runs') ;; mret r.

(** [InMemoryRunStore.get] *)
Definition memory_get (id : string) : M W exn Run :=
  now ← monotonic;
  modify (updf (sweep conf now)) ;;
  runs ← gets getf;
  match assoc_get id runs with
  | Some r => mret r
  | None => raise (RunNotFoundError id)
  end.
End in_memory.

(** ** The table *)

(** Every run under its own id, once. *)
Record table_ok (runs : RunTable) : Prop := mkTableOk {
  table_nodup : NoDup runs.*1;
  table_ids : Forall (λ kr, run_id kr.2 = kr.1) runs
}.

Lemma table_ok_sublist runs runs' :
  sublist runs' runs → table_ok runs → table_ok runs'.
Proof.
  intros Hs [Hd Hi]. split.
  - eapply sublist_NoDup; [exact Hd|by apply fmap_sublist].
  - apply Forall_forall. intros x Hx. eapply (proj1 (Forall_forall _ _) Hi).
    by eapply elem_of_sublist; [|exact Hs].
Qed.
Lemma table_ok_get runs k r : table_ok runs → assoc_get k runs = Some r → run_id r = k.
Proof.
  intros [_ Hi] Hr%assoc_get_Some_elem. by apply (proj1 (Forall_forall _ _) Hi) in Hr.
Qed.

Lemma sweep_ok conf now runs : table_ok runs → table_ok (sweep conf now runs).
Proof. apply table_ok_sublist, sublist_filter. Qed.
Lemma sweep_get conf now runs k :
  table_ok runs →
  assoc_get k (sweep conf now runs)
  = match assoc_get k runs with
    | Some r => if decide (updated_at r < now - ttl_seconds conf) then None else Some r
    | None => None
    end.
Proof.
  intros [Hd _]. unfold sweep; cbv zeta. rewrite assoc_get_filter by done.
  destruct (assoc_get k runs); [|done]. cbn. repeat case_decide; tauto.
Qed.

Lemma evict_oldest_spec max runs :
  0 <= max →
  evict_oldest max runs = Ok (drop (length runs - Z.to_nat max) runs).
Proof.
  intros Hm. induction runs as [|x runs IH]; cbn [evict_oldest].
  - by rewrite (proj2 (Z.leb_le _ _)) by (cbn; lia).
  - destruct (Z.of_nat (length (x :: runs)) <=? max) eqn:Hl; bool_to_Z.
    + by replace (length (x :: runs) - Z.to_nat max)%nat with 0%nat by lia.
    + rewrite IH. cbn [length] in *.
      by replace (S (length runs) - Z.to_nat max)%nat with (S (length runs - Z.to_nat max)) by lia.
Qed.

(** The entries once the new run is at the end and before any eviction. *)
Definition moved_to_end (r : Run) (runs : RunTable) : RunTable :=
  ddel (run_id r) runs ++ [(run_id r, r)].

Lemma ddel_dset k (v : Run) (d : RunTable) : ddel k (dset k v d) = ddel k d.
Proof.
  unfold ddel. induction d as [|[k' v'] d IH]; cbn [dset].
  - rewrite filter_cons. by rewrite decide_False by (cbn; tauto).
  - destruct (String.eqb_spec k k') as [->|Hne]; rewrite !filter_cons; cbn [fst].
    + by rewrite !decide_False by (cbn; tauto).
    + by rewrite IH.
Qed.

Lemma put_run_spec conf now r runs :
  0 <= max_runs conf →
  let all := moved_to_end r (sweep conf now runs) in
  put_run conf now r runs = Ok (drop (length all - Z.to_nat (max_runs conf)) all).
Proof. intros Hm. unfold put_run. cbv zeta. rewrite ddel_dset. by apply evict_oldest_spec. Qed.

Lemma moved_to_end_ok r runs : table_ok runs → table_ok (moved_to_end r runs).
Proof.
  intros [Hd Hi]. unfold moved_to_end. split.
  - rewrite fmap_app. apply NoDup_app. split_and!; [by apply filter_keys_NoDup| |apply NoDup_singleton].
    intros k Hk. cbn. rewrite list_elem_of_singleton. intros ->.
    rewrite ddel_keys in Hk. by apply list_elem_of_filter in Hk as [? _].
  - apply Forall_app. split; [|by apply Forall_singleton].
    apply Forall_forall. intros x [_ Hx]%list_elem_of_filter. by eapply (proj1 (Forall_forall _ _) Hi).
Qed.
Lemma moved_to_end_get r runs k :
  table_ok runs →
  assoc_get k (moved_to_end r runs) = if String.eqb k (run_id r) then Some r else assoc_get k runs.
Proof.
  intros [Hd _]. unfold moved_to_end, ddel. rewrite assoc_get_app, assoc_get_filter by done.
  cbn. destruct (String.eqb_spec k (run_id r)) as [->|Hne].
  - destruct (assoc_get (run_id r) runs); [|done]. by case_decide.
  - destruct (assoc_get k runs); [|done]. by rewrite decide_True.
Qed.

(** Dropping from the front only forgets. *)
Lemma drop_get n (d : RunTable) k :
  NoDup d.*1 → assoc_get k (drop n d) = assoc_get k d ∨ assoc_get k (drop n d) = None.
Proof.
  intros Hd. destruct (assoc_get k (drop n d)) as [r|] eqn:Hr; [left|by right].
  apply assoc_get_Some_elem in Hr. symmetry. apply assoc_get_elem; [done|].
  by eapply elem_of_sublist; [exact Hr|apply sublist_drop].
Qed.
Lemma drop_get_last n (d : RunTable) k r :
  NoDup (d ++ [(k, r)]).*1 → (n <= length d)%nat →
  assoc_get k (drop n (d ++ [(k, r)])) = Some r.
Proof.
  intros Hd Hn. rewrite drop_app_le by done. apply assoc_get_elem; [|set_solver].
  rewrite fmap_app in *. apply NoDup_app in Hd as (Hd & Hx & Hs).
  apply NoDup_app. split_and!; [|intros x Hin; apply Hx|done].
  - rewrite fmap_drop. eapply sublist_NoDup; [exact Hd|apply sublist_drop].
  - rewrite fmap_drop in Hin. by eapply elem_of_sublist; [exact Hin|apply sublist_drop].
Qed.

(** ** Sequences of accesses *)

Inductive StoreOp : Type := SPut (r : Run) | SGet (k : string).

Section sequences.
Context {W : Type} `{!RunStore W}.

(** One access; a request that finds nothing has its error handled elsewhere. *)
Definition store_access (op : StoreOp) (w : W) : W :=
  match op with SPut r => (runs_put r w).2 | SGet k => (runs_get k w).2 end.
Definition store_run (ops : list StoreOp) (w : W) : W := foldl (λ w op, store_access op w) w ops.

Fixpoint last_put (k : string) (ops : list StoreOp) : option Run :=
  match ops with
  | [] => None
  | op :: ops' =>
      match last_put k ops' with
      | Some r => Some r
      | None => match op with
                | SPut r => if String.eqb k (run_id r) then Some r else None
                | SGet _ => None
                end
      end
  end.

Lemma last_put_snoc k ops op :
  last_put k (ops ++ [op])
  = match op with
    | SPut r => if String.eqb k (run_id r) then Some r else last_put k ops
    | SGet _ => last_put k ops
    end.
Proof.
  induction ops as [|o ops IH]; cbn; [by destruct op as [r|]; [destruct (String.eqb _ _)|]|].
  rewrite IH. destruct op as [r|]; [|done]. by destruct (String.eqb k (run_id r)).
Qed.

(** A run is never altered or invented by the store: whatever accesses were made
    since the store was empty, what [get] answers is the last run put under that id. *)
Theorem store_answers_last_put `{!RunStoreLaws W} ops w0 k r w'
    (Hok : store_ok w0) (Hempty : ∀ k, held w0 k = None)
    (Hget : runs_get k (store_run ops w0) = (Ok r, w')) :
  last_put k ops = Some r ∧ run_id r = k.
Proof.
  assert (store_ok (store_run ops w0)
          ∧ ∀ k r, held (store_run ops w0) k = Some r → last_put k ops = Some r) as [Hs Hh].
  { clear Hget. induction ops as [|op ops IH] using rev_ind; cbn.
    { split; [done|]. intros k' r'. by rewrite Hempty. }
    destruct IH as [Hs Hh]. unfold store_run in *. rewrite foldl_app. cbn.
    destruct op as [p|j]; cbn [store_access].
    - destruct (runs_put p _) as [o w1] eqn:Hp.
      destruct (put_law _ _ _ _ Hs Hp) as (? & _ & Hk & Hother). split; [done|].
      intros k' r'. rewrite last_put_snoc. cbn.
      destruct (String.eqb_spec k' (run_id p)) as [->|Hne]; [by rewrite Hk|].
      destruct (Hother k' Hne) as [-> | ->]; [apply Hh|done].
    - destruct (runs_get j _) as [o w1] eqn:Hg.
      destruct (get_law _ _ _ _ Hs Hg) as (? & _ & Hother). split; [done|].
      intros k' r'. rewrite last_put_snoc. cbn.
      destruct (Hother k') as [-> | ->]; [apply Hh|done]. }
  destruct (get_law _ _ _ _ Hs Hget) as (_ & (Hk & _ & Hid) & _). eauto.
Qed.
End sequences.

(** ** The in-memory store keeps the contract *)

Section memory_laws.
Context {W : Type} `{!Field W RunTable} (conf : RunStoreConfig) (monotonic : M W exn Z).

Definition InMemoryRunStore : RunStore W := {|
  runs_put := memory_put conf monotonic;
  runs_get := memory_get conf monotonic;
  held w k := assoc_get k (getf w : RunTable);
  store_ok w := table_ok (getf w) ∧ Z.of_nat (length (getf w : RunTable)) <= max_runs conf
|}.

(** The clock never fails, never goes back and is not the store's to change. *)
Context (time : W → Z).
Hypothesis clock_reads : ∀ w, ∃ w', monotonic w = (Ok (time w'), w') ∧ getf w' = getf w
                                    ∧ time w <= time w'.
Hypothesis store_keeps_time : ∀ (d : RunTable) w, time (setf d w) = time w.
Hypothesis room : 1 <= max_runs conf.
#[local] Set Default Proof Using "Type*".

(** What each method does to the table. *)
Lemma memory_put_run r w :
  ∃ w1, time w <= time w1 ∧ getf w1 = getf w
    ∧ ∃ d, put_run conf (time w1) r (getf w) = Ok d
           ∧ memory_put conf monotonic r w = (Ok r, setf d w1).
Proof.
  destruct (clock_reads w) as (w1 & Hm & Hg & Ht). exists w1. split_and!; try done.
  eexists. split; [apply put_run_spec; lia|].
  unfold memory_put. rewrite (run_bind_ok _ _ _ _ _ Hm).
  autorewrite with gw_run. rewrite Hg, put_run_spec by lia. done.
Qed.
Lemma memory_get_run k w :
  ∃ w1, time w <= time w1 ∧ getf w1 = getf w
    ∧ memory_get conf monotonic k w
      = (match assoc_get k (sweep conf (time w1) (getf w)) with
         | Some r => Ok r
         | None => Raise (RunNotFoundError k)
         end, updf (sweep conf (time w1)) w1).
Proof.
  destruct (clock_reads w) as (w1 & Hm & Hg & Ht). exists w1. split_and!; try done.
  unfold memory_get. rewrite (run_bind_ok _ _ _ _ _ Hm). autorewrite with gw_run.
  rewrite getf_updf, Hg. by destruct (assoc_get k _).
Qed.

Lemma sweep_forgets now (d : RunTable) k :
  table_ok d →
  assoc_get k (sweep conf now d) = assoc_get k d ∨ assoc_get k (sweep conf now d) = None.
Proof.
  intros Hd. rewrite sweep_get by done. destruct (assoc_get k d); [|by left].
  case_decide; [by right|by left].
Qed.

Lemma memory_laws_of : @RunStoreLaws W InMemoryRunStore.
Proof.
  split.
  - intros r w o w' [Hok Hlen] Hput. cbn in *.
    destruct (memory_put_run r w) as (w1 & Ht & Hg & d & Hd & Hrun).
    rewrite Hrun in Hput. injection Hput as <- <-. rewrite getf_setf.
    rewrite put_run_spec in Hd by lia.
    pose proof (sweep_ok conf (time w1) _ Hok) as Hsw.
    pose proof (moved_to_end_ok r _ Hsw) as Hmv.
    pose proof (moved_to_end_get r _ (run_id r) Hsw) as Hself. injection Hd as <-.
    split_and!; [|by rewrite length_drop; lia|done| |].
    + eapply table_ok_sublist; [apply sublist_drop|done].
    + unfold moved_to_end. apply drop_get_last; [apply Hmv|]. rewrite length_app. cbn. lia.
    + intros k Hk. destruct (drop_get (length (moved_to_end r (sweep conf (time w1) (getf w)))
        - Z.to_nat (max_runs conf)) _ k (table_nodup _ Hmv)) as [-> | ->]; [|by right].
      rewrite moved_to_end_get, (proj2 (String.eqb_neq _ _) Hk) by done. by apply sweep_forgets.
  - intros k w o w' [Hok Hlen] Hget. cbn in *.
    destruct (memory_get_run k w) as (w1 & Ht & Hg & Hrun). rewrite Hrun in Hget.
    injection Hget as <- <-. rewrite getf_updf, Hg.
    split_and!; [by apply sweep_ok| | |intros j; by apply sweep_forgets].
    + unfold sweep. pose proof (length_filter (λ kr : string * Run, ¬ updated_at kr.2
        < time w1 - ttl_seconds conf) (getf w)). lia.
    + destruct (assoc_get k (sweep conf (time w1) (getf w))) as [r|] eqn:Hr; [|done].
      destruct (sweep_forgets (time w1) _ k Hok) as [He|He]; [|congruence].
      split_and!; [congruence|done|]. by eapply table_ok_get; [apply Hok|congruence].
Qed.

(** C33. The in-memory store implements the port: from any table it built itself, [put]
    answers the run and holds it, [get] answers what is held or
    [RunNotFoundError], and no access changes or adds a run other than the one put;
    the table stays keyed by the runs' own ids and within [max_runs]. *)
Theorem memory_store_laws : @RunStoreLaws W InMemoryRunStore.
Proof. exact memory_laws_of. Qed.
End memory_laws.

(** ** A process with only a store *)

Definition tick : M (RunTable * Z) exn Z := λ w, (Ok (w.2 + 1), (w.1, w.2 + 1)).
Lemma tick_reads (w : RunTable * Z) :
  ∃ w', tick w = (Ok w'.2, w') ∧ getf w' = (getf w : RunTable) ∧ w.2 <= w'.2.
Proof. exists (w.1, w.2 + 1). cbn. split_and!; [done|done|lia]. Qed.
Lemma tick_kept (d : RunTable) (w : RunTable * Z) : (setf d w).2 = w.2.
Proof. done. Qed.

Lemma memory_store_laws_witness :
  @RunStoreLaws (RunTable * Z) (InMemoryRunStore default_run_store tick).
Proof.
  apply (memory_store_laws default_run_store tick snd tick_reads tick_kept).
  vm_compute. discriminate.
Defined.

(** A process in which a store already holds its first run. *)
Definition tick_store : RunStore (RunTable * Z) := InMemoryRunStore default_run_store tick.

Lemma store_answers_last_put_witness :
  (@runs_get _ tick_store "00" (@store_run _ tick_store [SPut sample_run; SGet "zz"] ([], 0))).1
    = Ok sample_run
  ∧ last_put "00" [SPut sample_run; SGet "zz"] = Some sample_run.
Proof.
  split; [vm_compute; reflexivity|].
  assert (@RunStoreLaws (RunTable * Z) tick_store) as Hlaws
    by (apply (memory_laws_of default_run_store tick snd tick_reads tick_kept);
        vm_compute; discriminate).
  apply (@store_answers_last_put _ tick_store Hlaws [SPut sample_run; SGet "zz"] ([], 0) "00"
    sample_run (([("00", sample_run)], 3))%string).
  - split; [split; constructor|vm_compute; discriminate].
  - done.
  - vm_compute. reflexivity.
Defined.

(** ** How long a run is kept *)

Definition put_ids (ops : list StoreOp) : list string :=
  omap (λ op, match op with SPut r => Some (run_id r) | SGet _ => None end) ops.

Section kept_table.
Context (conf : RunStoreConfig).
Hypothesis room : 1 <= max_runs conf.
#[local] Set Default Proof Using "Type*".

(** The run is in the table and only runs with the given ids are younger. *)
Definition kept (r : Run) (younger : list string) (d : RunTable) : Prop :=
  table_ok d ∧ ∃ l1 l2, d = l1 ++ (run_id r, r) :: l2 ∧ l2.*1 ⊆ younger.

Lemma kept_sweep r younger d now :
  now - ttl_seconds conf <= updated_at r → kept r younger d → kept r younger (sweep conf now d).
Proof.
  intros Ht (Hok & l1 & l2 & -> & Hy). split; [by apply sweep_ok|].
  unfold sweep; cbv zeta. rewrite filter_app, filter_cons.
  rewrite decide_True by (cbn; lia). do 2 eexists. split; [done|].
  intros k (x & -> & [_ Hx]%list_elem_of_filter)%list_elem_of_fmap.
  apply Hy. by apply list_elem_of_fmap_2.
Qed.

Lemma kept_put r younger d now p d' :
  now - ttl_seconds conf <= updated_at r → run_id p ≠ run_id r →
  Z.of_nat (length (remove_dups (younger ++ [run_id p]))) < max_runs conf →
  kept r younger d → put_run conf now p d = Ok d' → kept r (younger ++ [run_id p]) d'.
Proof.
  intros Ht Hp Hmax Hk Hput. rewrite put_run_spec in Hput by lia. injection Hput as <-.
  pose proof (kept_sweep _ _ _ _ Ht Hk) as (Hok & l1 & l2 & Hd & Hy).
  pose proof (moved_to_end_ok p _ Hok) as Hmv. rewrite Hd in *.
  assert (moved_to_end p (l1 ++ (run_id r, r) :: l2)
          = ddel (run_id p) l1 ++ (run_id r, r) :: moved_to_end p l2) as Hm.
  { unfold moved_to_end, ddel. rewrite filter_app, filter_cons.
    rewrite decide_True by (cbn; congruence). by rewrite <- app_assoc. }
  assert ((moved_to_end p l2).*1 ⊆ younger ++ [run_id p]) as Hy'.
  { unfold moved_to_end. rewrite fmap_app, ddel_keys. intros k [Hk2|Hk2]%elem_of_app.
    - apply list_elem_of_filter in Hk2 as [_ Hk2]. set_solver.
    - set_solver. }
  rewrite Hm in *. set (a := ddel (run_id p) l1) in *. set (b := moved_to_end p l2) in *.
  assert (length b <= length (remove_dups (younger ++ [run_id p])))%nat as Hlen.
  { destruct Hmv as [Hnd _]. rewrite fmap_app, fmap_cons in Hnd.
    apply NoDup_app in Hnd as (_ & _ & [_ Hnd]%NoDup_cons).
    rewrite <- (length_fmap fst b). apply submseteq_length, NoDup_submseteq; [done|].
    intros k Hin. apply elem_of_remove_dups. by apply Hy'. }
  split.
  - eapply table_ok_sublist; [apply sublist_drop|done].
  - rewrite drop_app_le by (rewrite length_app; cbn; lia). eauto.
Qed.

Lemma kept_first r d d' now :
  table_ok d → put_run conf now r d = Ok d' → kept r [] d'.
Proof.
  intros Hok Hput. rewrite put_run_spec in Hput by lia. injection Hput as <-.
  pose proof (moved_to_end_ok r _ (sweep_ok conf now _ Hok)) as Hmv. split.
  - eapply table_ok_sublist; [apply sublist_drop|done].
  - unfold moved_to_end in *. rewrite drop_app_le by (rewrite length_app; cbn; lia).
    do 2 eexists. split; [done|]. set_solver.
Qed.
End kept_table.

Lemma remove_dups_mono (l l' : list string) :
  l ⊆ l' → (length (remove_dups l) <= length (remove_dups l'))%nat.
Proof.
  intros H. apply submseteq_length, NoDup_submseteq; [apply NoDup_remove_dups|].
  intros k. rewrite !elem_of_remove_dups. apply H.
Qed.

Section kept.
Context {W : Type} `{!Field W RunTable} (conf : RunStoreConfig) (monotonic : M W exn Z).
Context (time : W → Z).
Hypothesis clock_reads : ∀ w, ∃ w', monotonic w = (Ok (time w'), w') ∧ getf w' = getf w
                                    ∧ time w <= time w'.
Hypothesis store_keeps_time : ∀ (d : RunTable) w, time (setf d w) = time w.
Hypothesis room : 1 <= max_runs conf.
#[local] Set Default Proof Using "Type*".

#[local] Instance kept_store : RunStore W := InMemoryRunStore conf monotonic.

Lemma access_time op w : time w <= time (store_access op w).
Proof.
  destruct op as [p|k]; cbn.
  - destruct (memory_put_run conf monotonic time clock_reads store_keeps_time room p w)
      as (w1 & Ht & _ & d & _ & ->). cbn. by rewrite store_keeps_time.
  - destruct (memory_get_run conf monotonic time clock_reads store_keeps_time room k w)
      as (w1 & Ht & _ & ->). cbn. unfold updf. by rewrite store_keeps_time.
Qed.
Lemma run_time ops w : time w <= time (store_run ops w).
Proof.
  revert w. induction ops as [|op ops IH]; intros w; [done|].
  etransitivity; [apply (access_time op)|apply IH].
Qed.

Lemma kept_access r younger op w :
  time (store_access op w) - ttl_seconds conf <= updated_at r →
  run_id r ∉ put_ids [op] →
  Z.of_nat (length (remove_dups (younger ++ put_ids [op]))) < max_runs conf →
  kept r younger (getf w) → kept r (younger ++ put_ids [op]) (getf (store_access op w)).
Proof.
  destruct op as [p|k]; cbn; intros Ht Hid Hmax Hk.
  - destruct (memory_put_run conf monotonic time clock_reads store_keeps_time room p w)
      as (w1 & _ & Hg & d & Hd & Hrun). rewrite Hrun in *. cbn in *.
    rewrite store_keeps_time in Ht. rewrite getf_setf.
    eapply kept_put; [exact room|exact Ht|set_solver|exact Hmax|exact Hk|exact Hd].
  - destruct (memory_get_run conf monotonic time clock_reads store_keeps_time room k w)
      as (w1 & _ & Hg & Hrun). rewrite Hrun in *. cbn in *. unfold updf in *.
    rewrite store_keeps_time in Ht. rewrite getf_setf, Hg, app_nil_r. by apply kept_sweep.
Qed.

Lemma kept_run r younger ops w :
  time (store_run ops w) - ttl_seconds conf <= updated_at r →
  run_id r ∉ put_ids ops →
  Z.of_nat (length (remove_dups (younger ++ put_ids ops))) < max_runs conf →
  kept r younger (getf w) → kept r (younger ++ put_ids ops) (getf (store_run ops w)).
Proof.
  revert younger w. induction ops as [|op ops IH]; intros younger w Ht Hid Hmax Hk.
  { by rewrite app_nil_r. }
  assert (put_ids (op :: ops) = put_ids [op] ++ put_ids ops) as Hids by by destruct op.
  rewrite Hids in *. rewrite app_assoc in *. apply IH; [done|set_solver|done|].
  apply kept_access; [|set_solver| |done].
  - pose proof (run_time ops (store_access op w)). cbn in Ht. unfold store_run in *. lia.
  - pose proof (remove_dups_mono (younger ++ put_ids [op])
      ((younger ++ put_ids [op]) ++ put_ids ops) ltac:(set_solver)). lia.
Qed.

(** A run in use is not lost: after it was put, as long as fewer than
    [max_runs] other runs were put and its last update is no older than the time to
    live, every access finds it, unchanged, whatever was read or put meanwhile. *)
Theorem recent_run_kept r ops w0 w2 o
    (Hok : store_ok w0) (Hother : run_id r ∉ put_ids ops)
    (Hfew : Z.of_nat (length (remove_dups (put_ids ops))) < max_runs conf)
    (Hget : runs_get (run_id r) (store_run ops (runs_put r w0).2) = (o, w2))
    (Hfresh : time w2 - ttl_seconds conf <= updated_at r) :
  o = Ok r.
Proof.
  destruct (memory_put_run conf monotonic time clock_reads store_keeps_time room r w0)
    as (w1 & _ & Hg & d & Hd & Hrun).
  cbn in Hget, Hok. rewrite Hrun in Hget. cbn [snd] in Hget.
  destruct (memory_get_run conf monotonic time clock_reads store_keeps_time room (run_id r)
    (store_run ops (setf d w1))) as (w3 & Ht3 & Hg3 & Hrun3).
  rewrite Hrun3 in Hget. injection Hget as <- <-. unfold updf in Hfresh.
  rewrite store_keeps_time in Hfresh.
  assert (kept r (put_ids ops) (getf (store_run ops (setf d w1)))) as Hk.
  { apply (kept_run r []); [lia|done|done|]. rewrite getf_setf.
    eapply kept_first; [exact room|apply Hok|exact Hd]. }
  destruct (kept_sweep conf room _ _ _ (time w3) Hfresh Hk) as (Hok3 & l1 & l2 & Hd3 & _).
  rewrite (assoc_get_elem _ r); [done|apply Hok3|]. rewrite Hd3. set_solver.
Qed.
End kept.

Definition other_run : Run :=
  match run_start "another idea" "" "11" 3 4 with Ok r => r | Raise _ => sample_run end.

Lemma recent_run_kept_witness :
  (@runs_get _ tick_store "00" (@store_run _ tick_store [SPut other_run; SGet "zz"]
     (@runs_put _ tick_store sample_run ([], 0)).2)).1 = Ok sample_run.
Proof.
  eapply (recent_run_kept default_run_store tick snd tick_reads tick_kept _ sample_run
    [SPut other_run; SGet "zz"%string] ([], 0)); [| | |apply surjective_pairing|];
    [split; [split; constructor|]| | |]; vm_compute; try discriminate.
  - intros [H|H]%elem_of_cons; [discriminate H|by apply not_elem_of_nil in H].
  - reflexivity.
Unshelve. vm_compute. discriminate.
Defined.
