(* ===== verification/RunLog.v ===== *)
(** * The log of a run *)
(** [infrastructure/run_log.py]: what a generation has said so far, kept for readers
    that come back.  The lists of chunks and the [asyncio.Event]s are objects shared
    between the log and its readers, so both live in a heap under the identity they
    were created with; a reader is the state of its [follow] generator between two
    suspensions.  [start] on a run that has a log leaves the readers of the old one asleep
    ([slept_through_restart]). *)
From S2P Require Export PyDict.
From stdpp Require Import options.
Local Open Scope Z_scope.

Module Log.

Definition MAX_BYTES : Z := 256 * 1024.
Definition MAX_RUNS : Z := 200.

Record Config : Type := mkConfig { max_bytes : Z; max_runs : Z }.
Definition default_config : Config := {| max_bytes := MAX_BYTES; max_runs := MAX_RUNS |}.

Record State : Type := mkState {
  lists : gmap nat (list string);   (* the list objects *)
  events : gmap nat bool;           (* the events, and whether each is set *)
  next_id : nat;                    (* the identity of the next object *)
  chunks : dict nat;                (* self._chunks *)
  sizes : gmap string Z;            (* self._sizes *)
  ended : gmap string bool;         (* self._ended *)
  woken : gmap string nat           (* self._woken *)
}.

Definition InMemoryRunLog : State :=
  {| lists := ∅; events := ∅; next_id := 0; chunks := []; sizes := ∅; ended := ∅; woken := ∅ |}.

(** [self._chunks[run_id]], the list itself. *)
Definition chunks_of (l : State) (id : string) : option (list string) :=
  obj ← assoc_get id (chunks l); lists l !! obj.

(** [waiter.set()] of an event, if there is one. *)
Definition set_event (waiter : option nat) (l : State) : State :=
  match waiter with
  | Some e => {| lists := lists l; events := <[e:=true]> (events l); next_id := next_id l;
                 chunks := chunks l; sizes := sizes l; ended := ended l; woken := woken l |}
  | None => l
  end.

(** [self._woken[run_id] = asyncio.Event()] *)
Definition new_event (id : string) (l : State) : State :=
  {| lists := lists l; events := <[next_id l:=false]> (events l); next_id := S (next_id l);
     chunks := chunks l; sizes := sizes l; ended := ended l;
     woken := <[id:=next_id l]> (woken l) |}.

(** [_wake] *)
Definition wake (id : string) (l : State) : State := new_event id (set_event (woken l !! id) l).

(** [_forget] *)
Definition forget (id : string) (l : State) : State :=
  set_event (woken l !! id)
    {| lists := lists l; events := events l; next_id := next_id l; chunks := ddel id (chunks l);
       sizes := delete id (sizes l); ended := delete id (ended l); woken := delete id (woken l) |}.

(** [_evict]: one turn of the loop per log there is, the oldest first.  The ceiling
    is at least one (the process uses the default), so the loop stops before it has
    no log left to forget. *)
Fixpoint evict_loop (max : Z) (ids : list string) (l : State) : State :=
  match ids with
  | [] => l
  | oldest :: ids' =>
      if Z.of_nat (length (chunks l)) <? max then l else evict_loop max ids' (forget oldest l)
  end.
Definition evict (conf : Config) (l : State) : State := evict_loop (max_runs conf) (chunks l).*1 l.

(** [start] *)
Definition start (conf : Config) (id : string) (l : State) : State :=
  let l := evict conf l in
  new_event id
    {| lists := <[next_id l:=[]]> (lists l); events := events l; next_id := S (next_id l);
       chunks := dset id (next_id l) (chunks l); sizes := <[id:=0]> (sizes l);
       ended := <[id:=false]> (ended l); woken := woken l |}.

(** The loop of [append] that drops the oldest chunks. *)
Fixpoint trim (max size : Z) (cs : list string) : Z * list string :=
  match cs with
  | c :: (_ :: _) as cs' => if max <? size then trim max (size - byte_len c) cs' else (size, cs)
  | _ => (size, cs)
  end.

(** [append] *)
Definition append (conf : Config) (id chunk : string) (l : State) : State :=
  let l := if dmem id (chunks l) then l else start conf id l in
  let obj := default 0%nat (assoc_get id (chunks l)) in
  let cs := default [] (lists l !! obj) ++ [chunk] in
  let size := default 0 (sizes l !! id) + byte_len chunk in
  let '(size, cs) := trim (max_bytes conf) size cs in
  wake id {| lists := <[obj:=cs]> (lists l); events := events l; next_id := next_id l;
             chunks := chunks l; sizes := <[id:=size]> (sizes l); ended := ended l;
             woken := woken l |}.

(** [end] *)
Definition finish (id : string) (l : State) : State :=
  match ended l !! id with
  | Some _ =>
      wake id {| lists := lists l; events := events l; next_id := next_id l; chunks := chunks l;
                 sizes := sizes l; ended := <[id:=true]> (ended l); woken := woken l |}
  | None => l
  end.

(** [has], [ended] and [__len__] *)
Definition has (id : string) (l : State) : bool := dmem id (chunks l).
Definition has_ended (id : string) (l : State) : bool := default true (ended l !! id).
Definition log_len (l : State) : Z := Z.of_nat (length (chunks l)).

(** ** A reader *)

(** Where a [follow] generator is suspended: not started yet; at the [yield] of the
    loop over the slice, with the list it read and what is left of the slice; waiting
    for an event; finished. *)
Inductive Reader : Type :=
  | RFresh
  | RYielding (obj : nat) (rest : list string)
  | RWaiting (cursor : nat) (event : nat)
  | RDone.

(** From the top of the [while] loop to the next suspension; the chunk yielded, if
    that is where it suspends. *)
Definition follow_from (id : string) (cursor : nat) (l : State) : option string * Reader :=
  match assoc_get id (chunks l) with
  | None => (None, RDone)
  | Some obj =>
      match drop cursor (default [] (lists l !! obj)) with
      | c :: rest => (Some c, RYielding obj rest)
      | [] =>
          if default true (ended l !! id) then (None, RDone)
          else match woken l !! id with
               | None => (None, RDone)
               | Some e => (None, RWaiting cursor e)
               end
      end
  end.

(** Resume the generator.  A waiting one resumes once its event is set. *)
Definition follow (id : string) (l : State) (rd : Reader) : option string * Reader :=
  match rd with
  | RFresh => follow_from id 0 l
  | RYielding obj (c :: rest) => (Some c, RYielding obj rest)
  | RYielding obj [] => follow_from id (length (default [] (lists l !! obj))) l
  | RWaiting cursor e =>
      if default false (events l !! e) then follow_from id cursor l else (None, rd)
  | RDone => (None, RDone)
  end.

(** ** The invariant *)

Definition total (cs : list string) : Z := foldr (λ c t, byte_len c + t) 0 cs.

(** The entry of a run in the four dictionaries. *)
Record entry_ok (conf : Config) (l : State) (id : string) (obj : nat) (cs : list string) : Prop :=
  mkEntryOk {
    entry_list : lists l !! obj = Some cs;
    entry_fresh : (obj < next_id l)%nat;
    entry_size : sizes l !! id = Some (total cs);
    entry_bound : total cs <= max_bytes conf ∨ (length cs <= 1)%nat;
    entry_ended : is_Some (ended l !! id);
    entry_woken : ∃ e, woken l !! id = Some e ∧ (e < next_id l)%nat
  }.

Record wf (conf : Config) (l : State) : Prop := mkWf {
  wf_keys : NoDup (chunks l).*1;
  wf_entry id obj : assoc_get id (chunks l) = Some obj → ∃ cs, entry_ok conf l id obj cs;
  wf_none id : assoc_get id (chunks l) = None →
    sizes l !! id = None ∧ ended l !! id = None ∧ woken l !! id = None;
  wf_objs i j obj :
    assoc_get i (chunks l) = Some obj → assoc_get j (chunks l) = Some obj → i = j
}.

Lemma wf_set_event conf w l : wf conf l → wf conf (set_event w l).
Proof.
  destruct w as [e|]; [|done]. intros [Hk He Hn Ho]. split; cbn; try done.
  intros id obj Hid. destruct (He id obj Hid) as (cs & []). exists cs. by split.
Qed.

Lemma wf_new_event conf id l :
  wf conf l → is_Some (assoc_get id (chunks l)) → wf conf (new_event id l).
Proof.
  intros [Hk He Hn Ho] [obj0 Hid0]. split; cbn; try done.
  - intros j obj Hj. destruct (He j obj Hj) as (cs & []). exists cs. split; cbn; try done; [lia|].
    destruct (decide (id = j)) as [->|Hne]; [rewrite lookup_insert_eq; eauto with lia|].
    rewrite lookup_insert_ne by done. destruct entry_woken0 as (e & -> & ?). eauto with lia.
  - intros j Hj. rewrite lookup_insert_ne by congruence. by apply Hn.
Qed.

Lemma wf_forget conf id l : wf conf l → wf conf (forget id l).
Proof.
  intros [Hk He Hn Ho]. apply wf_set_event. split; cbn.
  - by apply filter_keys_NoDup.
  - intros j obj. rewrite assoc_get_ddel. destruct (String.eqb_spec j id) as [->|Hne]; [done|].
    intros Hj. destruct (He j obj Hj) as (cs & []). exists cs.
    split; cbn; rewrite ?lookup_delete_ne by done; done.
  - intros j. rewrite assoc_get_ddel. destruct (String.eqb_spec j id) as [->|Hne].
    + by rewrite !lookup_delete_eq.
    + rewrite !lookup_delete_ne by done. apply Hn.
  - intros i j obj. rewrite !assoc_get_ddel.
    destruct (String.eqb_spec i id); [done|]. destruct (String.eqb_spec j id); [done|]. apply Ho.
Qed.

Lemma chunks_forget id l : chunks (forget id l) = ddel id (chunks l).
Proof. unfold forget. by destruct (woken l !! id). Qed.

Lemma evict_loop_spec conf ids l :
  1 <= max_runs conf → wf conf l → ids = (chunks l).*1 →
  wf conf (evict_loop (max_runs conf) ids l)
  ∧ Z.of_nat (length (chunks (evict_loop (max_runs conf) ids l))) < max_runs conf.
Proof.
  intros Hm. revert l. induction ids as [|oldest ids IH]; intros l Hl Hids; cbn.
  - split; [done|]. destruct (chunks l); [cbn; lia|done].
  - destruct (Z.of_nat (length (chunks l)) <? max_runs conf) eqn:Hlen; bool_to_Z; [done|].
    apply IH; [by apply wf_forget|]. rewrite chunks_forget.
    destruct Hl as [Hk _ _ _]. destruct (chunks l) as [|[k v] d]; [done|].
    cbn in Hids. injection Hids as -> ->. by rewrite ddel_head.
Qed.

Lemma wf_start conf id l :
  1 <= max_runs conf → wf conf l →
  wf conf (start conf id l) ∧ Z.of_nat (length (chunks (start conf id l))) <= max_runs conf.
Proof.
  intros Hm Hl. unfold start. destruct (evict_loop_spec conf _ l Hm Hl eq_refl) as [Hw Hlen].
  fold (evict conf l) in *. set (l1 := evict conf l) in *. split.
  - destruct Hw as [Hk He Hn Ho].
    assert (∀ j obj, assoc_get j (chunks l1) = Some obj → obj ≠ next_id l1) as Hfresh.
    { intros j obj Hj. destruct (He j obj Hj) as (cs & []). lia. }
    assert (wf conf (new_event id (mkState (<[next_id l1:=[]]> (lists l1)) (events l1)
      (S (next_id l1)) (dset id (next_id l1) (chunks l1)) (<[id:=0]> (sizes l1))
      (<[id:=false]> (ended l1)) (woken l1)))) as H; [|exact H].
    split; cbn.
    + by apply dset_NoDup.
    + intros j obj. rewrite assoc_get_dset. destruct (String.eqb_spec j id) as [->|Hne].
      * intros [= <-]. exists []. split; cbn; rewrite ?lookup_insert_eq; eauto with lia.
      * intros Hj. destruct (He j obj Hj) as (cs & []). exists cs.
        split; cbn; rewrite ?lookup_insert_ne by (done || by apply not_eq_sym, (Hfresh j));
          try done; try lia. destruct entry_woken0 as (e & ? & ?). eauto with lia.
    + intros j. rewrite assoc_get_dset. destruct (String.eqb_spec j id) as [->|Hne]; [done|].
      intros Hj. rewrite !lookup_insert_ne by done. by apply Hn.
    + intros i j obj. rewrite !assoc_get_dset.
      destruct (String.eqb_spec i id) as [->|]; destruct (String.eqb_spec j id) as [->|]; try done.
      * intros [= <-] Hj. by destruct (Hfresh _ _ Hj).
      * intros Hi [= <-]. by destruct (Hfresh _ _ Hi).
      * apply Ho.
  - cbn. rewrite dset_length. destruct (dmem id (chunks l1)); lia.
Qed.

(** [trim] drops the fewest oldest chunks that bring the size within the bound, and
    never the newest one. *)
Lemma trim_spec max cs size cs' size' :
  size = total cs → trim max size cs = (size', cs') →
  size' = total cs' ∧ (total cs' <= max ∨ (length cs' <= 1)%nat)
  ∧ (∃ dropped, cs = dropped ++ cs' ∧ (∀ c, last dropped = Some c → max < byte_len c + total cs'))
  ∧ (cs ≠ [] → cs' ≠ []).
Proof.
  revert size. induction cs as [|c [|d cs] IH]; intros size Hs; cbn [trim].
  - intros [= <- <-]. split_and!; [done|right; cbn; lia|by exists []|done].
  - intros [= <- <-]. split_and!; [done|right; cbn; lia|by exists []|done].
  - destruct (max <? size) eqn:Hm; bool_to_Z.
    + intros Ht. destruct (IH (size - byte_len c)) as (H1 & H2 & (dr & H3 & H4) & H5);
        [cbn in *; lia|done|]. split_and!; try done; [|intros _; by apply H5].
      exists (c :: dr). split; [by rewrite H3|]. intros x. destruct dr as [|y dr]; [|apply H4].
      intros [= <-]. rewrite app_nil_l in H3. rewrite <- H3. cbn in Hs |- *. lia.
    + intros [= <- <-]. split_and!; [done|left; lia|by exists []|done].
Qed.

Lemma start_chunks conf id l :
  assoc_get id (chunks (start conf id l)) = Some (next_id (evict conf l)).
Proof. unfold start. cbn. by rewrite assoc_get_dset, String.eqb_refl. Qed.
Lemma start_has conf id l : dmem id (chunks (start conf id l)) = true.
Proof. rewrite dmem_get, start_chunks. by apply bool_decide_true. Qed.

(** The body of [append] once the log exists. *)
Definition append_to (conf : Config) (id chunk : string) (obj : nat) (cs : list string) (l : State)
    : State :=
  let '(size, cs) := trim (max_bytes conf) (total cs + byte_len chunk) (cs ++ [chunk]) in
  wake id {| lists := <[obj:=cs]> (lists l); events := events l; next_id := next_id l;
             chunks := chunks l; sizes := <[id:=size]> (sizes l); ended := ended l;
             woken := woken l |}.

Lemma append_unfold conf id chunk l :
  1 <= max_runs conf → wf conf l →
  let l1 := if dmem id (chunks l) then l else start conf id l in
  wf conf l1 ∧ ∃ obj cs, assoc_get id (chunks l1) = Some obj ∧ entry_ok conf l1 id obj cs
    ∧ append conf id chunk l = append_to conf id chunk obj cs l1.
Proof.
  intros Hm Hl. cbv zeta. set (l1 := if dmem id (chunks l) then l else start conf id l).
  assert (wf conf l1 ∧ dmem id (chunks l1) = true) as [Hw Hmem].
  { subst l1. destruct (dmem id (chunks l)) eqn:Hd; [done|].
    split; [by apply wf_start|apply start_has]. }
  split; [done|]. rewrite dmem_get in Hmem. apply bool_decide_eq_true in Hmem as [obj Hobj].
  destruct (wf_entry _ _ Hw id obj Hobj) as [cs Hcs]. exists obj, cs. split_and!; [done..|].
  unfold append; cbv zeta. fold l1. rewrite Hobj. change (default 0%nat (Some obj)) with obj.
  destruct Hcs as [-> ? -> ? ? ?]. done.
Qed.

Lemma total_app cs cs' : total (cs ++ cs') = total cs + total cs'.
Proof. unfold total. induction cs as [|c cs IH]; cbn; [done|]. rewrite IH. lia. Qed.

Lemma append_to_wf conf id chunk obj cs l :
  wf conf l → assoc_get id (chunks l) = Some obj → entry_ok conf l id obj cs →
  wf conf (append_to conf id chunk obj cs l).
Proof.
  intros [Hk He Hn Ho] Hobj [Hl Hf Hs Hb Hend Hw]. unfold append_to.
  destruct (trim _ _ _) as [size cs'] eqn:Ht.
  apply trim_spec in Ht as (-> & Hb' & _ & _); [|rewrite total_app; cbn; lia].
  apply wf_new_event; [apply wf_set_event|].
  - split; cbn; [done| | |done].
    + intros j obj' Hj. destruct (He j obj' Hj) as (csj & [Hlj ? Hsj ? ? ?]).
      destruct (decide (j = id)) as [->|Hne].
      * rewrite Hobj in Hj. injection Hj as <-. exists cs'.
        split; cbn; rewrite ?lookup_insert_eq; done.
      * exists csj. split; cbn; rewrite ?lookup_insert_ne; try done.
        intros ->. by apply Hne, (Ho j id obj').
    + intros j Hj. rewrite lookup_insert_ne by congruence. by apply Hn.
  - exists obj. unfold set_event. by destruct (woken _ !! id).
Qed.

Lemma wf_append conf id chunk l :
  1 <= max_runs conf → wf conf l → wf conf (append conf id chunk l).
Proof.
  intros Hm Hl. destruct (append_unfold conf id chunk l Hm Hl) as (Hw & obj & cs & Ho & He & ->).
  by apply append_to_wf.
Qed.

Lemma wf_finish conf id l : wf conf l → wf conf (finish id l).
Proof.
  intros Hl. unfold finish. destruct (ended l !! id) as [b|] eqn:Hb; [|done].
  assert (is_Some (assoc_get id (chunks l))) as [obj Hobj].
  { destruct (assoc_get id (chunks l)) eqn:Hc; [done|].
    destruct (wf_none _ _ Hl id Hc) as (_ & Hn & _). congruence. }
  destruct Hl as [Hk He Hn Ho].
  apply wf_new_event; [apply wf_set_event|].
  - split; cbn; [done| | |done].
    + intros j obj' Hj. destruct (He j obj' Hj) as (cs & []). exists cs. split; cbn; try done.
      destruct (decide (id = j)) as [->|Hne]; [by rewrite lookup_insert_eq|by rewrite lookup_insert_ne].
    + intros j Hj. rewrite lookup_insert_ne by congruence. by apply Hn.
  - exists obj. unfold set_event. by destruct (woken _ !! id).
Qed.

(** ** Calls *)

Inductive Call : Type := CStart (id : string) | CAppend (id chunk : string) | CEnd (id : string).

Definition call (conf : Config) (c : Call) (l : State) : State :=
  match c with
  | CStart id => start conf id l
  | CAppend id chunk => append conf id chunk l
  | CEnd id => finish id l
  end.
Definition calls (conf : Config) (cs : list Call) (l : State) : State :=
  foldl (λ l c, call conf c l) l cs.

Lemma wf_init conf : wf conf InMemoryRunLog.
Proof. split; cbn; try done. constructor. Qed.

Lemma wf_call conf c l : 1 <= max_runs conf → wf conf l → wf conf (call conf c l).
Proof.
  intros Hm Hl. destruct c; [by apply wf_start|by apply wf_append|by apply wf_finish].
Qed.

Lemma chunks_set_event w l : chunks (set_event w l) = chunks l.
Proof. by destruct w. Qed.

Lemma call_len conf c l :
  1 <= max_runs conf → wf conf l → log_len l <= max_runs conf → log_len (call conf c l) <= max_runs conf.
Proof.
  unfold log_len. intros Hm Hl Hlen. destruct c as [id|id chunk|id]; cbn.
  - by apply wf_start.
  - destruct (append_unfold conf id chunk l Hm Hl) as (Hw & obj & cs & Ho & He & ->).
    unfold append_to. destruct (trim _ _ _) as [size cs']. unfold wake, new_event. cbn.
    rewrite chunks_set_event. cbn.
    destruct (dmem id (chunks l)); [done|]. by apply wf_start.
  - unfold finish. destruct (ended l !! id); [|done]. unfold wake, new_event. cbn.
    by rewrite chunks_set_event.
Qed.

(** The log is bounded whatever is written to it: after any calls there are at
    most [max_runs] logs, every one of them has its list, its size, its end mark and
    its event, the size is exactly the bytes kept, and they are within [max_bytes]
    unless a single chunk is left.  A chunk just appended is always there, last, and
    what was dropped to fit it is the fewest oldest chunks. *)
Theorem log_bounded conf cs id chunk (Hmax : 1 <= max_runs conf) :
  let l := calls conf cs InMemoryRunLog in
  (log_len l <= max_runs conf
   ∧ ∀ i, has i l = true →
       ∃ kept, chunks_of l i = Some kept ∧ sizes l !! i = Some (total kept)
         ∧ (total kept <= max_bytes conf ∨ (length kept <= 1)%nat)
         ∧ is_Some (ended l !! i) ∧ is_Some (woken l !! i))
  ∧ ∃ dropped kept,
      chunks_of (append conf id chunk l) id = Some (kept ++ [chunk])
      ∧ default [] (chunks_of (if has id l then l else start conf id l) id) = dropped ++ kept
      ∧ (∀ c, last dropped = Some c → max_bytes conf < byte_len c + total (kept ++ [chunk])).
Proof.
  cbv zeta. set (l := calls conf cs InMemoryRunLog).
  assert (wf conf l ∧ log_len l <= max_runs conf) as [Hl Hlen].
  { subst l. induction cs as [|c cs [IH1 IH2]] using rev_ind; [split; [apply wf_init|unfold log_len; cbn; lia]|].
    unfold calls in *. rewrite foldl_app. cbn. split; [by apply wf_call|by apply call_len]. }
  split; [split; [done|]|].
  - intros i Hi. unfold has in Hi. rewrite dmem_get in Hi.
    apply bool_decide_eq_true in Hi as [obj Hobj].
    destruct (wf_entry _ _ Hl i obj Hobj) as (kept & [H1 H2 H3 H4 H5 (e & H6 & _)]).
    exists kept. unfold chunks_of. rewrite Hobj, H6. by split_and!.
  - destruct (append_unfold conf id chunk l Hmax Hl) as (Hw & obj & kept & Ho & He & ->).
    unfold has. set (l1 := if dmem id (chunks l) then l else start conf id l) in *.
    unfold append_to. destruct (trim _ _ _) as [size cs'] eqn:Ht.
    apply trim_spec in Ht as (-> & _ & (dr & Hdr & Hmin) & Hne); [|rewrite total_app; cbn; lia].
    destruct cs' as [|x cs' _] using rev_ind.
    { destruct Hne; [by destruct kept|done]. }
    rewrite app_assoc in Hdr. apply app_inj_tail in Hdr as [-> <-].
    exists dr, cs'. split_and!; [| |done].
    + unfold chunks_of, wake, new_event. cbn. rewrite chunks_set_event. cbn. rewrite Ho. cbn.
      destruct (woken l1 !! id); cbn; by rewrite lookup_insert_eq.
    + unfold chunks_of. rewrite Ho. cbn. by rewrite (entry_list _ _ _ _ _ He).
Qed.

Definition tiny : Config := {| max_bytes := 4; max_runs := 2 |}.
Definition tiny_calls : list Call :=
  [CStart "a"; CAppend "a" "xx"; CAppend "b" "yyy"; CAppend "b" "zz"; CStart "c"]%string.

Lemma log_bounded_witness :
  chunks_of (append tiny "b" "w" (calls tiny tiny_calls InMemoryRunLog)) "b" = Some ["zz"; "w"]%string
  ∧ log_len (calls tiny tiny_calls InMemoryRunLog) <= 2.
Proof.
  split; [vm_compute; reflexivity|].
  exact (proj1 (proj1 (log_bounded tiny tiny_calls "b" "w" ltac:(vm_compute; discriminate)))).
Defined.

(** ** Readers are woken *)

(** What calls may do to the run [id] between two looks of a reader: nothing, or
    something the event it waits for was set for. *)
Definition frame (id : string) (l l' : State) : Prop :=
  (next_id l <= next_id l')%nat
  ∧ (∀ e, (e < next_id l)%nat → events l !! e = Some true → events l' !! e = Some true)
  ∧ ((assoc_get id (chunks l') = assoc_get id (chunks l) ∧ chunks_of l' id = chunks_of l id
      ∧ ended l' !! id = ended l !! id ∧ woken l' !! id = woken l !! id)
     ∨ ∀ e, woken l !! id = Some e → events l' !! e = Some true).

Lemma frame_refl id l : frame id l l.
Proof. split_and!; [lia|done|by left]. Qed.

Lemma frame_trans conf id l l1 l2 :
  wf conf l → frame id l l1 → frame id l1 l2 → frame id l l2.
Proof.
  intros Hl (N1 & E1 & C1) (N2 & E2 & C2). split_and!; [lia| |].
  - intros e He Ht. apply E2; [lia|]. by apply E1.
  - destruct C1 as [(A1 & B1 & D1 & F1)|C1].
    + destruct C2 as [(A2 & B2 & D2 & F2)|C2]; [left; split_and!; congruence|right].
      intros e He. apply C2. congruence.
    + right. intros e He. apply E2; [|by apply C1].
      assert (is_Some (assoc_get id (chunks l))) as [obj Ho].
      { destruct (assoc_get id (chunks l)) eqn:Hc; [done|].
        destruct (wf_none _ _ Hl id Hc) as (_ & _ & ?). congruence. }
      destruct (wf_entry _ _ Hl id obj Ho) as (cs & [_ _ _ _ _ (e' & He' & Hlt)]).
      assert (e' = e) by congruence. subst e'. lia.
Qed.

Lemma frame_set_event id w l : frame id l (set_event w l).
Proof.
  destruct w as [e|]; [|apply frame_refl]. split_and!; [done| |by left].
  cbn. intros e' _ He. by destruct (decide (e = e')) as [->|]; [rewrite lookup_insert_eq|rewrite lookup_insert_ne].
Qed.

Lemma frame_new_event id j l : j ≠ id → frame id l (new_event j l).
Proof.
  intros Hj. split_and!; cbn; [lia| |left; split_and!; try done; by rewrite lookup_insert_ne].
  intros e He Ht. by rewrite lookup_insert_ne by lia.
Qed.

Lemma frame_wake_other id j l : j ≠ id → frame id l (wake j l).
Proof.
  intros Hj. unfold wake. split_and!.
  - cbn. destruct (woken l !! j); cbn; lia.
  - intros e Hlt Ht. cbn. destruct (woken l !! j) as [e0|]; cbn;
      rewrite lookup_insert_ne by lia; [|done].
    by destruct (decide (e0 = e)) as [->|]; [rewrite lookup_insert_eq|rewrite lookup_insert_ne].
  - left. unfold chunks_of, new_event. destruct (woken l !! j); cbn; by rewrite lookup_insert_ne.
Qed.

(** Waking the run sets its event. *)
Lemma frame_wake_self conf id l l0 :
  wf conf l → next_id l0 = next_id l → events l0 = events l → woken l0 = woken l →
  frame id l (wake id l0).
Proof.
  intros Hl Hn He Hw. unfold wake. split_and!.
  - cbn. destruct (woken l0 !! id); cbn; lia.
  - intros e Hlt Ht. cbn. destruct (woken l0 !! id) as [e0|] eqn:H0; cbn;
      rewrite lookup_insert_ne by (rewrite Hn; lia); rewrite He; [|done].
    by destruct (decide (e0 = e)) as [->|]; [rewrite lookup_insert_eq|rewrite lookup_insert_ne].
  - right. intros e H0. rewrite Hw, H0. cbn.
    assert (e < next_id l)%nat.
    { assert (is_Some (assoc_get id (chunks l))) as [obj Ho].
      { destruct (assoc_get id (chunks l)) eqn:Hc; [done|].
        destruct (wf_none _ _ Hl id Hc) as (_ & _ & ?). congruence. }
      destruct (wf_entry _ _ Hl id obj Ho) as (cs & [_ _ _ _ _ (e' & He' & Hlt)]).
      assert (e' = e) by congruence. by subst e'. }
    rewrite lookup_insert_ne by lia. by rewrite lookup_insert_eq.
Qed.

Lemma frame_forget id j l : frame id l (forget j l).
Proof.
  unfold forget. destruct (decide (j = id)) as [->|Hne].
  - split_and!.
    + by destruct (woken l !! id).
    + intros e Hlt Ht. destruct (woken l !! id) as [e0|]; cbn; [|done].
      by destruct (decide (e0 = e)) as [->|]; [rewrite lookup_insert_eq|rewrite lookup_insert_ne].
    + right. intros e ->. cbn. by rewrite lookup_insert_eq.
  - assert (frame id l {| lists := lists l; events := events l; next_id := next_id l;
      chunks := ddel j (chunks l); sizes := delete j (sizes l); ended := delete j (ended l);
      woken := delete j (woken l) |}) as (H1 & H2 & H3).
    { split_and!; [done|done|left]. unfold chunks_of; cbn.
      rewrite assoc_get_ddel, (proj2 (String.eqb_neq _ _)) by done.
      by rewrite !lookup_delete_ne. }
    destruct (woken l !! j) as [e0|]; [|by split_and!].
    split_and!; [done| |]; cbn.
    + intros e Hlt Ht. by destruct (decide (e0 = e)) as [->|]; [rewrite lookup_insert_eq|rewrite lookup_insert_ne].
    + destruct H3 as [H3|H3]; [by left|right]. intros e He.
      by destruct (decide (e0 = e)) as [->|]; [rewrite lookup_insert_eq|rewrite lookup_insert_ne; [apply H3|]].
Qed.

Lemma frame_evict conf id ids l :
  wf conf l → frame id l (evict_loop (max_runs conf) ids l).
Proof.
  revert l. induction ids as [|j ids IH]; intros l Hl; cbn; [apply frame_refl|].
  destruct (_ <? _); [apply frame_refl|].
  eapply frame_trans; [done|apply frame_forget|]. by apply IH, wf_forget.
Qed.

(** A list object that is new, or another run's, is not this run's. *)
Lemma frame_write conf id l obj cs sz en :
  wf conf l → (∀ o, assoc_get id (chunks l) = Some o → o ≠ obj) →
  en !! id = ended l !! id →
  frame id l {| lists := <[obj:=cs]> (lists l); events := events l; next_id := next_id l;
                chunks := chunks l; sizes := sz; ended := en; woken := woken l |}.
Proof.
  intros Hl Ho Hen. split_and!; cbn; [lia|done|left; split_and!; try done].
  unfold chunks_of; cbn. destruct (assoc_get id (chunks l)) as [o|] eqn:Hc; [|done]. cbn.
  rewrite lookup_insert_ne; [done|]. intros He. by apply (Ho o).
Qed.

Lemma frame_start conf id j l :
  1 <= max_runs conf → wf conf l → j ≠ id → frame id l (start conf j l).
Proof.
  intros Hm Hl Hne. destruct (evict_loop_spec conf _ l Hm Hl eq_refl) as [Hw _].
  eapply frame_trans; [done|apply (frame_evict conf id (chunks l).*1 l Hl)|].
  unfold start. fold (evict conf l) in *. set (l1 := evict conf l) in *.
  split_and!; cbn; [lia| |left; split_and!].
  - intros e He Ht. by rewrite lookup_insert_ne by lia.
  - by rewrite assoc_get_dset, (proj2 (String.eqb_neq _ _)).
  - unfold chunks_of; cbn. rewrite assoc_get_dset, (proj2 (String.eqb_neq _ _)) by done.
    destruct (assoc_get id (chunks l1)) as [o|] eqn:Hc; [|done]. cbn.
    rewrite lookup_insert_ne; [done|]. destruct (wf_entry _ _ Hw id o Hc) as (cs & []). lia.
  - by rewrite lookup_insert_ne.
  - by rewrite lookup_insert_ne.
Qed.

Lemma frame_append_to conf id j chunk obj cs l :
  wf conf l → assoc_get j (chunks l) = Some obj → entry_ok conf l j obj cs →
  frame id l (append_to conf j chunk obj cs l).
Proof.
  intros Hl Ho He. unfold append_to. destruct (trim _ _ _) as [size cs'].
  destruct (decide (j = id)) as [->|Hne]; [by eapply frame_wake_self|].
  eapply frame_trans; [exact Hl| |].
  - apply (frame_write conf id l obj cs' (<[j:=size]> (sizes l)) (ended l) Hl); [|done].
    intros o Hoid ->. by apply Hne, (wf_objs _ _ Hl j id obj).
  - by apply frame_wake_other.
Qed.

Lemma frame_finish conf id j l : wf conf l → frame id l (finish j l).
Proof.
  intros Hl. unfold finish. destruct (ended l !! j) as [b|]; [|apply frame_refl].
  destruct (decide (j = id)) as [->|Hne]; [by eapply frame_wake_self|].
  eapply frame_trans; [exact Hl| |by apply frame_wake_other].
  split_and!; cbn; [lia|done|left; split_and!; try done]. by rewrite lookup_insert_ne.
Qed.

(** A run that has no log has nobody waiting for it. *)
Lemma frame_unstarted id l l' :
  woken l !! id = None → (next_id l <= next_id l')%nat →
  (∀ e, (e < next_id l)%nat → events l !! e = Some true → events l' !! e = Some true) →
  frame id l l'.
Proof. intros Hw Hn He. split_and!; [done|done|right]. congruence. Qed.

Lemma start_monotone conf id l :
  1 <= max_runs conf → wf conf l →
  (next_id l <= next_id (start conf id l))%nat
  ∧ ∀ e, (e < next_id l)%nat → events l !! e = Some true → events (start conf id l) !! e = Some true.
Proof.
  intros Hm Hl. destruct (frame_evict conf id (chunks l).*1 l Hl) as (H1 & H2 & _).
  unfold start. fold (evict conf l) in *. cbn. split; [lia|].
  intros e He Ht. rewrite lookup_insert_ne by lia. by apply H2.
Qed.

Lemma frame_call conf id c l :
  1 <= max_runs conf → wf conf l → (c = CStart id → has id l = false) →
  frame id l (call conf c l).
Proof.
  intros Hm Hl Hc.
  assert (∀ i, has i l = false → woken l !! i = None) as Hno.
  { intros i Hi. unfold has in Hi. rewrite dmem_get in Hi. apply bool_decide_eq_false in Hi.
    apply (wf_none _ _ Hl i). by apply eq_None_not_Some. }
  destruct c as [j|j chunk|j]; cbn.
  - destruct (decide (j = id)) as [->|Hne]; [|by apply frame_start].
    destruct (start_monotone conf id l Hm Hl). apply frame_unstarted; auto.
  - destruct (append_unfold conf j chunk l Hm Hl) as (Hw & obj & cs & Ho & He & ->).
    destruct (dmem j (chunks l)) eqn:Hj; [by apply frame_append_to|].
    eapply frame_trans; [exact Hl| |by apply frame_append_to].
    destruct (decide (j = id)) as [->|Hne]; [|by apply frame_start].
    destruct (start_monotone conf id l Hm Hl). apply frame_unstarted; auto.
  - by apply frame_finish with conf.
Qed.

(** *** Interleavings of the calls with one reader *)

Inductive Event : Type := ECall (c : Call) | EResume.

(** The log, the reader and what the reader has yielded so far. *)
Definition play1 (conf : Config) (id : string) (st : State * Reader * list string) (ev : Event)
    : State * Reader * list string :=
  let '(l, rd, out) := st in
  match ev with
  | ECall c => (call conf c l, rd, out)
  | EResume => let '(y, rd') := follow id l rd in (l, rd', out ++ option_list y)
  end.
Definition play (conf : Config) (id : string) (evs : list Event) : State * Reader * list string :=
  foldl (play1 conf id) (InMemoryRunLog, RFresh, []) evs.

(** [start] replaces the event of a run that already has a log without setting it.
    Whether the reader is asleep on an event that was replaced so: the log was started
    again after it went to sleep, and nothing has woken it since. *)
Fixpoint slept_through_restart (conf : Config) (id : string) (evs : list Event)
    (st : State * Reader * list string) (s : bool) : bool :=
  match evs with
  | [] => s
  | ev :: evs' =>
      let '(l, rd, _) := st in
      let s' :=
        match ev, rd with
        | ECall (CStart j), RWaiting _ _ => s || (String.eqb j id && has id l)
        | EResume, RWaiting _ e => s && negb (default false (events l !! e))
        | _, _ => s
        end in
      slept_through_restart conf id evs' (play1 conf id st ev) s'
  end.

(** A sleeping reader has been woken, or has nothing to read. *)
Definition nothing_missed (id : string) (l : State) (rd : Reader) : Prop :=
  match rd with
  | RWaiting cursor e =>
      events l !! e = Some true
      ∨ (has_ended id l = false ∧ ∃ cs, chunks_of l id = Some cs ∧ (length cs <= cursor)%nat)
  | _ => True
  end.

Definition awake (id : string) (l : State) (rd : Reader) : Prop :=
  match rd with
  | RWaiting cursor e =>
      (e < next_id l)%nat
      ∧ (events l !! e = Some true
         ∨ (woken l !! id = Some e ∧ ended l !! id = Some false
            ∧ ∃ cs, chunks_of l id = Some cs ∧ (length cs <= cursor)%nat))
  | _ => True
  end.

Lemma awake_frame id l l' rd : frame id l l' → awake id l rd → awake id l' rd.
Proof.
  intros (Hn & He & Hc). destruct rd as [| |cursor e|]; try done.
  intros [Hlt [Ht|(Hw & Hend & cs & Hcs & Hlen)]]; (split; [lia|]); [left; by apply He|].
  destruct Hc as [(H1 & H2 & H3 & H4)|Hc]; [right|left; by apply Hc].
  rewrite H4, H3, H2. eauto.
Qed.

Lemma awake_from conf id cursor l : wf conf l → awake id l (follow_from id cursor l).2.
Proof.
  intros Hl. unfold follow_from. destruct (assoc_get id (chunks l)) as [obj|] eqn:Ho; [|done].
  destruct (wf_entry _ _ Hl id obj Ho) as (cs & [H1 _ _ _ [b H2] (e & H3 & H4)]).
  rewrite H1, H2, H3. cbn. destruct (drop cursor cs) eqn:Hd; [|done]. destruct b; [done|].
  split; [done|right; split_and!; try done]. exists cs. unfold chunks_of. rewrite Ho.
  split; [done|]. apply (f_equal length) in Hd. rewrite length_drop in Hd. cbn in Hd. lia.
Qed.

Lemma awake_follow conf id l rd : wf conf l → awake id l rd → awake id l (follow id l rd).2.
Proof.
  intros Hl Ha. destruct rd as [|obj [|c rest]|cursor e|]; cbn; try done;
    try (by apply (awake_from conf)).
  destruct (default false (events l !! e)); [by apply (awake_from conf)|exact Ha].
Qed.

Lemma awake_step conf id c l rd :
  1 <= max_runs conf → wf conf l → awake id l rd →
  awake id (call conf c l) rd
  ∨ (∃ cursor e, rd = RWaiting cursor e) ∧ c = CStart id ∧ has id l = true.
Proof.
  intros Hm Hl Ha. destruct c as [j|j chunk|j];
    try (left; eapply awake_frame; [|exact Ha]; by apply frame_call).
  destruct (decide (j = id)) as [->|Hne];
    [|left; eapply awake_frame; [|exact Ha]; apply frame_call; congruence].
  destruct (has id l) eqn:Hh; [|left; eapply awake_frame; [|exact Ha]; by apply frame_call].
  destruct rd as [| |cursor e|]; [by left|by left| |by left]. right. by eauto.
Qed.

Lemma awake_play conf id evs l rd out s :
  1 <= max_runs conf → wf conf l → s = true ∨ awake id l rd →
  let '(l', rd', _) := foldl (play1 conf id) (l, rd, out) evs in
  slept_through_restart conf id evs (l, rd, out) s = true ∨ awake id l' rd'.
Proof.
  intros Hm. revert l rd out s. induction evs as [|[c|] evs IH]; intros l rd out s Hl Ha;
    cbn [foldl slept_through_restart]; [done| |].
  - apply IH; [by apply wf_call|]. destruct Ha as [->|Ha]; [left; by destruct c, rd|].
    destruct (awake_step conf id c l rd Hm Hl Ha) as [Hn|((cursor & e & ->) & -> & Hh)];
      [by right|left]. by rewrite String.eqb_refl, Hh, orb_true_r.
  - cbn [play1]. destruct (follow id l rd) as [y rd'] eqn:Hf. apply IH; [done|].
    pose proof (awake_follow conf id l rd Hl) as Hw. rewrite Hf in Hw.
    destruct Ha as [->|Ha]; [|right; by apply Hw].
    destruct rd as [| |cursor e|]; [by left|by left| |by left].
    cbn in Hf |- *. destruct (default false (events l !! e)); [right|by left].
    pose proof (awake_from conf id cursor l Hl) as Hc. by rewrite Hf in Hc.
Qed.


(** A log started twice before anyone reads it, and again while the reader is
    between two slices: none of it loses a wakeup. *)
Definition watched : list Event :=
  [ECall (CStart "r"); ECall (CAppend "r" "one"); ECall (CStart "r"); ECall (CAppend "r" "one");
   EResume; ECall (CStart "r"); EResume; ECall (CAppend "r" "two")]%string.


(** A reader asleep on the log that [start] replaces stays asleep: the chunk appended
    next, and the end of the run, set the new event only, with the chunk unread. *)
Example restart_strands_reader :
  let evs := [ECall (CStart "r"); EResume; ECall (CStart "r"); ECall (CAppend "r" "one");
              ECall (CEnd "r"); EResume]%string in
  let '(l, rd, out) := play default_config "r" evs in
  (∃ e, rd = RWaiting 0 e ∧ events l !! e = Some false)
  ∧ out = [] ∧ chunks_of l "r" = Some ["one"]%string ∧ has_ended "r" l = true.
Proof. vm_compute. split_and!; try done. eexists. by split. Qed.

(** ** What a reader sees *)

(** The run a call is about. *)
Definition about (c : Call) : string :=
  match c with CStart j | CAppend j _ | CEnd j => j end.

(** What may happen between a writer of the run [id] and its reader: the calls of
    any runs, as long as the log of this one is neither started again nor evicted, and
    nothing is appended to it while the reader is between two yields of a slice or once
    the run has ended. *)
Definition spares (conf : Config) (id : string) (c : Call) (l : State) : bool :=
  negb (match c with CStart j => String.eqb j id | _ => false end) && has id (call conf c l).
Definition drains (rd : Reader) : bool := match rd with RYielding _ _ => true | _ => false end.

Fixpoint drained_between (conf : Config) (id : string) (evs : list Event)
    (st : State * Reader * list string) : bool :=
  match evs with
  | [] => true
  | ev :: evs' =>
      match ev with
      | ECall c =>
          spares conf id c st.1.1
          && match c with
             | CAppend j _ =>
                 negb (String.eqb j id) || negb (drains st.1.2) && negb (has_ended id st.1.1)
             | _ => true
             end
      | EResume => true
      end
      && drained_between conf id evs' (play1 conf id st ev)
  end.

(** What was appended to the log of the run. *)
Definition appended1 (id : string) (ev : Event) : option string :=
  match ev with
  | ECall (CAppend j c) => if String.eqb j id then Some c else None
  | _ => None
  end.
Definition appended (id : string) (evs : list Event) : list string := omap (appended1 id) evs.

Lemma total_nonneg cs : 0 <= total cs.
Proof.
  unfold total. induction cs as [|c cs IH]; cbn; [lia|]. pose proof (byte_len_nonneg c). lia.
Qed.

Lemma trim_fits max size cs : size <= max → trim max size cs = (size, cs).
Proof.
  intros H. destruct cs as [|c [|d cs]]; try done. cbn [trim].
  by rewrite (proj2 (Z.ltb_ge _ _)).
Qed.

Lemma append_own conf id chunk l obj cs :
  1 <= max_runs conf → wf conf l → assoc_get id (chunks l) = Some obj →
  lists l !! obj = Some cs → total cs + byte_len chunk <= max_bytes conf →
  let l' := append conf id chunk l in
  assoc_get id (chunks l') = Some obj ∧ lists l' !! obj = Some (cs ++ [chunk])
  ∧ ended l' !! id = ended l !! id.
Proof.
  intros Hm Hl Ho Hcs Hfit. cbv zeta.
  destruct (append_unfold conf id chunk l Hm Hl) as (_ & obj' & cs' & Ho' & He & ->).
  rewrite dmem_get, Ho in *. rewrite bool_decide_true in * by done.
  rewrite Ho in Ho'. injection Ho' as <-. destruct He as [Hcs' _ _ _ _ _].
  rewrite Hcs in Hcs'. injection Hcs' as <-. unfold append_to. rewrite trim_fits by done.
  unfold wake, new_event. destruct (woken _ !! id); cbn; by rewrite lookup_insert_eq.
Qed.

Lemma finish_own conf id l obj cs :
  wf conf l → assoc_get id (chunks l) = Some obj → lists l !! obj = Some cs →
  let l' := finish id l in
  assoc_get id (chunks l') = Some obj ∧ lists l' !! obj = Some cs ∧ ended l' !! id = Some true.
Proof.
  intros Hl Ho Hcs. cbv zeta. destruct (wf_entry _ _ Hl id obj Ho) as (cs' & [_ _ _ _ [b Hb] _]).
  unfold finish. rewrite Hb. unfold wake, new_event.
  destruct (woken _ !! id); cbn; by rewrite lookup_insert_eq.
Qed.

(** A call of another run that leaves this one's log in place leaves it as it is. *)
Definition same_log (id : string) (l l' : State) : Prop :=
  assoc_get id (chunks l') = assoc_get id (chunks l) ∧ chunks_of l' id = chunks_of l id
  ∧ ended l' !! id = ended l !! id.

Lemma forget_other id j l : has id (forget j l) = true → same_log id l (forget j l).
Proof.
  unfold has, same_log, chunks_of. rewrite chunks_forget, dmem_get, assoc_get_ddel. intros Hh.
  destruct (String.eqb_spec id j) as [->|Hne]; [done|].
  unfold forget, set_event. by destruct (woken l !! j); cbn; rewrite lookup_delete_ne.
Qed.

Lemma evict_loop_has id max ids l :
  has id (evict_loop max ids l) = true → has id l = true ∧ same_log id l (evict_loop max ids l).
Proof.
  revert l. induction ids as [|j ids IH]; intros l; cbn; [done|].
  destruct (_ <? _); [done|]. intros Hh. destruct (IH _ Hh) as [H1 (A1 & A2 & A3)].
  destruct (forget_other id j l H1) as (B1 & B2 & B3). split.
  - unfold has in *. rewrite dmem_get in *. by rewrite <- B1.
  - split_and!; congruence.
Qed.

Lemma start_other conf id j l :
  1 <= max_runs conf → wf conf l → j ≠ id → has id (start conf j l) = true →
  same_log id l (start conf j l).
Proof.
  intros Hm Hl Hne. destruct (evict_loop_spec conf _ l Hm Hl eq_refl) as [Hw _].
  unfold start. fold (evict conf l) in *. unfold has. rewrite dmem_get. cbn.
  rewrite assoc_get_dset, (proj2 (String.eqb_neq _ _)) by done. intros Hh.
  destruct (evict_loop_has id (max_runs conf) (chunks l).*1 l) as [_ (A1 & A2 & A3)];
    [unfold has; by rewrite dmem_get|]. fold (evict conf l) in *.
  unfold same_log. rewrite <- A2. unfold chunks_of; cbn.
  rewrite assoc_get_dset, (proj2 (String.eqb_neq _ _)), lookup_insert_ne by done.
  split_and!; [done| |done].
  destruct (assoc_get id (chunks (evict conf l))) as [o|] eqn:Hc; [|done]. cbn.
  rewrite lookup_insert_ne; [done|]. destruct (wf_entry _ _ Hw id o Hc) as (cs & []). lia.
Qed.

Lemma append_to_other conf id j chunk obj cs l :
  wf conf l → assoc_get j (chunks l) = Some obj → j ≠ id →
  same_log id l (append_to conf j chunk obj cs l).
Proof.
  intros Hl Ho Hne. unfold append_to. destruct (trim _ _ _) as [size cs'].
  unfold same_log, chunks_of, wake, new_event.
  destruct (woken _ !! j); cbn; (split_and!; [done| |done]);
    (destruct (assoc_get id (chunks l)) as [o|] eqn:Hc; [|done]); cbn;
    (rewrite lookup_insert_ne; [done|]); intros ->;
    by apply Hne, (wf_objs _ _ Hl j id o).
Qed.

Lemma call_other conf id c l :
  1 <= max_runs conf → wf conf l →
  about c ≠ id →
  has id (call conf c l) = true → same_log id l (call conf c l).
Proof.
  intros Hm Hl Hne Hh. destruct c as [j|j chunk|j]; cbn in *.
  - by apply start_other.
  - destruct (append_unfold conf j chunk l Hm Hl) as (Hw & obj & cs & Ho & He & Happ).
    rewrite Happ in *. destruct (dmem j (chunks l)) eqn:Hj; [by apply append_to_other|].
    destruct (append_to_other conf id j chunk obj cs _ Hw Ho Hne) as (A1 & A2 & A3).
    destruct (start_other conf id j l Hm Hl Hne) as (B1 & B2 & B3).
    + unfold has in *. rewrite dmem_get in *. by rewrite A1 in Hh.
    + split_and!; congruence.
  - unfold finish. destruct (ended l !! j) as [b|]; [|done].
    unfold same_log, chunks_of, wake, new_event.
    destruct (woken _ !! j); cbn; by rewrite lookup_insert_ne.
Qed.

(** What the reader has yielded, where it stands, and what was appended. *)
Definition caught_up (id : string) (st : State * Reader * list string) (app : list string) : Prop :=
  let '(l, rd, out) := st in
  ∃ obj, assoc_get id (chunks l) = Some obj ∧ lists l !! obj = Some app ∧ awake id l rd
    ∧ match rd with
      | RFresh => out = []
      | RYielding o rest => o = obj ∧ out ++ rest = app
      | RWaiting cursor _ => out = take cursor app ∧ (cursor <= length app)%nat
      | RDone => has_ended id l = true ∧ out = app
      end.

Lemma caught_up_from conf id cursor l out app obj :
  wf conf l → assoc_get id (chunks l) = Some obj → lists l !! obj = Some app →
  out = take cursor app → (cursor <= length app)%nat →
  caught_up id (let '(y, rd) := follow_from id cursor l in (l, rd, out ++ option_list y)) app.
Proof.
  intros Hl Ho Hcs Hout Hlen. pose proof (awake_from conf id cursor l Hl) as Ha.
  destruct (follow_from id cursor l) as [y rd] eqn:Hf. exists obj. split_and!; try done.
  revert Hf. unfold follow_from. rewrite Ho, Hcs. cbn.
  destruct (wf_entry _ _ Hl id obj Ho) as (cs & [_ _ _ _ [b Hb] (e & He & _)]).
  destruct (drop cursor app) as [|c rest] eqn:Hd.
  - assert (take cursor app = app) as Hall.
    { rewrite <- (take_drop cursor app) at 2. by rewrite Hd, app_nil_r. }
    unfold has_ended. rewrite Hb, He. cbn. destruct b; intros [= <- <-]; rewrite app_nil_r, Hout; done.
  - intros [= <- <-]. split; [done|]. cbn. rewrite Hout, <- app_assoc. cbn. rewrite <- Hd.
    apply take_drop.
Qed.

Lemma caught_up_call conf id c l rd out app :
  1 <= max_runs conf → wf conf l → spares conf id c l = true →
  (∀ chunk, c = CAppend id chunk → drains rd = false ∧ has_ended id l = false) →
  total (app ++ appended id [ECall c]) <= max_bytes conf →
  caught_up id (l, rd, out) app →
  caught_up id (call conf c l, rd, out) (app ++ appended id [ECall c]).
Proof.
  intros Hm Hl Hsp Hap Hfit (obj & Ho & Hcs & Ha & Hrd).
  apply andb_true_iff in Hsp as [Hns Hh]. apply negb_true_iff in Hns.
  assert (awake id (call conf c l) rd) as Ha'.
  { eapply awake_frame; [|exact Ha]. apply frame_call; [done|done|]. intros ->. cbn in Hns.
    by rewrite String.eqb_refl in Hns. }
  destruct (decide (about c = id)) as [He|Hne].
  - destruct c as [j|j chunk|j]; cbn in He; subst j; cbn in Hns; [by rewrite String.eqb_refl in Hns| |].
    + destruct (Hap _ eq_refl) as [Hdr Hend].
      unfold appended in *; cbn in *. rewrite String.eqb_refl in *.
      rewrite total_app in Hfit. cbn in Hfit.
      destruct (append_own conf id chunk l obj app Hm Hl Ho Hcs ltac:(lia)) as (H1 & H2 & H3).
      exists obj. split_and!; try done. destruct rd as [|o rest|cursor e|]; cbn in Hdr; try done.
      * destruct Hrd as [-> Hle]. rewrite take_app_le by done. split; [done|].
        rewrite length_app. lia.
      * destruct Hrd as [Hrd _]. congruence.
    + rewrite app_nil_r. destruct (finish_own conf id l obj app Hl Ho Hcs) as (H1 & H2 & H3).
      exists obj. split_and!; try done. destruct rd; try exact Hrd. split; [|apply Hrd].
      unfold has_ended. change (call conf (CEnd id) l) with (finish id l). by rewrite H3.
  - assert (appended id [ECall c] = []) as ->.
    { destruct c as [j|j chunk|j]; unfold appended; cbn; try done.
      by rewrite (proj2 (String.eqb_neq _ _)). }
    rewrite app_nil_r.
    destruct (call_other conf id c l Hm Hl) as (A1 & A2 & A3); [done..|].
    rewrite Ho in A1. unfold chunks_of in A2. rewrite A1, Ho in A2. cbn in A2.
    exists obj. split_and!; try done; [congruence|].
    destruct rd; try exact Hrd. unfold has_ended in *. by rewrite A3.
Qed.

Lemma caught_up_resume conf id l rd out app :
  wf conf l → caught_up id (l, rd, out) app →
  caught_up id (play1 conf id (l, rd, out) EResume) app.
Proof.
  intros Hl (obj & Ho & Hcs & Ha & Hrd).
  cbn [play1]. destruct rd as [|o [|c rest]|cursor e|]; cbn [follow].
  - apply (caught_up_from conf id 0%nat l out app obj); [done..|lia].
  - destruct Hrd as [-> Hout]. rewrite app_nil_r in Hout. rewrite Hcs. cbn.
    apply (caught_up_from conf id (length app) l out app obj); [done..| |done]. by rewrite take_ge.
  - destruct Hrd as [-> Hout]. exists obj. split_and!; try done. cbn. by rewrite <- app_assoc.
  - destruct (default false (events l !! e)).
    + by apply (caught_up_from conf id cursor l out app obj); try done; destruct Hrd.
    + cbn [option_list]. rewrite app_nil_r. exists obj. by split_and!; try apply Hrd.
  - cbn [option_list]. rewrite app_nil_r. exists obj. by split_and!; try apply Hrd.
Qed.

Lemma caught_up_run conf id evs st app :
  1 <= max_runs conf → wf conf st.1.1 → drained_between conf id evs st = true →
  total (app ++ appended id evs) <= max_bytes conf →
  caught_up id st app → caught_up id (foldl (play1 conf id) st evs) (app ++ appended id evs).
Proof.
  intros Hm. revert st app. induction evs as [|ev evs IH]; intros st app Hl Hd Hfit Hc.
  { cbn. by rewrite app_nil_r. }
  assert (appended id (ev :: evs) = appended id [ev] ++ appended id evs) as Happ.
  { unfold appended. cbn. by destruct (appended1 id ev). }
  rewrite Happ in *. cbn [drained_between] in Hd. apply andb_true_iff in Hd as [Hev Hrest].
  cbn [foldl]. rewrite app_assoc in *. destruct st as [[l rd] out].
  apply IH; [|done|done|].
  - destruct ev as [c|]; cbn in *; [by apply wf_call|by destruct (follow _ _ _)].
  - destruct ev as [c|]; cbn [fst snd] in *.
    + apply andb_true_iff in Hev as [Hsp Hap]. apply caught_up_call; try done.
      * intros chunk ->. rewrite String.eqb_refl in Hap. cbn in Hap.
        apply andb_true_iff in Hap as [Hx Hy]. split; by apply negb_true_iff.
      * rewrite total_app in Hfit. pose proof (total_nonneg (appended id evs)). lia.
    + change (appended id [EResume]) with (@nil string). rewrite app_nil_r.
      by apply caught_up_resume.
Qed.


Definition followed : list Event :=
  [ECall (CAppend "r" "one"); ECall (CStart "s"); ECall (CAppend "r" "two"); EResume;
   ECall (CAppend "s" "other"); EResume; EResume; ECall (CAppend "r" "three");
   ECall (CEnd "s"); EResume; EResume; ECall (CEnd "r"); EResume]%string.


(** Outside those conditions a reader does miss chunks.  A chunk appended while
    the reader hands out a slice is skipped: the cursor moves to the end of the list
    as it has become, not to the end of the slice.  And a cursor is not shifted when
    the oldest chunks are dropped, so the chunks that moved below it are skipped too.
    In both runs the reader finishes without having seen a chunk the log still held. *)
Theorem follow_skips :
  (let evs := [ECall (CStart "r"); ECall (CAppend "r" "one"); EResume;
               ECall (CAppend "r" "two"); EResume; ECall (CEnd "r"); EResume]%string in
   let '(l, rd, out) := play default_config "r" evs in
   rd = RDone ∧ chunks_of l "r" = Some ["one"; "two"]%string ∧ out = ["one"]%string)
  ∧ (let evs := [ECall (CStart "r"); ECall (CAppend "r" "aaa"); EResume; EResume;
                 ECall (CAppend "r" "bb"); ECall (CEnd "r"); EResume]%string in
     let '(l, rd, out) := play tiny "r" evs in
     rd = RDone ∧ chunks_of l "r" = Some ["bb"]%string ∧ out = ["aaa"]%string).
Proof. split; vm_compute; by split_and!. Qed.

(** Eviction takes the log that was started first, however recently it was
    written to, even when the log being started already exists. *)
Theorem eviction_ignores_appends :
  (let l := calls tiny [CStart "a"; CStart "b"; CAppend "b" "x"; CAppend "a" "y"; CStart "c"]%string
                  InMemoryRunLog in
   has "a" l = false ∧ has "b" l = true)
  ∧ (let l := calls tiny [CStart "a"; CStart "b"; CStart "b"]%string InMemoryRunLog in
     has "a" l = false ∧ log_len l = 1).
Proof. split; vm_compute; by split_and!. Qed.

End Log.
