(* ===== verification/Billing.v ===== *)
(** * Billing: the domain *)
(** [domain/billing.py]: money in micros, the catalog and its pricing, usage, the
    ledger and its replay, subscriptions, invoices and the payments that settle
    them.  Times are microseconds. *)
From S2P Require Export PyTime.
From Stdlib Require Import Ascii.
From stdpp Require Import options.
Local Open Scope Z_scope.

Definition MICROS : Z := 1000000.
Definition PER_MILLION : Z := 1000000.
Definition MEMO_BYTES : Z := 28.

(** ** Money *)

Record Money : Type := mkMoney { micros : Z }.
Global Instance Money_eq_dec : EqDecision Money.
Proof. solve_decision. Defined.

Definition not_money (value : json) : exn :=
  BillingError (py_repr value ++s " is not an amount of money").

(** [Money.parse]: the arithmetic is outside the [try], so what it raises is not a
    [BillingError]. *)
Definition money_parse (value : json) : result exn Money :=
  match dec_parse (py_str value) with
  | None => Raise (not_money value)
  | Some amount =>
      if negb (is_finite amount) then Raise (not_money value)
      else
        product ← dec_mul amount (dec_of_int MICROS);
        n ← dec_quantize_int product;
        mret (mkMoney n)
  end.

Definition money_usd (dollars : Z) : Money := mkMoney (dollars * MICROS).
Definition money_decimal (m : Money) : result exn decimal :=
  dec_div (dec_of_int (micros m)) (dec_of_int MICROS).
Definition is_zero (m : Money) : bool := micros m =? 0.

(** [Money.__str__] *)
Definition money_str (m : Money) : result exn string :=
  d ← money_decimal m;
  let s := rstrip_char dot (rstrip_char zero_char (dec_format 6 d)) in
  mret (if str_truthy s then s else "0"%string).

Definition money_add (a b : Money) : Money := mkMoney (micros a + micros b).
Definition money_sub (a b : Money) : Money := mkMoney (micros a - micros b).
Definition money_neg (a : Money) : Money := mkMoney (- micros a).

(** [Money.scaled] *)
Definition scaled (m : Money) (numerator denominator : Z) : result exn Money :=
  if denominator =? 0 then Raise (BillingError "a price cannot be scaled by zero")
  else Ok (mkMoney ((micros m * numerator + denominator / 2) / denominator)).

(** The text of an amount, for the documents: [str] of the amounts in use never
    fails ([money_str_total]). *)
Definition money_text (m : Money) : string :=
  match money_str m with Ok s => s | Raise _ => EmptyString end.
Definition money_as_json (m : Money) : json :=
  JObj [("micros", JInt (micros m)); ("usd", JStr (money_text m))]%string.

(** ** What is sold *)

Inductive Cadence : Type := WEEKLY | MONTHLY | ONE_OFF.
Definition cadence_value (c : Cadence) : string :=
  match c with WEEKLY => "weekly" | MONTHLY => "monthly" | ONE_OFF => "one_off" end.

Definition WEEK : Z := days 7.
Definition MONTH : Z := days 30.

(** [PERIODS.get(cadence.value, MONTH)] *)
Definition period_of (c : Cadence) : Z :=
  match c with WEEKLY => WEEK | MONTHLY => MONTH | ONE_OFF => MONTH end.

Record Plan : Type := mkPlan {
  plan_id : string;
  plan_name : string;
  plan_price : Money;
  plan_tokens : Z;
  cadence : Cadence;
  plan_description : string;
  overage : bool
}.
Definition plan_period (p : Plan) : Z := period_of (cadence p).
Definition is_free (p : Plan) : bool := is_zero (plan_price p).

Definition plan_as_json (p : Plan) : json :=
  JObj [("id", JStr (plan_id p)); ("kind", JStr "plan"); ("name", JStr (plan_name p));
        ("price", money_as_json (plan_price p)); ("tokens", JInt (plan_tokens p));
        ("cadence", JStr (cadence_value (cadence p)));
        ("period_days", JInt (plan_period p / DAY)); ("free", JBool (is_free p));
        ("description", JStr (plan_description p)); ("overage", JBool (overage p))]%string.

Record Pack : Type := mkPack {
  pack_id : string;
  pack_name : string;
  pack_price : Money;
  pack_tokens : Z;
  pack_description : string
}.
Definition pack_as_json (p : Pack) : json :=
  JObj [("id", JStr (pack_id p)); ("kind", JStr "pack"); ("name", JStr (pack_name p));
        ("price", money_as_json (pack_price p)); ("tokens", JInt (pack_tokens p));
        ("description", JStr (pack_description p))]%string.

Inductive Product : Type := PPlan (p : Plan) | PPack (p : Pack).
Definition product_id (p : Product) : string :=
  match p with PPlan p => plan_id p | PPack p => pack_id p end.
Definition product_tokens (p : Product) : Z :=
  match p with PPlan p => plan_tokens p | PPack p => pack_tokens p end.
Definition product_price (p : Product) : Money :=
  match p with PPlan p => plan_price p | PPack p => pack_price p end.

(** *** Pricing *)

Record Pricing : Type := mkPricing {
  per_million : Money;
  margin_bps : Z;
  minimum_charge : Z
}.

(** What one run consumed. *)
Record Usage : Type := mkUsage {
  tokens : Z;
  calls : Z;
  cost : Money;
  simulated : bool
}.
Definition is_empty (u : Usage) : bool := (calls u =? 0) && (tokens u =? 0).

Definition cost_of (p : Pricing) (n : Z) : result exn Money :=
  scaled (per_million p) (Z.max 0 n) PER_MILLION.

Definition tokens_for (p : Pricing) (amount : Money) : Z :=
  if micros (per_million p) <=? 0 then 0
  else Z.max 0 (micros amount * PER_MILLION / micros (per_million p)).

Definition billable (p : Pricing) (u : Usage) : result exn Z :=
  if simulated u || is_empty u then Ok 0
  else if is_zero (cost u) then Ok (Z.max (minimum_charge p) (tokens u))
  else
    marked_up ← scaled (cost u) (10000 + margin_bps p) 10000;
    mret (Z.max (minimum_charge p) (tokens_for p marked_up)).

Definition pricing_as_json (p : Pricing) : json :=
  JObj [("per_million", money_as_json (per_million p)); ("margin_bps", JInt (margin_bps p));
        ("minimum_charge", JInt (minimum_charge p))]%string.

(** [Pricing()] *)
Definition default_pricing : result exn Pricing :=
  price ← money_parse (JStr "6.00");
  mret (mkPricing price 3000 1000).

(** *** The catalog *)

Record Catalog : Type := mkCatalog {
  plans : list Plan;
  packs : list Pack;
  pricing : Pricing
}.

Definition everything (c : Catalog) : list Product := (PPlan <$> plans c) ++ (PPack <$> packs c).

Fixpoint find_product (sku : string) (l : list Product) : option Product :=
  match l with
  | [] => None
  | p :: l' => if String.eqb (product_id p) sku then Some p else find_product sku l'
  end.

(** [Catalog.product] *)
Definition catalog_product (c : Catalog) (sku : string) : result exn Product :=
  match find_product sku (everything c) with
  | Some p => Ok p
  | None => Raise (UnknownProductError sku)
  end.

(** [Catalog.plan] *)
Definition catalog_plan (c : Catalog) (id : string) : result exn Plan :=
  p ← catalog_product c id;
  match p with
  | PPlan p => Ok p
  | PPack _ => Raise (UnknownProductError id)
  end.

Definition catalog_as_json (c : Catalog) : json :=
  JObj [("plans", JList (map plan_as_json (plans c)));
        ("packs", JList (map pack_as_json (packs c)));
        ("pricing", pricing_as_json (pricing c))]%string.

Definition FREE_PLAN_ID : string := "free".
Definition FREE_WEEKLY_VALUE : result exn Money := money_parse (JStr "5.00").

(** [default_catalog] *)
Definition default_catalog (p : Pricing) : result exn Catalog :=
  free ← FREE_WEEKLY_VALUE;
  free_text ← money_str free;
  starter ← money_parse (JStr "19.00");
  builder ← money_parse (JStr "49.00");
  studio ← money_parse (JStr "149.00");
  pack1 ← money_parse (JStr "8.00");
  pack5 ← money_parse (JStr "35.00");
  pack20 ← money_parse (JStr "120.00");
  mret (mkCatalog
    [mkPlan FREE_PLAN_ID "Free" (mkMoney 0) (tokens_for p free) WEEKLY
       ("US$ " ++s free_text ++s " en tokens por semana, sin pagar nada. "
        ++s "Se renueva solo y no se acumula.") true;
     mkPlan "starter" "Starter" starter 4000000 MONTHLY
       "Para probar la idea: un proyecto mediano por semana." true;
     mkPlan "builder" "Builder" builder 12000000 MONTHLY
       "Uso continuo, varios proyectos en paralelo." true;
     mkPlan "studio" "Studio" studio 40000000 MONTHLY
       "Equipos que generan todos los dias." true]%string
    [mkPack "tokens-1m" "1M tokens" pack1 1000000 EmptyString;
     mkPack "tokens-5m" "5M tokens" pack5 5000000 EmptyString;
     mkPack "tokens-20m" "20M tokens" pack20 20000000 EmptyString]%string
    p).

(** ** What was spent *)

(** Python's [int] of a digit string: underscores single and between digits. *)
Fixpoint int_body (s : string) (acc : Z) (after_digit : bool) : option Z :=
  match s with
  | EmptyString => if after_digit then Some acc else None
  | String c s' =>
      if digit_char c then int_body s' (10 * acc + digit_val c) true
      else if Ascii.eqb c underscore && after_digit then int_body s' acc false
      else None
  end.
Definition int_of_str (s : string) : option Z :=
  let '(neg, body) := take_sign (str_strip s) in
  n ← int_body body 0 false;
  mret (if neg then - n else n).

(** [int(value)] *)
Definition py_int (value : json) : result exn Z :=
  match value with
  | JInt n => Ok n
  | JBool b => Ok (if b then 1 else 0)
  | JStr s =>
      match int_of_str s with
      | Some n => Ok n
      | None => Raise (ValueError "invalid literal for int() with base 10")
      end
  | JFloat (FFin neg c e) =>
      let n := if 0 <=? e then c * 10 ^ e else c / 10 ^ (- e) in
      Ok (if neg then - n else n)
  | JFloat (FInf _) => Raise (OverflowError "cannot convert float infinity to integer")
  | JFloat FNan => Raise (ValueError "cannot convert float NaN to integer")
  | JNull | JList _ | JObj _ => Raise (TypeError "int() argument must be a string or a number")
  end.

(** [_int] *)
Definition lenient_int (value : json) : result exn Z :=
  match py_int value with
  | Ok n => Ok (Z.max 0 n)
  | Raise e =>
      if isinstance e cTypeError || isinstance e cValueError then Ok 0 else Raise e
  end.

(** [_money] *)
Definition lenient_money (value : json) : result exn Money :=
  match value with
  | JNull => Ok (mkMoney 0)
  | _ =>
      match money_parse value with
      | Ok m => Ok m
      | Raise e => if isinstance e cBillingError then Ok (mkMoney 0) else Raise e
      end
  end.

Definition no_usage : Usage := mkUsage 0 0 (mkMoney 0) false.

(** [Usage.from_agent]; [JNull] for no panel. *)
Definition usage_from_agent (panel : json) : result exn Usage :=
  if negb (is_dict panel) then Ok no_usage
  else
    let usage := jget "usage" panel in
    let source := if is_dict usage then usage else panel in
    t ← lenient_int (jget "tokens" source);
    c ← lenient_int (jget "calls" source);
    m ← lenient_money (jget "cost_usd" source);
    mret (mkUsage t c m (jtruthy (jget "simulated" source))).

Definition usage_as_json (u : Usage) : json :=
  JObj [("tokens", JInt (tokens u)); ("calls", JInt (calls u));
        ("cost", money_as_json (cost u)); ("simulated", JBool (simulated u))]%string.

(** ** The ledger *)

Inductive EntryKind : Type := GRANT | PURCHASE | USAGE | REFUND | ADJUSTMENT | EXPIRY.
Global Instance EntryKind_eq_dec : EqDecision EntryKind.
Proof. solve_decision. Defined.

Definition kind_value (k : EntryKind) : string :=
  match k with
  | GRANT => "grant" | PURCHASE => "purchase" | USAGE => "usage" | REFUND => "refund"
  | ADJUSTMENT => "adjustment" | EXPIRY => "expiry"
  end.

Definition CREDITS : list EntryKind := [GRANT; PURCHASE; REFUND].

Record LedgerEntry : Type := mkEntry {
  entry_id : string;
  entry_account : string;
  kind : EntryKind;
  entry_tokens : Z;
  at_ : Z;
  amount : Money;
  reference : string;
  memo : string
}.
Global Instance LedgerEntry_eq_dec : EqDecision LedgerEntry.
Proof. solve_decision. Defined.

Definition entry_as_json (e : LedgerEntry) : json :=
  JObj [("id", JStr (entry_id e)); ("kind", JStr (kind_value (kind e)));
        ("tokens", JInt (entry_tokens e)); ("at", JStr (isoformat (at_ e)));
        ("amount", money_as_json (amount e)); ("reference", JStr (reference e));
        ("memo", JStr (memo e))]%string.

Record Balance : Type := mkBalance {
  balance_account : string;
  granted : Z;
  purchased : Z
}.
Definition total (b : Balance) : Z := granted b + purchased b.
Definition can_afford (b : Balance) (n : Z) : bool := n <=? total b.
Definition balance_as_json (b : Balance) : json :=
  JObj [("account", JStr (balance_account b)); ("granted", JInt (granted b));
        ("purchased", JInt (purchased b)); ("total", JInt (total b))]%string.

(** One pass of the loop of [balance_of] over the two pools. *)
Definition replay_entry (pools : Z * Z) (e : LedgerEntry) : Z * Z :=
  let '(g, p) := pools in
  match kind e with
  | GRANT => (g + entry_tokens e, p)
  | EXPIRY => (Z.max 0 (g + entry_tokens e), p)
  | PURCHASE | REFUND => (g, p + entry_tokens e)
  | USAGE | ADJUSTMENT =>
      let owed := - entry_tokens e in
      let from_grant := Z.min g owed in
      (g - from_grant, p - (owed - from_grant))
  end.

Definition balance_of (account : string) (entries : list LedgerEntry) : Balance :=
  let '(g, p) := foldl replay_entry (0, 0) entries in
  let '(g, p) := if p <? 0 then (g + p, 0) else (g, p) in
  mkBalance account (Z.max 0 g) (Z.max 0 p).

Record UsageSummary : Type := mkSummary {
  summary_tokens : Z;
  summary_runs : Z;
  summary_cost : Money;
  since : option Z
}.
Definition summary_as_json (s : UsageSummary) : json :=
  JObj [("tokens", JInt (summary_tokens s)); ("runs", JInt (summary_runs s));
        ("cost", money_as_json (summary_cost s));
        ("since", match since s with Some t => JStr (isoformat t) | None => JNull end)]%string.

(** The loop of [usage_of]. *)
Fixpoint usage_loop (from : option Z) (entries : list LedgerEntry) (t n : Z) (c : Money)
    : Z * Z * Money :=
  match entries with
  | [] => (t, n, c)
  | e :: entries' =>
      if negb (bool_decide (kind e = USAGE)) then usage_loop from entries' t n c
      else if match from with Some s => at_ e <? s | None => false end
      then usage_loop from entries' t n c
      else usage_loop from entries' (t + - entry_tokens e) (n + 1) (money_add c (amount e))
  end.
Definition usage_of (entries : list LedgerEntry) (from : option Z) : UsageSummary :=
  let '(t, n, c) := usage_loop from entries 0 0 (mkMoney 0) in mkSummary t n c from.

(** ** Subscriptions *)

Inductive SubscriptionStatus : Type := ACTIVE | SUB_EXPIRED | SUB_CANCELLED.
Global Instance SubscriptionStatus_eq_dec : EqDecision SubscriptionStatus.
Proof. solve_decision. Defined.
Definition subscription_status_value (s : SubscriptionStatus) : string :=
  match s with ACTIVE => "active" | SUB_EXPIRED => "expired" | SUB_CANCELLED => "cancelled" end.

Record Subscription : Type := mkSubscription {
  sub_account : string;
  sub_plan_id : string;
  started_at : Z;
  renews_at : Z;
  sub_status : SubscriptionStatus
}.

Definition begin_subscription (account : string) (p : Plan) (now : Z) : Subscription :=
  mkSubscription account (plan_id p) now (now + plan_period p) ACTIVE.
Definition sub_is_active (s : Subscription) (now : Z) : bool :=
  bool_decide (sub_status s = ACTIVE) && (now <? renews_at s).
Definition due (s : Subscription) (now : Z) : bool :=
  bool_decide (sub_status s = ACTIVE) && (renews_at s <=? now).
Definition renewed (s : Subscription) (p : Plan) (now : Z) : Subscription :=
  mkSubscription (sub_account s) (sub_plan_id s) now (now + plan_period p) ACTIVE.
Definition ended (s : Subscription) : Subscription :=
  mkSubscription (sub_account s) (sub_plan_id s) (started_at s) (renews_at s) SUB_EXPIRED.
Definition sub_cancelled (s : Subscription) : Subscription :=
  mkSubscription (sub_account s) (sub_plan_id s) (started_at s) (renews_at s) SUB_CANCELLED.
Definition period_key (s : Subscription) : string :=
  sub_plan_id s ++s ":" ++s isoformat (renews_at s).
Definition subscription_as_json (s : Subscription) : json :=
  JObj [("account", JStr (sub_account s)); ("plan", JStr (sub_plan_id s));
        ("status", JStr (subscription_status_value (sub_status s)));
        ("started_at", JStr (isoformat (started_at s)));
        ("renews_at", JStr (isoformat (renews_at s)))]%string.

(** ** Invoices *)

Inductive InvoiceStatus : Type := PENDING | PAID | EXPIRED | CANCELLED.
Global Instance InvoiceStatus_eq_dec : EqDecision InvoiceStatus.
Proof. solve_decision. Defined.
Definition invoice_status_value (s : InvoiceStatus) : string :=
  match s with
  | PENDING => "pending" | PAID => "paid" | EXPIRED => "expired" | CANCELLED => "cancelled"
  end.

Definition INVOICE_TTL : Z := minutes 30.

(** [new_invoice_id]; [token] is [secrets.token_hex(11)]. *)
Definition new_invoice_id (token : string) : string := "cz" ++s token.

Record Invoice : Type := mkInvoice {
  invoice_id : string;
  invoice_account : string;
  sku : string;
  invoice_tokens : Z;
  price : Money;
  asset : string;
  settlement_amount : string;
  destination : string;
  created_at : Z;
  expires_at : Z;
  status : InvoiceStatus;
  invoice_kind : string;
  tx_hash : string;
  payer : string
}.

Definition invoice_memo (i : Invoice) : string := invoice_id i.
Definition is_open (i : Invoice) (now : Z) : bool :=
  bool_decide (status i = PENDING) && (now <? expires_at i).
(** [replace(self, status=..., tx_hash=..., payer=...)] *)
Definition set_invoice (i : Invoice) (st : InvoiceStatus) (tx from : string) : Invoice :=
  mkInvoice (invoice_id i) (invoice_account i) (sku i) (invoice_tokens i) (price i) (asset i)
    (settlement_amount i) (destination i) (created_at i) (expires_at i) st (invoice_kind i)
    tx from.
Definition paid (i : Invoice) (tx from : string) : Invoice := set_invoice i PAID tx from.
Definition expired (i : Invoice) : Invoice := set_invoice i EXPIRED (tx_hash i) (payer i).
Definition invoice_as_json (i : Invoice) : json :=
  JObj [("id", JStr (invoice_id i)); ("account", JStr (invoice_account i));
        ("sku", JStr (sku i)); ("kind", JStr (invoice_kind i));
        ("tokens", JInt (invoice_tokens i)); ("price", money_as_json (price i));
        ("asset", JStr (asset i)); ("amount", JStr (settlement_amount i));
        ("destination", JStr (destination i)); ("memo", JStr (invoice_memo i));
        ("status", JStr (invoice_status_value (status i)));
        ("created_at", JStr (isoformat (created_at i)));
        ("expires_at", JStr (isoformat (expires_at i)));
        ("tx_hash", JStr (tx_hash i))]%string.

Record ObservedPayment : Type := mkPayment {
  payment_tx : string;
  payment_payer : string;
  payment_destination : string;
  payment_asset : string;
  payment_amount : string;
  payment_memo : string;
  payment_at : Z
}.

(** [ObservedPayment.settles] *)
Definition settles (p : ObservedPayment) (i : Invoice) (tolerance_bps : Z) : result exn bool :=
  if negb (String.eqb (payment_memo p) (invoice_memo i))
     || negb (String.eqb (payment_destination p) (destination i))
  then Ok false
  else if negb (String.eqb (str_upper (payment_asset p)) (str_upper (asset i))) then Ok false
  else
    match dec_parse (payment_amount p), dec_parse (settlement_amount i) with
    | Some sent, Some owed =>
        share ← dec_div (dec_of_int (10000 - tolerance_bps)) (dec_of_int 10000);
        least ← dec_mul owed share;
        dec_ge sent least
    | _, _ => Ok false
    end.

(** ** Money: text and back *)

(** A digit string is one that does not end in a zero, followed by zeros. *)
Lemma split_zeros s :
  all_digits s = true →
  ∃ b k, s = b ++s str_repeat k "0" ∧ all_digits b = true
         ∧ (b = EmptyString ∨ ∃ b' c, b = b' ++s str1 c ∧ Ascii.eqb zero_char c = false
                                      ∧ digit_char c = true).
Proof.
  induction s as [|c s IH]; intros Hs; [exists EmptyString, 0%nat; auto|].
  unfold all_digits in *. cbn in Hs. apply andb_true_iff in Hs as [Hc Hs].
  destruct (IH Hs) as (b & k & -> & Hb & [->|(b' & d & -> & Hd & Hdd)]).
  - destruct (Ascii.eqb zero_char c) eqn:Hz.
    + apply Ascii.eqb_eq in Hz as <-. exists EmptyString, (S k). auto.
    + exists (str1 c), k. split_and!; [done|cbn; by rewrite Hc|]. right. exists EmptyString, c. done.
  - exists (String c (b' ++s str1 d)), k. split_and!; [done|cbn; by rewrite Hc, Hb|].
    right. exists (String c b'), d. done.
Qed.

Lemma money_decimal_spec m :
  0 < Z.abs (micros m) < 10 ^ 28 →
  ∃ c e, money_decimal m = Ok (DFin (micros m <? 0) c e)
         ∧ -6 <= e <= 0 ∧ 0 < c ∧ c * 10 ^ (e + 6) = Z.abs (micros m).
Proof. intros H. apply (dec_div_pow10 (micros m) 6); [done|lia]. Qed.

(** The text of an amount that is not zero: sign, dollars, and the micros without
    the zeros they end in. *)
Lemma money_str_shape m :
  0 < Z.abs (micros m) < 10 ^ 28 →
  ∃ b k, all_digits b = true ∧ byte_len b + Z.of_nat k = 6
    ∧ num b * 10 ^ Z.of_nat k = Z.abs (micros m) mod MICROS
    ∧ money_str m = Ok (sign_str (micros m <? 0)
        ++s (int_str (Z.abs (micros m) / MICROS)
        ++s (if str_truthy b then String dot b else EmptyString))).
Proof.
  intros Hm. destruct (money_decimal_spec m Hm) as (c & e & Hd & He & Hc & Hval).
  unfold money_str. rewrite Hd. cbn [mbind result_bind mret result_ret dec_format].
  change (Z.of_nat 6) with 6. destruct (Z.leb_spec (- (6)) e); [|lia].
  rewrite Hval. change (10 ^ 6) with MICROS. set (a := Z.abs (micros m)) in *.
  pose proof (Z.mod_pos_bound a MICROS ltac:(unfold MICROS; lia)) as Hmod.
  assert (0 <= a / MICROS) as Hq by (apply Z.div_pos; unfold MICROS; lia).
  destruct (int_str_digits (a / MICROS) Hq) as (_ & Hqd & Hqne).
  destruct (pad_left_spec 6 (a mod MICROS)) as (Hpd & Hpn & Hpl); [exact Hmod|lia|].
  destruct (split_zeros _ Hpd) as (b & k & Hb & Hbd & Hend).
  set (sg := if micros m <? 0 then "-"%string else EmptyString).
  assert (sg = sign_str (micros m <? 0)) as Hsg by (unfold sg; by destruct (micros m <? 0)).
  rewrite Hb in *. destruct (zeros_digits k) as [_ Hz0]. rewrite num_app, Hz0 in Hpn.
  assert (byte_len (str_repeat k "0") = Z.of_nat k) as Hkl
    by (unfold byte_len; change "0"%string with (str1 zero_char); by rewrite str_repeat_length).
  rewrite byte_len_app, Hkl in Hpl. rewrite Hkl in Hpn.
  exists b, k. split_and!; [done|done|lia|].
  assert (str_all (Ascii.eqb zero_char) (str_repeat k "0") = true) as Hzall.
  { clear. induction k as [|k IH]; [done|]. cbn [str_repeat].
    by rewrite str_all_app, IH. }
  rewrite <- Hsg. unfold rstrip_char.
  rewrite <- !app_assoc_s. rewrite rstrip_by_app by done.
  assert (rstrip_by (Ascii.eqb dot) (rstrip_by (Ascii.eqb zero_char)
            (((sg ++s int_str (a / MICROS)) ++s ".") ++s b))
          = sg ++s (int_str (a / MICROS) ++s (if str_truthy b then String dot b else EmptyString))) as Hs.
  { destruct Hend as [->|(b' & d & -> & Hd0 & Hdd)].
    - rewrite app_empty_r. change "."%string with (str1 dot).
      rewrite rstrip_str1 by done. rewrite rstrip_by_app by done. cbn [str_truthy].
      rewrite app_empty_r. apply rstrip_by_none. rewrite str_all_app.
      apply andb_true_iff; split.
      + unfold sg. by destruct (micros m <? 0).
      + eapply str_all_impl; [|exact Hqd]. intros x; all_ascii x.
    - rewrite <- app_assoc_s. rewrite rstrip_str1 by done.
      rewrite rstrip_str1 by (revert Hdd; all_ascii d).
      assert (str_truthy (b' ++s str1 d) = true) as -> by (by destruct b').
      rewrite !app_assoc_s. done. }
  rewrite Hs.
  assert (str_truthy (sg ++s (int_str (a / MICROS) ++s
            (if str_truthy b then String dot b else EmptyString))) = true) as ->; [|by cbn iota; rewrite ?app_assoc_s].
  apply str_truthy_spec. intros H0. apply (f_equal String.length) in H0.
  rewrite !str_length_app in H0. cbn in H0.
  destruct (int_str (a / MICROS)); [done|]. cbn in H0. lia.
Qed.

(** Multiplying by a million and quantizing to an integer, where that is exact. *)
Lemma parse_exact neg c e n :
  0 < n < 10 ^ 28 → -6 <= e <= 0 → c * 10 ^ (e + 6) = n →
  (product ← dec_mul (DFin neg c e) (dec_of_int MICROS);
   k ← dec_quantize_int product; mret (mkMoney k))
  = (Ok (mkMoney (if neg then - n else n)) : result exn Money).
Proof.
  intros Hn He Hc. assert (0 < 10 ^ (e + 6)) by (apply Z.pow_pos_nonneg; lia).
  assert (0 < c) as Hc0 by nia. unfold dec_mul, dec_of_int. change (MICROS <? 0) with false.
  change (Z.abs MICROS) with (10 ^ 6). rewrite Z.add_0_r. assert (xorb neg false = neg) as -> by (by destruct neg).
  assert (ndigits c <= DEC_PREC) as Hnd
    by (apply ndigits_le; split; [done|]; change DEC_PREC with 28; nia).
  destruct (dec_fix_exact neg c e 6) as (c' & e' & Hfix & Hc' & He' & Hv); [lia..|].
  rewrite Hfix. cbn [mbind result_bind].
  rewrite (dec_quantize_int_exact neg c' e' n); [done|done|exact Hn|].
  assert (c' * 10 ^ (e' - e) = n * 10 ^ (- e)) as Hv'.
  { rewrite Hv, <- Hc, <- Z.mul_assoc, <- Z.pow_add_r by lia. do 2 f_equal. lia. }
  destruct (Z.leb_spec 0 e').
  - replace (e' - e) with (e' + - e) in Hv' by lia. rewrite Z.pow_add_r in Hv' by lia.
    assert (0 < 10 ^ (- e)) by (apply Z.pow_pos_nonneg; lia). nia.
  - replace (- e) with (- e' + (e' - e)) in Hv' by lia. rewrite Z.pow_add_r in Hv' by lia.
    assert (0 < 10 ^ (e' - e)) by (apply Z.pow_pos_nonneg; lia). nia.
Qed.

(** Printing an amount and parsing the text gives the amount back, for
    every amount below 10^22 dollars: no micro is lost either way. *)
Theorem money_roundtrip m (Hm : Z.abs (micros m) < 10 ^ 28) :
  ∃ s, money_str m = Ok s ∧ money_parse (JStr s) = Ok m.
Proof.
  destruct (Z.eq_dec (micros m) 0) as [H0|H0].
  - destruct m as [n]. cbn in H0. subst n. exists "0"%string. by vm_compute.
  - destruct (money_str_shape m ltac:(lia)) as (b & k & Hb & Hk & Hnb & Hs).
    eexists. split; [exact Hs|]. set (a := Z.abs (micros m)) in *.
    assert (0 <= a / MICROS) as Hq by (apply Z.div_pos; unfold MICROS; lia).
    destruct (int_str_digits (a / MICROS) Hq) as (Hqv & Hqd & Hqne).
    assert (byte_len (int_str (a / MICROS)) <= 28) as Hql.
    { unfold byte_len. assert (String.length (int_str (a / MICROS)) ≤ 28)%nat; [|lia].
      apply int_str_length; [|lia]. split; [done|]. eapply Z.le_lt_trans; [|exact Hm].
      apply Z.div_le_upper_bound; unfold MICROS; lia. }
    unfold money_parse. cbn [py_str].
    rewrite dec_parse_plain; [|done|done|done|by destruct b|lia].
    cbn [is_finite negb]. pose proof (byte_len_nonneg b).
    pose proof (Z.div_mod a MICROS ltac:(unfold MICROS; lia)) as Hdm.
    rewrite (parse_exact _ _ _ a).
    + destruct m as [n]. cbn in *. do 2 f_equal. unfold a.
      destruct (Z.ltb_spec n 0); lia.
    + lia.
    + lia.
    + rewrite num_app, Hqv. replace (- byte_len b + 6) with (Z.of_nat k) by lia.
      rewrite Z.mul_add_distr_r, Hnb, <- Z.mul_assoc, <- Z.pow_add_r by lia.
      replace (byte_len b + Z.of_nat k) with 6 by lia. change (10 ^ 6) with MICROS. lia.
Qed.

Lemma money_roundtrip_witness :
  ∃ s, money_str (mkMoney (-1234560)) = Ok s ∧ money_parse (JStr s) = Ok (mkMoney (-1234560)).
Proof. apply (money_roundtrip (mkMoney (-1234560))). reflexivity. Defined.

(** ** Prices and tokens *)

(** [scaled] is the nearest integer number of micros, halves up, with no
    intermediate rounding; and scaling by zero is an error. *)
Theorem scaled_nearest m n d (Hd : 0 < d) :
  ∃ r, scaled m n d = Ok r
    ∧ 2 * d * micros r <= 2 * (micros m * n) + d
    ∧ 2 * (micros m * n) < 2 * d * micros r + d + 1
    ∧ scaled m n 0 = Raise (BillingError "a price cannot be scaled by zero").
Proof.
  unfold scaled. destruct (Z.eqb_spec d 0) as [|_]; [lia|]. eexists. split; [reflexivity|].
  cbn. set (x := micros m * n). pose proof (Z.div_mod d 2 ltac:(lia)).
  pose proof (Z.mod_pos_bound d 2 ltac:(lia)).
  pose proof (Z.div_mod (x + d / 2) d ltac:(lia)).
  pose proof (Z.mod_pos_bound (x + d / 2) d ltac:(lia)).
  set (q := (x + d / 2) / d) in *. set (h := d / 2) in *. split_and!; [lia|lia|done].
Qed.

Lemma scaled_nearest_witness :
  ∃ r, scaled (mkMoney 10) 1 4 = Ok r ∧ 8 * micros r <= 24 ∧ 20 < 8 * micros r + 5.
Proof.
  destruct (scaled_nearest (mkMoney 10) 1 4) as (r & Hr & H1 & H2 & _); [lia|].
  exists r. cbn in H1, H2. split; [exact Hr|]. lia.
Defined.

Lemma tokens_for_bounds p amount :
  0 < micros (per_million p) → 0 <= micros amount →
  0 <= tokens_for p amount
  ∧ tokens_for p amount * micros (per_million p) <= micros amount * PER_MILLION
    < (tokens_for p amount + 1) * micros (per_million p).
Proof.
  intros Hp Ha. unfold tokens_for. destruct (Z.leb_spec (micros (per_million p)) 0); [lia|].
  assert (0 <= micros amount * PER_MILLION / micros (per_million p)) as Hq
    by (apply Z.div_pos; unfold PER_MILLION; lia).
  rewrite Z.max_r by done.
  pose proof (Z.mul_div_le (micros amount * PER_MILLION) (micros (per_million p)) Hp).
  pose proof (Z.mul_succ_div_gt (micros amount * PER_MILLION) (micros (per_million p)) Hp). lia.
Qed.

(** Never more is sold than was paid for, and never a whole token less: the
    tokens an amount buys cost at most the amount at list price, one more would cost
    more than it, and pricing them again gives back no more than the amount. *)
Theorem tokens_for_fair p amount
    (Hprice : 0 < micros (per_million p)) (Hamount : 0 <= micros amount) :
  tokens_for p amount * micros (per_million p) <= micros amount * PER_MILLION
    < (tokens_for p amount + 1) * micros (per_million p)
  ∧ ∃ c, cost_of p (tokens_for p amount) = Ok c ∧ micros c <= micros amount.
Proof.
  destruct (tokens_for_bounds p amount Hprice Hamount) as (H0 & H1 & H2).
  split; [done|]. eexists. split; [reflexivity|]. rewrite Z.max_r by done. cbn [micros].
  assert ((micros (per_million p) * tokens_for p amount + PER_MILLION / 2) / PER_MILLION
          < micros amount + 1); [|lia].
  change (PER_MILLION / 2) with 500000. apply Z.div_lt_upper_bound; unfold PER_MILLION in *; lia.
Qed.

Lemma tokens_for_fair_witness :
  5833333 * 6 <= 35 * 1000000 ∧
  ∃ c, cost_of (mkPricing (mkMoney 6) 3000 1000) 5833333 = Ok c ∧ micros c <= 35.
Proof.
  destruct (tokens_for_fair (mkPricing (mkMoney 6) 3000 1000) (mkMoney 35)) as [H1 H2];
    [cbn; lia|cbn; lia|].
  split; [apply H1|exact H2].
Defined.

Lemma tokens_for_mono p a b : micros a <= micros b → tokens_for p a <= tokens_for p b.
Proof.
  intros H. unfold tokens_for. destruct (Z.leb_spec (micros (per_million p)) 0); [done|].
  apply Z.max_le_compat_l. apply Z.div_le_mono; [done|]. unfold PER_MILLION. lia.
Qed.

(** What a run is charged: nothing when it was simulated or did nothing,
    otherwise at least the minimum; with no measured cost, its tokens; with a cost,
    the tokens that the marked-up cost buys, never fewer for a dearer run and never
    fewer than the cost alone would buy. *)
Theorem billable_charges p u
    (Hmargin : 0 <= margin_bps p) (Hcost : 0 <= micros (cost u)) :
  (simulated u || is_empty u = true → billable p u = Ok 0)
  ∧ (simulated u || is_empty u = false → ∃ n, billable p u = Ok n
       ∧ minimum_charge p <= n
       ∧ (micros (cost u) = 0 → n = Z.max (minimum_charge p) (tokens u))
       ∧ (micros (cost u) ≠ 0 → tokens_for p (cost u) <= n)).
Proof.
  unfold billable. split; [by intros ->|]. intros ->. unfold is_zero.
  destruct (Z.eqb_spec (micros (cost u)) 0) as [H0|H0].
  - eexists. split; [reflexivity|]. split_and!; [lia|done|done].
  - unfold scaled. cbn [Z.eqb]. cbn. eexists. split; [reflexivity|]. split_and!; [lia|done|].
    intros _. etrans; [|apply Z.le_max_r]. apply tokens_for_mono. cbn [micros].
    apply Z.div_le_lower_bound; [lia|]. change (10000 / 2) with 5000. nia.
Qed.

Lemma billable_charges_witness :
  ∃ n, billable (mkPricing (mkMoney 6000000) 3000 1000) (mkUsage 10 1 (mkMoney 60000) false) = Ok n
       ∧ 1000 <= n ∧ 10000 <= n.
Proof.
  destruct (billable_charges (mkPricing (mkMoney 6000000) 3000 1000)
    (mkUsage 10 1 (mkMoney 60000) false)) as [_ H]; [cbn; lia|cbn; lia|].
  destruct (H eq_refl) as (n & Hn & H1 & _ & H3). exists n. split; [exact Hn|].
  split; [exact H1|apply H3; discriminate].
Defined.

(** ** Usage of a malformed panel *)

(** The panels [from_agent] survives: counts that are not infinities and a cost whose
    text is no number, or a number below 10^22. *)
Definition sane_count (v : json) : Prop := ∀ neg, v ≠ JFloat (FInf neg).
Definition sane_cost (v : json) : Prop :=
  ∀ neg c e, dec_parse (py_str v) = Some (DFin neg c e) →
    0 <= c ∧ -1000 <= e <= 1000 ∧ c < 10 ^ 22 ∧ (0 < e → c * 10 ^ e < 10 ^ 22).

Lemma lenient_int_total v : sane_count v → ∃ n, lenient_int v = Ok n ∧ 0 <= n.
Proof.
  intros Hv. unfold lenient_int. destruct v as [|b|n|[neg c e|neg|]|s|l|l]; cbn;
    try by (eexists; split; [reflexivity|lia]).
  - by destruct (Hv neg).
  - destruct (int_of_str s); eexists; (split; [reflexivity|lia]).
Qed.

Lemma parse_rounds neg c e :
  0 <= c < 10 ^ 22 → -1000 <= e <= 0 →
  (product ← dec_mul (DFin neg c e) (dec_of_int MICROS);
   k ← dec_quantize_int product; mret (mkMoney k))
  = (Ok (mkMoney (let n := round_half_up (c * MICROS) (10 ^ (- e)) in if neg then - n else n))
     : result exn Money).
Proof.
  intros Hc He. unfold dec_mul, dec_of_int. change (MICROS <? 0) with false.
  change (Z.abs MICROS) with MICROS. rewrite Z.add_0_r.
  assert (xorb neg false = neg) as -> by (by destruct neg).
  assert (0 < 10 ^ (- e)) as Hp by (apply Z.pow_pos_nonneg; lia). unfold dec_fix.
  destruct (Z.eqb_spec (c * MICROS) 0) as [H0|H0].
  - rewrite H0. cbn [mbind result_bind dec_quantize_int Z.eqb].
    assert (round_half_up 0 (10 ^ (- e)) = 0) as ->.
    { unfold round_half_up. apply Z.div_small. lia. }
    by destruct neg.
  - assert (0 < c * MICROS < 10 ^ 28) as Hcm by (unfold MICROS in *; lia).
    pose proof (ndigits_le _ _ Hcm) as Hn. pose proof (ndigits_spec _ (proj1 Hcm)) as (Hn1 & _ & Hn2).
    unfold DEC_EMAX, DEC_ETINY, DEC_PREC.
    destruct (Z.ltb_spec (999999 - 28 + 1) (ndigits (c * MICROS) + e - 28)); [lia|].
    destruct (Z.ltb_spec e (Z.max (ndigits (c * MICROS) + e - 28) (-999999 - (28 - 1)))); [lia|].
    cbn [mbind result_bind dec_quantize_int].
    destruct (Z.eqb_spec (c * MICROS) 0) as [|_]; [lia|]. unfold DEC_PREC.
    destruct (Z.ltb_spec 28 (ndigits (c * MICROS) + e)); [lia|].
    assert ((if 0 <=? e then c * MICROS * 10 ^ e
             else if ndigits (c * MICROS) <? - e then 0 else round_half_up (c * MICROS) (10 ^ (- e)))
            = round_half_up (c * MICROS) (10 ^ (- e))) as ->.
    { destruct (Z.leb_spec 0 e).
      - assert (e = 0) as -> by lia. change (10 ^ (- 0)) with 1. rewrite Z.pow_0_r.
        pose proof (round_half_up_exact (c * MICROS) 1 ltac:(lia)) as Hx. rewrite Z.mul_1_r in Hx.
        rewrite Hx. lia.
      - destruct (Z.ltb_spec (ndigits (c * MICROS)) (- e)) as [Hlt|]; [|done].
        symmetry. unfold round_half_up. apply Z.div_small.
        assert (10 ^ (ndigits (c * MICROS) + 1) <= 10 ^ (- e)) as Hpow
          by (apply Z.pow_le_mono_r; lia).
        rewrite Z.pow_add_r in Hpow by lia. lia. }
    set (n := round_half_up (c * MICROS) (10 ^ (- e))).
    assert (0 <= n <= c * MICROS) as Hnr.
    { unfold n, round_half_up. split; [apply Z.div_pos; lia|].
      apply Z.lt_succ_r, Z.div_lt_upper_bound; [lia|]. nia. }
    assert (ndigits n <= 28) as Hnd.
    { destruct (Z.eq_dec n 0) as [->|]; [by vm_compute|]. apply ndigits_le. lia. }
    destruct (Z.ltb_spec 28 (ndigits n)); [lia|]. done.
Qed.

(** An amount below 10^22 dollars is read to the nearest micro, halves away
    from zero, rounding once. *)
Theorem money_parse_rounds s neg c e
    (Hs : dec_parse s = Some (DFin neg c e)) (Hc : 0 <= c < 10 ^ 22) (He : -1000 <= e <= 0) :
  ∃ n, money_parse (JStr s) = Ok (mkMoney (if neg then - n else n))
       ∧ 2 * (c * MICROS) - 10 ^ (- e) < 2 * 10 ^ (- e) * n <= 2 * (c * MICROS) + 10 ^ (- e).
Proof.
  exists (round_half_up (c * MICROS) (10 ^ (- e))). unfold money_parse. cbn [py_str]. rewrite Hs.
  cbn [is_finite negb]. split; [by apply parse_rounds|].
  apply round_half_up_near. apply Z.pow_pos_nonneg; lia.
Qed.

Lemma money_parse_rounds_witness :
  ∃ n, money_parse (JStr "-0.0000015") = Ok (mkMoney (- n)) ∧ n = 2.
Proof.
  destruct (money_parse_rounds "-0.0000015" true 15 (-7)) as (n & Hn & H1 & H2);
    [reflexivity|lia|lia|].
  exists n. split; [exact Hn|]. change (10 ^ (- -7)) with 10000000 in *. unfold MICROS in *. lia.
Defined.

Lemma parse_integral neg c e :
  0 <= c < 10 ^ 22 → 0 < e <= 1000 → c * 10 ^ e < 10 ^ 22 →
  ∃ n, (product ← dec_mul (DFin neg c e) (dec_of_int MICROS);
        k ← dec_quantize_int product; mret (mkMoney k)) = (Ok (mkMoney n) : result exn Money).
Proof.
  intros Hc He Hv. unfold dec_mul, dec_of_int. change (MICROS <? 0) with false.
  change (Z.abs MICROS) with MICROS. rewrite Z.add_0_r. unfold dec_fix.
  assert (0 < 10 ^ e) as Hp by (apply Z.pow_pos_nonneg; lia).
  destruct (Z.eqb_spec (c * MICROS) 0) as [H0|H0]; [by exists 0|].
  assert (0 < c * MICROS < 10 ^ 28) as Hcm by (unfold MICROS in *; lia).
  pose proof (ndigits_le _ _ Hcm) as Hn. unfold DEC_EMAX, DEC_ETINY, DEC_PREC.
  destruct (Z.ltb_spec (999999 - 28 + 1) (ndigits (c * MICROS) + e - 28)); [lia|].
  destruct (Z.ltb_spec e (Z.max (ndigits (c * MICROS) + e - 28) (-999999 - (28 - 1)))); [lia|].
  cbn [mbind result_bind].
  rewrite (dec_quantize_int_exact _ _ _ (c * MICROS * 10 ^ e)); [eexists; reflexivity|lia| |].
  - change DEC_PREC with 28. unfold MICROS in *. nia.
  - destruct (Z.leb_spec 0 e); [done|lia].
Qed.

Lemma lenient_money_total v : sane_cost v → ∃ m, lenient_money v = Ok m.
Proof.
  intros Hv. assert (∃ m, match money_parse v with
      | Ok m => Ok m
      | Raise e => if isinstance e cBillingError then Ok (mkMoney 0) else Raise e
      end = Ok m) as [m Hm].
  { unfold money_parse, sane_cost in *. destruct (dec_parse (py_str v)) as [[neg c e|neg|]|];
      [|eexists; reflexivity..]. cbn [is_finite negb].
    destruct (Hv neg c e eq_refl) as (H0 & He & Hc & Hbig).
    destruct (Z.le_gt_cases e 0).
    - rewrite parse_rounds by lia. eexists; reflexivity.
    - destruct (parse_integral neg c e) as [n ->]; [lia|lia|by apply Hbig|]. eexists; reflexivity. }
  destruct v; [eexists; reflexivity|exists m; exact Hm..].
Qed.

(** A malformed cost panel never fails the run it is about: anything missing
    or of the wrong type reads as zero and the counts are never negative -- unless a
    count is an infinite float or the cost a number beyond 10^22. *)
Theorem usage_from_agent_total panel
    (Hcounts : ∀ source k, source ∈ [panel; jget "usage" panel] → k ∈ ["tokens"; "calls"]%string →
       sane_count (jget k source))
    (Hcost : ∀ source, source ∈ [panel; jget "usage" panel] → sane_cost (jget "cost_usd" source)) :
  ∃ u, usage_from_agent panel = Ok u ∧ 0 <= tokens u ∧ 0 <= calls u
       ∧ (is_dict panel = false → u = no_usage).
Proof.
  unfold usage_from_agent. destruct (is_dict panel) eqn:Hd; cbn [negb].
  - set (source := if is_dict (jget "usage" panel) then _ else _).
    assert (source ∈ [panel; jget "usage" panel]) as Hin
      by (unfold source; rewrite !elem_of_cons; destruct (is_dict (jget "usage" panel)); auto).
    destruct (lenient_int_total (jget "tokens" source)) as (t & -> & Ht);
      [apply Hcounts; set_solver|].
    destruct (lenient_int_total (jget "calls" source)) as (c & -> & Hc);
      [apply Hcounts; set_solver|].
    destruct (lenient_money_total (jget "cost_usd" source)) as [m ->]; [by apply Hcost|].
    eexists. split; [reflexivity|]. by split_and!.
  - exists no_usage. split_and!; [done|cbn; lia|cbn; lia|done].
Qed.

Definition odd_panel : json :=
  JObj [("tokens", JStr "12_000"); ("calls", JList []); ("cost_usd", JStr "free")]%string.
Lemma usage_from_agent_total_witness :
  ∃ u, usage_from_agent odd_panel = Ok u ∧ 0 <= tokens u.
Proof.
  destruct (usage_from_agent_total odd_panel) as (u & Hu & Ht & _).
  - intros source k Hs Hk neg. rewrite !elem_of_cons in Hs. rewrite !elem_of_cons in Hk.
    destruct Hs as [->|[->|Hs]], Hk as [->|[->|Hk]]; try discriminate;
      by first [apply elem_of_nil in Hs | apply elem_of_nil in Hk].
  - intros source Hs neg c e. rewrite !elem_of_cons in Hs.
    destruct Hs as [->|[->|Hs]]; [discriminate|discriminate|by apply elem_of_nil in Hs].
  - exists u. split; [exact Hu|exact Ht].
Defined.

(** The exceptions to that are real: a cost of 1e30 dollars raises
    [decimal.InvalidOperation], an infinite token count [OverflowError], and neither
    is caught on the way to the run. *)
Theorem usage_from_agent_escapes :
  money_parse (JStr "1e30") = Raise InvalidOperation
  ∧ usage_from_agent (JObj [("cost_usd", JStr "1e30")])%string = Raise InvalidOperation
  ∧ usage_from_agent (JObj [("tokens", JFloat (FInf false))])%string
    = Raise (OverflowError "cannot convert float infinity to integer").
Proof. split_and!; vm_compute; reflexivity. Qed.

(** ** Balances *)

(** The sign each kind is recorded with. *)
Definition entry_ok (e : LedgerEntry) : Prop :=
  match kind e with
  | GRANT | PURCHASE | REFUND => 0 <= entry_tokens e
  | USAGE | EXPIRY => entry_tokens e <= 0
  | ADJUSTMENT => True
  end.

Definition token_sum (entries : list LedgerEntry) : Z :=
  foldr (λ e n, entry_tokens e + n) 0 entries.

Lemma token_sum_app l l' : token_sum (l ++ l') = token_sum l + token_sum l'.
Proof. unfold token_sum. induction l as [|e l IH]; [done|]. cbn [app foldr]. lia. Qed.

Lemma replay_snoc entries e :
  foldl replay_entry (0, 0) (entries ++ [e]) = replay_entry (foldl replay_entry (0, 0) entries) e.
Proof. apply foldl_snoc. Qed.

Lemma replay_grant_nonneg entries :
  Forall entry_ok entries → 0 <= (foldl replay_entry (0, 0) entries).1.
Proof.
  induction entries as [|e entries IH] using rev_ind; [done|]. intros [He Ho]%Forall_app.
  apply Forall_cons_1 in Ho as [Ho _]. rewrite replay_snoc. specialize (IH He).
  destruct (foldl replay_entry (0, 0) entries) as [g p]. unfold entry_ok in Ho.
  unfold replay_entry. cbn [fst] in *. revert Ho. destruct (kind e); cbn; lia.
Qed.

Lemma replay_sum entries :
  Forall entry_ok entries → Forall (λ e, kind e ≠ EXPIRY) entries →
  (foldl replay_entry (0, 0) entries).1 + (foldl replay_entry (0, 0) entries).2
  = token_sum entries.
Proof.
  induction entries as [|e entries IH] using rev_ind; [done|].
  intros [He Ho]%Forall_app [Hk Hke]%Forall_app. apply Forall_cons_1 in Ho as [Ho _], Hke as [Hke _].
  rewrite replay_snoc, token_sum_app. specialize (IH He Hk).
  destruct (foldl replay_entry (0, 0) entries) as [g p]. cbn [fst snd] in *.
  assert (token_sum [e] = entry_tokens e) as -> by (unfold token_sum; cbn; lia).
  rewrite <- IH. unfold replay_entry. revert Hke. destruct (kind e); intros; cbn; first [congruence|lia].
Qed.

(** A balance is the sum of what happened: with no grant expired yet, the
    total of the two pools is the sum of the signed entries, or nothing when the
    account is in debt; neither pool is ever negative. *)
Theorem balance_is_sum account entries
    (Hok : Forall entry_ok entries) (Hexp : Forall (λ e, kind e ≠ EXPIRY) entries) :
  total (balance_of account entries) = Z.max 0 (token_sum entries)
  ∧ 0 <= granted (balance_of account entries) ∧ 0 <= purchased (balance_of account entries).
Proof.
  pose proof (replay_sum entries Hok Hexp) as Hs. pose proof (replay_grant_nonneg entries Hok) as Hg.
  unfold balance_of, total. destruct (foldl replay_entry (0, 0) entries) as [g p].
  cbn [fst snd] in *. destruct (Z.ltb_spec p 0); cbn; lia.
Qed.

Definition ledger_row (k : EntryKind) (n : Z) : LedgerEntry :=
  mkEntry EmptyString "a" k n 0 (mkMoney 0) EmptyString EmptyString.
Lemma balance_is_sum_witness :
  total (balance_of "a" [ledger_row GRANT 10; ledger_row PURCHASE 5; ledger_row USAGE (-18);
                         ledger_row GRANT 7]) = 4.
Proof.
  rewrite (proj1 (balance_is_sum "a" [ledger_row GRANT 10; ledger_row PURCHASE 5;
    ledger_row USAGE (-18); ledger_row GRANT 7] ltac:(repeat constructor; cbn; lia)
    ltac:(repeat constructor; discriminate))).
  reflexivity.
Defined.

(** Decide the comparisons the goal is stuck on. *)
Ltac case_ltb :=
  match goal with
  | |- context [?a <? ?b] => destruct (Z.ltb_spec a b)
  end.

(** How the last entry moves an account whose pools are not in debt: a debit
    drains the grant first and reaches the purchased tokens only for the rest; an
    expiry of the whole grant leaves the purchased tokens alone; and a debt is not
    forgiven by the next grant but taken out of it. *)
Theorem balance_moves account entries e
    (Hok : Forall entry_ok entries)
    (Hsolvent : 0 <= (foldl replay_entry (0, 0) entries).2) :
  let before := balance_of account entries in
  let after := balance_of account (entries ++ [e]) in
  (kind e = USAGE → entry_tokens e <= 0 →
     granted after = Z.max 0 (granted before + entry_tokens e)
     ∧ purchased after = Z.max 0 (purchased before + Z.min 0 (granted before + entry_tokens e))
     ∧ (total before < - entry_tokens e →
        ∀ g, kind g = GRANT → 0 <= entry_tokens g →
        total (balance_of account (entries ++ [e; g]))
        = Z.max 0 (entry_tokens g + (total before + entry_tokens e))))
  ∧ (kind e = EXPIRY → entry_tokens e = - granted before →
     granted after = 0 ∧ purchased after = purchased before)
  ∧ (kind e = GRANT → 0 <= entry_tokens e →
     granted after = granted before + entry_tokens e ∧ purchased after = purchased before)
  ∧ (kind e = PURCHASE ∨ kind e = REFUND → 0 <= entry_tokens e →
     granted after = granted before ∧ purchased after = purchased before + entry_tokens e).
Proof.
  cbn zeta. pose proof (replay_grant_nonneg entries Hok) as Hg. unfold balance_of, total.
  rewrite replay_snoc.
  assert (∀ g, foldl replay_entry (0, 0) (entries ++ [e; g])
    = replay_entry (replay_entry (foldl replay_entry (0, 0) entries) e) g) as Htwo.
  { intros g. rewrite foldl_app. done. }
  setoid_rewrite Htwo. clear Htwo.
  destruct (foldl replay_entry (0, 0) entries) as [g p]. cbn [fst snd] in *.
  destruct (Z.ltb_spec p 0); [lia|]. split_and!.
  - intros Hk Hn. split_and!.
    + unfold replay_entry. rewrite Hk. repeat case_ltb; cbn; lia.
    + unfold replay_entry. rewrite Hk. repeat case_ltb; cbn; lia.
    + cbn [granted purchased]. intros Hdebt g' Hk' Hn'. unfold replay_entry. rewrite Hk, Hk'.
      repeat case_ltb; cbn; lia.
  - unfold replay_entry. intros -> Hn. cbn [granted purchased] in *.
    repeat case_ltb; cbn; lia.
  - unfold replay_entry. intros -> Hn. cbn [granted purchased] in *.
    repeat case_ltb; cbn; lia.
  - unfold replay_entry. intros [-> | ->] Hn; cbn [granted purchased] in *;
      repeat case_ltb; cbn; lia.
Qed.

Lemma balance_moves_witness :
  granted (balance_of "a" [ledger_row GRANT 10; ledger_row PURCHASE 5; ledger_row USAGE (-12)]) = 0
  ∧ purchased (balance_of "a" [ledger_row GRANT 10; ledger_row PURCHASE 5; ledger_row USAGE (-12)]) = 3.
Proof.
  destruct (balance_moves "a" [ledger_row GRANT 10; ledger_row PURCHASE 5] (ledger_row USAGE (-12)))
    as [H _].
  - repeat constructor; cbn; lia.
  - cbn. lia.
  - destruct (H eq_refl ltac:(cbn; lia)) as (Hg & Hp & _). split; [exact Hg|exact Hp].
Defined.

(** ** Consumption *)

Definition spent_since (from : option Z) (e : LedgerEntry) : bool :=
  bool_decide (kind e = USAGE) && match from with Some s => s <=? at_ e | None => true end.

(** Consumption is the usage rows of the window and nothing else: an
    expired grant is not spending. *)
Theorem usage_of_rows entries from :
  let rows := filter (λ e, spent_since from e = true) entries in
  usage_of entries from
  = mkSummary (- token_sum rows) (Z.of_nat (length rows))
      (mkMoney (foldr (λ e n, micros (amount e) + n) 0 rows)) from.
Proof.
  cbn zeta. set (rows := λ l : list LedgerEntry, filter (λ e, spent_since from e = true) l).
  change (filter _ entries) with (rows entries).
  assert (∀ t n c, usage_loop from entries t n c
    = (t - token_sum (rows entries), n + Z.of_nat (length (rows entries)),
       mkMoney (micros c + foldr (λ e n, micros (amount e) + n) 0 (rows entries)))) as H.
  { induction entries as [|e entries IH]; intros t n [c].
    - cbn. f_equal; [f_equal; lia|]. f_equal. lia.
    - assert (rows (e :: entries)
              = if spent_since from e then e :: rows entries else rows entries) as ->.
      { unfold rows. rewrite filter_cons. by destruct (spent_since from e). }
      cbn [usage_loop]. unfold spent_since. case_bool_decide as Hk; cbn [negb andb]; [|apply IH].
      assert (match from with Some s => s <=? at_ e | None => true end
              = negb (match from with Some s => at_ e <? s | None => false end)) as ->.
      { destruct from as [s|]; [apply Z.leb_antisym|done]. }
      destruct (match from with Some s => at_ e <? s | None => false end); cbn [negb]; [apply IH|].
      rewrite IH. cbn [length]. unfold token_sum, money_add. cbn [foldr micros].
      f_equal; [f_equal; lia|]. f_equal. lia. }
  unfold usage_of. rewrite H. cbn. f_equal.
Qed.

(** ** Settlement *)

(** A payment settles an invoice exactly when memo, destination and asset
    agree and it carries at least 99% of the amount asked, computed without rounding;
    overpaying settles, and a text that is no amount never does. *)
Theorem settles_exactly p i sn sc se on oc oe
    (Hsent : dec_parse (payment_amount p) = Some (DFin sn sc se))
    (Howed : dec_parse (settlement_amount i) = Some (DFin on oc oe))
    (Hsmall : 0 <= oc < 10 ^ 26) (Hexp : -1000 <= oe <= 1000) :
  ∃ b, settles p i 100 = Ok b
    ∧ (b = true ↔ payment_memo p = invoice_id i ∧ payment_destination p = destination i
         ∧ str_upper (payment_asset p) = str_upper (asset i)
         ∧ let k := - Z.min se (oe - 2) in
           99 * scaled_value (k - 2) (DFin on oc oe) <= scaled_value k (DFin sn sc se)).
Proof.
  unfold settles, invoice_memo.
  destruct (String.eqb_spec (payment_memo p) (invoice_id i)) as [Hm|Hm]; cbn [negb orb];
    [|exists false; naive_solver].
  destruct (String.eqb_spec (payment_destination p) (destination i)) as [Hd|Hd]; cbn [negb orb];
    [|exists false; naive_solver].
  destruct (String.eqb_spec (str_upper (payment_asset p)) (str_upper (asset i))) as [Ha|Ha];
    cbn [negb]; [|exists false; naive_solver].
  rewrite Hsent, Howed.
  assert (dec_div (dec_of_int (10000 - 100)) (dec_of_int 10000) = Ok (DFin false 99 (-2))) as ->
    by (vm_compute; reflexivity).
  assert (dec_mul (DFin on oc oe) (DFin false 99 (-2)) = Ok (DFin on (oc * 99) (oe - 2))) as Hmul.
  { unfold dec_mul, dec_fix. rewrite xorb_false_r. unfold DEC_EMAX, DEC_ETINY, DEC_PREC.
    destruct (Z.eqb_spec (oc * 99) 0) as [->|H0]; [do 2 f_equal; lia|].
    assert (0 < oc * 99 < 10 ^ 28) as Hr by lia. pose proof (ndigits_le _ _ Hr).
    pose proof (ndigits_spec _ (proj1 Hr)) as [? _].
    destruct (Z.ltb_spec (999999 - 28 + 1) (ndigits (oc * 99) + (oe + -2) - 28)); [lia|].
    destruct (Z.ltb_spec (oe + -2)
      (Z.max (ndigits (oc * 99) + (oe + -2) - 28) (-999999 - (28 - 1)))); [lia|].
    do 2 f_equal. }
  cbn [mbind result_bind]. rewrite Hmul. cbn [mbind result_bind dec_ge].
  set (k := - Z.min se (oe - 2)).
  assert (scaled_value k (DFin on (oc * 99) (oe - 2)) = 99 * scaled_value (k - 2) (DFin on oc oe)) as ->.
  { cbn [scaled_value]. replace (oe - 2 + k) with (oe + (k - 2)) by lia. lia. }
  eexists. split; [reflexivity|]. rewrite Z.leb_le. naive_solver.
Qed.

Definition sample_invoice : Invoice :=
  mkInvoice "cz1" "a" "tokens-1m" 1000000 (mkMoney 8000000) "USDC" "8.0000000" "GDEST" 0 1 PENDING
    "pack" EmptyString EmptyString.
Definition sample_payment (sent : string) : ObservedPayment :=
  mkPayment "tx" "GFROM" "GDEST" "usdc" sent "cz1" 0.
Lemma settles_exactly_witness : settles (sample_payment "7.92") sample_invoice 100 = Ok true.
Proof.
  destruct (settles_exactly (sample_payment "7.92") sample_invoice false 792 (-2) false 80000000 (-7)
    eq_refl eq_refl) as (b & Hb & Hiff); [lia|lia|].
  rewrite Hb. f_equal. apply Hiff. repeat (split; [reflexivity|]). vm_compute. discriminate.
Defined.

(** ** The shipped catalog *)

(** The shipped catalog builds: seven products under distinct names, each
    found under its own, the free plan worth 833,333 tokens a week, the packs not
    accepted as plans, and the prices and tokens that are advertised. *)
Theorem default_catalog_sound :
  ∃ p c, default_pricing = Ok p ∧ default_catalog p = Ok c
    ∧ NoDup (product_id <$> everything c)
    ∧ Forall (λ x, catalog_product c (product_id x) = Ok x) (everything c)
    ∧ catalog_plan c FREE_PLAN_ID
      = Ok (mkPlan FREE_PLAN_ID "Free" (mkMoney 0) 833333 WEEKLY
              "US$ 5 en tokens por semana, sin pagar nada. Se renueva solo y no se acumula." true)
    ∧ catalog_plan c "tokens-1m" = Raise (UnknownProductError "tokens-1m")
    ∧ map (λ x, (micros (product_price x), product_tokens x)) (everything c)
      = [(0, 833333); (19000000, 4000000); (49000000, 12000000); (149000000, 40000000);
         (8000000, 1000000); (35000000, 5000000); (120000000, 20000000)].
Proof.
  eexists _, _. split; [vm_compute; reflexivity|]. split; [vm_compute; reflexivity|].
  split; [apply (bool_decide_unpack _); vm_compute; exact I|].
  split; [repeat constructor|]. split_and!; vm_compute; reflexivity.
Qed.
