(* ===== verification/Identity.v ===== *)
(** * Identity: proving who calls *)
(** [application/identity_service.py].  A challenge and a session are both a JSON
    document sealed under one HMAC key; nothing is stored.  The signature check is the
    port [SignatureVerifier] of [domain/ports.py]; the clock and the nonce are drawn
    from the world. *)
From S2P Require Export PyJsonFacts PyBase64 Sha256 Billing.
From Stdlib Require Import Ascii.
From stdpp Require Import options.
Local Open Scope Z_scope.

(** ** Addresses *)

(** [[A-Z2-7]] *)
Definition base32_char (c : ascii) : bool :=
  ((65 <=? ascii_code c) && (ascii_code c <=? 90)) || ((50 <=? ascii_code c) && (ascii_code c <=? 55)).
(** [\AG[A-Z2-7]{55}\Z] *)
Definition is_address (value : string) : bool :=
  match value with
  | String g rest => Ascii.eqb g "G" && (byte_len rest =? 55) && str_all base32_char rest
  | EmptyString => false
  end.

Definition CHALLENGE_TTL_S : Z := 300.
Definition SESSION_TTL_S : Z := 12 * 3600.
Definition MAX_TOKEN_BYTES : Z := 4096.

Record Challenge : Type := mkChallenge {
  ch_address : string;
  ch_nonce : string;
  ch_issued_at : Z;
  ch_audience : string
}.
Definition challenge_message (c : Challenge) : string :=
  "CodeZard sign-in" ++s String nl ("account: " ++s ch_address c
  ++s String nl ("audience: " ++s ch_audience c
  ++s String nl ("issued: " ++s int_str (ch_issued_at c)
  ++s String nl ("nonce: " ++s ch_nonce c)))).
Definition challenge_expired (c : Challenge) (now : Z) : bool :=
  CHALLENGE_TTL_S <? now - ch_issued_at c.
Definition challenge_as_json (c : Challenge) (token : string) : json :=
  JObj [("address", JStr (ch_address c)); ("message", JStr (challenge_message c));
        ("challenge", JStr token); ("expires_in", JInt CHALLENGE_TTL_S)]%string.

Record Session : Type := mkSession {
  session_address : string;
  session_expires_at : Z
}.
Definition session_as_json (s : Session) (token : string) : json :=
  JObj [("address", JStr (session_address s)); ("token", JStr token);
        ("expires_at", JInt (session_expires_at s))]%string.

(** The port.  [verify] never raises. *)
Record SignatureVerifier : Type := mkVerifier {
  available : bool;
  verify_signature : string → string → string → bool
}.

Record IdentityService : Type := mkIdentity {
  id_verifier : SignatureVerifier;
  id_secret : string;
  id_audience : string;
  id_session_ttl_s : Z
}.

(** [text.encode("utf-8")]: a lone surrogate has no encoding. *)
Definition encode_utf8 (s : string) : result exn string :=
  if text s then Ok s else Raise (ValueError "'utf-8' codec can't encode: surrogates not allowed").

(** [__init__] *)
Definition identity_service (verifier : SignatureVerifier) (secret audience : string)
    (session_ttl_s : Z) : result exn IdentityService :=
  if negb (str_truthy secret)
  then Raise (ValueError "identity needs a signing secret (GATEWAY_BILLING__SECRET)")
  else secret ← encode_utf8 secret; mret (mkIdentity verifier secret audience session_ttl_s).

(** ** Sealing *)

Definition b64_text (data : string) : string := rstrip_char b64_pad (urlsafe_b64encode data).
Definition unb64_text (text : string) : option string :=
  urlsafe_b64decode (text ++s str_repeat (Z.to_nat ((- py_len text) mod 4)) (str1 b64_pad)).

Definition mac (svc : IdentityService) (body : string) : string := hmac_sha256 (id_secret svc) body.

(** [_seal] *)
Definition seal (svc : IdentityService) (claims : dict json) : string :=
  let body := dumps_compact (sort_keys (JObj claims)) in
  b64_text body ++s String "." (b64_text (mac svc body)).

(** [_open] *)
Definition open_token (svc : IdentityService) (token : string) : result exn (dict json) :=
  let raw := str_strip token in
  if negb (str_truthy raw) || (MAX_TOKEN_BYTES <? py_len raw)
  then Raise (IdentityError "no token was sent")
  else
    let '(head, _, tail) := str_partition "." raw in
    if negb (str_truthy tail) then Raise (IdentityError "that token is malformed")
    else
      match unb64_text head, unb64_text tail with
      | Some body, Some signature =>
          if negb (String.eqb signature (mac svc body))
          then Raise (IdentityError "that token was not issued by this gateway")
          else
            match loads body with
            | Some (JObj claims) => Ok claims
            | _ => Raise (IdentityError "that token is malformed")
            end
      | _, _ => Raise (IdentityError "that token is malformed")
      end.

(** [int(claims.get(k) or 0)] *)
Definition int_claim (k : string) (claims : dict json) : result exn Z :=
  py_int (jor (jget k (JObj claims)) (JInt 0)).
(** [str(claims.get(k) or "")] *)
Definition str_claim (k : string) (claims : dict json) : string :=
  str_or_empty (jget k (JObj claims)).

(** ** The two moves *)

Section moves.
(** [int(time.time())] and [secrets.token_hex(16)]. *)
Context {W : Type} (clock : M W exn Z) (token_hex : M W exn string) (svc : IdentityService).

Definition challenge_claims (c : Challenge) : dict json :=
  [("a", JStr (ch_address c)); ("n", JStr (ch_nonce c)); ("i", JInt (ch_issued_at c));
   ("d", JStr (ch_audience c))]%string.

Definition challenge (address : string) : M W exn (Challenge * string) :=
  if negb (is_address address)
  then raise (IdentityError "that is not a Stellar public key")
  else if negb (available (id_verifier svc))
  then raise (UnverifiableError ("this gateway cannot verify signatures: the Stellar dependency is not "
    ++s "installed (pip install -e " ++s quoted ".[stellar]" ++s ")"))
  else
    nonce ← token_hex;
    now ← clock;
    let c := mkChallenge address nonce now (id_audience svc) in
    mret (c, seal svc (challenge_claims c)).

Definition session_claims (s : Session) : dict json :=
  [("a", JStr (session_address s)); ("e", JInt (session_expires_at s))]%string.

Definition verify (token signature : string) : M W exn (Session * string) :=
  claims ← lift (open_token svc token);
  issued_at ← lift (int_claim "i" claims);
  let c := mkChallenge (str_claim "a" claims) (str_claim "n" claims) issued_at (str_claim "d" claims) in
  if negb (String.eqb (ch_audience c) (id_audience svc))
  then raise (IdentityError "that challenge was issued for a different service")
  else
    now ← clock;
    if challenge_expired c now
    then raise (IdentityError "that challenge expired; ask for a new one")
    else if negb (available (id_verifier svc))
    then raise (UnverifiableError "this gateway cannot verify signatures")
    else
      message ← lift (encode_utf8 (challenge_message c));
      if negb (verify_signature (id_verifier svc) (ch_address c) message signature)
      then raise (IdentityError "the signature does not match that account")
      else
        now ← clock;
        let s := mkSession (ch_address c) (now + id_session_ttl_s svc) in
        mret (s, seal svc (session_claims s)).

Definition account_of (token : string) : M W exn string :=
  claims ← lift (open_token svc token);
  let address := str_claim "a" claims in
  expires_at ← lift (int_claim "e" claims);
  if negb (is_address address) then raise (IdentityError "that token does not name an account")
  else
    now ← clock;
    if expires_at <=? now then raise (IdentityError "that session expired; sign in again")
    else mret address.
End moves.

(** ** The text of sealed bytes *)

(** What holds of the URL-safe alphabet holds of the unpadded text. *)
Lemma b64_text_all p s :
  (∀ v, 0 <= v < 64 → p (to_urlsafe (b64_char v)) = true) → str_all p (b64_text s) = true.
Proof.
  intros H. unfold b64_text. rewrite (proj1 (urlsafe_strip_pad s)), str_all_map. by apply b64_body_all.
Qed.
Lemma b64_text_ascii s : ascii_text (b64_text s) = true.
Proof. apply b64_text_all. intros v Hv. apply (b64_char_spec v Hv). Qed.
Lemma b64_text_no_dot s : has_char "." (b64_text s) = false.
Proof.
  unfold has_char, str_any. apply negb_false_iff, b64_text_all. intros v Hv.
  destruct (b64_char_spec v Hv) as (_ & _ & _ & _ & H & _). rewrite Ascii.eqb_sym.
  cbn beta zeta in H. by rewrite H.
Qed.
Lemma b64_text_no_space s : str_all (λ c, negb (space_char c)) (b64_text s) = true.
Proof.
  apply b64_text_all. intros v Hv. destruct (b64_char_spec v Hv) as (_ & _ & _ & _ & _ & _ & H & _).
  cbn beta zeta in H. by rewrite H.
Qed.
Lemma b64_text_round_trip s : unb64_text (b64_text s) = Some s.
Proof.
  unfold unb64_text. rewrite py_len_ascii by apply b64_text_ascii.
  unfold b64_text. destruct (urlsafe_strip_pad s) as [-> ->]. apply urlsafe_b64decode_encode.
Qed.
Lemma b64_text_length s : byte_len (b64_text s) <= 4 * ((byte_len s + 2) / 3).
Proof.
  unfold b64_text. rewrite (proj1 (urlsafe_strip_pad s)), <- b64encode_length, b64encode_body, byte_len_app.
  unfold byte_len. rewrite str_map_length. lia.
Qed.
Lemma b64_text_nonempty s : s ≠ EmptyString → str_truthy (b64_text s) = true.
Proof.
  intros Hs. apply str_truthy_spec. intros He. apply Hs.
  pose proof (b64_text_round_trip s) as H. rewrite He in H. by injection H.
Qed.

(** An HMAC is 32 bytes. *)
Lemma round_length h kw : length (round h kw) = length h.
Proof. unfold round. by destruct h as [|? [|? [|? [|? [|? [|? [|? [|? [|]]]]]]]]]. Qed.
Lemma compress_length h block : length h = 8%nat → length (compress h block) = 8%nat.
Proof.
  intros H. unfold compress. rewrite length_zip_with.
  assert (∀ l, length (foldl round h l) = 8%nat) as ->; [|lia].
  intros l. revert h H. induction l as [|kw l IH]; intros h H; cbn; [done|].
  apply IH. by rewrite round_length.
Qed.
Lemma hash_blocks_length fuel h msg : length h = 8%nat → length (hash_blocks fuel h msg) = 8%nat.
Proof.
  revert h msg. induction fuel as [|fuel IH]; intros h msg H; [done|]. cbn [hash_blocks].
  destruct msg; [done|]. by apply IH, compress_length.
Qed.
Lemma sha256_bytes_length msg : length (sha256_bytes msg) = 32%nat.
Proof.
  unfold sha256_bytes. pose proof (hash_blocks_length (length (pad msg)) initial_hash (pad msg) eq_refl) as H.
  destruct (hash_blocks _ _ _) as [|a [|b [|c [|d [|e [|f [|g [|h [|]]]]]]]]]; try done.
Qed.
Lemma of_bytes_length l : String.length (of_bytes l) = length l.
Proof. induction l as [|b l IH]; cbn; [done|]. by rewrite IH. Qed.
Lemma mac_length svc body : byte_len (mac svc body) = 32.
Proof. unfold mac, hmac_sha256, byte_len. by rewrite of_bytes_length, sha256_bytes_length. Qed.

(** ** Opening what was sealed *)

Lemma seal_parts svc claims :
  let body := dumps_compact (sort_keys (JObj claims)) in
  let token := seal svc claims in
  str_strip token = token ∧ py_len token = byte_len token
  ∧ str_partition "." token = (b64_text body, true, b64_text (mac svc body))
  ∧ str_truthy (b64_text (mac svc body)) = true.
Proof.
  intros body token. unfold token, seal. fold body. split_and!.
  - assert (str_all (λ c, negb (space_char c)) (b64_text body ++s String "." (b64_text (mac svc body))) = true)
      as Ha.
    { rewrite str_all_app, b64_text_no_space. cbn [str_all]. by rewrite b64_text_no_space. }
    unfold str_strip. rewrite lstrip_by_none by done. by apply rstrip_by_none.
  - apply py_len_ascii. rewrite str_all_app. cbn [str_all].
    by rewrite !(b64_text_ascii _ : str_all _ _ = true).
  - apply str_partition_first, b64_text_no_dot.
  - apply b64_text_nonempty. intros He. pose proof (mac_length svc body) as H. by rewrite He in H.
Qed.

Lemma open_seal svc claims claims' :
  sort_keys (JObj claims) = JObj claims' → plain_json (JObj claims') = true →
  byte_len (dumps_compact (JObj claims')) <= 3000 →
  open_token svc (seal svc claims) = Ok claims'.
Proof.
  intros Hs Hp Hl. destruct (seal_parts svc claims) as (H1 & H2 & H3 & H4).
  unfold open_token. rewrite H1, H2, H3, H4. rewrite Hs in *. rewrite !b64_text_round_trip.
  assert (1 <= byte_len (seal svc claims) <= MAX_TOKEN_BYTES) as [Hlo Hhi].
  { unfold seal. rewrite Hs, byte_len_app. set (b := dumps_compact (JObj claims')) in *.
    pose proof (b64_text_length b). pose proof (b64_text_length (mac svc b)) as Hm.
    rewrite mac_length in Hm. change (4 * ((32 + 2) / 3)) with 44 in Hm.
    assert (4 * ((byte_len b + 2) / 3) <= 4004) by (Z.div_mod_to_equations; lia).
    unfold byte_len in *. cbn [String.length]. unfold MAX_TOKEN_BYTES. rewrite Nat2Z.inj_succ.
    lia. }
  assert (str_truthy (seal svc claims) = true) as ->.
  { apply str_truthy_spec. intros He. rewrite He in Hlo. change (1 <= 0) in Hlo. lia. }
  rewrite (proj2 (Z.ltb_ge _ _)) by done. cbn [negb orb]. rewrite String.eqb_refl. cbn [negb].
  rewrite loads_dumps_compact by done. done.
Qed.

(** ** The size of a sealed document *)

Lemma escape_code_bound n :
  0 <= n → (String.length (escape_code n) ≤ 6 * String.length (utf8_encode n))%nat.
Proof.
  intros Hn. assert (∀ m, String.length (escape_u m) = 6%nat) as Hu by done.
  assert (1 ≤ String.length (utf8_encode n))%nat as H1
    by (unfold utf8_encode; repeat case_match; cbn; lia).
  assert (65536 <= n → String.length (utf8_encode n) = 4%nat) as H4.
  { intros H. unfold utf8_encode. by rewrite !(proj2 (Z.ltb_ge n _)) by lia. }
  unfold escape_code.
  repeat match goal with |- context [n =? ?k] => destruct (n =? k); [cbn [String.length str1]; lia|] end.
  destruct ((32 <=? n) && (n <? 127)); [cbn [String.length str1]; lia|].
  destruct (Z.ltb_spec n 65536); [rewrite Hu; lia|]. rewrite str_length_app, !Hu, H4 by lia. lia.
Qed.
Lemma dumps_str_length s : text s = true → byte_len (dumps_str s) <= 2 + 6 * byte_len s.
Proof.
  unfold text, dumps_str. destruct (utf8_decode s) as [l|] eqn:Hd; [|done]. intros _.
  change (default [] (Some l)) with l.
  destruct (utf8_decode_encode _ s l (le_n _) Hd) as [He Hr].
  assert (String.length (str_join EmptyString (map escape_code l)) ≤ 6 * String.length (encode_all l))%nat
    as Hb.
  { clear He Hd. unfold encode_all. induction Hr as [|n l Hn _ IH]; [done|]. cbn [map].
    rewrite !str_join_nil_cons, !str_length_app. pose proof (escape_code_bound n (proj1 Hn)). lia. }
  rewrite He in Hb. unfold byte_len. cbn [String.length]. rewrite str_length_app. cbn [String.length str1]. lia.
Qed.
Lemma ascii_is_text s : ascii_text s = true → text s = true.
Proof.
  unfold ascii_text, text. intros Hs.
  assert (∃ l, utf8_decode s = Some l ∧ forallb scalar l = true) as (l & -> & Hl); [|done].
  induction s as [|c s IH]; [by exists []|]. cbn [str_all utf8_decode] in *.
  apply andb_true_iff in Hs as [Hc Hs]. rewrite Hc. destruct (IH Hs) as (l & -> & Hl).
  exists (ascii_code c :: l). split; [done|]. cbn [forallb]. rewrite Hl, andb_true_r.
  unfold scalar, high_surrogate, low_surrogate. pose proof (code_range c). bool_to_Z.
  rewrite (proj2 (Z.leb_le 0 _)), (proj2 (Z.ltb_lt _ 1114112)) by lia.
  rewrite (proj2 (Z.leb_gt 55296 _)), (proj2 (Z.leb_gt 56320 _)) by lia. done.
Qed.

Lemma address_facts a : is_address a = true → text a = true ∧ byte_len a = 56 ∧ a ≠ EmptyString.
Proof.
  destruct a as [|g r]; [done|]. cbn [is_address]. rewrite !andb_true_iff. intros [[Hg Hl] Hr].
  split_and!; [|unfold byte_len in *; cbn [String.length]; bool_to_Z; lia|done].
  apply ascii_is_text. unfold ascii_text. cbn [str_all]. apply andb_true_iff. split.
  - apply Ascii.eqb_eq in Hg as ->. done.
  - eapply str_all_impl; [|exact Hr]. intros c; all_ascii c.
Qed.

Lemma int_fits n : 0 <= n < 10 ^ 12 → int_ok n = true ∧ byte_len (int_str n) <= 12.
Proof.
  intros H. pose proof (int_str_length n 12 ltac:(cbn; lia) ltac:(lia)) as Hl.
  unfold int_ok, MAX_INT_DIGITS, byte_len in *. rewrite Z.abs_eq by lia. split; [apply Z.leb_le|]; lia.
Qed.

(** A challenge and a session of ordinary size are sealed and opened again. *)
Definition fits (c : Challenge) : Prop :=
  is_address (ch_address c) = true ∧ text (ch_nonce c) = true ∧ byte_len (ch_nonce c) <= 64
  ∧ text (ch_audience c) = true ∧ byte_len (ch_audience c) <= 256
  ∧ 0 <= ch_issued_at c < 10 ^ 12.

Lemma open_challenge svc c :
  fits c →
  open_token svc (seal svc (challenge_claims c))
  = Ok [("a", JStr (ch_address c)); ("d", JStr (ch_audience c)); ("i", JInt (ch_issued_at c));
        ("n", JStr (ch_nonce c))]%string.
Proof.
  intros (Ha & Hn & Hnl & Hd & Hdl & Hi). destruct (address_facts _ Ha) as (Hat & Hal & _).
  destruct (int_fits _ Hi) as [Hok Hil]. apply open_seal; [done| |].
  - cbn [plain_json]. apply andb_true_iff. split; [by vm_compute|].
    cbn [forallb fst snd plain_json]. by rewrite Hat, Hd, Hok, Hn.
  - unfold dumps_compact. cbn [dumps_sep map str_join fst snd].
    rewrite !byte_len_app. pose proof (dumps_str_length _ Hat). pose proof (dumps_str_length _ Hd).
    pose proof (dumps_str_length _ Hn).
    repeat match goal with |- context [byte_len (dumps_str ?s)] =>
      lazymatch s with String _ EmptyString =>
        change (byte_len (dumps_str s)) with 3 end end.
    repeat match goal with |- context [byte_len ?s] =>
      lazymatch s with String _ EmptyString => change (byte_len s) with 1 end end. lia.
Qed.
Lemma open_session svc s :
  is_address (session_address s) = true → 0 <= session_expires_at s < 10 ^ 12 →
  open_token svc (seal svc (session_claims s))
  = Ok [("a", JStr (session_address s)); ("e", JInt (session_expires_at s))]%string.
Proof.
  intros Ha He. destruct (address_facts _ Ha) as (Hat & Hal & _).
  destruct (int_fits _ He) as [Hok Hil]. apply open_seal; [done| |].
  - cbn [plain_json]. apply andb_true_iff. split; [by vm_compute|].
    cbn [forallb fst snd plain_json]. by rewrite Hat, Hok.
  - unfold dumps_compact. cbn [dumps_sep map str_join fst snd].
    rewrite !byte_len_app. pose proof (dumps_str_length _ Hat).
    repeat match goal with |- context [byte_len (dumps_str ?s)] =>
      lazymatch s with String _ EmptyString =>
        change (byte_len (dumps_str s)) with 3 end end.
    repeat match goal with |- context [byte_len ?s] =>
      lazymatch s with String _ EmptyString => change (byte_len s) with 1 end end. lia.
Qed.

(** ** What a sealed token is *)

(** A token of this gateway: a document and its MAC. *)
Definition sealed (svc : IdentityService) (token : string) (claims : dict json) : Prop :=
  let raw := str_strip token in
  raw ≠ EmptyString ∧ py_len raw <= MAX_TOKEN_BYTES
  ∧ ∃ head tail body, str_partition "." raw = (head, true, tail)
      ∧ unb64_text head = Some body ∧ unb64_text tail = Some (mac svc body)
      ∧ loads body = Some (JObj claims).

Lemma open_token_sealed svc token claims :
  open_token svc token = Ok claims ↔ sealed svc token claims.
Proof.
  unfold open_token, sealed. set (raw := str_strip token). cbn zeta. split.
  - destruct (str_truthy raw) eqn:Hr; [|done]. destruct (Z.ltb_spec MAX_TOKEN_BYTES (py_len raw)); [done|].
    cbn [negb orb]. destruct (str_partition "." raw) as [[head f] tail] eqn:Hp.
    destruct (str_truthy tail) eqn:Ht; [|done]. cbn [negb].
    destruct (unb64_text head) as [body|] eqn:Hb; [|done].
    destruct (unb64_text tail) as [sg|] eqn:Hs; [|done].
    destruct (String.eqb_spec sg (mac svc body)) as [->|]; [|done]. cbn [negb].
    destruct (loads body) as [[]|] eqn:Hl; try done. intros [= ->].
    apply str_truthy_spec in Hr. split_and!; [done|lia|]. destruct f.
    * by exists head, tail, body.
    * destruct (str_partition_spec _ _ _ _ _ Hp) as (_ & _ & Hf). by rewrite (Hf eq_refl) in Ht.
  - intros (Hr & Hl & head & tail & body & Hp & Hb & Hs & Hj). rewrite Hp, Hb, Hs, Hj.
    rewrite (proj2 (str_truthy_spec raw)) by done. rewrite (proj2 (Z.ltb_ge _ _)) by done.
    cbn [negb orb]. assert (str_truthy tail = true) as ->.
    { apply str_truthy_spec. intros ->. change (unb64_text EmptyString) with (Some EmptyString) in Hs.
      injection Hs as Hs. pose proof (mac_length svc body) as Hm. by rewrite <- Hs in Hm. }
    cbn [negb]. by rewrite String.eqb_refl.
Qed.

(** Opening a token succeeds exactly on a document sealed under this gateway's own
    key: every other input, whatever its bytes, is an [IdentityError] and nothing else. *)
Theorem open_token_exact svc token :
  (∀ claims, open_token svc token = Ok claims ↔ sealed svc token claims)
  ∧ (∀ e, open_token svc token = Raise e → class_of e = cIdentityError).
Proof.
  split; [apply open_token_sealed|]. unfold open_token. set (raw := str_strip token).
  intros e. destruct (_ || _); [by intros [= <-]|].
  destruct (str_partition "." raw) as [[head f] tail].
  destruct (negb _); [by intros [= <-]|].
  destruct (unb64_text head) as [body|]; [|by intros [= <-]].
  destruct (unb64_text tail); [|by intros [= <-]]. destruct (negb _); [by intros [= <-]|].
  by destruct (loads body) as [[]|]; try intros [= <-].
Qed.

(** ** The theorems of the two moves *)

Section sign_in.
Context {W : Type} (clock : M W exn Z) (token_hex : M W exn string) (svc : IdentityService).

Lemma message_text c : fits c → encode_utf8 (challenge_message c) = Ok (challenge_message c).
Proof.
  intros (Ha & Hn & _ & Hd & _ & Hi). destruct (address_facts _ Ha) as (Hat & _).
  unfold encode_utf8. assert (text (challenge_message c) = true) as ->; [|done].
  unfold challenge_message.
  assert (∀ s, text s = true → text (String nl s) = true) as Hnl
    by (intros s; exact (text_app (str1 nl) s eq_refl)).
  assert (text (int_str (ch_issued_at c)) = true) as Hit by apply ascii_is_text, int_str_ascii.
  repeat first [done | apply text_app | apply Hnl].
Qed.

(** C12. Signing in works: a challenge issued for a well-formed address is accepted with a
    signature the verifier approves, as long as five minutes have not passed, and the
    session token it earns names that address until the moment it expires. *)
Theorem sign_in_round_trip address nonce signature w0 w1 w2 wv wv1 wv2 wa wa1 t0 t1 t1' t2 :
  let c := mkChallenge address nonce t0 (id_audience svc) in
  let s := mkSession address (t1' + id_session_ttl_s svc) in
  fits c → available (id_verifier svc) = true →
  verify_signature (id_verifier svc) address (challenge_message c) signature = true →
  token_hex w0 = (Ok nonce, w1) → clock w1 = (Ok t0, w2) →
  clock wv = (Ok t1, wv1) → t1 - t0 <= CHALLENGE_TTL_S → clock wv1 = (Ok t1', wv2) →
  clock wa = (Ok t2, wa1) → 0 <= session_expires_at s < 10 ^ 12 →
  ∃ token session_token,
    challenge clock token_hex svc address w0 = (Ok (c, token), w2)
    ∧ verify clock svc token signature wv = (Ok (s, session_token), wv2)
    ∧ account_of clock svc session_token wa
      = (if session_expires_at s <=? t2 then Raise (IdentityError "that session expired; sign in again")
         else Ok address, wa1).
Proof.
  intros c s Hfit Hav Hsig Hhex Hc0 Hc1 Httl Hc1' Hc2 Hexp.
  assert (is_address address = true) as Haddr by apply Hfit.
  destruct (address_facts _ Haddr) as (_ & _ & Hane).
  exists (seal svc (challenge_claims c)), (seal svc (session_claims s)). split_and!.
  - unfold challenge. rewrite Haddr, Hav. cbn [negb]. autorewrite with gw_run. rewrite Hhex.
    autorewrite with gw_run. by rewrite Hc0.
  - unfold verify. autorewrite with gw_run. rewrite (open_challenge svc c Hfit).
    assert (int_claim "i" [("a", JStr address); ("d", JStr (id_audience svc)); ("i", JInt t0);
              ("n", JStr nonce)]%string = Ok t0) as Hi.
    { unfold int_claim, jor. cbn. destruct (Z.eqb_spec t0 0) as [->|]; done. }
    change (ch_address c) with address. change (ch_nonce c) with nonce.
    change (ch_issued_at c) with t0. change (ch_audience c) with (id_audience svc).
    rewrite Hi. autorewrite with gw_run. unfold str_claim.
    assert (∀ k v, jget k (JObj [("a", JStr address); ("d", JStr (id_audience svc)); ("i", JInt t0);
              ("n", JStr nonce)]%string) = JStr v → str_or_empty (jget k (JObj [("a", JStr address);
              ("d", JStr (id_audience svc)); ("i", JInt t0); ("n", JStr nonce)]%string)) = v) as Hstr
      by (intros k v ->; apply str_or_empty_str).
    rewrite (Hstr "a"%string address), (Hstr "n"%string nonce), (Hstr "d"%string (id_audience svc))
      by reflexivity.
    fold c. assert (String.eqb (ch_audience c) (id_audience svc) = true) as -> by apply String.eqb_refl.
    cbn [negb].
    autorewrite with gw_run. rewrite Hc1.
    assert (challenge_expired c t1 = false) as -> by (apply Z.ltb_ge; exact Httl).
    rewrite Hav. cbn [negb]. autorewrite with gw_run. rewrite (message_text c Hfit).
    autorewrite with gw_run. change (ch_address c) with address. rewrite Hsig. cbn [negb].
    autorewrite with gw_run. by rewrite Hc1'.
  - unfold account_of. autorewrite with gw_run. rewrite (open_session svc s Haddr Hexp).
    assert (int_claim "e" [("a", JStr address); ("e", JInt (session_expires_at s))]%string
            = Ok (session_expires_at s)) as He.
    { generalize (session_expires_at s). intros n. unfold int_claim, jor. cbn.
      destruct (Z.eqb_spec n 0) as [->|]; done. }
    change (session_address s) with address. rewrite He.
    assert (str_claim "a" [("a", JStr address); ("e", JInt (session_expires_at s))]%string = address)
      as -> by apply str_or_empty_str.
    rewrite Haddr. cbn [negb]. autorewrite with gw_run. rewrite Hc2. by destruct (_ <=? t2).
Qed.

(** A session token is no answer to a challenge, and a challenge is no session: the one
    is refused as another service's, the other as expired, whoever signed. *)
Theorem tokens_kept_apart c s signature w wa wa1 t :
  fits c → is_address (session_address s) = true → 0 <= session_expires_at s < 10 ^ 12 →
  id_audience svc ≠ EmptyString → clock wa = (Ok t, wa1) → 0 <= t →
  verify clock svc (seal svc (session_claims s)) signature w
  = (Raise (IdentityError "that challenge was issued for a different service"), w)
  ∧ account_of clock svc (seal svc (challenge_claims c)) wa
    = (Raise (IdentityError "that session expired; sign in again"), wa1).
Proof.
  intros Hfit Ha He Haud Hclock Ht. split.
  - unfold verify. autorewrite with gw_run. rewrite (open_session svc s Ha He).
    change (int_claim "i" _) with (Ok (E:=exn) 0). cbn [ch_audience].
    change (str_claim "d" _) with EmptyString.
    rewrite (proj2 (String.eqb_neq _ _)) by congruence. done.
  - unfold account_of. autorewrite with gw_run. rewrite (open_challenge svc c Hfit).
    change (int_claim "e" _) with (Ok (E:=exn) 0). cbn iota beta.
    assert (str_claim "a" [("a", JStr (ch_address c)); ("d", JStr (ch_audience c));
              ("i", JInt (ch_issued_at c)); ("n", JStr (ch_nonce c))]%string = ch_address c) as ->
      by apply str_or_empty_str.
    rewrite (proj1 Hfit). cbn [negb]. autorewrite with gw_run. rewrite Hclock.
    by rewrite (proj2 (Z.leb_le 0 t)).
Qed.

(** C23. Nobody signs in unproved: a session is only ever given for the address inside a
    challenge this gateway sealed for its own audience, not older than five minutes, whose
    message the verifier says that very address signed; and it expires when it should. *)
Theorem verify_sound token signature w w' s session_token :
  verify clock svc token signature w = (Ok (s, session_token), w') →
  ∃ claims c now now' w1,
    sealed svc token claims
    ∧ c = mkChallenge (str_claim "a" claims) (str_claim "n" claims) (ch_issued_at c) (id_audience svc)
    ∧ str_claim "d" claims = id_audience svc ∧ int_claim "i" claims = Ok (ch_issued_at c)
    ∧ clock w = (Ok now, w1) ∧ now - ch_issued_at c <= CHALLENGE_TTL_S
    ∧ available (id_verifier svc) = true
    ∧ verify_signature (id_verifier svc) (ch_address c) (challenge_message c) signature = true
    ∧ clock w1 = (Ok now', w')
    ∧ s = mkSession (ch_address c) (now' + id_session_ttl_s svc)
    ∧ session_token = seal svc (session_claims s).
Proof.
  unfold verify. intros H.
  apply bind_ok_inv in H as (claims & s1 & H1 & H). apply (f_equal fst) in H1 as Hop.
  apply (f_equal snd) in H1. cbn in Hop, H1. subst s1. apply open_token_sealed in Hop.
  apply bind_ok_inv in H as (issued & s1 & H1 & H). apply (f_equal fst) in H1 as Hi.
  apply (f_equal snd) in H1. cbn in Hi, H1. subst s1. cbn [ch_audience] in H.
  destruct (String.eqb_spec (str_claim "d" claims) (id_audience svc)) as [Hd|]; [|done]. cbn [negb] in H.
  apply bind_ok_inv in H as (now & w1 & Hc & H).
  set (c := mkChallenge _ _ _ _) in H.
  destruct (challenge_expired c now) eqn:Hx; [done|].
  destruct (available (id_verifier svc)) eqn:Hav; [|done]. cbn [negb] in H.
  apply bind_ok_inv in H as (message & s1 & Hm & H). unfold lift, encode_utf8 in Hm.
  destruct (text (challenge_message c)); [|done]. injection Hm as <- <-.
  destruct (verify_signature _ _ _ _) eqn:Hv; [|done]. cbn [negb] in H.
  apply bind_ok_inv in H as (now' & w2 & Hc' & H). injection H as <- <- <-.
  exists claims, c, now, now', w1. split_and!; try done.
  - unfold c. by rewrite Hd.
  - by apply Z.ltb_ge in Hx.
Qed.

(** A session token proves an account only while it lasts: what [account_of] answers
    is a well-formed address, named by a document under this gateway's key whose expiry
    the clock has not reached. *)
Theorem account_of_sound token w w' address :
  account_of clock svc token w = (Ok address, w') →
  is_address address = true
  ∧ ∃ claims expires now, sealed svc token claims ∧ str_claim "a" claims = address
      ∧ int_claim "e" claims = Ok expires ∧ clock w = (Ok now, w') ∧ now < expires.
Proof.
  unfold account_of. intros H.
  apply bind_ok_inv in H as (claims & s1 & H1 & H). apply (f_equal fst) in H1 as Hop.
  apply (f_equal snd) in H1. cbn in Hop, H1. subst s1. apply open_token_sealed in Hop.
  apply bind_ok_inv in H as (expires & s1 & H1 & H). apply (f_equal fst) in H1 as He.
  apply (f_equal snd) in H1. cbn in He, H1. subst s1.
  destruct (is_address _) eqn:Ha; [|done]. cbn [negb] in H.
  apply bind_ok_inv in H as (now & w1 & Hc & H). destruct (Z.leb_spec expires now); [done|].
  injection H as <- <-. split; [done|]. exists claims, expires, now. split_and!; try done.
Qed.
End sign_in.

(** ** A concrete gateway *)

(** A verifier that approves one signature, and a world that is its clock. *)
Definition demo_verifier : SignatureVerifier :=
  mkVerifier true (λ _ _ signature, String.eqb signature "signed").
Definition demo_identity : IdentityService :=
  mkIdentity demo_verifier "server secret" "codezard" SESSION_TTL_S.
Definition demo_address : string := "G" ++s str_repeat 55 "A".
Definition ticking : M Z exn Z := λ t, (Ok t, t + 1).
Definition demo_nonce : M Z exn string := λ t, (Ok "00112233445566778899aabbccddeeff"%string, t).
Definition demo_challenge : Challenge :=
  mkChallenge demo_address "00112233445566778899aabbccddeeff" 1700000000 "codezard".
Definition demo_session : Session := mkSession demo_address 1700043300.

Lemma demo_fits : fits demo_challenge.
Proof. unfold fits. by vm_compute. Qed.

Lemma open_token_exact_witness :
  class_of (IdentityError "that token is malformed") = cIdentityError
  ∧ open_token demo_identity "eyJhIjoi.AAAA"
    = Raise (IdentityError "that token was not issued by this gateway").
Proof.
  split; [|vm_compute; reflexivity].
  apply (proj2 (open_token_exact demo_identity "no dot")). vm_compute. reflexivity.
Defined.

Lemma sign_in_round_trip_witness :
  ∃ token session_token,
    challenge ticking demo_nonce demo_identity demo_address 1700000000
      = (Ok (demo_challenge, token), 1700000001)
    ∧ verify ticking demo_identity token "signed" 1700000099
      = (Ok (demo_session, session_token), 1700000101)
    ∧ account_of ticking demo_identity session_token 1700040000 = (Ok demo_address, 1700040001).
Proof.
  apply (sign_in_round_trip ticking demo_nonce demo_identity demo_address
    "00112233445566778899aabbccddeeff" "signed" 1700000000 1700000000 1700000001
    1700000099 1700000100 1700000101 1700040000 1700040001 1700000000 1700000099 1700000100 1700040000);
    first [exact demo_fits | vm_compute; reflexivity | vm_compute; by split | done].
Defined.

Lemma tokens_kept_apart_witness :
  verify ticking demo_identity (seal demo_identity (session_claims demo_session)) "signed" 1700000100
    = (Raise (IdentityError "that challenge was issued for a different service"), 1700000100)
  ∧ account_of ticking demo_identity (seal demo_identity (challenge_claims demo_challenge)) 1700000100
    = (Raise (IdentityError "that session expired; sign in again"), 1700000101).
Proof.
  apply (tokens_kept_apart ticking demo_identity demo_challenge demo_session "signed"
    1700000100 1700000100 1700000101 1700000100);
    first [exact demo_fits | vm_compute; reflexivity | vm_compute; by split | done].
Defined.

Definition demo_token : string := seal demo_identity (challenge_claims demo_challenge).
Definition demo_session_token : string := seal demo_identity (session_claims demo_session).
Lemma demo_verified :
  verify ticking demo_identity demo_token "signed" 1700000099
  = (Ok (demo_session, demo_session_token), 1700000101).
Proof. vm_compute. reflexivity. Qed.
Lemma demo_accepted :
  account_of ticking demo_identity demo_session_token 1700040000 = (Ok demo_address, 1700040001).
Proof. vm_compute. reflexivity. Qed.

Lemma verify_sound_witness :
  ∃ claims, sealed demo_identity demo_token claims.
Proof.
  destruct (verify_sound ticking demo_identity demo_token "signed" 1700000099 1700000101
    demo_session demo_session_token demo_verified) as (claims & _ & _ & _ & _ & H & _).
  exists claims. exact H.
Defined.
Lemma account_of_sound_witness : is_address demo_address = true.
Proof.
  exact (proj1 (account_of_sound ticking demo_identity demo_session_token 1700040000 1700040001
    demo_address demo_accepted)).
Defined.
