(* ===== verification/BillingStore.v ===== *)
(** * The billing store *)
(** [domain/ports.py] ([BillingStore]), the promises the billing service relies on as
    a class with laws; and [infrastructure/billing/sqlite_store.py], the tables that
    keep them.  The class is the calls and what happens around each ([handed_over],
    [handed_back]); its laws are those of the tables ([TableLaws]) and, for the theorems that
    ask for a store nobody else uses, that nothing happens meanwhile ([Undisturbed]).  A
    row's columns are kept as the values they encode; integers must fit SQLite's 64 bits. *)
From S2P Require Export Billing.
From stdpp Require Import options.
Local Open Scope Z_scope.

(** ** The port *)

Class BillingStore (D : Type) : Type := {
  append : LedgerEntry → D → result exn LedgerEntry * D;
  entries : string → Z → D → list LedgerEntry;
  all_entries : string → D → list LedgerEntry;
  put_invoice : Invoice → D → result exn Invoice * D;
  invoice : string → D → option Invoice;
  open_invoices : Z → D → list Invoice;
  put_subscription : Subscription → D → result exn Subscription * D;
  subscription : string → D → option Subscription;
  (** Every call runs on a worker thread ([anyio.to_thread.run_sync]).  What happens to
      the store between the [await] and the call's turn, and between its turn and the
      moment its task goes on: what others do to it, and a cancellation of the task. *)
  handed_over : D → result exn unit * D;
  handed_back : D → result exn unit * D
}.

(** The entry recorded under a reference. *)
Definition find_reference (r : string) (l : list LedgerEntry) : option LedgerEntry :=
  if str_truthy r then snd <$> list_find (λ e, reference e = r) l else None.

(** What an entry must be for the tables to take it. *)
Definition int64 (n : Z) : bool := (- 2 ^ 63 <=? n) && (n <? 2 ^ 63).
Definition storable (e : LedgerEntry) : bool := int64 (entry_tokens e) && int64 (micros (amount e)).

(** The stored invoice after another version of it was put: only the settlement
    fields move. *)
Definition merge_invoice (old new : Invoice) : Invoice :=
  set_invoice old (status new) (tx_hash new) (payer new).

(** Two versions of an invoice that ask for the same. *)
Definition same_terms (i j : Invoice) : Prop :=
  invoice_id i = invoice_id j ∧ invoice_account i = invoice_account j ∧ sku i = sku j
  ∧ invoice_tokens i = invoice_tokens j ∧ price i = price j ∧ asset i = asset j
  ∧ settlement_amount i = settlement_amount j ∧ destination i = destination j
  ∧ created_at i = created_at j ∧ expires_at i = expires_at j
  ∧ invoice_kind i = invoice_kind j.

Global Instance same_terms_equiv : Equivalence same_terms.
Proof. unfold same_terms. split; repeat intro; intuition congruence. Qed.
Lemma merge_same_terms old new : same_terms old (merge_invoice old new).
Proof. by repeat split. Qed.

(** What a store promises: one append-only ledger in which a non-empty reference is
    recorded once, invoices whose terms never change, and one subscription per
    account. *)
Class TableLaws (D : Type) `{!BillingStore D} : Type := {
  ledger : D → list LedgerEntry;
  all_entries_ledger a d : all_entries a d = filter (λ e, entry_account e = a) (ledger d);
  append_known e d e' :
    find_reference (reference e) (ledger d) = Some e' → storable e = true →
    append e d = (Ok e', d);
  append_new e d :
    find_reference (reference e) (ledger d) = None → storable e = true →
    entry_id e ∉ entry_id <$> ledger d →
    (append e d).1 = Ok e ∧ ledger (append e d).2 = ledger d ++ [e];
  append_too_large e d : storable e = false → ∃ x, append e d = (Raise x, d) ∧ isinstance x cException = true;
  append_grows e d : ledger (append e d).2 = ledger d ∨ ledger (append e d).2 = ledger d ++ [e];
  append_invoice e d i : invoice i (append e d).2 = invoice i d;
  append_subscription e d a : subscription a (append e d).2 = subscription a d;
  invoice_key k d i : invoice k d = Some i → invoice_id i = k;
  put_invoice_ledger i d : ledger (put_invoice i d).2 = ledger d;
  put_invoice_subscription i d a : subscription a (put_invoice i d).2 = subscription a d;
  put_invoice_other i d k : k ≠ invoice_id i → invoice k (put_invoice i d).2 = invoice k d;
  put_invoice_known i d old :
    invoice (invoice_id i) d = Some old → (int64 (invoice_tokens i) && int64 (micros (price i))) = true →
    (put_invoice i d).1 = Ok i ∧ invoice (invoice_id i) (put_invoice i d).2 = Some (merge_invoice old i);
  put_invoice_answer i d j : (put_invoice i d).1 = Ok j → j = i;
  put_invoice_terms i d k old :
    invoice k d = Some old →
    ∃ new, invoice k (put_invoice i d).2 = Some new ∧ same_terms old new;
  subscription_key a d s : subscription a d = Some s → sub_account s = a;
  put_subscription_ledger s d : ledger (put_subscription s d).2 = ledger d;
  put_subscription_invoice s d i : invoice i (put_subscription s d).2 = invoice i d;
  put_subscription_spec s d :
    (put_subscription s d).1 = Ok s
    ∧ ∀ a, subscription a (put_subscription s d).2
           = if String.eqb a (sub_account s) then Some s else subscription a d
}.

(** Nobody else calls the store while a call waits, and its task is not cancelled
    there: the calls of one operation follow each other. *)
Class Undisturbed (D : Type) `{!BillingStore D} : Prop := {
  handed_over_quiet d : handed_over d = (Ok tt, d);
  handed_back_quiet d : handed_back d = (Ok tt, d)
}.

(** The store of an operation that runs alone. *)
Class BillingStoreLaws (D : Type) `{!BillingStore D} : Type := {
  laws_tables :: TableLaws D;
  laws_alone :: Undisturbed D
}.

(** ** SQLite *)

Record SqliteDb : Type := mkDb {
  ledger_rows : list LedgerEntry;
  invoice_rows : list Invoice;
  subscription_rows : list Subscription
}.
Definition empty_db : SqliteDb := mkDb [] [] [].

Definition too_large : exn := OverflowError "Python int too large to convert to SQLite INTEGER".
Definition unique_failed : exn := IntegrityError "UNIQUE constraint failed".

(** The two unique indexes of the ledger refuse this row. *)
Definition refused (e : LedgerEntry) (l : list LedgerEntry) : bool :=
  bool_decide (entry_id e ∈ entry_id <$> l)
  || (str_truthy (reference e) && bool_decide (reference e ∈ reference <$> l)).

(** [_append] *)
Definition sqlite_append (e : LedgerEntry) (d : SqliteDb) : result exn LedgerEntry * SqliteDb :=
  if negb (storable e) then (Raise too_large, d)
  else if refused e (ledger_rows d) then
    match find_reference (reference e) (ledger_rows d) with
    | Some existing => (Ok existing, d)
    | None => (Raise unique_failed, d)
    end
  else (Ok e, mkDb (ledger_rows d ++ [e]) (invoice_rows d) (subscription_rows d)).

Definition account_rows (account : string) (l : list LedgerEntry) : list LedgerEntry :=
  filter (λ e, entry_account e = account) l.

(** [entries]: the last [limit] rows, back in order. *)
Definition sqlite_entries (account : string) (limit : Z) (d : SqliteDb) : list LedgerEntry :=
  reverse (take (Z.to_nat (Z.max 1 limit)) (reverse (account_rows account (ledger_rows d)))).

Definition sqlite_all_entries (account : string) (d : SqliteDb) : list LedgerEntry :=
  account_rows account (ledger_rows d).

(** The upsert of [put_invoice]. *)
Fixpoint upsert_invoice (i : Invoice) (l : list Invoice) : list Invoice :=
  match l with
  | [] => [i]
  | j :: l' => if String.eqb (invoice_id j) (invoice_id i) then merge_invoice j i :: l'
               else j :: upsert_invoice i l'
  end.

Definition sqlite_put_invoice (i : Invoice) (d : SqliteDb) : result exn Invoice * SqliteDb :=
  if negb (int64 (invoice_tokens i) && int64 (micros (price i))) then (Raise too_large, d)
  else (Ok i, mkDb (ledger_rows d) (upsert_invoice i (invoice_rows d)) (subscription_rows d)).

Fixpoint find_invoice (k : string) (l : list Invoice) : option Invoice :=
  match l with
  | [] => None
  | j :: l' => if String.eqb (invoice_id j) k then Some j else find_invoice k l'
  end.

Definition created_before (i j : Invoice) : Prop := created_at i <= created_at j.
Global Instance created_before_dec : RelDecision created_before.
Proof. intros i j. unfold created_before. apply _. Defined.

(** [open_invoices] *)
Definition sqlite_open_invoices (limit : Z) (d : SqliteDb) : list Invoice :=
  take (Z.to_nat (Z.max 1 limit))
    (merge_sort created_before (filter (λ i, status i = PENDING) (invoice_rows d))).

(** The upsert of [put_subscription], and the row of an account. *)
Fixpoint upsert_subscription (s : Subscription) (l : list Subscription) : list Subscription :=
  match l with
  | [] => [s]
  | r :: l' => if String.eqb (sub_account r) (sub_account s) then s :: l'
               else r :: upsert_subscription s l'
  end.
Fixpoint find_subscription (a : string) (l : list Subscription) : option Subscription :=
  match l with
  | [] => None
  | r :: l' => if String.eqb (sub_account r) a then Some r else find_subscription a l'
  end.

Definition sqlite_put_subscription (s : Subscription) (d : SqliteDb)
    : result exn Subscription * SqliteDb :=
  (Ok s, mkDb (ledger_rows d) (invoice_rows d) (upsert_subscription s (subscription_rows d))).

Global Instance SqliteBillingStore : BillingStore SqliteDb := {|
  append := sqlite_append;
  entries := sqlite_entries;
  all_entries := sqlite_all_entries;
  put_invoice := sqlite_put_invoice;
  invoice k d := find_invoice k (invoice_rows d);
  open_invoices := sqlite_open_invoices;
  put_subscription := sqlite_put_subscription;
  subscription a d := find_subscription a (subscription_rows d);
  handed_over d := (Ok tt, d);
  handed_back d := (Ok tt, d)
|}.

(** ** The tables keep the promises *)

Lemma find_reference_Some r l e :
  find_reference r l = Some e → e ∈ l ∧ reference e = r ∧ r ≠ EmptyString.
Proof.
  unfold find_reference. destruct (str_truthy r) eqn:Hr; [|done].
  apply str_truthy_spec in Hr. intros H. apply fmap_Some in H as ([i e'] & Hf & ->).
  apply list_find_Some in Hf as (Hl & He & _). cbn. split; [|done].
  by apply list_elem_of_lookup_2 in Hl.
Qed.
Lemma find_reference_None r l :
  find_reference r l = None ↔ r = EmptyString ∨ r ∉ (reference <$> l).
Proof.
  unfold find_reference. destruct (str_truthy r) eqn:Hr.
  - apply str_truthy_spec in Hr. rewrite fmap_None, list_find_None, Forall_forall. split.
    + intros H. right. intros (e & -> & He)%list_elem_of_fmap. by apply (H e).
    + intros [?|H] e He Hre; [done|]. apply H. rewrite <- Hre. by apply list_elem_of_fmap_2.
  - apply str_truthy_false in Hr. split; auto.
Qed.
Lemma find_reference_app r l l' e :
  find_reference r l = Some e → find_reference r (l ++ l') = Some e.
Proof.
  unfold find_reference. destruct (str_truthy r); [|done]. intros H.
  apply fmap_Some in H as ([i e'] & Hf & ->). by rewrite (list_find_app_l _ _ l' _ _ Hf).
Qed.

Lemma refused_spec e l :
  refused e l = false
  ↔ (entry_id e ∉ (entry_id <$> l)) ∧ find_reference (reference e) l = None.
Proof.
  unfold refused. rewrite find_reference_None, orb_false_iff, andb_false_iff,
    !bool_decide_eq_false, str_truthy_false. done.
Qed.

Lemma find_invoice_key k l i : find_invoice k l = Some i → invoice_id i = k.
Proof.
  induction l as [|j l IH]; cbn; [done|].
  destruct (String.eqb_spec (invoice_id j) k); [by intros [= <-]|apply IH].
Qed.
Lemma find_upsert_same i l old :
  find_invoice (invoice_id i) l = Some old →
  find_invoice (invoice_id i) (upsert_invoice i l) = Some (merge_invoice old i).
Proof.
  induction l as [|j l IH]; cbn; [done|].
  destruct (String.eqb_spec (invoice_id j) (invoice_id i)) as [He|Hne].
  - intros [= ->]. cbn. by rewrite He, String.eqb_refl.
  - intros H. cbn. apply String.eqb_neq in Hne as ->. by apply IH.
Qed.
Lemma find_upsert_other i l k :
  k ≠ invoice_id i → find_invoice k (upsert_invoice i l) = find_invoice k l.
Proof.
  intros Hk. induction l as [|j l IH]; cbn.
  - destruct (String.eqb_spec (invoice_id i) k); congruence.
  - destruct (String.eqb_spec (invoice_id j) (invoice_id i)) as [He|Hne]; cbn.
    + rewrite He. destruct (String.eqb_spec (invoice_id i) k); congruence.
    + by rewrite IH.
Qed.

Lemma find_subscription_key a l s : find_subscription a l = Some s → sub_account s = a.
Proof.
  induction l as [|r l IH]; cbn; [done|].
  destruct (String.eqb_spec (sub_account r) a); [by intros [= <-]|apply IH].
Qed.
Lemma find_upsert_subscription s l a :
  find_subscription a (upsert_subscription s l)
  = if String.eqb a (sub_account s) then Some s else find_subscription a l.
Proof.
  rewrite (String.eqb_sym a). induction l as [|r l IH]; cbn; [by destruct (String.eqb _ a)|].
  destruct (String.eqb_spec (sub_account r) (sub_account s)) as [He|Hne]; cbn.
  - rewrite He. by destruct (String.eqb (sub_account s) a).
  - rewrite IH. destruct (String.eqb_spec (sub_account r) a), (String.eqb_spec (sub_account s) a);
      congruence.
Qed.

Program Definition SqliteBillingStore_tables : TableLaws SqliteDb :=
  {| ledger := ledger_rows |}.
Next Obligation. done. Qed.
Next Obligation.
  intros e d e' Hf Hs. unfold append. cbn. unfold sqlite_append. rewrite Hs. cbn [negb].
  destruct (refused e (ledger_rows d)) eqn:Hr; [by rewrite Hf|].
  apply refused_spec in Hr as [_ Hr]. congruence.
Qed.
Next Obligation.
  intros e d Hf Hs Hid. unfold append. cbn. unfold sqlite_append. rewrite Hs. cbn [negb].
  by rewrite (proj2 (refused_spec _ _) (conj Hid Hf)).
Qed.
Next Obligation.
  intros e d Hs. unfold append. cbn. unfold sqlite_append. rewrite Hs. by exists too_large.
Qed.
Next Obligation.
  intros e d. unfold append. cbn. unfold sqlite_append. repeat case_match; cbn.
  all: first [by left|by right].
Qed.
Next Obligation. intros e d i. cbn. unfold sqlite_append. by repeat case_match. Qed.
Next Obligation. intros e d a. cbn. unfold sqlite_append. by repeat case_match. Qed.
Next Obligation. intros k d i. cbn. apply find_invoice_key. Qed.
Next Obligation. intros i d. cbn. unfold sqlite_put_invoice. by case_match. Qed.
Next Obligation. intros i d a. cbn. unfold sqlite_put_invoice. by case_match. Qed.
Next Obligation.
  intros i d k Hk. cbn. unfold sqlite_put_invoice. case_match; [done|].
  by apply find_upsert_other.
Qed.
Next Obligation.
  intros i d old Ho Hi. cbn in *. unfold sqlite_put_invoice. rewrite Hi. cbn.
  split; [done|]. by apply find_upsert_same.
Qed.
Next Obligation. intros i d j. cbn. unfold sqlite_put_invoice. by case_match; intros [= <-]. Qed.
Next Obligation.
  intros i d k old Ho. cbn in *. unfold sqlite_put_invoice. case_match; cbn; [by eexists|].
  destruct (decide (k = invoice_id i)) as [->|Hne].
  - rewrite (find_upsert_same _ _ old Ho). eexists. by split; [|apply merge_same_terms].
  - rewrite find_upsert_other by done. by eexists.
Qed.
Next Obligation. intros a d s. cbn. apply find_subscription_key. Qed.
Next Obligation. done. Qed.
Next Obligation. done. Qed.
Next Obligation.
  intros s d. cbn. split; [done|]. intros a. apply find_upsert_subscription.
Qed.

Global Instance SqliteBillingStore_laws : BillingStoreLaws SqliteDb.
Proof. by split; [exact SqliteBillingStore_tables|split]. Defined.

(** ** Histories of the tables *)

Inductive store_step : SqliteDb → SqliteDb → Prop :=
  | step_append e d : store_step d (append e d).2
  | step_invoice i d : store_step d (put_invoice i d).2
  | step_subscription s d : store_step d (put_subscription s d).2.

(** No two rows of the ledger share an id or a non-empty reference. *)
Definition ledger_unique (d : SqliteDb) : Prop :=
  NoDup (entry_id <$> ledger_rows d)
  ∧ NoDup (filter (λ r, r ≠ EmptyString) (reference <$> ledger_rows d)).

Lemma append_unique e d : ledger_unique d → ledger_unique (append e d).2.
Proof.
  intros [Hi Hr]. cbn. unfold sqlite_append. destruct (negb (storable e)); [done|].
  destruct (refused e (ledger_rows d)) eqn:Href; [by case_match|]. cbn.
  apply refused_spec in Href as [Hid Hf]. apply find_reference_None in Hf.
  unfold ledger_unique. cbn. rewrite !fmap_app, filter_app. split.
  - apply NoDup_app. split_and!; [done| |apply NoDup_singleton].
    intros x Hx Hxe. cbn in Hxe. apply list_elem_of_singleton in Hxe as ->. done.
  - apply NoDup_app. split_and!; [done| |].
    + intros x Hx Hxe. apply list_elem_of_filter in Hx as [Hne Hx].
      apply list_elem_of_filter in Hxe as [_ Hxe]. cbn in Hxe.
      apply list_elem_of_singleton in Hxe as ->. by destruct Hf.
    + apply NoDup_filter, NoDup_singleton.
Qed.

(** In every state the tables can reach, no two rows share an id or a
    non-empty reference; and whatever is written next, the ledger only grows at its
    end and a stored invoice keeps its terms. *)
Theorem sqlite_history d (Hreach : reachable (λ d, d = empty_db) store_step d) :
  ledger_unique d
  ∧ ∀ d', rtc store_step d d' →
      ledger_unique d' ∧ ledger_rows d `prefix_of` ledger_rows d'
      ∧ ∀ k old, invoice k d = Some old →
          ∃ new, invoice k d' = Some new ∧ same_terms old new.
Proof.
  assert (ledger_unique d) as Hu.
  { revert Hreach. apply (reachable_inv _ _ ledger_unique).
    - intros ? ->. split; cbn; constructor.
    - intros d0 d1 _ Hd Hstep. destruct Hstep as [e d2|i d2|s d2]; [by apply append_unique| |done].
      cbn. unfold sqlite_put_invoice. by case_match. }
  split; [done|]. intros d' Hsteps. clear Hreach. revert Hu.
  induction Hsteps as [d|d d1 d2 Hstep _ IH]; intros Hu.
  - split_and!; [done|done|]. intros k old H. exists old. by repeat split.
  - assert (ledger_unique d1 ∧ ledger_rows d `prefix_of` ledger_rows d1
      ∧ ∀ k old, invoice k d = Some old →
          ∃ new, invoice k d1 = Some new ∧ same_terms old new) as (Hu1 & Hp1 & Hi1).
    { destruct Hstep as [e d|i d|s d].
      - split_and!; [by apply append_unique| |].
        + change (ledger d `prefix_of` ledger (append e d).2).
          destruct (append_grows e d) as [->| ->]; [done|by apply prefix_app_r].
        + intros k old H. exists old. rewrite append_invoice. by repeat split.
      - split_and!.
        + cbn. unfold sqlite_put_invoice. by case_match.
        + cbn. unfold sqlite_put_invoice. by case_match.
        + intros k old. apply put_invoice_terms.
      - split_and!; [done|done|]. intros k old H. exists old. by repeat split. }
    destruct (IH Hu1) as (Hu2 & Hp2 & Hi2). split_and!; [done|by etrans|].
    intros k old H. destruct (Hi1 k old H) as (new & Hn & Ht1).
    destruct (Hi2 k new Hn) as (new2 & Hn2 & Ht2). exists new2. split; [done|].
    unfold same_terms in *. intuition congruence.
Qed.

Lemma sqlite_history_witness :
  ledger_unique (append (ledger_row GRANT 1) empty_db).2.
Proof.
  refine (proj1 (sqlite_history (append (ledger_row GRANT 1) empty_db).2 _)).
  eapply reach_step; [by apply reach_init|apply step_append].
Defined.

(** Reading the last [limit] entries of an account gives the end of its
    history, oldest first, and never fewer than are there to give. *)
Theorem entries_window account limit d :
  ∃ older, all_entries account d = older ++ entries account limit d
    ∧ Z.of_nat (length (entries account limit d))
      = Z.min (Z.max 1 limit) (Z.of_nat (length (all_entries account d))).
Proof.
  cbn. unfold sqlite_entries, sqlite_all_entries. set (l := account_rows account (ledger_rows d)).
  set (n := Z.to_nat (Z.max 1 limit)). exists (reverse (drop n (reverse l))). split.
  - rewrite <- reverse_app, take_drop. by rewrite reverse_involutive.
  - rewrite length_reverse, length_take, length_reverse. lia.
Qed.
