(* ===== verification/SqlTables.v ===== *)
(** * The rows of the billing store *)
(** [infrastructure/billing/sqlite_store.py] down to its columns: what is written in each
    table, how rows are read back into values, and that the store of values in
    [BillingStore] is what the rows amount to.  A text column is its UTF-8 bytes and
    compares byte by byte, as SQLite's do; [datetime.fromisoformat] is a parameter, of
    which only is asked that it reads what [isoformat] wrote. *)
From S2P Require Export BillingStore PyTimeFacts.
From Stdlib Require Import Ascii.
From stdpp Require Import options.
Local Open Scope Z_scope.

(** ** The tables *)

Record LedgerRow : Type := mkLedgerRow {
  lr_id : string; lr_account : string; lr_kind : string; lr_tokens : Z; lr_amount : Z;
  lr_at : string; lr_reference : string; lr_memo : string
}.
Record InvoiceRow : Type := mkInvoiceRow {
  ir_id : string; ir_account : string; ir_sku : string; ir_kind : string; ir_tokens : Z; ir_price : Z;
  ir_asset : string; ir_amount : string; ir_destination : string; ir_created_at : string;
  ir_expires_at : string; ir_status : string; ir_tx_hash : string; ir_payer : string
}.
Record SubscriptionRow : Type := mkSubscriptionRow {
  sr_account : string; sr_plan_id : string; sr_started_at : string; sr_renews_at : string; sr_status : string
}.
Record Tables : Type := mkTables {
  t_ledger : list LedgerRow;
  t_invoices : list InvoiceRow;
  t_subscriptions : list SubscriptionRow
}.

(** The parameters of the three writes. *)
Definition ledger_values (e : LedgerEntry) : LedgerRow :=
  mkLedgerRow (entry_id e) (entry_account e) (kind_value (kind e)) (entry_tokens e) (micros (amount e))
    (isoformat (at_ e)) (reference e) (memo e).
Definition invoice_values (i : Invoice) : InvoiceRow :=
  mkInvoiceRow (invoice_id i) (invoice_account i) (sku i) (invoice_kind i) (invoice_tokens i)
    (micros (price i)) (asset i) (settlement_amount i) (destination i) (isoformat (created_at i))
    (isoformat (expires_at i)) (invoice_status_value (status i)) (tx_hash i) (payer i).
Definition subscription_values (s : Subscription) : SubscriptionRow :=
  mkSubscriptionRow (sub_account s) (sub_plan_id s) (isoformat (started_at s)) (isoformat (renews_at s))
    (subscription_status_value (sub_status s)).

(** The member of an enumeration that has a value. *)
Definition of_value {A} (enum : string) (value : A → string) (members : list A) (s : string) : result exn A :=
  match list_find (λ a, value a = s) members with
  | Some (_, a) => Ok a
  | None => Raise (ValueError (str_repr s ++s " is not a valid " ++s enum))
  end.
Definition entry_kind_of : string → result exn EntryKind :=
  of_value "EntryKind" kind_value [GRANT; PURCHASE; USAGE; REFUND; ADJUSTMENT; EXPIRY].
Definition invoice_status_of : string → result exn InvoiceStatus :=
  of_value "InvoiceStatus" invoice_status_value [PENDING; PAID; EXPIRED; CANCELLED].
Definition subscription_status_of : string → result exn SubscriptionStatus :=
  of_value "SubscriptionStatus" subscription_status_value [ACTIVE; SUB_EXPIRED; SUB_CANCELLED].

(** SQLite's order of text. *)
Definition text_le (a b : string) : bool := match String.compare a b with Gt => false | _ => true end.
Definition created_earlier (r r' : InvoiceRow) : Prop := text_le (ir_created_at r) (ir_created_at r') = true.
Global Instance created_earlier_dec : RelDecision created_earlier.
Proof. intros r r'. unfold created_earlier. apply _. Defined.

Section rows.
Context (fromisoformat : string → option (Z * option Z)).

(** [_time]: a text without an offset is UTC. *)
Definition row_time (value : string) : result exn Z :=
  match fromisoformat value with
  | Some (t, offset) => Ok (t - default 0 offset)
  | None => Raise (ValueError ("Invalid isoformat string: " ++s str_repr value))
  end.

(** [_entry], [_invoice], and the row of [subscription] *)
Definition entry_of (r : LedgerRow) : result exn LedgerEntry :=
  kind ← entry_kind_of (lr_kind r);
  at_ ← row_time (lr_at r);
  mret (mkEntry (lr_id r) (lr_account r) kind (lr_tokens r) at_ (mkMoney (lr_amount r)) (lr_reference r) (lr_memo r)).
Definition invoice_of_row (r : InvoiceRow) : result exn Invoice :=
  created ← row_time (ir_created_at r);
  expires ← row_time (ir_expires_at r);
  status ← invoice_status_of (ir_status r);
  mret (mkInvoice (ir_id r) (ir_account r) (ir_sku r) (ir_tokens r) (mkMoney (ir_price r)) (ir_asset r)
    (ir_amount r) (ir_destination r) created expires status (ir_kind r) (ir_tx_hash r) (ir_payer r)).
Definition subscription_of (r : SubscriptionRow) : result exn Subscription :=
  started ← row_time (sr_started_at r);
  renews ← row_time (sr_renews_at r);
  status ← subscription_status_of (sr_status r);
  mret (mkSubscription (sr_account r) (sr_plan_id r) started renews status).

(** ** The statements *)

(** [INSERT INTO ledger]: integers of 64 bits, and the two unique indexes, of which that of
    references leaves the empty one out. *)
Definition conflicts (r : LedgerRow) (l : list LedgerRow) : bool :=
  bool_decide (lr_id r ∈ lr_id <$> l)
  || (str_truthy (lr_reference r) && bool_decide (lr_reference r ∈ lr_reference <$> l)).
Definition insert_ledger (r : LedgerRow) : M Tables exn unit := λ t,
  if negb (int64 (lr_tokens r) && int64 (lr_amount r)) then (Raise too_large, t)
  else if conflicts r (t_ledger t) then (Raise unique_failed, t)
  else (Ok tt, mkTables (t_ledger t ++ [r]) (t_invoices t) (t_subscriptions t)).

(** [_append] *)
Definition row_append (e : LedgerEntry) : M Tables exn LedgerEntry :=
  try_except (insert_ledger (ledger_values e) ;; mret e)
    (except cIntegrityError (λ err,
       existing ← gets (λ t, list_find (λ r, lr_reference r = reference e ∧ lr_reference r ≠ EmptyString) (t_ledger t));
       match existing with
       | None => raise err
       | Some (_, r) => lift (entry_of r)
       end)).

(** [entries], [all_entries] *)
Definition rows_of (account : string) (t : Tables) : list LedgerRow :=
  filter (λ r, lr_account r = account) (t_ledger t).
Definition row_entries (account : string) (limit : Z) (t : Tables) : result exn (list LedgerEntry) :=
  mapM entry_of (reverse (take (Z.to_nat (Z.max 1 limit)) (reverse (rows_of account t)))).
Definition row_all_entries (account : string) (t : Tables) : result exn (list LedgerEntry) :=
  mapM entry_of (rows_of account t).

(** [put_invoice]: [ON CONFLICT(id) DO UPDATE SET status, tx_hash, payer] *)
Fixpoint upsert_invoice_row (r : InvoiceRow) (l : list InvoiceRow) : list InvoiceRow :=
  match l with
  | [] => [r]
  | o :: l' =>
      if String.eqb (ir_id o) (ir_id r)
      then mkInvoiceRow (ir_id o) (ir_account o) (ir_sku o) (ir_kind o) (ir_tokens o) (ir_price o) (ir_asset o)
             (ir_amount o) (ir_destination o) (ir_created_at o) (ir_expires_at o) (ir_status r) (ir_tx_hash r)
             (ir_payer r) :: l'
      else o :: upsert_invoice_row r l'
  end.
Definition row_put_invoice (i : Invoice) : M Tables exn Invoice := λ t,
  let r := invoice_values i in
  if negb (int64 (ir_tokens r) && int64 (ir_price r)) then (Raise too_large, t)
  else (Ok i, mkTables (t_ledger t) (upsert_invoice_row r (t_invoices t)) (t_subscriptions t)).

(** [invoice], [open_invoices] *)
Definition row_invoice (id : string) (t : Tables) : result exn (option Invoice) :=
  match list_find (λ r, ir_id r = id) (t_invoices t) with
  | Some (_, r) => i ← invoice_of_row r; mret (Some i)
  | None => Ok None
  end.
Definition row_open_invoices (limit : Z) (t : Tables) : result exn (list Invoice) :=
  mapM invoice_of_row (take (Z.to_nat (Z.max 1 limit))
    (merge_sort created_earlier (filter (λ r, ir_status r = invoice_status_value PENDING) (t_invoices t)))).

(** [put_subscription], [subscription] *)
Fixpoint upsert_subscription_row (r : SubscriptionRow) (l : list SubscriptionRow) : list SubscriptionRow :=
  match l with
  | [] => [r]
  | o :: l' =>
      if String.eqb (sr_account o) (sr_account r) then r :: l' else o :: upsert_subscription_row r l'
  end.
Definition row_put_subscription (s : Subscription) : M Tables exn Subscription := λ t,
  (Ok s, mkTables (t_ledger t) (t_invoices t) (upsert_subscription_row (subscription_values s) (t_subscriptions t))).
Definition row_subscription (account : string) (t : Tables) : result exn (option Subscription) :=
  match list_find (λ r, sr_account r = account) (t_subscriptions t) with
  | Some (_, r) => s ← subscription_of r; mret (Some s)
  | None => Ok None
  end.
End rows.

(** ** Rows are their values *)

Definition encode (d : SqliteDb) : Tables :=
  mkTables (ledger_values <$> ledger_rows d) (invoice_values <$> invoice_rows d)
    (subscription_values <$> subscription_rows d).

(** Values whose times Python has. *)
Definition entry_ok (e : LedgerEntry) : Prop := datetime_ok (at_ e).
Definition invoice_ok (i : Invoice) : Prop := datetime_ok (created_at i) ∧ datetime_ok (expires_at i).
Definition subscription_ok (s : Subscription) : Prop := datetime_ok (started_at s) ∧ datetime_ok (renews_at s).
Record db_ok (d : SqliteDb) : Prop := mkDbOk {
  ok_ledger : Forall entry_ok (ledger_rows d);
  ok_invoices : Forall invoice_ok (invoice_rows d);
  ok_subscriptions : Forall subscription_ok (subscription_rows d)
}.

(** *** Lists of rows *)

Lemma mapM_decode {A B} (P : A → Prop) (enc : A → B) (dec : B → result exn A) (l : list A) :
  (∀ x, P x → dec (enc x) = Ok x) → Forall P l → mapM dec (enc <$> l) = Ok l.
Proof.
  intros Hdec. induction 1 as [|x l Hx _ IH]; [done|].
  rewrite fmap_cons. unfold mapM in *. cbn. rewrite (Hdec x Hx). cbn. rewrite IH. done.
Qed.
Lemma filter_encode {A B} (enc : A → B) (P : A → Prop) (Q : B → Prop)
    `{!∀ x, Decision (P x), !∀ y, Decision (Q y)} (l : list A) :
  (∀ x, P x ↔ Q (enc x)) → filter Q (enc <$> l) = enc <$> filter P l.
Proof.
  intros HPQ. induction l as [|x l IH]; [done|]. rewrite fmap_cons, !filter_cons, IH.
  destruct (decide (P x)) as [Hp|Hp], (decide (Q (enc x))) as [Hq|Hq]; try done; by rewrite HPQ in Hp.
Qed.
Lemma find_encode {A B} (enc : A → B) (P : A → Prop) (Q : B → Prop)
    `{!∀ x, Decision (P x), !∀ y, Decision (Q y)} (l : list A) :
  (∀ x, P x ↔ Q (enc x)) → list_find Q (enc <$> l) = prod_map id enc <$> list_find P l.
Proof.
  intros HPQ. induction l as [|x l IH]; [done|]. rewrite fmap_cons. cbn [list_find]. rewrite IH.
  destruct (decide (P x)) as [Hp|Hp], (decide (Q (enc x))) as [Hq|Hq];
    rewrite HPQ in Hp; try done. by destruct (list_find P l) as [[]|].
Qed.

Lemma Forall_kept {A} (P Q : A → Prop) `{!∀ x, Decision (Q x)} (l : list A) : Forall P l → Forall P (filter Q l).
Proof. rewrite !Forall_forall. intros Hl x [_ Hx]%list_elem_of_filter. by apply Hl. Qed.

(** A sort is the same sort of encoded elements, where the encoding keeps their order. *)
Section sorting.
Context {A B : Type} (enc : A → B) (P : A → Prop) (R : relation A) (R' : relation B).
Context `{!∀ x y, Decision (R x y), !∀ x y, Decision (R' x y)}.
Hypothesis order : ∀ x y, P x → P y → R x y ↔ R' (enc x) (enc y).
Let enc_stack : list (option (list A)) → list (option (list B)) :=
  fmap (M:=list) (fmap (M:=option) (fmap (M:=list) enc)).
Let stack_ok : list (option (list A)) → Prop := Forall (λ o, match o with Some l => Forall P l | None => True end).

Lemma merge_encode l l' :
  Forall P l → Forall P l' →
  list_merge R' (enc <$> l) (enc <$> l') = enc <$> list_merge R l l' ∧ Forall P (list_merge R l l').
Proof using order.
  intros Hl. revert l'. induction Hl as [|x l Hx Hl IH]; intros l' Hl'; [by destruct l'|].
  induction Hl' as [|y l' Hy Hl' IH']; [by split; [|constructor]|].
  rewrite !fmap_cons. cbn [list_merge]. rewrite <- !fmap_cons.
  destruct (decide (R x y)) as [Hr|Hr], (decide (R' (enc x) (enc y))) as [Hr'|Hr'];
    try (by exfalso; apply Hr, order || apply Hr', order).
  - destruct (IH (y :: l') ltac:(by constructor)) as [-> Hok]. split; [done|by constructor].
  - destruct IH' as [IH1 IH2]. rewrite fmap_cons in IH1. split; [|by constructor].
    exact (f_equal (cons (enc y)) IH1).
Qed.
Lemma push_encode st l :
  stack_ok st → Forall P l →
  merge_list_to_stack R' (enc_stack st) (enc <$> l) = enc_stack (merge_list_to_stack R st l)
  ∧ stack_ok (merge_list_to_stack R st l).
Proof using order.
  intros Hst. revert l. induction Hst as [|[l'|] st Ho Hst IH]; intros l Hl; [by split; repeat constructor| |].
  - destruct (merge_encode l' l Ho Hl) as [Hm Hok]. destruct (IH _ Hok) as [IH1 IH2].
    split; [|by constructor]. unfold enc_stack in *. rewrite fmap_cons. cbn. by rewrite Hm, IH1.
  - by split; [|constructor].
Qed.
Lemma collapse_encode st :
  stack_ok st →
  merge_stack R' (enc_stack st) = enc <$> merge_stack R st ∧ Forall P (merge_stack R st).
Proof using order.
  induction 1 as [|[l|] st Ho Hst [IH1 IH2]]; [by split|..|done].
  unfold enc_stack in *. rewrite fmap_cons. cbn. rewrite IH1. by apply merge_encode.
Qed.
Lemma merge_sort_encode l :
  Forall P l → merge_sort R' (enc <$> l) = enc <$> merge_sort R l ∧ Forall P (merge_sort R l).
Proof using order.
  intros Hl. unfold merge_sort.
  assert (∀ st, stack_ok st →
    merge_sort_aux R' (enc_stack st) (enc <$> l) = enc <$> merge_sort_aux R st l
    ∧ Forall P (merge_sort_aux R st l)) as Haux; [|by apply (Haux []); constructor].
  induction Hl as [|x l Hx Hl IH]; intros st Hst; [by apply collapse_encode|].
  destruct (push_encode st [x] Hst ltac:(by repeat constructor)) as [Hp Hok].
  rewrite fmap_cons. cbn [merge_sort_aux]. change [enc x] with (enc <$> [x]). rewrite Hp. by apply IH.
Qed.
End sorting.

(** *** Values read back *)

Lemma of_value_value {A} enum (value : A → string) members a :
  a ∈ members → (∀ b b', value b = value b' → b = b') → of_value enum value members (value a) = Ok a.
Proof.
  intros Ha Hinj. unfold of_value.
  destruct (list_find (λ b, value b = value a) members) as [[i b]|] eqn:Hf.
  - apply list_find_Some in Hf as (_ & Hb & _). by rewrite (Hinj b a Hb).
  - apply list_find_None in Hf. rewrite Forall_forall in Hf. by destruct (Hf a Ha).
Qed.
Lemma entry_kind_of_value k : entry_kind_of (kind_value k) = Ok k.
Proof. apply of_value_value; [by destruct k; set_solver|by intros [] []]. Qed.
Lemma invoice_status_of_value s : invoice_status_of (invoice_status_value s) = Ok s.
Proof. apply of_value_value; [by destruct s; set_solver|by intros [] []]. Qed.
Lemma subscription_status_of_value s : subscription_status_of (subscription_status_value s) = Ok s.
Proof. apply of_value_value; [by destruct s; set_solver|by intros [] []]. Qed.

Lemma text_le_isoformat t t' : datetime_ok t → datetime_ok t' → t <= t' ↔ text_le (isoformat t) (isoformat t') = true.
Proof.
  intros Ht Ht'. unfold text_le. rewrite compare_isoformat by done.
  destruct (Z.compare_spec t t'); split; (done || lia).
Qed.

Lemma conflicts_encode e l : conflicts (ledger_values e) (ledger_values <$> l) = refused e l.
Proof.
  unfold conflicts, refused. change (lr_id (ledger_values e)) with (entry_id e).
  change (lr_reference (ledger_values e)) with (reference e).
  assert (lr_id <$> (ledger_values <$> l) = entry_id <$> l) as -> by (rewrite <- list_fmap_compose; done).
  assert (lr_reference <$> (ledger_values <$> l) = reference <$> l) as -> by (rewrite <- list_fmap_compose; done).
  done.
Qed.
Lemma upsert_invoice_encode i l :
  upsert_invoice_row (invoice_values i) (invoice_values <$> l) = invoice_values <$> upsert_invoice i l.
Proof.
  induction l as [|j l IH]; [done|]. rewrite fmap_cons. cbn [upsert_invoice_row upsert_invoice].
  change (ir_id (invoice_values j)) with (invoice_id j). change (ir_id (invoice_values i)) with (invoice_id i).
  destruct (String.eqb (invoice_id j) (invoice_id i)); [done|]. by rewrite IH.
Qed.
Lemma upsert_subscription_encode s l :
  upsert_subscription_row (subscription_values s) (subscription_values <$> l)
  = subscription_values <$> upsert_subscription s l.
Proof.
  induction l as [|j l IH]; [done|]. rewrite fmap_cons. cbn [upsert_subscription_row upsert_subscription].
  change (sr_account (subscription_values j)) with (sub_account j).
  change (sr_account (subscription_values s)) with (sub_account s).
  destruct (String.eqb (sub_account j) (sub_account s)); [done|]. by rewrite IH.
Qed.
Lemma find_invoice_list k l : find_invoice k l = snd <$> list_find (λ i, invoice_id i = k) l.
Proof.
  induction l as [|j l IH]; [done|]. cbn [find_invoice list_find]. rewrite IH.
  destruct (String.eqb_spec (invoice_id j) k), (decide (invoice_id j = k)); try done.
  by destruct (list_find _ l) as [[]|].
Qed.
Lemma find_subscription_list k l : find_subscription k l = snd <$> list_find (λ s, sub_account s = k) l.
Proof.
  induction l as [|j l IH]; [done|]. cbn [find_subscription list_find]. rewrite IH.
  destruct (String.eqb_spec (sub_account j) k), (decide (sub_account j = k)); try done.
  by destruct (list_find _ l) as [[]|].
Qed.

(** *** Times stay in range *)

Lemma upsert_invoice_ok i l : invoice_ok i → Forall invoice_ok l → Forall invoice_ok (upsert_invoice i l).
Proof. intros Hi. induction 1; cbn; [by apply Forall_singleton|]. case_match; by constructor. Qed.
Lemma upsert_subscription_ok s l :
  subscription_ok s → Forall subscription_ok l → Forall subscription_ok (upsert_subscription s l).
Proof. intros Hs. induction 1; cbn; [by apply Forall_singleton|]. case_match; by constructor. Qed.

Section refinement.
#[local] Set Default Proof Using "Type*".
Context (fromisoformat : string → option (Z * option Z)).
(** [fromisoformat] is the inverse of [isoformat]. *)
Hypothesis reads_iso : ∀ t, datetime_ok t → fromisoformat (isoformat t) = Some (t, Some 0).

Lemma row_time_iso t : datetime_ok t → row_time fromisoformat (isoformat t) = Ok t.
Proof. intros Ht. unfold row_time. rewrite reads_iso by done. cbn. by rewrite Z.sub_0_r. Qed.
Lemma entry_of_values e : entry_ok e → entry_of fromisoformat (ledger_values e) = Ok e.
Proof.
  intros He. unfold entry_of. cbn [lr_kind lr_at ledger_values].
  rewrite entry_kind_of_value, row_time_iso by done. by destruct e as [? ? ? ? ? []].
Qed.
Lemma invoice_of_values i : invoice_ok i → invoice_of_row fromisoformat (invoice_values i) = Ok i.
Proof.
  intros [Hc He]. unfold invoice_of_row. cbn [ir_created_at ir_expires_at ir_status invoice_values].
  rewrite !row_time_iso, invoice_status_of_value by done. by destruct i as [? ? ? ? []].
Qed.
Lemma subscription_of_values s : subscription_ok s → subscription_of fromisoformat (subscription_values s) = Ok s.
Proof.
  intros [Hs Hr]. unfold subscription_of. cbn [sr_started_at sr_renews_at sr_status subscription_values].
  rewrite !row_time_iso, subscription_status_of_value by done. by destruct s.
Qed.

Lemma append_refines e d :
  entry_ok e → db_ok d →
  row_append fromisoformat e (encode d) = ((sqlite_append e d).1, encode (sqlite_append e d).2)
  ∧ db_ok (sqlite_append e d).2.
Proof.
  intros He [Hl Hi Hs]. unfold row_append, try_except, sqlite_append. rewrite run_bind. unfold insert_ledger.
  change (int64 (lr_tokens (ledger_values e)) && int64 (lr_amount (ledger_values e))) with (storable e).
  destruct (storable e); cbn [negb]; [|done].
  change (t_ledger (encode d)) with (ledger_values <$> ledger_rows d). rewrite conflicts_encode.
  destruct (refused e (ledger_rows d)) eqn:Href.
  2:{ split; [|constructor; try done; apply Forall_app_2; [done|by apply Forall_singleton]].
      unfold encode. cbn. by rewrite fmap_app. }
  unfold except. change (isinstance unique_failed cIntegrityError) with true. cbn iota.
  rewrite run_bind, run_gets. cbn iota beta. change (t_ledger (encode d)) with (ledger_values <$> ledger_rows d).
  rewrite (find_encode ledger_values (λ x, reference x = reference e ∧ reference x ≠ EmptyString)
    (λ r, lr_reference r = reference e ∧ lr_reference r ≠ EmptyString) _ (λ x, reflexivity _)).
  unfold find_reference. destruct (str_truthy (reference e)) eqn:Ht.
  - apply str_truthy_spec in Ht.
    assert (list_find (λ x, reference x = reference e ∧ reference x ≠ EmptyString) (ledger_rows d)
      = list_find (λ x, reference x = reference e) (ledger_rows d)) as -> by (apply list_find_ext; naive_solver congruence).
    destruct (list_find _ (ledger_rows d)) as [[n x]|] eqn:Hf; [|done]. cbn.
    apply list_find_Some in Hf as (Hx & _ & _). rewrite entry_of_values; [done|].
    by eapply Forall_lookup_1.
  - apply str_truthy_false in Ht. rewrite (proj2 (list_find_None _ _)); [done|].
    apply Forall_forall. intros x _ [Hx Hne]. congruence.
Qed.

Lemma entries_refine account limit d :
  db_ok d →
  row_entries fromisoformat account limit (encode d) = Ok (sqlite_entries account limit d)
  ∧ row_all_entries fromisoformat account (encode d) = Ok (sqlite_all_entries account d).
Proof.
  intros [Hl _ _]. unfold row_entries, row_all_entries, rows_of, sqlite_entries, sqlite_all_entries.
  change (t_ledger (encode d)) with (ledger_values <$> ledger_rows d).
  rewrite (filter_encode ledger_values (λ e, entry_account e = account) (λ r, lr_account r = account) _
    (λ x, reflexivity _)).
  assert (Forall entry_ok (account_rows account (ledger_rows d))) as Ha by by apply Forall_kept.
  unfold account_rows in *. split.
  - rewrite <- fmap_reverse, <- fmap_take, <- fmap_reverse.
    apply (mapM_decode entry_ok); [exact entry_of_values|].
    by apply Forall_reverse, Forall_take, Forall_reverse.
  - by apply (mapM_decode entry_ok); [exact entry_of_values|].
Qed.
Lemma put_invoice_refines i d :
  invoice_ok i → db_ok d →
  row_put_invoice i (encode d) = ((sqlite_put_invoice i d).1, encode (sqlite_put_invoice i d).2)
  ∧ db_ok (sqlite_put_invoice i d).2.
Proof.
  intros Hi [Hl Hiv Hs]. unfold row_put_invoice, sqlite_put_invoice.
  change (int64 (ir_tokens (invoice_values i)) && int64 (ir_price (invoice_values i)))
    with (int64 (invoice_tokens i) && int64 (micros (price i))).
  destruct (int64 (invoice_tokens i) && int64 (micros (price i))); cbn [negb]; [|done]. split.
  - unfold encode. cbn. by rewrite upsert_invoice_encode.
  - constructor; [done|by apply upsert_invoice_ok|done].
Qed.
Lemma invoice_refines k d :
  db_ok d → row_invoice fromisoformat k (encode d) = Ok (find_invoice k (invoice_rows d)).
Proof.
  intros [_ Hi _]. unfold row_invoice. change (t_invoices (encode d)) with (invoice_values <$> invoice_rows d).
  rewrite (find_encode invoice_values (λ i, invoice_id i = k) (λ r, ir_id r = k) _ (λ x, reflexivity _)).
  rewrite find_invoice_list. destruct (list_find _ (invoice_rows d)) as [[n i]|] eqn:Hf; [|done]. cbn.
  apply list_find_Some in Hf as (Hx & _ & _). by rewrite invoice_of_values by by eapply Forall_lookup_1.
Qed.
Lemma pending_value i : status i = PENDING ↔ ir_status (invoice_values i) = invoice_status_value PENDING.
Proof. change (ir_status (invoice_values i)) with (invoice_status_value (status i)). by destruct (status i). Qed.
Lemma open_invoices_refines limit d :
  db_ok d → row_open_invoices fromisoformat limit (encode d) = Ok (sqlite_open_invoices limit d).
Proof.
  intros [_ Hi _]. unfold row_open_invoices, sqlite_open_invoices.
  change (t_invoices (encode d)) with (invoice_values <$> invoice_rows d).
  rewrite (filter_encode invoice_values (λ i, status i = PENDING)
    (λ r, ir_status r = invoice_status_value PENDING) _ pending_value).
  assert (Forall invoice_ok (filter (λ i, status i = PENDING) (invoice_rows d))) as Ha by by apply Forall_kept.
  destruct (merge_sort_encode invoice_values invoice_ok created_before created_earlier) with
    (l := filter (λ i, status i = PENDING) (invoice_rows d)) as [-> Hok]; [|done|].
  - intros i j [Hci _] [Hcj _]. by apply text_le_isoformat.
  - rewrite <- fmap_take. apply (mapM_decode invoice_ok); [exact invoice_of_values|by apply Forall_take].
Qed.
Lemma put_subscription_refines s d :
  subscription_ok s → db_ok d →
  row_put_subscription s (encode d) = ((sqlite_put_subscription s d).1, encode (sqlite_put_subscription s d).2)
  ∧ db_ok (sqlite_put_subscription s d).2.
Proof.
  intros Hs [Hl Hi Hss]. unfold row_put_subscription, sqlite_put_subscription, encode. cbn.
  rewrite upsert_subscription_encode. split; [done|]. constructor; [done|done|by apply upsert_subscription_ok].
Qed.
Lemma subscription_refines a d :
  db_ok d → row_subscription fromisoformat a (encode d) = Ok (find_subscription a (subscription_rows d)).
Proof.
  intros [_ _ Hs]. unfold row_subscription.
  change (t_subscriptions (encode d)) with (subscription_values <$> subscription_rows d).
  rewrite (find_encode subscription_values (λ s, sub_account s = a) (λ r, sr_account r = a) _ (λ x, reflexivity _)).
  rewrite find_subscription_list. destruct (list_find _ (subscription_rows d)) as [[n i]|] eqn:Hf; [|done]. cbn.
  apply list_find_Some in Hf as (Hx & _ & _). by rewrite subscription_of_values by by eapply Forall_lookup_1.
Qed.
End refinement.

(** One write of the service, on values and on rows. *)
Inductive write : Type :=
  | WAppend (e : LedgerEntry)
  | WInvoice (i : Invoice)
  | WSubscription (s : Subscription).
Definition write_ok (o : write) : Prop :=
  match o with WAppend e => entry_ok e | WInvoice i => invoice_ok i | WSubscription s => subscription_ok s end.
Definition on_values (o : write) (d : SqliteDb) : SqliteDb :=
  match o with
  | WAppend e => (append e d).2 | WInvoice i => (put_invoice i d).2
  | WSubscription s => (put_subscription s d).2
  end.
Definition on_rows (fromisoformat : string → option (Z * option Z)) (o : write) (t : Tables) : Tables :=
  match o with
  | WAppend e => (row_append fromisoformat e t).2 | WInvoice i => (row_put_invoice i t).2
  | WSubscription s => (row_put_subscription s t).2
  end.

(** The tables of text and integers keep the store of values: after any writes, they
    are the rows of exactly the values the abstract store holds; another entry is answered
    on them as on the values, a refused one by the row that was there; every read answers
    what the abstract store does, none raises, and the open invoices, sorted by the text
    of their time, are sorted by their time. *)
Theorem tables_refine_store fromisoformat writes
    (reads_iso : ∀ t, datetime_ok t → fromisoformat (isoformat t) = Some (t, Some 0)) :
  Forall write_ok writes →
  let d := foldl (flip on_values) empty_db writes in
  let t := foldl (flip (on_rows fromisoformat)) (mkTables [] [] []) writes in
  t = encode d
  ∧ (∀ e, entry_ok e → (row_append fromisoformat e t).1 = (append e d).1)
  ∧ (∀ i, invoice_ok i → (row_put_invoice i t).1 = (put_invoice i d).1)
  ∧ (∀ account limit, row_entries fromisoformat account limit t = Ok (entries account limit d))
  ∧ (∀ account, row_all_entries fromisoformat account t = Ok (all_entries account d))
  ∧ (∀ id, row_invoice fromisoformat id t = Ok (invoice id d))
  ∧ (∀ limit, row_open_invoices fromisoformat limit t = Ok (open_invoices limit d))
  ∧ (∀ account, row_subscription fromisoformat account t = Ok (subscription account d)).
Proof.
  intros Hw d t. assert (t = encode d ∧ db_ok d) as [-> Hd].
  { unfold t, d. clear t d. change (mkTables [] [] []) with (encode empty_db).
    assert (db_ok empty_db) as H0 by (by constructor). revert H0. generalize empty_db.
    induction Hw as [|o writes Ho _ IH]; intros d Hd; [done|]. cbn [foldl].
    assert (flip (on_rows fromisoformat) (encode d) o = encode (flip on_values d o) ∧ db_ok (flip on_values d o))
      as [-> Hok]; [|by apply IH]. destruct o as [e|i|s]; cbn [flip on_rows on_values].
    - destruct (append_refines _ reads_iso e d Ho Hd) as [-> Hok]. by split.
    - destruct (put_invoice_refines i d Ho Hd) as [-> Hok]. by split.
    - destruct (put_subscription_refines s d Ho Hd) as [-> Hok]. by split. }
  split_and!; [done|..]; intros.
  - by destruct (append_refines _ reads_iso e d) as [-> _].
  - by destruct (put_invoice_refines i d) as [-> _].
  - exact (proj1 (entries_refine _ reads_iso account limit d Hd)).
  - exact (proj2 (entries_refine _ reads_iso account 0 d Hd)).
  - by apply invoice_refines.
  - by apply open_invoices_refines.
  - by apply subscription_refines.
Qed.

Lemma tables_refine_store_witness :
  row_all_entries read_isoformat "a"
    (foldl (flip (on_rows read_isoformat)) (mkTables [] [] []) [WAppend (ledger_row GRANT 10)])
  = Ok [ledger_row GRANT 10].
Proof.
  destruct (tables_refine_store read_isoformat [WAppend (ledger_row GRANT 10)] read_isoformat_iso) as
    (_ & _ & _ & _ & Hall & _).
  - apply Forall_singleton. vm_compute. by split.
  - rewrite (Hall "a"%string). reflexivity.
Defined.
