(* ===== verification/StoreLock.v ===== *)
(** * The billing store's lock *)
(** [infrastructure/billing/sqlite_store.py], [_run] and what it runs: a call is handed to
    a worker thread, which takes the store's one lock, makes its calls of the shared
    connection one by one, and lets the lock go whether it returned or raised.  The other
    threads and the event loop run between any two of those calls.  What the connection
    has executed is kept apart from what it has committed, and what it has committed from
    what the disk has been made to keep, so that the model says what a process that dies
    and a power cut would each leave. *)
From S2P Require Export SqlTables.
From stdpp Require Import options.
Local Open Scope Z_scope.

(** ** The connection *)

(** The tables as the last commit left them, which is what the next process to open the
    file finds, and as the transaction in progress sees them. *)
Record Connection : Type := mkConnection { committed : Tables; working : Tables }.
Definition clean (t : Tables) : Connection := mkConnection t t.

Definition execute {B} (statement : M Tables exn B) : M Connection exn B := λ k,
  let '(r, t) := statement (working k) in (r, mkConnection (committed k) t).
Definition commit : M Connection exn unit := λ k, (Ok tt, clean (working k)).
Definition rollback : M Connection exn unit := λ k, (Ok tt, clean (committed k)).

(** ** Code that calls it *)

(** What is left of a function of the store to run: the connection is called, and the code
    goes on with what the call returned or raised. *)
Inductive code (A : Type) : Type :=
  | Return (r : result exn A)
  | Call {B : Type} (c : M Connection exn B) (k : result exn B → code A).
Arguments Return {_} _.
Arguments Call {_ _} _ _.

Definition perform {B} (c : M Connection exn B) : code B := Call c Return.
Fixpoint code_then {A B} (c : code A) (f : result exn A → code B) : code B :=
  match c with
  | Return r => f r
  | Call m k => Call m (λ r, code_then (k r) f)
  end.
Global Instance code_ret : MRet code := λ A a, Return (Ok a).
Global Instance code_bind : MBind code := λ A B f c,
  code_then c (λ r, match r with Ok a => f a | Raise e => Return (Raise e) end).
Definition code_try {A} (c : code A) (h : exn → option (code A)) : code A :=
  code_then c (λ r, match r with
                    | Ok a => Return (Ok a)
                    | Raise e => default (Return (Raise e)) (h e)
                    end).

(** The code with the connection to itself: what it returns and leaves, how many calls it
    makes, and what holds at every moment of it. *)
Fixpoint alone {A} (c : code A) (k : Connection) : result exn A * Connection :=
  match c with
  | Return r => (r, k)
  | Call m f => let '(r, k') := m k in alone (f r) k'
  end.
Fixpoint calls {A} (c : code A) (k : Connection) : nat :=
  match c with
  | Return _ => 0
  | Call m f => let '(r, k') := m k in S (calls (f r) k')
  end.
Fixpoint throughout {A} (P : Connection → Prop) (c : code A) (k : Connection) : Prop :=
  P k ∧ match c with
        | Return _ => True
        | Call m f => let '(r, k') := m k in throughout P (f r) k'
        end.

(** ** The functions of the store *)

Inductive request : Type :=
  | QAppend (e : LedgerEntry)
  | QEntries (account : string) (limit : Z)
  | QAllEntries (account : string)
  | QPutInvoice (i : Invoice)
  | QInvoice (invoice_id : string)
  | QOpenInvoices (limit : Z)
  | QPutSubscription (s : Subscription)
  | QSubscription (account : string).

(** What the coroutine of each answers, and what its function returns under the lock. *)
Definition value (q : request) : Type :=
  match q with
  | QAppend _ => LedgerEntry
  | QEntries _ _ | QAllEntries _ => list LedgerEntry
  | QPutInvoice _ => Invoice
  | QInvoice _ => option Invoice
  | QOpenInvoices _ => list Invoice
  | QPutSubscription _ => Subscription
  | QSubscription _ => option Subscription
  end.
Definition returned (q : request) : Type :=
  match q with
  | QAppend _ => LedgerEntry
  | QEntries _ _ | QAllEntries _ => list LedgerRow
  | QPutInvoice _ | QPutSubscription _ => unit
  | QInvoice _ => option InvoiceRow
  | QOpenInvoices _ => list InvoiceRow
  | QSubscription _ => option SubscriptionRow
  end.

(** [_write], [_one], [_all] *)
Definition write_ {B} (sql : M Tables exn B) : code unit :=
  perform (execute sql) ;; perform commit.
Definition one {B} (sql : Tables → option B) : code (option B) := perform (execute (gets sql)).
Definition all {B} (sql : Tables → list B) : code (list B) := perform (execute (gets sql)).

Section functions.
Variable fromisoformat : string → option (Z * option Z).

(** The row an entry's reference is recorded in. *)
Definition referenced (e : LedgerEntry) (t : Tables) : option LedgerRow :=
  snd <$> list_find (λ r, lr_reference r = reference e ∧ lr_reference r ≠ EmptyString) (t_ledger t).

(** [_append] *)
Definition append_ (e : LedgerEntry) : code LedgerEntry :=
  code_try
    (perform (execute (insert_ledger (ledger_values e))) ;; perform commit ;; mret e)
    (λ err, if isinstance err cIntegrityError then Some (
       perform rollback ;;
       existing ← one (referenced e);
       match existing with
       | None => Return (Raise err)
       | Some r => Return (entry_of fromisoformat r)
       end) else None).

(** The function each operation hands to [_run]. *)
Definition body (q : request) : code (returned q) :=
  match q with
  | QAppend e => append_ e
  | QEntries account limit =>
      all (λ t, reverse (take (Z.to_nat (Z.max 1 limit)) (reverse (rows_of account t))))
  | QAllEntries account => all (rows_of account)
  | QPutInvoice i => write_ (row_put_invoice i)
  | QInvoice id => one (λ t, snd <$> list_find (λ r, ir_id r = id) (t_invoices t))
  | QOpenInvoices limit =>
      all (λ t, take (Z.to_nat (Z.max 1 limit))
        (merge_sort created_earlier
           (filter (λ r, ir_status r = invoice_status_value PENDING) (t_invoices t))))
  | QPutSubscription s => write_ (row_put_subscription s)
  | QSubscription account => one (λ t, snd <$> list_find (λ r, sr_account r = account) (t_subscriptions t))
  end.

(** What the coroutine makes of it, back on the event loop. *)
Definition resume (q : request) : returned q → result exn (value q) :=
  match q with
  | QAppend _ => λ e, Ok e
  | QEntries _ _ | QAllEntries _ => λ rows, mapM (entry_of fromisoformat) rows
  | QPutInvoice i => λ _, Ok i
  | QInvoice _ => λ row, match row with
                         | Some r => i ← invoice_of_row fromisoformat r; mret (Some i)
                         | None => Ok None
                         end
  | QOpenInvoices _ => λ rows, mapM (invoice_of_row fromisoformat) rows
  | QPutSubscription s => λ _, Ok s
  | QSubscription _ => λ row, match row with
                              | Some r => s ← subscription_of fromisoformat r; mret (Some s)
                              | None => Ok None
                              end
  end.
End functions.

(** ** Threads and the lock *)

(** A call of [_run]: it waits for a thread of the limiter's, then for the lock, holds it
    while its function runs, and has its outcome. *)
Inductive status (A : Type) : Type :=
  | Queued
  | Waiting
  | Holding (c : code A)
  | Finished (r : result exn A).
Arguments Queued {_}.
Arguments Waiting {_}.
Arguments Holding {_} _.
Arguments Finished {_} _.

Record worker : Type := mkWorker { request_of : request; status_of : status (returned request_of) }.
Definition on_thread (w : worker) : bool :=
  match status_of w with Waiting | Holding _ => true | Queued | Finished _ => false end.
Definition answered (w : worker) : bool :=
  match status_of w with Finished _ => true | _ => false end.

(** The store in a process: its connection, who holds its lock, and every call made of it,
    in the order they were made.  [turns] records in which order they took the lock. *)
Record Store : Type := mkStore {
  connection : Connection;
  lock : option nat;
  workers : list worker;
  turns : list (nat * request)
}.
Definition opened (t : Tables) : Store := mkStore (clean t) None [] [].
Definition threads (p : Store) : nat := length (filter (λ w, on_thread w = true) (workers p)).

Section threads.
Variable fromisoformat : string → option (Z * option Z).
(** The threads anyio's limiter allows. *)
Variable limiter : nat.

(** One move of a call that was made: [anyio.to_thread.run_sync] gives it a thread;
    [with self._lock] is entered; its function makes a call of the connection; it is left,
    with the value or the exception. *)
Inductive work : Store → Store → Prop :=
  | work_thread k l ws ts i q :
      ws !! i = Some (mkWorker q Queued) → (threads (mkStore k l ws ts) < limiter)%nat →
      work (mkStore k l ws ts) (mkStore k l (<[i := mkWorker q Waiting]> ws) ts)
  | work_acquire k ws ts i q :
      ws !! i = Some (mkWorker q Waiting) →
      work (mkStore k None ws ts)
        (mkStore k (Some i) (<[i := mkWorker q (Holding (body fromisoformat q))]> ws) (ts ++ [(i, q)]))
  | work_call k k' l ws ts i q {B} (m : M Connection exn B) f r :
      ws !! i = Some (mkWorker q (Holding (Call m f))) → m k = (r, k') →
      work (mkStore k l ws ts) (mkStore k' l (<[i := mkWorker q (Holding (f r))]> ws) ts)
  | work_release k l ws ts i q r :
      ws !! i = Some (mkWorker q (Holding (Return r))) →
      work (mkStore k l ws ts) (mkStore k None (<[i := mkWorker q (Finished r)]> ws) ts).

(** And a request of the process makes another call. *)
Definition request_ok (q : request) : Prop :=
  match q with
  | QAppend e => entry_ok e
  | QPutInvoice i => invoice_ok i
  | QPutSubscription s => subscription_ok s
  | _ => True
  end.
Inductive step : Store → Store → Prop :=
  | step_issue k l ws ts q :
      request_ok q → step (mkStore k l ws ts) (mkStore k l (ws ++ [mkWorker q Queued]) ts)
  | step_work p p' : work p p' → step p p'.
End threads.

(** *** Crashes *)

Definition MEMORY : string := ":memory:".

(** The process and the disk under its file.  The file is in WAL mode with
    [synchronous=NORMAL]: a commit is written to the log and not synced, so the disk may
    still be at any state the tables were committed in since it last caught up. *)
Record Machine : Type := mkMachine { process : Store; since_sync : list Tables }.
Definition booted (t : Tables) : Machine := mkMachine (opened t) [].

Inductive happens (fromisoformat : string → option (Z * option Z)) (limiter : nat) : Machine → Machine → Prop :=
  | happens_step p p' past :
      step fromisoformat limiter p p' →
      happens fromisoformat limiter (mkMachine p past) (mkMachine p' (past ++ [committed (connection p)]))
  | happens_sync p past n :
      happens fromisoformat limiter (mkMachine p past) (mkMachine p (drop n past)).

(** What may be found by whoever opens the store again: after the process died, the
    last commit; after the power went, that or any the disk had not caught up with; and
    of tables in memory, nothing. *)
Inductive Crash : Type := ProcessDies | PowerCut.
Definition left_by (path : string) (crash : Crash) (m : Machine) : list Tables :=
  if String.eqb path MEMORY then [encode empty_db]
  else match crash with
       | ProcessDies => [committed (connection (process m))]
       | PowerCut => since_sync m ++ [committed (connection (process m))]
       end.

(** *** A schedule *)

(** The next move of the [i]-th call, when it has one. *)
Definition advance (fromisoformat : string → option (Z * option Z)) (limiter i : nat) (p : Store) : option Store :=
  let set k l w ts := Some (mkStore k l (<[i := w]> (workers p)) ts) in
  match workers p !! i with
  | None => None
  | Some (mkWorker q s) =>
      match s with
      | Queued =>
          if (threads p <? limiter)%nat then set (connection p) (lock p) (mkWorker q Waiting) (turns p) else None
      | Waiting =>
          match lock p with
          | Some _ => None
          | None => set (connection p) (Some i) (mkWorker q (Holding (body fromisoformat q))) (turns p ++ [(i, q)])
          end
      | Holding (Call m f) =>
          let '(r, k) := m (connection p) in set k (lock p) (mkWorker q (Holding (f r))) (turns p)
      | Holding (Return r) => set (connection p) None (mkWorker q (Finished r)) (turns p)
      | Finished _ => None
      end
  end.

Lemma advance_work fromisoformat limiter p p' :
  work fromisoformat limiter p p' ↔ ∃ i, advance fromisoformat limiter i p = Some p'.
Proof.
  split.
  - intros [k l ws ts i q Hi Ht|k ws ts i q Hi|k k' l ws ts i q B m f r Hi Hm|k l ws ts i q r Hi];
      exists i; unfold advance; cbn [connection lock workers turns]; rewrite Hi.
    + by apply Nat.ltb_lt in Ht as ->.
    + done.
    + by rewrite Hm.
    + done.
  - intros [i Hm]. destruct p as [k l ws ts]. unfold advance in Hm.
    cbn [connection lock workers turns] in Hm.
    destruct (ws !! i) as [[q s]|] eqn:Hi; [|done]. destruct s as [| |[r|B m f]|r].
    + destruct (Nat.ltb_spec (threads (mkStore k l ws ts)) limiter); [|done]. injection Hm as <-. by constructor.
    + destruct l; [done|]. injection Hm as <-. by constructor.
    + injection Hm as <-. by constructor.
    + destruct (m k) as [r k'] eqn:Hk. injection Hm as <-. by econstructor.
    + done.
Qed.

(** A schedule: calls made, and moves of calls; one that cannot move waits. *)
Definition play (fromisoformat : string → option (Z * option Z)) (limiter : nat) (p : Store) (m : request + nat) : Store :=
  match m with
  | inl q => mkStore (connection p) (lock p) (workers p ++ [mkWorker q Queued]) (turns p)
  | inr i => default p (advance fromisoformat limiter i p)
  end.
Definition request_made (m : request + nat) : Prop := match m with inl q => request_ok q | inr _ => True end.

Lemma play_steps fromisoformat limiter p ms :
  Forall request_made ms →
  rtc (step fromisoformat limiter) p (foldl (play fromisoformat limiter) p ms).
Proof.
  intros Hms. revert p. induction Hms as [|m ms Hm _ IH]; intros p; [done|]. cbn [foldl].
  etrans; [|apply IH]. destruct m as [q|i]; cbn.
  - apply rtc_once. destruct p. by constructor.
  - destruct (advance fromisoformat limiter i p) as [p'|] eqn:Hi; [|done].
    apply rtc_once, step_work, advance_work. by exists i.
Qed.

(** ** One call after another *)

(** What an operation of the store of values answers, and leaves. *)
Definition serve (q : request) (d : SqliteDb) : result exn (value q) * SqliteDb :=
  match q with
  | QAppend e => append e d
  | QEntries account limit => (Ok (entries account limit d), d)
  | QAllEntries account => (Ok (all_entries account d), d)
  | QPutInvoice i => put_invoice i d
  | QInvoice id => (Ok (invoice id d), d)
  | QOpenInvoices limit => (Ok (open_invoices limit d), d)
  | QPutSubscription s => put_subscription s d
  | QSubscription account => (Ok (subscription account d), d)
  end.
Definition after (qs : list request) (d : SqliteDb) : SqliteDb := foldl (λ d q, (serve q d).2) d qs.

Lemma after_snoc qs q d : after (qs ++ [q]) d = (serve q (after qs d)).2.
Proof. unfold after. by rewrite foldl_app. Qed.

Lemma serve_ok q d : request_ok q → db_ok d → db_ok (serve q d).2.
Proof.
  intros Hq Hd. destruct q; cbn [serve snd]; try done.
  - by apply (append_refines _ read_isoformat_iso).
  - by apply put_invoice_refines.
  - by apply put_subscription_refines.
Qed.
Lemma after_ok qs d : Forall request_ok qs → db_ok d → db_ok (after qs d).
Proof.
  intros Hqs. revert d. induction Hqs as [|q qs Hq _ IH]; intros d Hd; [done|]. by apply IH, serve_ok.
Qed.

(** ** A function alone *)

Lemma throughout_now {A} P (c : code A) k : throughout P c k → P k.
Proof. by destruct c; intros []. Qed.

(** A function with the connection to itself, from tables committed: it answers and leaves
    what the operation on values does, what is on disk is at every moment what was before
    or what is after, and it makes three calls at most. *)
Record runs_as {A B} (c : code A) (f : A → result exn B) (d : SqliteDb) (o : result exn B * SqliteDb)
    (k : Connection) : Prop := mkRunsAs {
  as_answer : (alone c k).1 ≫= f = o.1;
  as_left : (alone c k).2 = clean (encode o.2);
  as_disk : throughout (λ k', committed k' = encode d ∨ committed k' = encode o.2) c k;
  as_calls : (calls c k ≤ 3)%nat
}.

Section functions_alone.
Variable fromisoformat : string → option (Z * option Z).
Hypothesis reads_iso : ∀ t, datetime_ok t → fromisoformat (isoformat t) = Some (t, Some 0).
#[local] Set Default Proof Using "Type*".

Lemma read_runs_as {A B} (sql : Tables → A) (f : A → result exn B) d o :
  f (sql (encode d)) = o →
  runs_as (perform (execute (gets sql))) f d (o, d) (clean (encode d)).
Proof. intros Hf. constructor; cbn; auto. Qed.

Lemma write_runs_as {A B} (sql : M Tables exn A) (f : unit → result exn B) d (r : result exn A) (o : result exn B * SqliteDb) :
  sql (encode d) = (r, encode o.2) → o.1 = (r ≫= λ _, f tt) → (is_ok r = false → o.2 = d) →
  runs_as (write_ sql) f d o (clean (encode d)).
Proof.
  intros Hsql Ho Hd. destruct o as [o d']. cbn in *.
  destruct r as [a|e]; [|rewrite Hd in * by done]; constructor; cbn; unfold execute; cbn; rewrite Hsql; cbn;
    rewrite ?Ho; auto.
Qed.

Lemma insert_raises r t err t' : insert_ledger r t = (Raise err, t') → t' = t.
Proof. unfold insert_ledger. repeat case_match; congruence. Qed.

Lemma append_runs_as e d :
  entry_ok e → db_ok d →
  runs_as (append_ fromisoformat e) Ok d (append e d) (clean (encode d)).
Proof.
  intros He Hd. destruct (append_refines _ reads_iso e d He Hd) as [Hrow _].
  change (append e d) with (sqlite_append e d). destruct (sqlite_append e d) as [o d']. cbn [fst snd] in Hrow.
  unfold row_append, try_except in Hrow. rewrite run_bind in Hrow.
  destruct (insert_ledger (ledger_values e) (encode d)) as [[[]|err] t1] eqn:Hins; cbn in Hrow.
  - apply pair_eq in Hrow as [<- ->]. constructor; cbn; unfold execute; cbn; rewrite Hins; cbn; auto.
  - apply insert_raises in Hins as Ht. subst t1. unfold except in Hrow.
    destruct (isinstance err cIntegrityError) eqn:Hi.
    2:{ apply pair_eq in Hrow as [<- Ht]. constructor; cbn; unfold execute; cbn; rewrite Hins; cbn; rewrite Hi; cbn; rewrite <- ?Ht; auto. }
    rewrite run_bind, run_gets in Hrow. cbn in Hrow.
    destruct (list_find _ (ledger_values <$> ledger_rows d)) as [[n r]|] eqn:Hf;
      apply pair_eq in Hrow as [<- Ht]; constructor; cbn; unfold execute; cbn; rewrite Hins; cbn; rewrite Hi; cbn; unfold referenced; cbn;
      rewrite Hf; cbn; rewrite <- ?Ht; auto.
    1: by destruct (entry_of fromisoformat r).
    all: auto 10.
Qed.

(** Every operation's function does what the operation on values does. *)
Lemma body_runs_as q d :
  request_ok q → db_ok d →
  runs_as (body fromisoformat q) (resume fromisoformat q) d (serve q d) (clean (encode d)).
Proof.
  intros Hq Hd. destruct q as [e|a l|a|i|k|l|s|a]; cbn [body resume serve].
  - by apply append_runs_as.
  - apply read_runs_as. by apply entries_refine.
  - apply read_runs_as. exact (proj2 (entries_refine _ reads_iso a 0 d Hd)).
  - destruct (put_invoice_refines i d Hq Hd) as [Hrow _].
    eapply write_runs_as; [exact Hrow|..]; cbn; unfold sqlite_put_invoice; by case_match.
  - apply read_runs_as. etrans; [|exact (invoice_refines _ reads_iso k d Hd)]. unfold row_invoice.
    by destruct (list_find _ _) as [[]|].
  - apply read_runs_as. by apply open_invoices_refines.
  - destruct (put_subscription_refines s d Hq Hd) as [Hrow _].
    by eapply write_runs_as; [exact Hrow|..].
  - apply read_runs_as. etrans; [|exact (subscription_refines _ reads_iso a d Hd)]. unfold row_subscription.
    by destruct (list_find _ _) as [[]|].
Qed.
End functions_alone.

(** One call of the connection later. *)
Lemma runs_as_call {A B C} (m : M Connection exn C) (g : result exn C → code A) (f : A → result exn B) d o k k' r :
  m k = (r, k') → runs_as (Call m g) f d o k →
  runs_as (g r) f d o k' ∧ S (calls (g r) k') = calls (Call m g) k.
Proof.
  intros Hm [Ha Hl Ht Hc]. cbn in *. rewrite Hm in *. split; [|done].
  constructor; [done..|by destruct Ht|lia].
Qed.

Lemma same_request (w : option worker) q q' s s' :
  w = Some (mkWorker q s) → w = Some (mkWorker q' s') → q' = q.
Proof. intros ->. intros [= <- _]. done. Qed.

(** ** Every interleaving is one call after another *)

Section interleavings.
Variable fromisoformat : string → option (Z * option Z).
Variable limiter : nat.
Hypothesis reads_iso : ∀ t, datetime_ok t → fromisoformat (isoformat t) = Some (t, Some 0).
(** The values in the tables when the store was opened. *)
Variable d0 : SqliteDb.
Hypothesis d0_ok : db_ok d0.
#[local] Set Default Proof Using "Type*".

Definition history (p : Store) : list request := (turns p).*2.
Definition stored (p : Store) : SqliteDb := after (history p) d0.

(** What there is to know of one call: it has no turn yet; its turn is the last, and what is
    left of its function does what the operation does; or it had its turn, and its answer. *)
Definition call_ok (p : Store) (i : nat) (w : worker) : Prop :=
  match w with
  | mkWorker q s =>
      request_ok q ∧
      match s with
      | Queued | Waiting => i ∉ (turns p).*1
      | Holding c =>
          lock p = Some i ∧
          ∃ ts, turns p = ts ++ [(i, q)] ∧
            let d := after ts.*2 d0 in
            runs_as c (resume fromisoformat q) d (serve q d) (connection p)
      | Finished r =>
          ∃ n, turns p !! n = Some (i, q) ∧ lock p ≠ Some i
            ∧ r ≫= resume fromisoformat q = (serve q (after (take n (history p)) d0)).1
      end
  end.

Record in_turn (p : Store) : Prop := mkInTurn {
  turns_once : NoDup (turns p).*1;
  turns_called : ∀ n i q, turns p !! n = Some (i, q) → ∃ s, workers p !! i = Some (mkWorker q s);
  calls_ok : ∀ i w, workers p !! i = Some w → call_ok p i w;
  lock_held : match lock p with
              | None => connection p = clean (encode (stored p))
              | Some i => ∃ q c, workers p !! i = Some (mkWorker q (Holding c))
              end
}.

Lemma history_ok p : in_turn p → Forall request_ok (history p).
Proof.
  intros Hp. apply Forall_forall. intros q Hq. apply list_elem_of_fmap in Hq as ([i q'] & -> & Hin).
  apply list_elem_of_lookup_1 in Hin as [n Hn]. destruct (turns_called p Hp n i q' Hn) as [s Hs].
  by destruct (calls_ok p Hp _ _ Hs).
Qed.
Lemma stored_ok p : in_turn p → db_ok (stored p).
Proof. intros Hp. apply after_ok; [by apply history_ok|done]. Qed.

Lemma opened_in_turn : in_turn (opened (encode d0)).
Proof.
  constructor; cbn; [constructor|..|done]; intros *; rewrite ?lookup_nil; done.
Qed.

(** The turns and the lock of the others. *)
Lemma call_ok_mono p p' i w :
  call_ok p i w → (i ∈ (turns p').*1 → i ∈ (turns p).*1) → turns p `prefix_of` turns p' →
  (lock p = Some i → lock p' = Some i ∧ turns p' = turns p ∧ connection p' = connection p) →
  (lock p' = Some i → lock p = Some i) → call_ok p' i w.
Proof.
  destruct w as [q s]. intros [Hq Hs] Hnew [ts Hts] Hhold Hlock. split; [done|]. destruct s as [| |c|r].
  - intros H. by apply Hs, Hnew.
  - intros H. by apply Hs, Hnew.
  - destruct Hs as [Hl Hs]. destruct (Hhold Hl) as (Hl' & -> & ->). by split.
  - destruct Hs as (n & Hn & Hl & Hr). exists n. split_and!.
    + rewrite Hts. by apply lookup_app_l_Some.
    + intros H. by apply Hl, Hlock.
    + rewrite Hr. unfold history. rewrite Hts, fmap_app, take_app_le; [done|].
      rewrite length_fmap. apply lookup_lt_Some in Hn. lia.
Qed.

(** A move of one call, at whose turn nobody else holds the lock unless nothing they see
    changes. *)
Lemma in_turn_update p k' l' ts' i q s s' :
  in_turn p → workers p !! i = Some (mkWorker q s) →
  let p' := mkStore k' l' (<[i := mkWorker q s']> (workers p)) ts' in
  (ts' = turns p ∨ (ts' = turns p ++ [(i, q)] ∧ i ∉ (turns p).*1)) →
  (∀ j, j ≠ i → (lock p = Some j → l' = Some j ∧ ts' = turns p ∧ k' = connection p)
    ∧ (l' = Some j → lock p = Some j)) →
  call_ok p' i (mkWorker q s') →
  match l' with
  | None => k' = clean (encode (stored p'))
  | Some j => j = i → ∃ c, s' = Holding c
  end → in_turn p'.
Proof.
  intros [Hnd Hcalled Hok Hlock] Hi p' Hts Hothers Hwi Hl'.
  assert (i < length (workers p))%nat as Hlt by by eapply lookup_lt_Some.
  constructor; cbn.
  - destruct Hts as [->|[-> Hnew]]; [done|]. rewrite fmap_app, NoDup_app. split_and!; [done| |apply NoDup_singleton].
    intros j Hj Hji. cbn in Hji. apply list_elem_of_singleton in Hji as ->. done.
  - intros n j q' Hn. destruct (decide (j = i)) as [->|Hne].
    + rewrite list_lookup_insert_eq by done.
      assert (q' = q) as ->; [|by exists s'].
      destruct Hts as [->|[-> Hnew]]; [destruct (Hcalled _ _ _ Hn) as [s0 Hs0]; by apply (same_request _ _ _ _ _ Hi Hs0)|].
      apply lookup_app_Some in Hn as [Hn|[_ Hn]]; [destruct (Hcalled _ _ _ Hn) as [s0 Hs0]; by apply (same_request _ _ _ _ _ Hi Hs0)|].
      apply list_lookup_singleton_Some in Hn as [_ [= ->]]. done.
    + rewrite list_lookup_insert_ne by done. destruct Hts as [->|[-> Hnew]]; [by eapply Hcalled|].
      apply lookup_app_Some in Hn as [Hn|[_ Hn]]; [by eapply Hcalled|].
      apply list_lookup_singleton_Some in Hn as [_ [= -> _]]. done.
  - intros j w Hj. destruct (decide (j = i)) as [->|Hne].
    + rewrite list_lookup_insert_eq in Hj by done. by injection Hj as <-.
    + rewrite list_lookup_insert_ne in Hj by done. destruct (Hothers j Hne) as [Hh Hr].
      apply (call_ok_mono p); [by apply Hok| |destruct Hts as [->|[-> _]]; [done|by eexists]|done|done].
      cbn. destruct Hts as [->|[-> _]]; [done|]. rewrite fmap_app, elem_of_app.
      intros [?|Hj']; [done|]. cbn in Hj'. by apply list_elem_of_singleton in Hj'.
  - destruct l' as [j|]; [|done]. destruct (decide (j = i)) as [->|Hne].
    + destruct (Hl' eq_refl) as [c ->]. rewrite list_lookup_insert_eq by done. eauto.
    + destruct (Hothers j Hne) as [_ Hr]. rewrite (Hr eq_refl) in Hlock.
      by rewrite list_lookup_insert_ne.
Qed.

Lemma work_in_turn p p' : in_turn p → work fromisoformat limiter p p' → in_turn p'.
Proof.
  intros Hp Hwork.
  destruct Hwork as [k l ws ts i q Hi _|k ws ts i q Hi|k k' l ws ts i q B m f r Hi Hm|k l ws ts i q r Hi];
    pose proof (calls_ok _ Hp _ _ Hi) as [Hq Hc]; cbn in Hc;
    refine (in_turn_update _ _ _ _ i q _ _ Hp Hi _ _ _ _); auto; cbn.
  - done.
  - pose proof (lock_held _ Hp) as Hl. cbn in Hl. destruct l as [j|]; [|exact Hl].
    intros ->. destruct Hl as (q' & c & Hj). rewrite Hi in Hj. simplify_eq.
  - naive_solver.
  - split; [done|]. split; [done|]. exists ts. split; [done|].
    pose proof (lock_held _ Hp) as Hk. cbn [lock connection] in Hk. rewrite Hk.
    apply (body_runs_as _ reads_iso); [done|]. by apply (stored_ok _ Hp).
  - intros _. by eexists.
  - destruct Hc as [-> _]. naive_solver.
  - split; [done|]. destruct Hc as (-> & ts' & -> & Hrun). split; [done|]. exists ts'. split; [done|].
    by apply (runs_as_call m f _ _ _ k).
  - destruct Hc as [-> _]. intros _. by eexists.
  - destruct Hc as [-> _]. naive_solver.
  - split; [done|]. destruct Hc as (-> & ts' & -> & Hrun). exists (length ts'). split_and!; [|done|].
    + by apply list_lookup_middle.
    + unfold history. cbn. rewrite fmap_app, take_app_length'; [|by rewrite length_fmap].
      apply (as_answer _ _ _ _ _ Hrun).
  - destruct Hc as (-> & ts' & -> & Hrun). rewrite fmap_app.
    etrans; [exact (as_left _ _ _ _ _ Hrun)|]. cbn. by rewrite foldl_app.
Qed.

Lemma step_in_turn p p' : in_turn p → step fromisoformat limiter p p' → in_turn p'.
Proof.
  intros Hp Hstep. destruct Hstep as [k l ws ts q Hq|p p' Hwork]; [|by eapply work_in_turn].
  destruct Hp as [Hnd Hcalled Hok Hlock]. cbn in *. constructor; cbn.
  - done.
  - intros n i q' (s & Hs)%Hcalled. exists s. by apply lookup_app_l_Some.
  - intros i w [Hi|[Hlen Hi]]%lookup_app_Some.
    + by apply (call_ok_mono _ _ _ _ (Hok i w Hi)).
    + apply list_lookup_singleton_Some in Hi as [Hi <-]. split; [done|]. cbn.
      intros ([i' q'] & -> & Hin)%list_elem_of_fmap. apply list_elem_of_lookup_1 in Hin as [n Hn].
      destruct (Hcalled n _ _ Hn) as [s Hs]. apply lookup_lt_Some in Hs. cbn in *. lia.
  - destruct l as [i|]; [|done]. destruct Hlock as (q' & c & Hc). exists q', c. by apply lookup_app_l_Some.
Qed.

Lemma reachable_in_turn p :
  reachable (λ p, p = opened (encode d0)) (step fromisoformat limiter) p → in_turn p.
Proof.
  apply reachable_inv.
  - intros ? ->. apply opened_in_turn.
  - intros p1 p2 _ Hp. by apply step_in_turn.
Qed.

Lemma step_turns p p' : step fromisoformat limiter p p' → turns p `prefix_of` turns p'.
Proof using Type. intros [|? ? []]; cbn; try done. by eexists. Qed.
Lemma steps_turns p p' : rtc (step fromisoformat limiter) p p' → turns p `prefix_of` turns p'.
Proof using Type. induction 1 as [|p p1 p2 H _ IH]; [done|]. etrans; [by apply step_turns|done]. Qed.
Lemma steps_in_turn p p' : in_turn p → rtc (step fromisoformat limiter) p p' → in_turn p'.
Proof. intros Hp H. induction H; eauto using step_in_turn. Qed.

(** What is committed: every turn but perhaps the one being had. *)
Lemma disk_in_turn p : in_turn p →
  ∃ m, (m ≤ length (turns p) ≤ S m)%nat
    ∧ committed (connection p) = encode (after (take m (history p)) d0)
    ∧ ∀ i q r n, workers p !! i = Some (mkWorker q (Finished r)) → turns p !! n = Some (i, q) → (n < m)%nat.
Proof.
  intros Hp. pose proof (lock_held _ Hp) as Hl. destruct (lock p) as [j|] eqn:Hlock.
  2:{ exists (length (turns p)). rewrite Hl, take_ge by (unfold history; by rewrite length_fmap).
      split_and!; [lia..|done|]. intros i q r n _ Hn. by eapply lookup_lt_Some. }
  destruct Hl as (q & c & Hj). destruct (calls_ok _ Hp _ _ Hj) as (_ & _ & ts & Hts & Hrun).
  assert (history p = ts.*2 ++ [q]) as Hh by (unfold history; by rewrite Hts, fmap_app).
  rewrite Hh, Hts, length_app. cbn [length].
  destruct (throughout_now _ _ _ (as_disk _ _ _ _ _ Hrun)) as [Hd|Hd].
  - exists (length ts). rewrite take_app_length' by by rewrite length_fmap. split_and!; [lia..|done|].
    intros i q' r n Hi Hn. apply lookup_app_Some in Hn as [Hn|[_ Hn]]; [by eapply lookup_lt_Some|].
    apply list_lookup_singleton_Some in Hn as [_ [= -> ->]]. rewrite Hj in Hi. simplify_eq.
  - exists (S (length ts)). rewrite take_ge, after_snoc by (rewrite length_app, length_fmap; cbn; lia).
    split_and!; [lia..|done|].
    intros i q' r n Hi Hn. apply lookup_lt_Some in Hn. rewrite length_app in Hn. cbn in Hn. lia.
Qed.

(** Of two calls, the one made when the other was answered has the later turn. *)
Lemma later_turn p p' i q r j q' n m :
  in_turn p → rtc (step fromisoformat limiter) p p' →
  workers p !! i = Some (mkWorker q (Finished r)) → (length (workers p) ≤ j)%nat →
  turns p' !! n = Some (i, q) → turns p' !! m = Some (j, q') → (n < m)%nat.
Proof.
  intros Hp Hsteps Hi Hj Hn Hm. pose proof (steps_in_turn _ _ Hp Hsteps) as Hp'.
  destruct (steps_turns p p' Hsteps) as [ts Hts].
  destruct (calls_ok _ Hp _ _ Hi) as (_ & n0 & Hn0 & _ & _).
  pose proof (lookup_lt_Some _ _ _ Hn0) as Hlt.
  assert (n = n0) as ->.
  { apply (NoDup_lookup (turns p').*1 n n0 i); [apply (turns_once _ Hp')|..]; rewrite list_lookup_fmap.
    - by rewrite Hn.
    - rewrite Hts, lookup_app_l by done. by rewrite Hn0. }
  destruct (decide (m < length (turns p))%nat) as [Hml|]; [|lia].
  rewrite Hts, lookup_app_l in Hm by done. destruct (turns_called _ Hp _ _ _ Hm) as [s Hs].
  apply lookup_lt_Some in Hs. lia.
Qed.

(** The turns that have been answered, by their number. *)
Definition answered_turn (p : Store) (j : nat) : Prop :=
  ∃ i q r, workers p !! i = Some (mkWorker q (Finished r)) ∧ turns p !! j = Some (i, q).

Lemma step_answered p p' j : step fromisoformat limiter p p' → answered_turn p j → answered_turn p' j.
Proof using Type.
  intros Hstep (i & q & r & Hi & Hj). exists i, q, r.
  assert (workers p' !! i = Some (mkWorker q (Finished r))) as Hi'.
  { destruct Hstep as [k l ws ts q'|p p' Hwork]; [by apply lookup_app_l_Some|].
    destruct Hwork as [k l ws ts i' q' Hi' _|k ws ts i' q' Hi'|k k' l ws ts i' q' B m f r' Hi' _|k l ws ts i' q' r' Hi'];
      cbn in *; (rewrite list_lookup_insert_ne; [done|]); intros ->; rewrite Hi in Hi';
      by apply (f_equal (fmap answered)) in Hi'. }
  split; [done|]. destruct (step_turns _ _ Hstep) as [ts ->]. by apply lookup_app_l_Some.
Qed.

(** Tables that the first turns leave, all of those in [A] among them. *)
Definition left_after (A : nat → Prop) (p : Store) (t : Tables) : Prop :=
  ∃ n, (n ≤ length (turns p))%nat ∧ t = encode (after (take n (history p)) d0) ∧ ∀ j, A j → (j < n)%nat.

Lemma left_after_later A p p' t :
  turns p `prefix_of` turns p' → left_after A p t → left_after A p' t.
Proof using Type.
  intros [ts Hts] (n & Hn & -> & HA). exists n. unfold history. rewrite Hts, fmap_app, length_app.
  rewrite take_app_le by (rewrite length_fmap; lia). split_and!; [lia|done|done].
Qed.

Lemma committed_after (A : nat → Prop) p :
  in_turn p → (∀ j, A j → answered_turn p j) → left_after A p (committed (connection p)).
Proof.
  intros Hp HA. destruct (disk_in_turn p Hp) as (m & Hm & -> & Hans). exists m.
  split_and!; [lia|done|]. intros j (i & q & r & Hi & Hj)%HA. by eapply Hans.
Qed.

(** All that a power cut may come back to is of that kind, if it was when the disk had
    last caught up with the answers in [A]. *)
Record recoverable (A : nat → Prop) (m : Machine) : Prop := mkRecoverable {
  rec_turns : in_turn (process m);
  rec_answered : ∀ j, A j → answered_turn (process m) j;
  rec_past : Forall (left_after A (process m)) (since_sync m)
}.

Lemma happens_recoverable A m m' :
  recoverable A m → happens fromisoformat limiter m m' → recoverable A m'.
Proof.
  intros Hm Hhappens. revert Hm.
  destruct Hhappens as [p p' past Hstep|p past n]; intros [Hp HA Hpast]; cbn in *.
  - split; cbn; [by eapply step_in_turn|eauto using step_answered|].
    apply Forall_app. split; [|apply Forall_singleton].
    + eapply Forall_impl; [exact Hpast|]. intros t. apply left_after_later. by apply step_turns.
    + eapply left_after_later; [by apply step_turns|]. by apply committed_after.
  - split; [done|done|]. by apply Forall_drop.
Qed.
Lemma recoverable_rtc A m m' :
  recoverable A m → rtc (happens fromisoformat limiter) m m' → recoverable A m'.
Proof. intros Hm H. induction H; eauto using happens_recoverable. Qed.
Lemma booted_recoverable : recoverable (λ _, False) (booted (encode d0)).
Proof. split; cbn; [apply opened_in_turn|done|constructor]. Qed.

Lemma power_cut_after A m path t :
  path ≠ MEMORY → recoverable A m → t ∈ left_by path PowerCut m → left_after A (process m) t.
Proof.
  intros Hpath [Hp HA Hpast] Ht. unfold left_by in Ht. apply String.eqb_neq in Hpath as Hne. rewrite Hne in Ht.
  apply elem_of_app in Ht as [Ht| ->%list_elem_of_singleton].
  - rewrite Forall_forall in Hpast. by apply Hpast.
  - by apply committed_after.
Qed.
End interleavings.

(** ** Every call returns *)

(** The moves a call has left. *)
Definition weight (k : Connection) (w : worker) : nat :=
  match status_of w with
  | Queued => 6
  | Waiting => 5
  | Holding c => S (calls c k)
  | Finished _ => 0
  end.
Definition remaining (p : Store) : nat := sum_list_with (weight (connection p)) (workers p).

Lemma sum_insert {A} (f g : A → nat) l i x y :
  l !! i = Some x → (∀ j z, j ≠ i → l !! j = Some z → f z = g z) →
  (sum_list_with g (<[i := y]> l) + f x = sum_list_with f l + g y)%nat.
Proof.
  revert i. induction l as [|a l IH]; intros i Hi Hfg; [done|]. destruct i as [|i]; cbn in *.
  - injection Hi as ->.
    assert (sum_list_with g l = sum_list_with f l) as ->; [|lia].
    assert (∀ j z, l !! j = Some z → f z = g z) as H by (intros j z Hz; by apply (Hfg (S j))).
    clear -H. induction l as [|b l IH]; cbn; [done|]. rewrite IH, (H O b); [done|done|].
    intros j. apply (H (S j)).
  - rewrite (Hfg O a) by done. specialize (IH i Hi (λ j z Hj Hz, Hfg (S j) z (not_eq_S _ _ Hj) Hz)).
    rewrite <- !Nat.add_assoc. by f_equal.
Qed.

Section liveness.
Variable fromisoformat : string → option (Z * option Z).
Variable limiter : nat.
Hypothesis reads_iso : ∀ t, datetime_ok t → fromisoformat (isoformat t) = Some (t, Some 0).
Variable d0 : SqliteDb.
Hypothesis d0_ok : db_ok d0.
#[local] Set Default Proof Using "Type*".
#[local] Abbreviation in_turn := (in_turn fromisoformat d0).

Lemma work_remaining p p' : in_turn p → work fromisoformat limiter p p' → (remaining p' < remaining p)%nat.
Proof.
  intros Hp Hwork. pose proof (work_in_turn _ _ reads_iso _ d0_ok _ _ Hp Hwork) as Hp'.
  assert (∀ k k' i q s s' (ws : list worker), ws !! i = Some (mkWorker q s) →
    (∀ j z, j ≠ i → ws !! j = Some z → weight k z = weight k' z) →
    (weight k' (mkWorker q s') < weight k (mkWorker q s))%nat →
    (sum_list_with (weight k') (<[i := mkWorker q s']> ws) < sum_list_with (weight k) ws)%nat) as Hsum.
  { intros k k' i q s s' ws Hi Hothers Hlt. pose proof (sum_insert _ _ _ _ _ (mkWorker q s') Hi Hothers). lia. }
  unfold remaining.
  destruct Hwork as [k l ws ts i q Hi _|k ws ts i q Hi|k k' l ws ts i q B m f r Hi Hm|k l ws ts i q r Hi];
    cbn [connection workers]; eapply Hsum; try exact Hi; auto; cbn; try lia.
  - destruct (calls_ok _ _ _ Hp' i (mkWorker q (Holding (body fromisoformat q)))) as (_ & _ & ts' & _ & Hrun).
    { cbn. apply list_lookup_insert_eq. by eapply lookup_lt_Some. }
    pose proof (as_calls _ _ _ _ _ Hrun) as Hc. cbn in Hc. lia.
  - intros j [q' s'] Hne Hj. destruct (calls_ok _ _ _ Hp _ _ Hi) as (_ & Hl & _).
    destruct s' as [| |c|]; try done. destruct (calls_ok _ _ _ Hp _ _ Hj) as (_ & Hl' & _). congruence.
  - rewrite Hm. lia.
Qed.

Lemma work_steps_bounded n p p' :
  in_turn p → nsteps (work fromisoformat limiter) n p p' → (n + remaining p' ≤ remaining p)%nat.
Proof.
  intros Hp Hn. revert Hp. induction Hn as [p|n p p1 p2 Hw _ IH]; intros Hp; [done|].
  pose proof (work_remaining _ _ Hp Hw). specialize (IH (work_in_turn _ _ reads_iso _ d0_ok _ _ Hp Hw)). lia.
Qed.

Lemma remaining_le p : in_turn p → (remaining p ≤ 6 * length (workers p))%nat.
Proof.
  intros Hp. unfold remaining.
  assert (∀ w, w ∈ workers p → (weight (connection p) w ≤ 6)%nat) as H.
  { intros [q s] [i Hi]%list_elem_of_lookup_1. destruct s as [| |c|]; cbn; try lia.
    destruct (calls_ok _ _ _ Hp _ _ Hi) as (_ & _ & ts & _ & Hrun).
    pose proof (as_calls _ _ _ _ _ Hrun). lia. }
  revert H. generalize (connection p). induction (workers p) as [|w ws IH]; intros k H; cbn; [lia|].
  pose proof (H w (list_elem_of_here _ _)). specialize (IH k (λ w' Hw', H w' (list_elem_of_further _ _ _ Hw'))). lia.
Qed.

(** Nobody is stuck: whoever holds the lock goes on, whoever waits for it takes it, and
    whoever waits for a thread gets one. *)
Lemma advance_next p :
  in_turn p → (0 < limiter)%nat → forallb answered (workers p) = false →
  ∃ i p', advance fromisoformat limiter i p = Some p'.
Proof.
  intros Hp Hlim Hun. pose proof (lock_held _ _ _ Hp) as Hl. destruct (lock p) as [i|] eqn:Hlock.
  { destruct Hl as (q & c & Hi). exists i. unfold advance. rewrite Hi.
    destruct c as [r|B m f]; [eauto|]. destruct (m (connection p)). eauto. }
  destruct (decide (threads p = 0)%nat) as [Ht|Ht].
  - assert (∃ i q s, workers p !! i = Some (mkWorker q s) ∧ answered (mkWorker q s) = false) as (i & q & s & Hi & Ha).
    { clear -Hun. induction (workers p) as [|[q s] ws IH]; [done|]. cbn in Hun.
      destruct (answered (mkWorker q s)) eqn:Ha; [|by exists O, q, s]. cbn in Hun.
      destruct (IH Hun) as (i & H). by exists (S i). }
    exists i. unfold advance. rewrite Hi, Hlock. destruct s as [| |c|r]; [|eauto| |done].
    + rewrite (proj2 (Nat.ltb_lt _ _)) by lia. eauto.
    + destruct (calls_ok _ _ _ Hp _ _ Hi) as (_ & Hl' & _). congruence.
  - unfold threads in Ht. destruct (filter _ (workers p)) as [|[q s] ws'] eqn:Hf; [done|].
    assert (mkWorker q s ∈ filter (λ w, on_thread w = true) (workers p)) as Hin by (rewrite Hf; left).
    apply list_elem_of_filter in Hin as [Hon [i Hi]%list_elem_of_lookup_1].
    exists i. unfold advance. rewrite Hi, Hlock. destruct s as [| |c|r]; try done; [eauto|].
    destruct (calls_ok _ _ _ Hp _ _ Hi) as (_ & Hl' & _). congruence.
Qed.
End liveness.

(** ** What the lock gives *)

(** C30. However the calls made of the store interleave on their threads, each takes one turn,
    one at a time, and is answered as the store of values answers the operations one after
    another in the order of their turns, and a call made after another was answered has the
    later turn.  A process that dies, between any two calls of the connection, leaves in its
    file what the turns before some point leave, all but the last at least and every answered
    one among them.  A power cut leaves what some first turns leave, never a part of one; it
    may lose answered turns, but none that was answered before the disk last caught up.
    Tables in memory are lost with the process. *)
Theorem store_serves_in_turn fromisoformat limiter d0 machine path
    (reads_iso : ∀ t, datetime_ok t → fromisoformat (isoformat t) = Some (t, Some 0))
    (d0_ok : db_ok d0)
    (Hreach : reachable (λ m, m = booted (encode d0)) (happens fromisoformat limiter) machine) :
  let p := process machine in
  NoDup (turns p).*1
  ∧ (∀ i q c, workers p !! i = Some (mkWorker q (Holding c)) → lock p = Some i)
  ∧ (∀ i q r, workers p !! i = Some (mkWorker q (Finished r)) →
       ∃ n, turns p !! n = Some (i, q)
         ∧ r ≫= resume fromisoformat q = (serve q (after (take n (history p)) d0)).1)
  ∧ (∀ p' i q r j q' n m, rtc (step fromisoformat limiter) p p' →
       workers p !! i = Some (mkWorker q (Finished r)) → (length (workers p) ≤ j)%nat →
       turns p' !! n = Some (i, q) → turns p' !! m = Some (j, q') → (n < m)%nat)
  ∧ (path = MEMORY → ∀ crash, left_by path crash machine = [encode empty_db])
  ∧ (path ≠ MEMORY →
       (∃ m, (m ≤ length (turns p) ≤ S m)%nat
          ∧ left_by path ProcessDies machine = [encode (after (take m (history p)) d0)]
          ∧ ∀ j, answered_turn p j → (j < m)%nat)
       ∧ (∀ t, t ∈ left_by path PowerCut machine → left_after d0 (λ _, False) p t)
       ∧ (since_sync machine = [] → ∀ later t, rtc (happens fromisoformat limiter) machine later →
            t ∈ left_by path PowerCut later → left_after d0 (answered_turn p) (process later) t)).
Proof.
  intros p.
  assert (recoverable fromisoformat d0 (λ _, False) machine) as Hrec.
  { revert Hreach. apply reachable_inv.
    - intros ? ->. by apply booted_recoverable.
    - intros m m' _ Hm. by apply happens_recoverable. }
  pose proof (rec_turns _ _ _ _ Hrec) as Hp. fold p in Hp. split_and!.
  - apply (turns_once _ _ _ Hp).
  - intros i q c Hi. by destruct (calls_ok _ _ _ Hp _ _ Hi) as (_ & Hl & _).
  - intros i q r Hi. destruct (calls_ok _ _ _ Hp _ _ Hi) as (_ & n & Hn & _ & Hr). by exists n.
  - intros p' i q r j q' n m. by apply (later_turn fromisoformat limiter reads_iso d0 d0_ok).
  - intros -> crash. done.
  - intros Hpath. split_and!.
    + destruct (disk_in_turn _ reads_iso d0 d0_ok p Hp) as (m & Hm & Hc & Hans). exists m.
      split_and!; [lia|lia| |].
      * unfold left_by. apply String.eqb_neq in Hpath as ->. by rewrite <- Hc.
      * intros j (i & q & r & Hi & Hj). by eapply Hans.
    + intros t Ht. by apply (power_cut_after _ reads_iso d0 d0_ok _ machine path).
    + intros Hsync later t Hsteps Ht. eapply (power_cut_after _ reads_iso d0 d0_ok _ later path); [done| |done].
      eapply (recoverable_rtc fromisoformat limiter reads_iso); [done| |exact Hsteps].
      split; [done|done|]. rewrite Hsync. constructor.
Qed.

(** Two payments of one reference confirmed at once, on two threads. *)
Definition two_entry (id : string) : LedgerEntry := mkEntry id "a" PURCHASE 10 0 (mkMoney 5) "tx" "".
Definition two_confirmations : list (request + nat) :=
  [inl (QAppend (two_entry "1")); inl (QAppend (two_entry "2")); inr 0%nat; inr 1%nat; inr 1%nat; inr 0%nat; inr 1%nat;
   inr 0%nat; inr 1%nat; inr 1%nat; inr 0%nat; inr 0%nat; inr 0%nat; inr 0%nat; inr 0%nat].
Definition confirmed_twice : Store := foldl (play read_isoformat 40) (opened (encode empty_db)) two_confirmations.

Lemma reachable_play fromisoformat limiter t ms :
  Forall request_made ms →
  reachable (λ p, p = opened t) (step fromisoformat limiter) (foldl (play fromisoformat limiter) (opened t) ms).
Proof.
  intros Hms. apply rtc_reachable with (opened t); [by apply reach_init|by apply play_steps].
Qed.

(** The machine it ran on, whose disk never caught up. *)
Lemma machine_reached fromisoformat limiter t p :
  reachable (λ p, p = opened t) (step fromisoformat limiter) p →
  ∃ past, reachable (λ m, m = booted t) (happens fromisoformat limiter) (mkMachine p past)
    ∧ (p = opened t ∨ t ∈ past).
Proof.
  induction 1 as [p ->|p p' _ (past & Hpast & Ht) Hstep]; [exists []; split; [by constructor|by left]|].
  exists (past ++ [committed (connection p)]).
  split; [eapply reach_step; [exact Hpast|by constructor]|right]. apply elem_of_app.
  destruct Ht as [->|Ht]; [right; cbn; by left|by left].
Qed.

Lemma store_serves_in_turn_witness :
  match workers confirmed_twice with
  | [mkWorker (QAppend e1) (Finished (Ok o1)); mkWorker (QAppend e2) (Finished (Ok o2))] =>
      entry_id e1 = "1" ∧ entry_id e2 = "2" ∧ o1 = e2 ∧ o2 = e2
  | _ => False
  end
  ∧ (∃ n, turns confirmed_twice !! n = Some (0%nat, QAppend (two_entry "1"))
      ∧ Ok (two_entry "2") = (serve (QAppend (two_entry "1")) (after (take n (history confirmed_twice)) empty_db)).1)
  ∧ left_by "var/billing.sqlite3" ProcessDies (mkMachine confirmed_twice [])
    = [encode (after (history confirmed_twice) empty_db)].
Proof.
  split; [vm_compute; auto|].
  destruct (machine_reached read_isoformat 40 (encode empty_db) confirmed_twice) as (past & Hpast & _).
  { apply reachable_play. repeat constructor; vm_compute; done. }
  destruct (store_serves_in_turn read_isoformat 40 empty_db (mkMachine confirmed_twice past) "var/billing.sqlite3"
    read_isoformat_iso) as (_ & _ & H & _ & _ & Hdisk).
  - by constructor.
  - exact Hpast.
  - split.
    + apply (H 0%nat (QAppend (two_entry "1")) (Ok (two_entry "2"))). vm_compute. reflexivity.
    + destruct (Hdisk ltac:(discriminate)) as ((m & _ & Hm & Hans) & _).
      assert (1 < m)%nat as Hlt.
      { apply Hans. exists 0%nat, (QAppend (two_entry "1")), (Ok (two_entry "2")). vm_compute. by split. }
      rewrite take_ge in Hm by (change (length _) with 2%nat; lia). exact Hm.
Defined.

(** The two answers, and a power cut before the disk was made to keep them: the ledger
    may be found as it was before either. *)
Example power_cut_loses_answers :
  forallb answered (workers confirmed_twice) = true ∧ length (turns confirmed_twice) = 2%nat
  ∧ ∃ past, reachable (λ m, m = booted (encode empty_db)) (happens read_isoformat 40)
              (mkMachine confirmed_twice past)
      ∧ encode empty_db ∈ left_by "var/billing.sqlite3" PowerCut (mkMachine confirmed_twice past).
Proof.
  split; [vm_compute; reflexivity|]. split; [vm_compute; reflexivity|].
  destruct (machine_reached read_isoformat 40 (encode empty_db) confirmed_twice) as (past & Hpast & Ht).
  { apply reachable_play. repeat constructor; vm_compute; done. }
  exists past. split; [done|]. unfold left_by. cbn. apply elem_of_app. left.
  destruct Ht as [Ht|Ht]; [|done]. apply (f_equal (λ p, length (turns p))) in Ht. by vm_compute in Ht.
Qed.

(** C31. Whatever the schedule, no call made of the store waits for ever: a process with a thread
    to give is never stuck while a call is unanswered, six moves a call are all there are to
    make, and those that bring every call its answer leave the lock free and every turn
    committed. *)
Theorem every_call_returns fromisoformat limiter d0 p
    (reads_iso : ∀ t, datetime_ok t → fromisoformat (isoformat t) = Some (t, Some 0))
    (d0_ok : db_ok d0) (Hlimiter : (0 < limiter)%nat)
    (Hreach : reachable (λ p, p = opened (encode d0)) (step fromisoformat limiter) p) :
  (∀ n p', nsteps (work fromisoformat limiter) n p p' →
     (n ≤ 6 * length (workers p))%nat
     ∧ (forallb answered (workers p') = false → ∃ p'', work fromisoformat limiter p' p''))
  ∧ ∃ p', rtc (work fromisoformat limiter) p p'
      ∧ length (workers p') = length (workers p) ∧ forallb answered (workers p') = true
      ∧ lock p' = None ∧ committed (connection p') = encode (after (history p') d0).
Proof.
  pose proof (reachable_in_turn _ _ reads_iso _ d0_ok _ Hreach) as Hp. split.
  - intros n p' Hn. split.
    + pose proof (work_steps_bounded _ _ reads_iso _ d0_ok _ _ _ Hp Hn).
      pose proof (remaining_le _ reads_iso _ d0_ok _ Hp). lia.
    + intros Hun. assert (in_turn fromisoformat d0 p') as Hp'.
      { clear -Hp Hn reads_iso d0_ok. induction Hn; eauto using work_in_turn. }
      destruct (advance_next fromisoformat limiter reads_iso _ d0_ok _ Hp' Hlimiter Hun) as (i & p'' & Hm).
      exists p''. apply advance_work. by exists i.
  - clear Hreach. remember (remaining p) as n eqn:Hn. revert p Hp Hn.
    induction (lt_wf n) as [n _ IH]. intros p Hp ->.
    destruct (forallb answered (workers p)) eqn:Hans.
    + exists p. split_and!; [done|done|done|..]; pose proof (lock_held _ _ _ Hp) as Hl;
        destruct (lock p) as [i|]; [|done| |by rewrite Hl]; destruct Hl as (q & c & Hi);
        exfalso; rewrite forallb_forall in Hans; apply list_elem_of_lookup_2, list_elem_of_In, Hans in Hi; done.
    + destruct (advance_next fromisoformat limiter reads_iso _ d0_ok _ Hp Hlimiter Hans) as (i & p1 & Hm).
      assert (work fromisoformat limiter p p1) as Hw by (apply advance_work; by exists i).
      destruct (IH (remaining p1)) with p1 as (p' & Hsteps & Hlen & Hall & Hfree & Hdisk);
        [by eapply work_remaining|by eapply work_in_turn|done|].
      exists p'. split_and!; [by eapply rtc_l| |done..]. rewrite Hlen.
      destruct Hw; cbn; by rewrite ?length_insert.
Qed.

Lemma every_call_returns_witness :
  ∃ p, rtc (work read_isoformat 1)
         (foldl (play read_isoformat 1) (opened (encode empty_db)) (take 2 two_confirmations)) p
       ∧ length (workers p) = 2%nat ∧ forallb answered (workers p) = true.
Proof.
  destruct (every_call_returns read_isoformat 1 empty_db
    (foldl (play read_isoformat 1) (opened (encode empty_db)) (take 2 two_confirmations))
    read_isoformat_iso) as (_ & p & Hp & Hl & Ha & _).
  - by constructor.
  - lia.
  - apply reachable_play. repeat constructor; vm_compute; done.
  - exists p. split_and!; [exact Hp|exact Hl|exact Ha].
Defined.
