(* ===== verification/BillingService.v ===== *)
(** * The billing service *)
(** [application/billing_service.py] over any store that keeps the port's promises and that
    nobody else uses meanwhile (what others may do is the matter of [Books]);
    the payment network and the subscriptions contract
    ([infrastructure/billing/subscriptions.py], whose reading of the ledger is its
    SDK's) are parameters.  Time, ids and tokens of randomness are drawn from the
    world. *)
From S2P Require Export BillingStore.
From stdpp Require Import options.
Local Open Scope Z_scope.

(** ** What the service asks of others *)

Record PaymentNetwork (W : Type) : Type := mkNetwork {
  network_id : string;
  network_destination : string;
  payment_for : Invoice → M W exn (option ObservedPayment);
  network_quote : Money → string → M W exn string;
  network_verify : string → Invoice → M W exn VerifyResult;
  network_settle : string → M W exn SettleResult
}.
Arguments network_id {_} _.
Arguments network_destination {_} _.
Arguments payment_for {_} _ _.
Arguments network_quote {_} _ _ _.
Arguments network_verify {_} _ _ _.
Arguments network_settle {_} _ _.

(** [OnChainSubscription] *)
Record OnChainSubscription : Type := mkOnChain {
  onchain_plan : string;
  onchain_started : Z;
  onchain_expires : Z;
  onchain_periods : Z
}.
Definition onchain_active (s : OnChainSubscription) (now : Z) : bool := now <? onchain_expires s.
Definition onchain_period_key (s : OnChainSubscription) : string :=
  onchain_plan s ++s ":" ++s int_str (onchain_started s / SECOND).

Record SubscriptionRegistry (W : Type) : Type := mkChain {
  chain_available : bool;
  chain_contract_id : string;
  chain_subscription : string → M W exn (option OnChainSubscription);
  build_subscribe : option (string → string → M W exn string);
  chain_submit : option (string → M W exn string)
}.
Arguments chain_available {_} _.
Arguments chain_contract_id {_} _.
Arguments chain_subscription {_} _ _.
Arguments build_subscribe {_} _.
Arguments chain_submit {_} _.

(** [NoSubscriptions] *)
Definition NoSubscriptions {W} : SubscriptionRegistry W :=
  mkChain W false EmptyString (λ _, mret None) None None.

(** [BillingService.contract_id] *)
Definition contract_id {W} (chain : SubscriptionRegistry W) : string :=
  if chain_available chain then chain_contract_id chain else EmptyString.

Definition DEFAULT_RESERVE : Z := 50000.

(** [AccountView] *)
Record AccountView : Type := mkView {
  view_account : string;
  view_balance : Balance;
  view_subscription : option Subscription;
  view_plan : option Plan;
  view_entries : list LedgerEntry;
  view_usage : UsageSummary;
  view_lifetime : UsageSummary
}.
Definition view_as_json (v : AccountView) : json :=
  JObj [("account", JStr (view_account v)); ("balance", balance_as_json (view_balance v));
        ("subscription",
          match view_subscription v with Some s => subscription_as_json s | None => JNull end);
        ("plan", match view_plan v with Some p => plan_as_json p | None => JNull end);
        ("usage", summary_as_json (view_usage v));
        ("lifetime", summary_as_json (view_lifetime v));
        ("entries", JList (map entry_as_json (view_entries v)))]%string.

Section service.
Context {W D : Type} `{!Field W D} `{!BillingStore D}.
(** [now_utc], [entry_id], the token of [new_invoice_id]. *)
Context (now_utc : M W exn Z) (new_entry_id new_token : M W exn string).
(** The constructor's arguments. *)
Context (network : PaymentNetwork W) (catalog : Catalog) (default_asset : string) (reserve : Z)
        (chain : SubscriptionRegistry W).

(** A call of the store from the service, [await anyio.to_thread.run_sync(...)] in the
    store's own methods: the call itself is one step, and others have theirs before and
    after it. *)
Definition in_thread {A} (f : D → result exn A * D) : M W exn A := λ w,
  ((f (getf w)).1, setf (f (getf w)).2 w).
Definition store_write {A} (f : D → result exn A * D) : M W exn A :=
  in_thread handed_over ;;
  answer ← in_thread f;
  in_thread handed_back ;;
  mret answer.
Definition store_read {A} (f : D → A) : M W exn A := store_write (λ d, (Ok (f d), d)).

(** [balance] *)
Definition balance (account : string) : M W exn Balance :=
  es ← store_read (all_entries account);
  mret (balance_of account es).

(** [credit] *)
Definition credit (account : string) (n : Z) (k : EntryKind) (ref : string) (paid_for : Money)
    (note : string) : M W exn LedgerEntry :=
  if n <? 0 then raise (BillingError "a credit cannot be negative; use a debit")
  else
    id ← new_entry_id;
    now ← now_utc;
    store_write (append (mkEntry id account k n now paid_for ref note)).

(** [charge] *)
Definition charge (account run_id : string) (usage : Usage) : M W exn (option LedgerEntry) :=
  n ← lift (billable (pricing catalog) usage);
  if n <=? 0 then mret None
  else
    id ← new_entry_id;
    now ← now_utc;
    e ← store_write (append (mkEntry id account USAGE (- n) now (cost usage) ("run:" ++s run_id)
          (comma_str (tokens usage) ++s " tokens · " ++s int_str (calls usage) ++s " calls")));
    mret (Some e).

(** *** Periods *)

Definition free_plan : option Plan := snd <$> list_find (λ p, is_free p = true) (plans catalog).

(** [_grant] *)
Definition grant (account : string) (p : Plan) (s : Subscription) : M W exn unit :=
  credit account (plan_tokens p) GRANT ("grant:" ++s period_key s) (mkMoney 0)
    (plan_name p ++s " · " ++s cadence_value (cadence p)) ;;
  mret tt.

(** [_expire_grant] *)
Definition expire_grant (account : string) (s : Subscription) (now : Z) : M W exn unit :=
  b ← balance account;
  if granted b <=? 0 then mret tt
  else
    id ← new_entry_id;
    store_write (append (mkEntry id account EXPIRY (- granted b) now (mkMoney 0)
      ("expiry:" ++s period_key s) "the period ended and its tokens did not roll over")) ;;
    mret tt.

(** [_begin_free] *)
Definition begin_free (account : string) (now : Z) : M W exn (option Subscription) :=
  match free_plan with
  | None => mret None
  | Some p =>
      s ← store_write (put_subscription (begin_subscription account p now));
      grant account p s ;;
      mret (Some s)
  end.

(** [try: self._catalog.plan(id) except BillingError: None] *)
Definition plan_or_none (id : string) : option Plan :=
  match catalog_plan catalog id with Ok p => Some p | Raise _ => None end.

(** [_mirror_chain] *)
Definition mirror_chain (account : string) (now : Z) : M W exn (option Subscription) :=
  if negb (chain_available chain) then mret None
  else
    onchain ← try_except (chain_subscription chain account)
                (except cException (λ _, mret None));
    match onchain with
    | Some s =>
        if negb (onchain_active s now) then mret None
        else
          match plan_or_none (onchain_plan s) with
          | None => mret None
          | Some p =>
              let mirrored := mkSubscription account (plan_id p) (onchain_started s)
                                (onchain_expires s) ACTIVE in
              store_write (put_subscription mirrored) ;;
              credit account (plan_tokens p) GRANT ("chain:" ++s onchain_period_key s) (mkMoney 0)
                (plan_name p ++s " · on-chain") ;;
              mret (Some mirrored)
          end
    | None => mret None
    end.

(** [settle_period] *)
Definition settle_period (account : string) : M W exn (option Subscription) :=
  now ← now_utc;
  mirrored ← mirror_chain account now;
  match mirrored with
  | Some s => mret (Some s)
  | None =>
      current ← store_read (subscription account);
      match current with
      | None => begin_free account now
      | Some s =>
          if negb (due s now) then mret (Some s)
          else
            let p := plan_or_none (sub_plan_id s) in
            expire_grant account s now ;;
            match p with
            | Some p =>
                if is_free p then
                  renewed_ ← store_write (put_subscription (renewed s p now));
                  grant account p renewed_ ;;
                  mret (Some renewed_)
                else
                  e ← store_write (put_subscription (ended s)); mret (Some e)
            | None => e ← store_write (put_subscription (ended s)); mret (Some e)
            end
      end
  end.

(** [authorize] *)
Definition authorize (account : string) (needed : Z) : M W exn Balance :=
  settle_period account ;;
  b ← balance account;
  let required := Z.max needed reserve in
  if negb (can_afford b required) then raise (InsufficientFundsError required (total b))
  else mret b.

(** [view] *)
Definition view (account : string) (limit : Z) : M W exn AccountView :=
  s ← settle_period account;
  let p := match s with Some s => plan_or_none (sub_plan_id s) | None => None end in
  history ← store_read (all_entries account);
  b ← balance account;
  recent ← store_read (entries account limit);
  mret (mkView account b s p recent
          (usage_of history (started_at <$> s)) (usage_of history None)).

(** *** Selling *)

(** [checkout] *)
Definition checkout (account sku_ asset_ : string) : M W exn Invoice :=
  product ← lift (catalog_product catalog sku_);
  (match product with
   | PPlan p =>
       if negb (is_free p) && chain_available chain
       then raise (BillingError (plan_name p ++s " is subscribed to on chain, not paid by invoice: "
                                 ++s "call subscribe() on " ++s chain_contract_id chain))
       else if is_free p
       then raise (BillingError (plan_name p ++s " costs nothing: it is already on this account"))
       else mret tt
   | PPack _ => mret tt
   end) ;;
  (if str_truthy (network_destination network) then mret tt
   else raise (BillingError ("this gateway has no payment destination configured "
          ++s "(GATEWAY_BILLING__DESTINATION), so nothing can be bought here yet"))) ;;
  let unit_ := str_upper (if str_truthy asset_ then asset_ else default_asset) in
  now ← now_utc;
  token ← new_token;
  quoted ← network_quote network (product_price product) unit_;
  store_write (put_invoice
    (mkInvoice (new_invoice_id token) account (product_id product) (product_tokens product)
       (product_price product) unit_ quoted (network_destination network) now (now + INVOICE_TTL)
       PENDING (match product with PPlan _ => "plan" | PPack _ => "pack" end)
       EmptyString EmptyString)).

(** [_deliver] *)
Definition product_name (p : Product) : string :=
  match p with PPlan p => plan_name p | PPack p => pack_name p end.
Definition deliver (i : Invoice) : M W exn unit :=
  product ← lift (catalog_product catalog (sku i));
  credit (invoice_account i) (invoice_tokens i)
    (match product with PPlan _ => GRANT | PPack _ => PURCHASE end)
    ("invoice:" ++s invoice_id i) (price i)
    (product_name product ++s " · " ++s settlement_amount i ++s " " ++s asset i) ;;
  match product with
  | PPack _ => mret tt
  | PPlan p =>
      now ← now_utc;
      current ← store_read (subscription (invoice_account i));
      let s := match current with
               | Some c => if String.eqb (sub_plan_id c) (plan_id p) then renewed c p now
                           else begin_subscription (invoice_account i) p now
               | None => begin_subscription (invoice_account i) p now
               end in
      store_write (put_subscription s) ;; mret tt
  end.

(** [confirm] *)
Definition confirm (id : string) : M W exn Invoice :=
  found ← store_read (invoice id);
  match found with
  | None => raise (InvoiceNotFoundError id)
  | Some i =>
      if bool_decide (status i = PAID) then mret i
      else
        payment ← payment_for network i;
        match payment with
        | None =>
            now ← now_utc;
            if negb (is_open i now) then store_write (put_invoice (expired i)) else mret i
        | Some p =>
            pays ← lift (settles p i 100);
            if negb pays then mret i
            else
              done_ ← store_write (put_invoice (paid i (payment_tx p) (payment_payer p)));
              deliver done_ ;;
              mret done_
        end
  end.

(** The sweep of [reconcile]: an invoice that fails is skipped. *)
Fixpoint sweep (invoices : list Invoice) : M W exn (list Invoice) :=
  match invoices with
  | [] => mret []
  | i :: rest =>
      confirmed ← try_except (c ← confirm (invoice_id i); mret (Some c))
                    (except cException (λ _, mret None));
      settled ← sweep rest;
      mret (match confirmed with
            | Some c => if bool_decide (status c = PAID) then c :: settled else settled
            | None => settled
            end)
  end.
Definition reconcile (limit : Z) : M W exn (list Invoice) :=
  invoices ← store_read (open_invoices limit);
  sweep invoices.

(** *** Subscribing on chain *)

(** [subscribe_transaction] *)
Definition subscribe_transaction (account id : string) : M W exn json :=
  p ← lift (catalog_plan catalog id);
  if is_free p
  then raise (BillingError (plan_name p ++s " costs nothing: it is already on this account"))
  else if negb (chain_available chain)
  then raise (BillingError ("this gateway has no subscriptions contract configured "
         ++s "(GATEWAY_BILLING__CONTRACT_ID), so plans cannot be subscribed to yet"))
  else
    match build_subscribe chain with
    | None => raise (BillingError "this subscriptions registry cannot build transactions")
    | Some builder =>
        xdr ← builder account (plan_id p);
        mret (JObj [("plan", plan_as_json p); ("contract", JStr (chain_contract_id chain));
                    ("network", JStr (network_id network)); ("xdr", JStr xdr)]%string)
    end.

(** [submit_subscription] *)
Definition submit_subscription (account signed_xdr : string) : M W exn json :=
  match (if chain_available chain then chain_submit chain else None) with
  | None => raise (BillingError "this gateway has no subscriptions contract configured")
  | Some submitter =>
      tx ← submitter signed_xdr;
      s ← settle_period account;
      mret (JObj [("transaction", JStr tx);
                  ("subscription",
                    match s with Some s => subscription_as_json s | None => JNull end)]%string)
  end.

(** [tokens_worth] *)
Definition tokens_worth (amount : Money) : Z := tokens_for (pricing catalog) amount.
End service.

(** ** The store under the service *)

Section alone.
#[local] Set Default Proof Using "Type*".
Context {W D : Type} `{!Field W D} `{!BillingStore D} `{!Undisturbed D}.

Lemma run_in_thread_same {A} (o : result exn A) (w : W) (f : D → result exn A * D) :
  f (getf w) = (o, getf w) → in_thread f w = (o, w).
Proof using Type. intros H. unfold in_thread. rewrite H. cbn. by rewrite setf_getf. Qed.

(** Alone, a call of the store is its one step. *)
Lemma run_store_write {A} (f : D → result exn A * D) (w : W) :
  store_write f w = ((f (getf w)).1, setf (f (getf w)).2 w).
Proof.
  unfold store_write. rewrite run_bind, (run_in_thread_same (Ok tt)) by apply handed_over_quiet.
  cbn beta iota. rewrite run_bind. unfold in_thread at 1. destruct (f (getf w)) as [[a|e] d]; [|done].
  cbn [fst snd]. rewrite run_bind, (run_in_thread_same (Ok tt)) by apply handed_back_quiet. done.
Qed.
Lemma run_store_read {A} (f : D → A) (w : W) : store_read f w = (Ok (f (getf w)), w).
Proof. unfold store_read. rewrite run_store_write. cbn. by rewrite setf_getf. Qed.
Lemma preserves_store_read {A} (P : W → Prop) (f : D → A) : preserves P (store_read f).
Proof. intros w Hw. by rewrite run_store_read. Qed.
End alone.

Section tables.
Context {W D : Type} `{!Field W D} `{!BillingStore D} `{!TableLaws D}.

Definition store (w : W) : D := getf w.
Definition rows (w : W) : list LedgerEntry := ledger (store w).

(** A draw from the world: it answers and leaves the store alone. *)
Definition draws {A} (m : M W exn A) : Prop :=
  ∀ w, ∃ a w', m w = (Ok a, w') ∧ store w' = store w.

Lemma store_setf d w : store (setf d w) = d.
Proof. apply getf_setf. Qed.
End tables.

Section ledger_laws.
#[local] Set Default Proof Using "Type*".
Context {W D : Type} `{!Field W D} `{!BillingStore D} `{!BillingStoreLaws D}.

(** Storing a subscription answers it, and finds it again. *)
Lemma put_sub_run s (w : W) :
  store_write (put_subscription s) w = (Ok s, setf (put_subscription s (store w)).2 w)
  ∧ subscription (sub_account s) (store (setf (put_subscription s (store w)).2 w)) = Some s.
Proof.
  rewrite run_store_write. fold (store w).
  destruct (put_subscription_spec s (store w)) as [Ho Hs]. rewrite Ho. split; [done|].
  by rewrite store_setf, Hs, String.eqb_refl.
Qed.
End ledger_laws.

(** ** One world for examples *)

(** The tables, the time, and a counter that names what is drawn. *)
Record BillWorld : Type := mkBillWorld { bw_db : SqliteDb; bw_now : Z; bw_draws : Z }.
Global Program Instance BillWorld_field : Field BillWorld SqliteDb :=
  {| getf := bw_db; setf d w := mkBillWorld d (bw_now w) (bw_draws w) |}.
Solve Obligations with by repeat intros [].

Definition bw_clock : M BillWorld exn Z := gets bw_now.
Definition bw_draw : M BillWorld exn string := λ w,
  (Ok (int_str (bw_draws w)), mkBillWorld (bw_db w) (bw_now w) (bw_draws w + 1)).
Definition bw_start : BillWorld := mkBillWorld empty_db 0 0.

Lemma bw_clock_draws : draws bw_clock.
Proof. intros w. by exists (bw_now w), w. Qed.
Lemma bw_draw_draws : draws bw_draw.
Proof. intros w. eexists _, _. by split. Qed.

Definition bw_catalog : Catalog :=
  mkCatalog
    [mkPlan FREE_PLAN_ID "Free" (mkMoney 0) 833333 WEEKLY EmptyString true;
     mkPlan "starter" "Starter" (mkMoney 19000000) 4000000 MONTHLY EmptyString true]%string
    [mkPack "tokens-1m" "1M tokens" (mkMoney 8000000) 1000000 EmptyString]%string
    (mkPricing (mkMoney 6000000) 3000 1000).

(** A network where every invoice has been paid in full. *)
Definition paying_network {W} : PaymentNetwork W :=
  mkNetwork W "stellar-testnet" "GDEST"
    (λ i, mret (Some (mkPayment "tx" "GPAYER" (destination i) (asset i) (settlement_amount i)
                        (invoice_memo i) 0)))
    (λ m a, mret "8.0000000"%string)
    (λ _ _, mret (mkVerifyResult true "GPAYER" EmptyString "8.0000000"))
    (λ _, mret (mkSettleResult true "stellar-testnet" "tx" "GPAYER" EmptyString)).

(** ** Crediting and charging *)

Section crediting.
#[local] Set Default Proof Using "Type*".
Context {W D : Type} `{!Field W D} `{!BillingStore D} `{!BillingStoreLaws D}.
Context (now_utc : M W exn Z) (new_entry_id : M W exn string).
Hypothesis now_draws : draws now_utc.
Hypothesis id_draws : draws new_entry_id.

(** The ids drawn are not in the ledger: they are 96 random bits. *)
Definition fresh_ids (w : W) : Prop :=
  ∀ id w', new_entry_id w = (Ok id, w') → id ∉ entry_id <$> rows w.

Lemma credit_run account n k ref m note w :
  0 <= n →
  ∃ id t w', store w' = store w ∧ new_entry_id w = (Ok id, (new_entry_id w).2)
    ∧ credit now_utc new_entry_id account n k ref m note w
      = store_write (append (mkEntry id account k n t m ref note)) w'.
Proof.
  intros Hn. unfold credit. destruct (Z.ltb_spec n 0); [lia|].
  destruct (id_draws w) as (id & w1 & Hid & Hs1). destruct (now_draws w1) as (t & w2 & Ht & Hs2).
  exists id, t, w2. split; [congruence|]. split; [by rewrite Hid|].
  rewrite run_bind, Hid. cbn. by rewrite run_bind, Ht.
Qed.

(** A credit under a reference that is already in the ledger changes nothing. *)
Lemma credit_known account n k ref m note w e :
  0 <= n → int64 n = true → int64 (micros m) = true →
  find_reference ref (rows w) = Some e →
  ∃ w', credit now_utc new_entry_id account n k ref m note w = (Ok e, w') ∧ store w' = store w.
Proof.
  intros Hn H1 H2 Hf. destruct (credit_run account n k ref m note w Hn) as (id & t & w' & Hs & _ & ->).
  exists (setf (store w') w'). rewrite run_store_write. fold (store w').
  rewrite (append_known _ _ e); [|cbn; unfold rows in Hf; by rewrite Hs|unfold storable; cbn; by rewrite H1, H2].
  cbn. split; [done|]. by rewrite store_setf.
Qed.

(** A credit under a new reference adds its one row. *)
Lemma credit_new account n k ref m note w :
  0 <= n → int64 n = true → int64 (micros m) = true → fresh_ids w →
  find_reference ref (rows w) = None →
  ∃ e w', credit now_utc new_entry_id account n k ref m note w = (Ok e, w')
    ∧ rows w' = rows w ++ [e]
    ∧ entry_account e = account ∧ kind e = k ∧ entry_tokens e = n ∧ reference e = ref
    ∧ amount e = m
    ∧ (∀ i, invoice i (store w') = invoice i (store w))
    ∧ (∀ a, subscription a (store w') = subscription a (store w)).
Proof.
  intros Hn H1 H2 Hid Hf.
  destruct (credit_run account n k ref m note w Hn) as (id & t & w' & Hs & Hdraw & ->).
  set (e := mkEntry id account k n t m ref note). exists e, (setf (append e (store w')).2 w').
  assert (storable e = true) as Hst by (unfold storable; cbn; by rewrite H1, H2).
  assert (entry_id e ∉ entry_id <$> ledger (store w')) as Hfresh.
  { rewrite Hs. cbn. eapply Hid, Hdraw. }
  destruct (append_new e (store w')) as [Ho Hl]; [cbn; by rewrite Hs|done|done|].
  rewrite run_store_write. fold (store w'). rewrite Ho. unfold rows. rewrite !store_setf, Hl, Hs.
  split_and!; try done.
  - intros i. apply append_invoice.
  - intros a. apply append_subscription.
Qed.
End crediting.

Section charging.
#[local] Set Default Proof Using "Type*".
Context {W D : Type} `{!Field W D} `{!BillingStore D} `{!BillingStoreLaws D}.
Context (now_utc : M W exn Z) (new_entry_id : M W exn string) (catalog : Catalog).
Hypothesis now_draws : draws now_utc.
Hypothesis id_draws : draws new_entry_id.

(** The row that charging a run adds. *)
Definition run_debit (account run_id : string) (n : Z) (e : LedgerEntry) : Prop :=
  entry_account e = account ∧ kind e = USAGE ∧ entry_tokens e = - n ∧ reference e = "run:" ++s run_id.

(** Whatever a charge is of, and however it ends, it adds that row or none. *)
Lemma charge_outcome account run_id usage w :
  fresh_ids new_entry_id w →
  let '(o, w') := charge now_utc new_entry_id catalog account run_id usage w in
  let earlier := find_reference ("run:" ++s run_id) (rows w) in
  (rows w' = rows w ∧ match o with Ok (Some e) => earlier = Some e | _ => True end)
  ∨ ∃ e n, o = Ok (Some e) ∧ billable (pricing catalog) usage = Ok n ∧ 0 < n ∧ earlier = None
      ∧ rows w' = rows w ++ [e] ∧ run_debit account run_id n e.
Proof.
  intros Hfresh. cbv zeta. unfold charge. rewrite run_bind, run_lift.
  destruct (billable _ _) as [n|x]; [|by left]. destruct (Z.leb_spec n 0); [by left|].
  destruct (id_draws w) as (id & w1 & Hid & Hs1). destruct (now_draws w1) as (t & w2 & Ht & Hs2).
  rewrite run_bind, Hid. cbn beta iota. rewrite run_bind, Ht. cbn beta iota. rewrite run_bind.
  set (e := mkEntry id account _ _ _ _ _ _). assert (store w2 = store w) as Hs by congruence.
  rewrite run_store_write. fold (store w2). rewrite Hs. unfold rows. destruct (storable e) eqn:Hst.
  2:{ destruct (append_too_large e (store w) Hst) as (x & -> & _). cbn. left. by rewrite store_setf. }
  destruct (find_reference (reference e) (ledger (store w))) as [e0|] eqn:Hf.
  - rewrite (append_known e (store w) e0) by done. cbn. left. by rewrite store_setf.
  - destruct (append_new e (store w)) as [Ho Hl]; [done|done|by eapply Hfresh|]. rewrite Ho.
    cbn. right. exists e, n. rewrite store_setf, Hl. by split_and!.
Qed.

(** C19. Charging a run never refuses for want of funds, and debits it once: a
    run that cost nothing leaves no row; the first charge of any other adds exactly
    one row of what it is billed; charging the run again returns that row and
    changes nothing. *)
Theorem charge_once account run_id usage n w
    (Hbill : billable (pricing catalog) usage = Ok n)
    (Hn : int64 (- n) = true) (Hcost : int64 (micros (cost usage)) = true)
    (Hids : fresh_ids new_entry_id w) :
  (n <= 0 → charge now_utc new_entry_id catalog account run_id usage w = (Ok None, w))
  ∧ (0 < n → find_reference ("run:" ++s run_id) (rows w) = None →
     ∃ e w', charge now_utc new_entry_id catalog account run_id usage w = (Ok (Some e), w')
       ∧ rows w' = rows w ++ [e]
       ∧ entry_account e = account ∧ kind e = USAGE ∧ entry_tokens e = - n)
  ∧ (∀ e, 0 < n → find_reference ("run:" ++s run_id) (rows w) = Some e →
     ∃ w', charge now_utc new_entry_id catalog account run_id usage w = (Ok (Some e), w')
       ∧ store w' = store w).
Proof.
  unfold charge. rewrite run_bind, run_lift, Hbill. cbn beta iota.
  destruct (Z.leb_spec n 0); [split_and!; [done|lia|lia]|]. split; [lia|].
  destruct (id_draws w) as (id & w1 & Hid & Hs1). destruct (now_draws w1) as (t & w2 & Ht & Hs2).
  set (note := comma_str (tokens usage) ++s _).
  set (e := mkEntry id account USAGE (- n) t (cost usage) ("run:" ++s run_id) note).
  assert (storable e = true) as Hst by (unfold storable; cbn; by rewrite Hn, Hcost).
  assert (store w2 = store w) as Hs by congruence.
  rewrite run_bind, Hid. cbn beta iota. rewrite run_bind, Ht. cbn beta iota.
  rewrite run_bind. rewrite run_store_write. fold (store w2). rewrite Hs. split.
  - intros _ Hf. destruct (append_new e (store w)) as [Ho Hl]; [done|done|by eapply Hids|].
    exists e, (setf (append e (store w)).2 w2). unfold e, note in Ho, Hl |- *. rewrite Ho.
    cbn [mret M_ret]. unfold rows. rewrite store_setf, Hl. by split_and!.
  - intros e0 _ Hf. rewrite (append_known e (store w) e0) by done.
    exists (setf (store w) w2). split; [done|]. by rewrite store_setf.
Qed.
End charging.

Lemma charge_once_witness :
  ∃ e w', charge bw_clock bw_draw bw_catalog "alice" "r1" (mkUsage 5000 2 (mkMoney 0) false) bw_start
          = (Ok (Some e), w') ∧ entry_tokens e = -5000.
Proof.
  destruct (charge_once bw_clock bw_draw bw_catalog bw_clock_draws bw_draw_draws "alice" "r1"
    (mkUsage 5000 2 (mkMoney 0) false) 5000 bw_start eq_refl eq_refl eq_refl) as (_ & H & _).
  - intros id w' _. cbn. set_solver.
  - destruct (H ltac:(lia) eq_refl) as (e & w' & Hc & _ & _ & _ & Ht). exists e, w'.
    split; [exact Hc|exact Ht].
Defined.

(** ** Confirming a payment *)

Section confirming.
#[local] Set Default Proof Using "Type*".
Context {W D : Type} `{!Field W D} `{!BillingStore D} `{!BillingStoreLaws D}.
Context (now_utc : M W exn Z) (new_entry_id : M W exn string) (network : PaymentNetwork W)
        (catalog : Catalog).
Hypothesis now_draws : draws now_utc.
Hypothesis id_draws : draws new_entry_id.

Definition storable_invoice (i : Invoice) : Prop :=
  0 <= invoice_tokens i ∧ int64 (invoice_tokens i) = true ∧ int64 (micros (price i)) = true.

(** The row that paying an invoice adds. *)
Definition credit_row (i : Invoice) (product : Product) (e : LedgerEntry) : Prop :=
  entry_account e = invoice_account i ∧ entry_tokens e = invoice_tokens i
  ∧ reference e = "invoice:" ++s invoice_id i
  ∧ kind e = (match product with PPlan _ => GRANT | PPack _ => PURCHASE end).

Lemma deliver_spec i product w :
  catalog_product catalog (sku i) = Ok product → storable_invoice i → fresh_ids new_entry_id w →
  ∃ w', deliver now_utc new_entry_id catalog i w = (Ok tt, w')
    ∧ (∀ k, invoice k (store w') = invoice k (store w))
    ∧ match find_reference ("invoice:" ++s invoice_id i) (rows w) with
      | Some _ => rows w' = rows w
      | None => ∃ e, rows w' = rows w ++ [e] ∧ credit_row i product e
      end.
Proof using BillingStoreLaws0 now_draws id_draws.
  intros Hp (Hn & H1 & H2) Hids. unfold deliver. rewrite run_bind, run_lift, Hp. cbn beta iota.
  set (k := match product with PPlan _ => GRANT | PPack _ => PURCHASE end).
  set (note := product_name product ++s _). set (ref := "invoice:" ++s invoice_id i).
  (* the credit *)
  assert (∃ e w1, credit now_utc new_entry_id (invoice_account i) (invoice_tokens i) k ref (price i)
      note w = (Ok e, w1)
    ∧ (∀ j, invoice j (store w1) = invoice j (store w))
    ∧ match find_reference ref (rows w) with
      | Some _ => rows w1 = rows w
      | None => ∃ e, rows w1 = rows w ++ [e] ∧ credit_row i product e
      end) as (e & w1 & Hc & Hi1 & Hr1).
  { destruct (find_reference ref (rows w)) as [e|] eqn:Hf.
    - destruct (credit_known now_utc new_entry_id now_draws id_draws (invoice_account i)
        (invoice_tokens i) k ref (price i) note w e) as (w1 & Hc & Hs); [done..|].
      exists e, w1. unfold rows. rewrite Hs. by split_and!.
    - destruct (credit_new now_utc new_entry_id now_draws id_draws (invoice_account i)
        (invoice_tokens i) k ref (price i) note w) as
        (e & w1 & Hc & Hr & Ha & Hk & Ht & Href & _ & Hi & _); [done..|].
      exists e, w1. split_and!; [done|done|]. exists e. by split_and!. }
  rewrite run_bind, Hc. cbn beta iota.
  destruct product as [p|p].
  - destruct (now_draws w1) as (t & w2 & Ht & Hs2).
    rewrite run_bind, Ht. cbn beta iota. rewrite run_bind. rewrite run_store_read.
    cbn beta iota. set (s := match _ with Some _ => _ | None => _ end).
    rewrite run_bind. rewrite run_store_write. fold (store w2).
    destruct (put_subscription_spec s (store w2)) as [Ho _]. rewrite Ho. cbn [mret M_ret].
    eexists. split; [reflexivity|].
    assert (∀ j, invoice j (put_subscription s (store w2)).2 = invoice j (store w)) as Hinv.
    { intros j. by rewrite put_subscription_invoice, Hs2, Hi1. }
    unfold rows in *. rewrite store_setf, put_subscription_ledger, Hs2. rewrite Hs2 in Hinv. by split.
  - exists w1. by split_and!.
Qed.

(** An invoice that is paid is answered as it is, and the network is not asked. *)
Lemma confirm_paid id i w :
  invoice id (store w) = Some i → status i = PAID →
  confirm now_utc new_entry_id network catalog id w = (Ok i, w).
Proof using BillingStoreLaws0.
  intros Hi Hp. unfold confirm. rewrite run_bind, run_store_read. fold (store w). rewrite Hi.
  cbn beta iota. by rewrite bool_decide_true.
Qed.

Hypothesis network_aside : ∀ i w, store (payment_for network i w).2 = store w.

(** What confirming an open invoice does, by what the network answers. *)
Definition confirmed (i : Invoice) (answer : result exn (option ObservedPayment)) (w w1 : W)
    (o : result exn Invoice) (w' : W) : Prop :=
  match answer with
  | Raise e => o = Raise e ∧ store w' = store w
  | Ok None =>
      ∃ t w2, now_utc w1 = (Ok t, w2)
        ∧ if is_open i t then o = Ok i ∧ store w' = store w
          else o = Ok (expired i) ∧ rows w' = rows w
               ∧ invoice (invoice_id i) (store w') = Some (expired i)
  | Ok (Some p) =>
      let done_ := paid i (payment_tx p) (payment_payer p) in
      match settles p i 100 with
      | Raise e => o = Raise e ∧ store w' = store w
      | Ok false => o = Ok i ∧ store w' = store w
      | Ok true =>
          invoice (invoice_id i) (store w') = Some done_
          ∧ match catalog_product catalog (sku i) with
            | Raise e => o = Raise e ∧ rows w' = rows w
            | Ok product =>
                o = Ok done_
                ∧ match find_reference ("invoice:" ++s invoice_id i) (rows w) with
                  | Some _ => rows w' = rows w
                  | None => ∃ e, rows w' = rows w ++ [e] ∧ credit_row i product e
                  end
            end
      end
  end.

Lemma confirm_settled i p w w1 :
  invoice (invoice_id i) (store w) = Some i → store w1 = store w → settles p i 100 = Ok true →
  storable_invoice i → (∀ w', rows w' = rows w → fresh_ids new_entry_id w') →
  let '(o, w') :=
    (done_ ← store_write (put_invoice (paid i (payment_tx p) (payment_payer p)));
     deliver now_utc new_entry_id catalog done_ ;; mret done_) w1 in
  confirmed i (Ok (Some p)) w w1 o w'.
Proof using BillingStoreLaws0 now_draws id_draws.
  intros Hinv Hsame Hsettles Hst Hids. set (done_ := paid i _ _).
  destruct (put_invoice_known done_ (store w) i) as [Ho Hk];
    [done|cbn; destruct Hst as (_ & -> & ->); done|].
  set (w2 := setf (put_invoice done_ (store w)).2 w1).
  assert (store w2 = (put_invoice done_ (store w)).2) as Hs2 by apply store_setf.
  assert (rows w2 = rows w) as Hr2 by (unfold rows; by rewrite Hs2, put_invoice_ledger).
  rewrite run_bind, run_store_write. fold (store w1). rewrite Hsame, Ho. fold w2. cbn beta iota.
  rewrite run_bind. unfold confirmed. rewrite Hsettles. fold done_. cbv zeta.
  destruct (catalog_product catalog (sku i)) as [product|e] eqn:Hproduct.
  - destruct (deliver_spec done_ product w2) as (w3 & Hd & Hi3 & Hr3); [done|done|by apply Hids|].
    rewrite Hd. cbn beta iota. rewrite run_ret. rewrite Hi3, Hs2. split; [exact Hk|].
    split; [done|]. rewrite Hr2 in Hr3. exact Hr3.
  - unfold deliver. rewrite run_bind, run_lift. change (sku done_) with (sku i). rewrite Hproduct.
    cbn beta iota. rewrite Hs2. by split.
Qed.

Lemma confirm_outcome i w :
  invoice (invoice_id i) (store w) = Some i → status i ≠ PAID → storable_invoice i →
  (∀ w', rows w' = rows w → fresh_ids new_entry_id w') →
  let '(answer, w1) := payment_for network i w in
  let '(o, w') := confirm now_utc new_entry_id network catalog (invoice_id i) w in
  confirmed i answer w w1 o w'.
Proof.
  intros Hinv Hopen Hst Hids. pose proof (network_aside i w) as Hsame.
  destruct (payment_for network i w) as [answer w1] eqn:Hpay. cbn in Hsame.
  unfold confirm. rewrite run_bind, run_store_read. fold (store w). rewrite Hinv. cbn beta iota.
  rewrite bool_decide_false by done. rewrite run_bind, Hpay. destruct answer as [[p|]|e]; cbn beta iota.
  - rewrite run_bind, run_lift. destruct (settles p i 100) as [[]|e] eqn:Hs; cbn [negb]; cbn beta iota.
    + by apply confirm_settled.
    + rewrite run_ret. unfold confirmed. by rewrite Hs.
    + unfold confirmed. by rewrite Hs.
  - destruct (now_draws w1) as (t & w2 & Ht & Hs2). rewrite run_bind, Ht. cbn beta iota.
    destruct (is_open i t) eqn:Hio; cbn [negb].
    + rewrite run_ret. exists t, w2. rewrite Hio. split_and!; [done|done|congruence].
    + rewrite run_store_write. fold (store w2).
      destruct (put_invoice_known (expired i) (store w) i) as [Ho Hk];
        [done|cbn; destruct Hst as (_ & -> & ->); done|].
      rewrite Hs2, Hsame, Ho. exists t, w2. rewrite Hio. unfold rows.
      rewrite store_setf, put_invoice_ledger. split_and!; [done|done|done|exact Hk].
  - done.
Qed.

(** Confirming an invoice [n] times, whatever each confirmation ends with. *)
Fixpoint confirm_again (id : string) (n : nat) : M W exn unit :=
  match n with
  | O => mret tt
  | S n' =>
      try_except (confirm now_utc new_entry_id network catalog id ;; mret tt) (λ _, Some (mret tt)) ;;
      confirm_again id n'
  end.

(** Nothing was credited for the invoice; or its one row was, for a payment the network
    showed, and the invoice is paid. *)
Definition credit_of (i : Invoice) (l l' : list LedgerEntry) : Prop :=
  find_reference ("invoice:" ++s invoice_id i) l = None
  ∧ ∃ j p wa wb product e, same_terms i j ∧ payment_for network j wa = (Ok (Some p), wb)
      ∧ settles p j 100 = Ok true ∧ catalog_product catalog (sku i) = Ok product
      ∧ l' = l ++ [e] ∧ credit_row i product e.
Definition one_credit (i : Invoice) (w w' : W) : Prop :=
  ∃ j, invoice (invoice_id i) (store w') = Some j ∧ same_terms i j
    ∧ (status i = PAID → status j = PAID)
    ∧ (rows w' = rows w ∨ status i ≠ PAID ∧ status j = PAID ∧ credit_of i (rows w) (rows w')).

Lemma one_credit_confirm i w w' :
  storable_invoice i → (∀ w', rows w' = rows w → fresh_ids new_entry_id w') →
  one_credit i w w' →
  one_credit i w (confirm now_utc new_entry_id network catalog (invoice_id i) w').2.
Proof.
  intros Hst Hids (j & Hj & Ht & Hpaid & Hrows). destruct (decide (status j = PAID)) as [Hp|Hp].
  { rewrite (confirm_paid _ _ _ Hj Hp). by exists j. }
  destruct Hrows as [Hrows|(_ & ? & _)]; [|done].
  assert (status i ≠ PAID) as Hi by (intros ?; by apply Hp, Hpaid).
  pose proof Ht as (Hid & Hacc & Hsku & Htok & Hprice & _). rewrite Hid in Hj.
  pose proof (confirm_outcome j w' Hj Hp) as Hout. rewrite Hid.
  destruct (payment_for network j w') as [answer w1] eqn:Hpay.
  destruct (confirm _ _ _ _ _ w') as [o w2]. cbn [snd].
  assert (confirmed j answer w' w1 o w2) as H.
  { apply Hout; [unfold storable_invoice in *; by rewrite <- Htok, <- Hprice|].
    intros w3 H3. apply Hids. congruence. }
  assert (∀ j', invoice (invoice_id j) (store w2) = Some j' → same_terms i j' → rows w2 = rows w' →
    one_credit i w w2) as Hsame.
  { intros j' Hj' Ht' Hr. exists j'. rewrite Hid. split_and!; [done|done|done|left; congruence]. }
  assert (store w2 = store w' → one_credit i w w2) as Hstill.
  { intros Hs. apply (Hsame j); [by rewrite Hs|done|unfold rows; by rewrite Hs]. }
  unfold confirmed in H. destruct answer as [[p|]|e]; [|destruct H as (t & w3 & _ & H)|by apply Hstill, H].
  - destruct (settles p j 100) as [[]|e] eqn:Hs; [|by apply Hstill, H|by apply Hstill, H].
    cbv zeta in H. destruct H as [Hdone H]. rewrite <- Hsku, <- Hid, Hrows in H.
    assert (same_terms i (paid j (payment_tx p) (payment_payer p))) as Ht' by exact Ht.
    destruct (catalog_product catalog (sku i)) as [product|e] eqn:Hproduct.
    2:{ apply (Hsame _ Hdone Ht'). destruct H as [_ ->]. done. }
    destruct H as [_ H]. destruct (find_reference _ (rows w)) eqn:Hf;
      [apply (Hsame _ Hdone Ht'); congruence|].
    destruct H as (e & Hr & Hrow). exists (paid j (payment_tx p) (payment_payer p)).
    rewrite <- Hid in Hdone. split_and!; [done|done|done|right]. split_and!; [done|done|].
    split; [done|]. exists j, p, w', w1, product, e. split_and!; try done.
    unfold credit_row in *. by rewrite Hacc, Htok, Hid.
  - destruct (is_open j t); [by apply Hstill, H|]. destruct H as (_ & Hr & He).
    by apply (Hsame _ He).
Qed.

(** C3. Confirming an invoice that is stored credits it once, and only for a payment that
    settles it.  One confirmation: a paid invoice is answered as it is; otherwise, when
    the network fails so does the confirmation, with no payment the invoice stays or is
    written down as expired, a payment that does not settle it changes nothing, and one
    that does makes it paid and, when its product is in the catalog, adds the one row of
    its tokens, to its account and of the kind its product calls for (no row if the
    ledger has one under its name); without its product the confirmation fails with the
    invoice paid.  Any number of confirmations, whatever the network answers to each and
    however each ends: they add nothing, or that one row, for a payment the network
    showed. *)
Theorem confirm_credits_once i w
    (Hinv : invoice (invoice_id i) (store w) = Some i) (Hstorable : storable_invoice i)
    (Hids : ∀ w', rows w' = rows w → fresh_ids new_entry_id w') :
  (let '(o, w') := confirm now_utc new_entry_id network catalog (invoice_id i) w in
   if bool_decide (status i = PAID) then o = Ok i ∧ w' = w
   else let '(answer, w1) := payment_for network i w in confirmed i answer w w1 o w')
  ∧ ∀ n, let w' := (confirm_again (invoice_id i) n w).2 in
      rows w' = rows w ∨ status i ≠ PAID ∧ credit_of i (rows w) (rows w').
Proof.
  split.
  - destruct (bool_decide_reflect (status i = PAID)) as [Hp|Hp].
    + by rewrite (confirm_paid _ _ _ Hinv Hp).
    + pose proof (confirm_outcome i w Hinv Hp Hstorable Hids) as H.
      by destruct (payment_for network i w), (confirm _ _ _ _ _ w).
  - intros n. cbv zeta.
    enough (∀ n w', one_credit i w w' → one_credit i w (confirm_again (invoice_id i) n w').2) as H.
    { destruct (H n w) as (j & _ & _ & _ & [?|(? & _ & ?)]); [|by left|by right].
      exists i. split_and!; [done|done|done|by left]. }
    clear n. induction n as [|n IH]; intros w' Hw'; [done|]. cbn [confirm_again].
    apply one_credit_confirm in Hw'; [|done..]. rewrite run_bind. unfold try_except. rewrite run_bind.
    destruct (confirm _ _ _ _ _ w') as [[j|e] w2]; cbn in Hw' |- *; by apply IH.
Qed.

(** Why the sku of an invoice must be in the catalog: confirming one
    that is not -- the one-off invoices of the x402 quotes -- stores it as paid and
    then raises before crediting, and from then on every confirmation answers the
    paid invoice as if all were well: its tokens are never credited. *)
Theorem confirm_loses_credit i p e w w1
    (Hinv : invoice (invoice_id i) (store w) = Some i) (Hopen : status i ≠ PAID)
    (Hpay : payment_for network i w = (Ok (Some p), w1)) (Hsame : store w1 = store w)
    (Hsettles : settles p i 100 = Ok true)
    (Hproduct : catalog_product catalog (sku i) = Raise e)
    (Hstorable : storable_invoice i) :
  ∃ w', confirm now_utc new_entry_id network catalog (invoice_id i) w = (Raise e, w')
    ∧ rows w' = rows w
    ∧ ∀ w2, store w2 = store w' →
        confirm now_utc new_entry_id network catalog (invoice_id i) w2
        = (Ok (paid i (payment_tx p) (payment_payer p)), w2).
Proof using BillingStoreLaws0.
  set (done_ := paid i _ _). destruct Hstorable as (Hn & H1 & H2).
  destruct (put_invoice_known done_ (store w) i) as [Ho Hk]; [done|cbn; by rewrite H1, H2|].
  exists (setf (put_invoice done_ (store w)).2 w1). split_and!.
  - unfold confirm. rewrite run_bind, run_store_read. fold (store w). rewrite Hinv.
    cbn beta iota. rewrite bool_decide_false by done. rewrite run_bind, Hpay. cbn beta iota.
    rewrite run_bind, run_lift, Hsettles. cbn [negb]. cbn beta iota. rewrite run_bind.
    rewrite run_store_write. fold (store w1). rewrite Hsame. fold done_. rewrite Ho. cbn beta iota.
    rewrite run_bind. unfold deliver. rewrite run_bind, run_lift. cbn [sku done_ paid set_invoice].
    by rewrite Hproduct.
  - unfold rows. by rewrite store_setf, put_invoice_ledger.
  - intros w4 Hs4. unfold confirm. rewrite run_bind, run_store_read. fold (store w4).
    rewrite Hs4, store_setf. change (invoice_id i) with (invoice_id done_) at 1. rewrite Hk. done.
Qed.
End confirming.

Definition bw_invoice (sku_ : string) : Invoice :=
  mkInvoice "cz1" "alice" sku_ 1000000 (mkMoney 8000000) "XLM" "8.0000000" "GDEST" 0 (minutes 30)
    PENDING "pack" EmptyString EmptyString.
Definition bw_with_invoice (sku_ : string) : BillWorld :=
  mkBillWorld (put_invoice (bw_invoice sku_) empty_db).2 0 0.

Lemma confirm_credits_once_witness :
  (∃ w' e, confirm bw_clock bw_draw paying_network bw_catalog "cz1" (bw_with_invoice "tokens-1m")
           = (Ok (paid (bw_invoice "tokens-1m") "tx" "GPAYER"), w')
         ∧ rows w' = [e] ∧ entry_tokens e = 1000000 ∧ kind e = PURCHASE)
  ∧ ∃ e, rows (confirm_again bw_clock bw_draw paying_network bw_catalog "cz1" 3
                 (bw_with_invoice "tokens-1m")).2 = [e] ∧ entry_tokens e = 1000000.
Proof.
  destruct (confirm_credits_once bw_clock bw_draw paying_network bw_catalog bw_clock_draws
    bw_draw_draws (λ _ _, eq_refl) (bw_invoice "tokens-1m") (bw_with_invoice "tokens-1m"))
    as [Hone Hmany].
  - reflexivity.
  - split_and!; [cbn; lia|reflexivity|reflexivity].
  - intros w' Hr id w'' _. rewrite Hr. cbn. set_solver.
  - split.
    + change (invoice_id (bw_invoice "tokens-1m")) with "cz1"%string in Hone.
      destruct (confirm _ _ _ _ _ _) as [o w']. rewrite bool_decide_false in Hone by discriminate.
      unfold paying_network, confirmed in Hone. cbn [payment_for mret M_ret] in Hone.
      assert (catalog_product bw_catalog "tokens-1m" = Ok (PPack (mkPack "tokens-1m" "1M tokens"
        (mkMoney 8000000) 1000000 EmptyString))) as Hp by (vm_compute; reflexivity).
      change (sku (bw_invoice "tokens-1m")) with "tokens-1m"%string in Hone. rewrite Hp in Hone.
      match type of Hone with match ?s with _ => _ end =>
        assert (s = Ok true) as Hs by (vm_compute; reflexivity) end. rewrite Hs in Hone.
      match type of Hone with _ ∧ _ ∧ match ?f with _ => _ end =>
        assert (f = None) as Hf by (vm_compute; reflexivity) end. rewrite Hf in Hone.
      destruct Hone as (_ & -> & e & He & _ & Ht & _ & Hk). exists w', e.
      split_and!; [reflexivity|exact He|exact Ht|exact Hk].
    + destruct (Hmany 3%nat) as [Hnone|(_ & _ & j & p & wa & wb & product & e & _ & _ & _ & _ & He & _ & Ht & _)].
      * vm_compute in Hnone. discriminate Hnone.
      * exists e. split; [exact He|exact Ht].
Defined.

Lemma confirm_loses_credit_witness :
  ∃ w', confirm bw_clock bw_draw paying_network bw_catalog "cz1" (bw_with_invoice "x402")
        = (Raise (UnknownProductError "x402"), w') ∧ rows w' = []
        ∧ confirm bw_clock bw_draw paying_network bw_catalog "cz1" w'
          = (Ok (paid (bw_invoice "x402") "tx" "GPAYER"), w').
Proof.
  destruct (confirm_loses_credit bw_clock bw_draw paying_network bw_catalog (bw_invoice "x402")
    (mkPayment "tx" "GPAYER" "GDEST" "XLM" "8.0000000" "cz1" 0) (UnknownProductError "x402")
    (bw_with_invoice "x402") (bw_with_invoice "x402"))
    as (w' & Hc & Hr & Hagain).
  - reflexivity.
  - discriminate.
  - reflexivity.
  - reflexivity.
  - vm_compute. reflexivity.
  - reflexivity.
  - split_and!; [cbn; lia|reflexivity|reflexivity].
  - exists w'. split_and!; [exact Hc|exact Hr|by apply Hagain].
Defined.

(** ** Periods *)

Section periods.
#[local] Set Default Proof Using "Type*".
Context {W D : Type} `{!Field W D} `{!BillingStore D} `{!BillingStoreLaws D}.
Context (now_utc : M W exn Z) (new_entry_id : M W exn string) (catalog : Catalog)
        (chain : SubscriptionRegistry W).
Hypothesis now_draws : draws now_utc.
Hypothesis no_chain : chain_available chain = false.

Abbreviation settle := (settle_period now_utc new_entry_id catalog chain).

(** The rest of a settlement once the time is known. *)
Lemma settle_run account t w w1 :
  now_utc w = (Ok t, w1) →
  settle account w =
  (current ← store_read (subscription account);
   match current with
   | None => begin_free now_utc new_entry_id catalog account t
   | Some s =>
       if negb (due s t) then mret (Some s)
       else
         let p := plan_or_none catalog (sub_plan_id s) in
         expire_grant new_entry_id account s t ;;
         match p with
         | Some p =>
             if is_free p then
               renewed_ ← store_write (put_subscription (renewed s p t));
               grant now_utc new_entry_id account p renewed_ ;;
               mret (Some renewed_)
             else
               e ← store_write (put_subscription (ended s)); mret (Some e)
         | None => e ← store_write (put_subscription (ended s)); mret (Some e)
         end
   end) w1.
Proof.
  intros Ht. unfold settle_period. rewrite run_bind, Ht. unfold mirror_chain. by rewrite no_chain.
Qed.

Lemma period_positive p : 0 < plan_period p.
Proof. unfold plan_period, period_of. by destruct (cadence p). Qed.

(** A credit and an expiry leave the subscriptions alone. *)
Lemma append_sub_preserved a x e :
  preserves (λ w : W, subscription a (store w) = x) (store_write (append e)).
Proof. intros w Hw. rewrite run_store_write. cbn. by rewrite store_setf, append_subscription. Qed.
Lemma draws_preserves {A} (m : M W exn A) (P : D → Prop) :
  draws m → preserves (λ w, P (store w)) m.
Proof. intros Hm w Hw. destruct (Hm w) as (a & w' & -> & Hs). cbn. by rewrite Hs. Qed.

Section with_ids.
Hypothesis id_draws : draws new_entry_id.

Lemma grant_subscription account p s a x :
  preserves (λ w : W, subscription a (store w) = x) (grant now_utc new_entry_id account p s).
Proof.
  unfold grant, credit. apply preserves_bind; [|intros; apply preserves_ret].
  destruct (_ <? _); [apply preserves_raise|].
  apply preserves_bind; [by apply (draws_preserves _ (λ d, subscription a d = x))|]. intros.
  apply preserves_bind; [by apply (draws_preserves _ (λ d, subscription a d = x))|]. intros.
  apply append_sub_preserved.
Qed.
Lemma expire_subscription account s t a x :
  preserves (λ w : W, subscription a (store w) = x) (expire_grant new_entry_id account s t).
Proof.
  unfold expire_grant, balance. apply preserves_bind.
  - apply preserves_bind; [apply preserves_store_read|intros; apply preserves_ret].
  - intros b. destruct (_ <=? _); [apply preserves_ret|].
    apply preserves_bind; [by apply (draws_preserves _ (λ d, subscription a d = x))|]. intros.
    apply preserves_bind; [apply append_sub_preserved|intros; apply preserves_ret].
Qed.

(** Storing a period of the account and granting it, or ending it, leaves it as the
    account's subscription. *)
Lemma put_grant_inv account p s (w w' : W) r :
  (x ← store_write (put_subscription s); grant now_utc new_entry_id account p x ;; mret (Some x)) w
    = (Ok r, w') →
  r = Some s ∧ subscription (sub_account s) (store w') = Some s.
Proof.
  intros H. destruct (put_sub_run s w) as [Hp Hs]. rewrite run_bind, Hp in H. cbn beta iota in H.
  inv_bind H; [|done]. injection Hk as <- <-.
  split; [done|].
  exact (preserves_run _ _ _ _ _ (grant_subscription account p s (sub_account s) (Some s)) Hm Hs).
Qed.
Lemma put_end_inv s (w w' : W) r :
  (x ← store_write (put_subscription s); mret (Some x)) w = (Ok r, w') →
  r = Some s ∧ subscription (sub_account s) (store w') = Some s.
Proof.
  intros H. destruct (put_sub_run s w) as [Hp Hs]. rewrite run_bind, Hp in H. cbn beta iota in H.
  injection H as <- <-. by split.
Qed.

Lemma settle_result account t w w1 r w' :
  now_utc w = (Ok t, w1) → settle account w = (Ok r, w') →
  subscription account (store w') = r
  ∧ match r with Some s => due s t = false | None => free_plan catalog = None end.
Proof.
  intros Ht H. rewrite (settle_run account t w w1 Ht) in H. 
  rewrite run_bind, run_store_read in H. cbn beta iota in H. fold (store w1) in H.
  destruct (subscription account (store w1)) as [s|] eqn:Hsub.
  - pose proof (subscription_key _ _ _ Hsub) as Hkey.
    destruct (due s t) eqn:Hdue; cbn [negb] in H.
    + inv_bind H; [|done].
      assert (∀ p, due (renewed s p t) t = false) as Hfresh.
      { intros p. unfold due, renewed. cbn. pose proof (period_positive p).
        destruct (Z.leb_spec (t + plan_period p) t); [lia|done]. }
      destruct (plan_or_none catalog (sub_plan_id s)) as [p|]; [destruct (is_free p)|].
      * apply put_grant_inv in Hk as [-> Hs]. cbn [sub_account renewed] in Hs. rewrite Hkey in Hs.
        split; [done|apply Hfresh].
      * apply put_end_inv in Hk as [-> Hs]. cbn [sub_account ended] in Hs. rewrite Hkey in Hs.
        by split.
      * apply put_end_inv in Hk as [-> Hs]. cbn [sub_account ended] in Hs. rewrite Hkey in Hs.
        by split.
    + injection H as <- <-. by split.
  - unfold begin_free in H. destruct (free_plan catalog) as [p|] eqn:Hfree.
    + apply put_grant_inv in H as [-> Hs]. split; [exact Hs|].
      unfold due, begin_subscription. cbn. pose proof (period_positive p).
      destruct (Z.leb_spec (t + plan_period p) t); [lia|done].
    + injection H as <- <-. by split.
Qed.

(** Settling an account's period, which happens on every read of it, acts
    once per period: settling it again while what the first settlement left is not
    due changes nothing at all -- no grant, no expiry, no subscription -- and answers
    the same; and what a settlement leaves is never due at its own time. *)
Theorem settle_period_idempotent account t w w1 r w'
    (Hnow : now_utc w = (Ok t, w1)) (Hfirst : settle account w = (Ok r, w')) :
  (∀ s, r = Some s → due s t = false)
  ∧ ∀ t2 w2 w3, store w2 = store w' → now_utc w2 = (Ok t2, w3) →
      (∀ s, r = Some s → due s t2 = false) →
      settle account w2 = (Ok r, w3) ∧ store w3 = store w'.
Proof.
  destruct (settle_result account t w w1 r w' Hnow Hfirst) as [Hsub Hdue]. split.
  { intros s ->. exact Hdue. }
  intros t2 w2 w3 Hs2 Ht2 Hnot. destruct (now_draws w2) as (t' & w'' & He & Hs3).
  rewrite Ht2 in He. injection He as <- <-. split; [|congruence].
  rewrite (settle_run account t2 w2 w3 Ht2). rewrite run_bind, run_store_read.
  cbn beta iota. fold (store w3). rewrite Hs3, Hs2, Hsub. destruct r as [s|].
  - by rewrite (Hnot s eq_refl).
  - unfold begin_free. by rewrite Hdue.
Qed.
End with_ids.
End periods.

Lemma settle_period_idempotent_witness :
  let w1 := (settle_period bw_clock bw_draw bw_catalog NoSubscriptions "alice" bw_start).2 in
  let w2 := mkBillWorld (bw_db w1) (days 6) (bw_draws w1) in
  (settle_period bw_clock bw_draw bw_catalog NoSubscriptions "alice" w2).2 = w2.
Proof.
  cbn zeta.
  destruct (settle_period_idempotent bw_clock bw_draw bw_catalog NoSubscriptions bw_clock_draws
    eq_refl bw_draw_draws "alice" 0 bw_start bw_start
    (Some (mkSubscription "alice" "free" 0 (days 7) ACTIVE))
    (settle_period bw_clock bw_draw bw_catalog NoSubscriptions "alice" bw_start).2)
    as [_ H]; [reflexivity|vm_compute; reflexivity|].
  match goal with |- (settle_period _ _ _ _ _ ?w).2 = _ =>
    destruct (H (days 6) w w) as [-> _]; [reflexivity|reflexivity| |reflexivity] end.
  intros s [= <-]. reflexivity.
Defined.

(** ** Starting a run *)

(** What authorizing does once the period is settled. *)
Lemma authorize_run {W D} `{!Field W D} `{!BillingStore D} `{!Undisturbed D} (now_utc : M W exn Z) new_entry_id
    catalog reserve chain account needed w s w1
    (Hsettle : settle_period now_utc new_entry_id catalog chain account w = (Ok s, w1)) :
  let b := balance_of account (all_entries account (getf w1)) in
  let required := Z.max needed reserve in
  authorize now_utc new_entry_id catalog reserve chain account needed w
  = (if required <=? total b then Ok b else Raise (InsufficientFundsError required (total b)), w1).
Proof.
  unfold authorize. rewrite run_bind, Hsettle. cbn beta iota. unfold balance.
  rewrite !run_bind, run_store_read. cbn beta iota. rewrite run_ret. cbn beta iota. unfold can_afford.
  by destruct (_ <=? _).
Qed.

(** The gate in front of a run: whatever the account's period did, a run
    starts only on a balance of at least the reserve and of what it needs, and the
    answer is the balance of the ledger as it then stands; otherwise it is refused
    with both numbers. *)
Theorem authorize_gate {W D} `{!Field W D} `{!BillingStore D} `{!Undisturbed D} (now_utc : M W exn Z) new_entry_id
    catalog reserve chain account needed w s w1
    (Hsettle : settle_period now_utc new_entry_id catalog chain account w = (Ok s, w1)) :
  let b := balance_of account (all_entries account (getf w1)) in
  let required := Z.max needed reserve in
  authorize now_utc new_entry_id catalog reserve chain account needed w
  = (if required <=? total b then Ok b else Raise (InsufficientFundsError required (total b)), w1).
Proof. by eapply authorize_run. Qed.

Lemma authorize_gate_witness :
  (authorize bw_clock bw_draw bw_catalog 900000 NoSubscriptions "alice" 0 bw_start).1
  = Raise (InsufficientFundsError 900000 833333).
Proof.
  refine (eq_trans (f_equal fst (authorize_gate bw_clock bw_draw bw_catalog 900000 NoSubscriptions
    "alice" 0 bw_start (Some (mkSubscription "alice" "free" 0 (days 7) ACTIVE))
    (settle_period bw_clock bw_draw bw_catalog NoSubscriptions "alice" bw_start).2 _)) _).
  - vm_compute. reflexivity.
  - vm_compute. reflexivity.
Defined.

(** ** Where the references collide *)

(** The reference of a grant names the plan and the period but not the
    account, while references are unique in the whole ledger: of two accounts first
    seen in the same microsecond, or subscribed on chain in the same second, only the
    first receives its tokens; the second has the plan and an empty balance. *)
Theorem grants_collide :
  let both := settle_period bw_clock bw_draw bw_catalog NoSubscriptions "alice" ;;
              settle_period bw_clock bw_draw bw_catalog NoSubscriptions "bob" in
  let on_chain := mkChain BillWorld true "C"
        (λ a, mret (Some (mkOnChain "starter" 1000000 (days 30) 1))) None None in
  let both_chain := settle_period bw_clock bw_draw bw_catalog on_chain "alice" ;;
                    settle_period bw_clock bw_draw bw_catalog on_chain "bob" in
  (both bw_start).1 = Ok (Some (mkSubscription "bob" "free" 0 (days 7) ACTIVE))
  ∧ total (balance_of "alice" (all_entries "alice" (store (both bw_start).2))) = 833333
  ∧ total (balance_of "bob" (all_entries "bob" (store (both bw_start).2))) = 0
  ∧ (both_chain bw_start).1 = Ok (Some (mkSubscription "bob" "starter" 1000000 (days 30) ACTIVE))
  ∧ total (balance_of "bob" (all_entries "bob" (store (both_chain bw_start).2))) = 0.
Proof. cbn zeta. split_and!; vm_compute; reflexivity. Qed.

(** A read of the contract that fails is not the silence it is taken for.  A subscription
    renewed in time on the chain, whose first period ends while the contract cannot be
    read, is written down as lapsed and what is left of its grant is taken back; once the
    contract answers again the plan is active and its tokens stay lost, because the
    renewal kept the period the grant is named after. *)
Definition at_time (t : Z) : M BillWorld exn unit :=
  modify (λ w, mkBillWorld (bw_db w) t (bw_draws w)).
Definition renewed_on_chain (fails_at : Z) : SubscriptionRegistry BillWorld :=
  mkChain BillWorld true "C" (λ _ w,
    (if bw_now w =? fails_at then Raise (SubscriptionContractError "timeout")
     else Ok (Some (mkOnChain "starter" 1000000 (if bw_now w <? days 10 then days 30 else days 60) 2)),
     w)) None None.
Theorem blink_burns_grant :
  let visits fails_at :=
    let settle := settle_period bw_clock bw_draw bw_catalog (renewed_on_chain fails_at) "alice" in
    settle ;; at_time (days 31) ;; settle ;; at_time (days 32) ;; settle in
  let tokens fails_at :=
    total (balance_of "alice" (all_entries "alice" (store (visits fails_at bw_start).2))) in
  let standing := Ok (Some (mkSubscription "alice" "starter" 1000000 (days 60) ACTIVE)) in
  (visits (-1) bw_start).1 = standing ∧ 0 < tokens (-1)
  ∧ (visits (days 31) bw_start).1 = standing ∧ tokens (days 31) = 0.
Proof. cbn zeta. split_and!; vm_compute; reflexivity. Qed.

(** A payment that lands after its invoice was written down as expired is not
    found by the sweep, which walks the pending invoices only: the tokens stay
    uncredited until someone confirms that invoice by name. *)
Theorem late_payment_not_reconciled :
  let late := mkBillWorld (put_invoice (expired (bw_invoice "tokens-1m")) empty_db).2
                (minutes 31) 0 in
  let swept := reconcile bw_clock bw_draw paying_network bw_catalog 100 late in
  let asked := confirm bw_clock bw_draw paying_network bw_catalog "cz1" late in
  swept = (Ok [], late) ∧ rows swept.2 = []
  ∧ map entry_tokens (rows asked.2) = [1000000].
Proof. cbn zeta. split_and!; vm_compute; reflexivity. Qed.
