(* ===== verification/Stellar.v ===== *)
(** * Stellar, over Horizon *)
(** [infrastructure/billing/stellar.py]: which payment settles an invoice, what an amount
    of dollars is in the asset charged, whether a signed envelope pays, and the signature
    check of sign-in.  Horizon's answers come through the HTTP client, and an envelope's
    fields and its cryptography through the optional [stellar_sdk]: both are parameters. *)
From S2P Require Export BillingService PyJsonFacts PyBase64 Identity.
From Stdlib Require Import Ascii.
From stdpp Require Import options.
Local Open Scope Z_scope.

(** ** Decimals as Stellar spells them *)

(** [Decimal(str(value or "0"))], zero where that is no finite number. *)
Definition horizon_decimal (value : json) : decimal :=
  match dec_parse (py_str (jor value (JStr "0"))) with
  | Some d => if is_finite d then d else DFin false 0 0
  | None => DFin false 0 0
  end.

(** [c / 10^k], away from zero; a divisor far above [c] is not computed. *)
Definition shift_up (c k : Z) : Z :=
  if ndigits c <? k then (if c =? 0 then 0 else 1) else - ((- c) / 10 ^ k).

(** The coefficient of [d.quantize(Decimal("0.0000001"), rounding=ROUND_UP)]. *)
Definition to_stroops (d : decimal) : result exn (bool * Z) :=
  match d with
  | DFin neg c e =>
      if c =? 0 then Ok (neg, 0)
      else if DEC_PREC <? ndigits c + e + 7 then Raise InvalidOperation
      else
        let n := if -7 <=? e then c * 10 ^ (e + 7) else shift_up c (-7 - e) in
        if DEC_PREC <? ndigits n then Raise InvalidOperation else Ok (neg, n)
  | _ => Raise InvalidOperation
  end.

(** [str] of a finite [Decimal]. *)
Definition dec_str (neg : bool) (c e : Z) : string :=
  let ds := int_str c in
  let n := byte_len ds in
  let left := e + n in
  let dotplace := if (e <=? 0) && (-6 <? left) then left else 1 in
  let whole := if dotplace <=? 0 then "0"%string
               else if n <=? dotplace then ds ++s str_repeat (Z.to_nat (dotplace - n)) "0"
               else str_take (Z.to_nat dotplace) ds in
  let frac := if dotplace <=? 0 then "." ++s str_repeat (Z.to_nat (- dotplace)) "0" ++s ds
              else if n <=? dotplace then EmptyString
              else "." ++s str_drop (Z.to_nat dotplace) ds in
  let exp := if left =? dotplace then EmptyString
             else "E" ++s (if left - dotplace <? 0 then EmptyString else "+"%string)
                  ++s int_str (left - dotplace) in
  (if neg then "-"%string else EmptyString) ++s whole ++s frac ++s exp.

(** [_amount] *)
Definition amount_str (d : decimal) : result exn string :=
  '(neg, n) ← to_stroops d; mret (dec_str neg n (-7)).

Definition stroop_text (d : decimal) : option string :=
  match amount_str d with Ok s => Some s | Raise _ => None end.

Example dec_str_examples :
  map (λ n, dec_str false n (-7)) [0; 1; 10; 80000000; 123; 12345678901]
    = ["0E-7"; "1E-7"; "0.0000010"; "8.0000000"; "0.0000123"; "1234.5678901"]%string
  ∧ map (λ p, dec_str true p.1 p.2) [(123, -2); (5, 3); (7, 0)] = ["-1.23"; "-5E+3"; "-7"]%string
  ∧ map stroop_text [DFin false 3333333333333333333333333333 (-28); DFin true 1 (-9); DFin false 1 22]
    = [Some "0.3333334"; Some "-1E-7"; None]%string.
Proof. vm_compute. split_and!; reflexivity. Qed.

(** ** Configuration *)

Record network_entry : Type := mkNetworkEntry {
  entry_horizon : string;
  entry_passphrase : string;
  entry_x402 : string;
  entry_explorer : string
}.
Definition TESTNET_ENTRY : network_entry :=
  mkNetworkEntry "https://horizon-testnet.stellar.org" "Test SDF Network ; September 2015"
    "stellar-testnet" "https://stellar.expert/explorer/testnet".
Definition NETWORKS : list (string * network_entry) :=
  [("testnet", TESTNET_ENTRY);
   ("public", mkNetworkEntry "https://horizon.stellar.org"
      "Public Global Stellar Network ; September 2015" "stellar"
      "https://stellar.expert/explorer/public")]%string.
Definition PAYMENT_PAGE : Z := 50.

Record StellarConfig : Type := mkStellarConfig {
  cfg_network : string;
  cfg_horizon_url : string;
  cfg_destination : string;
  cfg_asset : string;
  cfg_usdc_issuer : string;
  cfg_xlm_usd : string
}.
Definition cfg_settings (c : StellarConfig) : network_entry :=
  default TESTNET_ENTRY (assoc_get (cfg_network c) NETWORKS).
Definition cfg_horizon (c : StellarConfig) : string :=
  rstrip_char "/" (if str_truthy (cfg_horizon_url c) then cfg_horizon_url c
                   else entry_horizon (cfg_settings c)).
Definition cfg_passphrase (c : StellarConfig) : string := entry_passphrase (cfg_settings c).
Definition cfg_x402_network (c : StellarConfig) : string := entry_x402 (cfg_settings c).
Definition explorer_tx (c : StellarConfig) (tx : string) : string :=
  entry_explorer (cfg_settings c) ++s "/tx/" ++s tx.

(** ** Horizon *)

(** What a request comes back with: an [httpx.HTTPError], or a status and a body, which
    is JSON or the message of the [ValueError] that reading it raises. *)
Inductive http_reply : Type :=
  | HttpFailed (message : string)
  | HttpReply (status : Z) (body : result string json).

(** [_json] and [_records] *)
Definition body_object (body : result string json) : json :=
  match body with Ok (JObj l) => JObj l | _ => JObj [] end.
Definition records (body : json) : list json :=
  match jget "records" (jget "_embedded" body) with
  | JList l => filter (λ r, is_dict r = true) l
  | _ => []
  end.

(** [value == "..."] of a JSON value. *)
Definition json_is (s : string) (j : json) : bool :=
  match j with JStr t => String.eqb t s | _ => false end.
(** [d.get(k, fallback)] *)
Definition jget_default (k : string) (fallback j : json) : json :=
  match j with JObj l => default fallback (assoc_get k l) | _ => fallback end.

(** [str.replace("Z", "+00:00")] *)
Fixpoint utc_suffix (s : string) : string :=
  match s with
  | EmptyString => EmptyString
  | String c s' => (if Ascii.eqb c "Z" then "+00:00"%string else str1 c) ++s utc_suffix s'
  end.

(** [_horizon_error] *)
Definition horizon_error (body : json) : string :=
  let codes := jget "result_codes" (jget "extras" body) in
  if is_dict codes then
    let detail := match jget "operations" codes with
                  | JList l => str_join ", " (map py_str l)
                  | _ => EmptyString
                  end in
    let headline := py_str (jor (jget "transaction" codes) (JStr "the transaction failed")) in
    if str_truthy detail then headline ++s " (" ++s detail ++s ")" else headline
  else py_str (jor (jget "title" body) (JStr "Horizon refused the transaction")).

(** ** The SDK's objects *)

(** A [MuxedAccount], or whatever else the SDK hands over: its [account_id], if it has
    one, and its [str]. *)
Record sdk_account : Type := mkSdkAccount { acc_id : option string; acc_text : string }.
Record sdk_asset : Type := mkSdkAsset { asset_code_of : option string; asset_issuer : option string }.
Inductive sdk_memo : Type := NoText | MemoBytes (b : string) | MemoStr (s : string).
Inductive operation : Type :=
  | PaymentOperation (to : sdk_account) (what : sdk_asset) (how_much : string)
  | OtherOperation.
Record envelope : Type := mkEnvelope {
  env_source : sdk_account;
  env_memo : sdk_memo;
  env_operations : list operation;
  env_hash : option string;
  env_signatures : list string
}.
(** The calls made of [stellar_sdk]; [None] where the call raises. *)
Record StellarSdk : Type := mkSdk {
  from_xdr : string → string → result string envelope;
  from_public_key : string → option string;
  key_verify : string → string → string → bool;
  key_verify_message : string → string → string → bool
}.

(** [_account_id] *)
Definition account_id (a : sdk_account) : string :=
  match acc_id a with
  | Some s => if str_truthy s then s else acc_text a
  | None => acc_text a
  end.
(** [_asset_code] *)
Definition asset_code (a : sdk_asset) : string :=
  if match asset_code_of a with None => true | Some c => String.eqb c "XLM" end
     && negb (bool_decide (is_Some (asset_issuer a)))
  then "XLM"
  else str_upper (match asset_code_of a with
                  | Some c => if str_truthy c then c else "XLM" | None => "XLM" end).

(** How many bytes follow a UTF-8 lead byte, and the range of the first of them. *)
Definition lead (c : ascii) : Z * Z * Z :=
  let x := ascii_code c in
  if (194 <=? x) && (x <? 224) then (1, 128, 191)
  else if x =? 224 then (2, 160, 191)
  else if x =? 237 then (2, 128, 159)
  else if (225 <=? x) && (x <? 240) then (2, 128, 191)
  else if x =? 240 then (3, 144, 191)
  else if (241 <=? x) && (x <? 244) then (3, 128, 191)
  else if x =? 244 then (3, 128, 143)
  else (0, 0, 0).
(** [bytes.decode("utf-8", "replace")]: each longest start of an encoding that does not
    go on is one replacement character. *)
Definition REPLACEMENT : string := utf8_encode 65533.
Fixpoint decode_replace (s : string) : string :=
  match s with
  | EmptyString => EmptyString
  | String a s1 =>
      if ascii_code a <? 128 then String a (decode_replace s1)
      else
        let '(need, lo, hi) := lead a in
        if need =? 0 then REPLACEMENT ++s decode_replace s1
        else match s1 with
        | EmptyString => REPLACEMENT
        | String b s2 =>
            if negb ((lo <=? ascii_code b) && (ascii_code b <=? hi)) then REPLACEMENT ++s decode_replace s1
            else if need =? 1 then String a (String b (decode_replace s2))
            else match s2 with
            | EmptyString => REPLACEMENT
            | String c s3 =>
                if negb (continues c) then REPLACEMENT ++s decode_replace s2
                else if need =? 2 then String a (String b (String c (decode_replace s3)))
                else match s3 with
                | EmptyString => REPLACEMENT
                | String d s4 =>
                    if negb (continues d) then REPLACEMENT ++s decode_replace s3
                    else String a (String b (String c (String d (decode_replace s4))))
                end
            end
        end
  end.
(** [_memo_text] *)
Definition memo_text (m : sdk_memo) : string :=
  match m with NoText => EmptyString | MemoBytes b => decode_replace b | MemoStr s => s end.

(** [_signed_by] *)
Definition signed_by (sdk : StellarSdk) (e : envelope) (address : string) : bool :=
  match env_hash e, from_public_key sdk address with
  | Some digest, Some key => existsb (key_verify sdk key digest) (env_signatures e)
  | _, _ => false
  end.

(** ** The network *)

Section stellar.
Context {W : Type} (now_utc : M W exn Z) (cfg : StellarConfig) (sdk : option StellarSdk).
(** [self._client.get] and [self._client.post]: the URL and the parameters or the form. *)
Context (http_get http_post : string → list (string * string) → M W exn http_reply).
(** [datetime.fromisoformat], [None] when it raises: the local time it reads and the
    offset it names, if any. *)
Context (fromisoformat : string → option (Z * option Z)).

(** [_time] *)
Definition horizon_time (value : json) : M W exn Z :=
  match fromisoformat (utc_suffix (py_str value)) with
  | Some (t, offset) => mret (t - default 0 offset)
  | None => now_utc
  end.

(** [_payment] *)
Definition payment_of_record (r : json) : M W exn (option ObservedPayment) :=
  if negb (json_is "payment" (jget "type" r) || json_is "create_account" (jget "type" r)) then mret None
  else
    let tx := jget "transaction" r in
    let memo := if is_dict tx && json_is "text" (jget "memo_type" tx)
                then str_or_empty (jget "memo" tx) else EmptyString in
    at_ ← horizon_time (jget "created_at" r);
    mret (Some (mkPayment (str_or_empty (jget "transaction_hash" r))
      (str_or_empty (jor (jget "from" r) (jget "funder" r)))
      (str_or_empty (jor (jget "to" r) (jget "account" r)))
      (if json_is "native" (jget_default "asset_type" (JStr "native") r) then "XLM"
       else str_upper (py_str (jor (jget "asset_code" r) (JStr "?"))))
      (py_str (jor (jor (jget "amount" r) (jget "starting_balance" r)) (JStr "0")))
      memo at_)).

(** The loop of [payment_for]. *)
Fixpoint first_with_memo (memo : string) (rs : list json) : M W exn (option ObservedPayment) :=
  match rs with
  | [] => mret None
  | r :: rs' =>
      p ← payment_of_record r;
      match p with
      | Some p => if String.eqb (payment_memo p) memo then mret (Some p) else first_with_memo memo rs'
      | None => first_with_memo memo rs'
      end
  end.

(** [payment_for] *)
Definition stellar_payment_for (i : Invoice) : M W exn (option ObservedPayment) :=
  reply ← http_get (cfg_horizon cfg ++s "/accounts/" ++s destination i ++s "/payments")
            [("order", "desc"); ("limit", int_str PAYMENT_PAGE); ("join", "transactions")]%string;
  match reply with
  | HttpFailed m => raise (PaymentNetworkError ("Horizon could not be reached: " ++s m))
  | HttpReply status body =>
      if status =? 404 then mret None
      else if 400 <=? status
      then raise (PaymentNetworkError ("Horizon answered " ++s int_str status))
      else match body with
           | Ok b => first_with_memo (invoice_memo i) (records b)
           | Raise m => raise (ValueError m)
           end
  end.

(** The loop of [_xlm_usd]. *)
Fixpoint first_rate (rs : list json) : result exn (option decimal) :=
  match rs with
  | [] => Ok None
  | r :: rs' =>
      let amount := horizon_decimal (jget "destination_amount" r) in
      not_positive ← dec_ge (DFin false 0 0) amount;
      if negb not_positive then Ok (Some amount) else first_rate rs'
  end.

(** [_xlm_usd] *)
Definition xlm_usd : M W exn decimal :=
  let fallback := horizon_decimal (JStr (cfg_xlm_usd cfg)) in
  if negb (str_truthy (cfg_usdc_issuer cfg)) then mret fallback
  else
    reply ← http_get (cfg_horizon cfg ++s "/paths/strict-send")
              [("source_asset_type", "native"); ("source_amount", "1");
               ("destination_assets", "USDC:" ++s cfg_usdc_issuer cfg)]%string;
    match reply with
    | HttpFailed _ => mret fallback
    | HttpReply status body =>
        if status <? 400 then
          match body with
          | Ok b => rate ← lift (first_rate (records b)); mret (default fallback rate)
          | Raise _ => mret fallback
          end
        else mret fallback
    end.

(** [quote] *)
Definition stellar_quote (price : Money) (asset : string) : M W exn string :=
  let asset := str_upper (if str_truthy asset then asset else cfg_asset cfg) in
  if String.eqb asset "USDC" then lift (d ← money_decimal price; amount_str d)
  else
    rate ← xlm_usd;
    not_positive ← lift (dec_ge (DFin false 0 0) rate);
    if not_positive : bool
    then raise (PaymentNetworkError ("there is no XLM/USD rate: the DEX could not be asked and no fallback rate "
                ++s "is configured (GATEWAY_BILLING__XLM_USD)"))
    else lift (d ← money_decimal price; q ← dec_div d rate; amount_str q).

(** [settle] *)
Definition stellar_settle (transaction : string) : M W exn SettleResult :=
  let net := cfg_x402_network cfg in
  reply ← http_post (cfg_horizon cfg ++s "/transactions") [("tx", transaction)]%string;
  match reply with
  | HttpFailed m =>
      mret (mkSettleResult false net EmptyString EmptyString ("Horizon could not be reached: " ++s m))
  | HttpReply status body =>
      let b := body_object body in
      if 400 <=? status then mret (mkSettleResult false net EmptyString EmptyString (horizon_error b))
      else if negb (jtruthy (jget_default "successful" (JBool true) b))
      then mret (mkSettleResult false net (str_or_empty (jget "hash" b)) EmptyString
                   "the transaction was included and failed")
      else mret (mkSettleResult true net (str_or_empty (jget "hash" b))
                   (str_or_empty (jget "source_account" b)) EmptyString)
  end.

(** The operations of an envelope, until the first that pays this invoice's
    destination in its asset. *)
Fixpoint pays (payer : string) (owed : decimal) (i : Invoice) (ops : list operation)
    : result exn VerifyResult :=
  match ops with
  | [] => Ok (mkVerifyResult false payer
                ("no operation pays " ++s asset i ++s " to " ++s destination i) EmptyString)
  | PaymentOperation to what how_much :: ops' =>
      if negb (String.eqb (account_id to) (destination i)) then pays payer owed i ops'
      else if negb (String.eqb (asset_code what) (str_upper (asset i))) then pays payer owed i ops'
      else
        let sent := horizon_decimal (JStr how_much) in
        enough ← dec_ge sent owed;
        text ← amount_str sent;
        if enough : bool then Ok (mkVerifyResult true payer EmptyString text)
        else Ok (mkVerifyResult false payer
                   ("it pays " ++s text ++s " and the price is " ++s settlement_amount i) text)
  | OtherOperation :: ops' => pays payer owed i ops'
  end.

(** [verify] *)
Definition stellar_verify (transaction : string) (i : Invoice) : result exn VerifyResult :=
  match sdk with
  | None => Ok (mkVerifyResult false EmptyString
      ("this gateway cannot read signed transactions: the Stellar dependency is not "
       ++s "installed (pip install -e " ++s quoted ".[stellar]" ++s ")") EmptyString)
  | Some sdk =>
      match from_xdr sdk transaction (cfg_passphrase cfg) with
      | Raise m =>
          Ok (mkVerifyResult false EmptyString ("the transaction could not be read: " ++s m) EmptyString)
      | Ok e =>
          let payer := account_id (env_source e) in
          let memo := memo_text (env_memo e) in
          if negb (String.eqb memo (invoice_memo i))
          then Ok (mkVerifyResult false payer
                     ("the transaction's memo is " ++s str_repr memo ++s ", not "
                      ++s str_repr (invoice_memo i)) EmptyString)
          else if negb (signed_by sdk e payer)
          then Ok (mkVerifyResult false payer
                     ("the transaction is not signed by its source account for " ++s cfg_network cfg)
                     EmptyString)
          else pays payer (horizon_decimal (JStr (settlement_amount i))) i (env_operations e)
      end
  end.

(** [StellarNetwork] *)
Definition stellar_network : PaymentNetwork W :=
  mkNetwork W (cfg_x402_network cfg) (cfg_destination cfg) stellar_payment_for stellar_quote
    (λ tx i, lift (stellar_verify tx i)) stellar_settle.
End stellar.

(** [StellarSignatures] *)
Definition stellar_signature (sdk : option StellarSdk) (address message signature : string) : bool :=
  match sdk with
  | None => false
  | Some sdk =>
      match b64decode true signature with
      | None => false
      | Some raw =>
          match from_public_key sdk address with
          | None => false
          | Some key => key_verify_message sdk key message raw || key_verify sdk key message raw
          end
      end
  end.
Definition StellarSignatures (sdk : option StellarSdk) : SignatureVerifier :=
  mkVerifier (bool_decide (is_Some sdk)) (stellar_signature sdk).

(** ** Amounts *)

Lemma shift_up_spec c k :
  0 <= c → 0 <= k → c <= shift_up c k * 10 ^ k < c + 10 ^ k.
Proof.
  intros Hc Hk. unfold shift_up. assert (0 < 10 ^ k) as Hp by (apply Z.pow_pos_nonneg; lia).
  destruct (Z.eqb_spec c 0) as [->|Hc0].
  - destruct (ndigits 0 <? k); [lia|]. rewrite Z.div_0_l by lia. lia.
  - pose proof (ndigits_spec c ltac:(lia)) as [Hn [_ Hlt]].
    destruct (Z.ltb_spec (ndigits c) k) as [Hs|Hs].
    + assert (10 ^ ndigits c <= 10 ^ k) by (apply Z.pow_le_mono_r; lia). lia.
    + pose proof (Z.div_mod (- c) (10 ^ k) ltac:(lia)).
      pose proof (Z.mod_pos_bound (- c) (10 ^ k) Hp). nia.
Qed.

(** The number of stroops that [d] is, rounded up. *)
Definition rounds_up_to (c e n : Z) : Prop :=
  if -7 <=? e then n = c * 10 ^ (e + 7)
  else (n - 1) * 10 ^ (-7 - e) < c <= n * 10 ^ (-7 - e).

Lemma to_stroops_spec neg c e :
  0 <= c → ndigits c + e + 7 < DEC_PREC →
  ∃ n, to_stroops (DFin neg c e) = Ok (neg, n) ∧ 0 <= n < 10 ^ DEC_PREC ∧ rounds_up_to c e n.
Proof.
  intros Hc Hd. unfold to_stroops, rounds_up_to.
  destruct (Z.eqb_spec c 0) as [->|Hc0].
  { exists 0. split_and!; [done|lia|done|]. destruct (Z.leb_spec (-7) e); [lia|].
    assert (0 < 10 ^ (-7 - e)) by (apply Z.pow_pos_nonneg; lia). lia. }
  destruct (Z.ltb_spec DEC_PREC (ndigits c + e + 7)); [lia|].
  pose proof (ndigits_spec c ltac:(lia)) as [Hn1 [_ Hlt]].
  set (n := if -7 <=? e then c * 10 ^ (e + 7) else shift_up c (-7 - e)).
  assert (0 < n < 10 ^ DEC_PREC) as Hn.
  { unfold n, DEC_PREC in *. destruct (Z.leb_spec (-7) e) as [He|He].
    - assert (0 < 10 ^ (e + 7)) by (apply Z.pow_pos_nonneg; lia). split; [nia|].
      apply Z.lt_le_trans with (10 ^ ndigits c * 10 ^ (e + 7)); [nia|].
      rewrite <- Z.pow_add_r by lia. apply Z.pow_le_mono_r; lia.
    - pose proof (shift_up_spec c (-7 - e) ltac:(lia) ltac:(lia)) as Hs.
      assert (0 < 10 ^ (-7 - e)) by (apply Z.pow_pos_nonneg; lia). split; [nia|].
      destruct (Z.le_gt_cases (ndigits c) (-7 - e)) as [Hk|Hk].
      + assert (10 ^ ndigits c <= 10 ^ (-7 - e)) by (apply Z.pow_le_mono_r; lia).
        assert (shift_up c (-7 - e) < 2) by nia. change (10 ^ 28) with (5 * 10 ^ 27 * 2). lia.
      + assert (10 ^ ndigits c = 10 ^ (ndigits c - (-7 - e)) * 10 ^ (-7 - e)) as Hp
          by (rewrite <- Z.pow_add_r by lia; f_equal; lia).
        assert (10 ^ (ndigits c - (-7 - e)) <= 10 ^ 27) by (apply Z.pow_le_mono_r; lia).
        assert (shift_up c (-7 - e) <= 10 ^ (ndigits c - (-7 - e))) by nia.
        assert (10 ^ 27 < 10 ^ 28) by done. lia. }
  pose proof (ndigits_le n _ Hn) as Hle.
  destruct (Z.ltb_spec DEC_PREC (ndigits n)); [lia|]. exists n. split_and!; [done|lia|lia|].
  unfold n. destruct (Z.leb_spec (-7) e) as [He|He]; [done|].
  pose proof (shift_up_spec c (-7 - e) ltac:(lia) ltac:(lia)). lia.
Qed.

Lemma take_drop_str k s : str_take k s ++s str_drop k s = s.
Proof. revert s. induction k as [|k IH]; intros [|c s]; [done..|].
  cbn [str_take str_drop]. by rewrite app_cons_s, IH.
Qed.
Lemma str_take_length k s : (k ≤ String.length s)%nat → String.length (str_take k s) = k.
Proof. revert s. induction k as [|k IH]; intros [|c s]; cbn; [done|done|lia|]. intros H. f_equal. apply IH. lia. Qed.

(** The text of a whole number of stroops is read back as that number. *)
Lemma stroops_text n :
  0 <= n < 10 ^ DEC_PREC → dec_parse (dec_str false n (-7)) = Some (DFin false n (-7)).
Proof.
  intros Hn. destruct (Z.lt_ge_cases n 10) as [Hs|Hs].
  { assert (n = 0 ∨ n = 1 ∨ n = 2 ∨ n = 3 ∨ n = 4 ∨ n = 5 ∨ n = 6 ∨ n = 7 ∨ n = 8 ∨ n = 9) as Hc by lia.
    repeat destruct Hc as [->|Hc]; [vm_compute; reflexivity..|subst; vm_compute; reflexivity]. }
  destruct (int_str_digits n ltac:(lia)) as (Hv & Hd & _).
  pose proof (int_str_length n 28 ltac:(unfold DEC_PREC in Hn; lia) ltac:(lia)) as Hl.
  assert (2 <= byte_len (int_str n)) as Hl2.
  { pose proof (num_range _ Hd) as Hr. rewrite Hv in Hr. pose proof (byte_len_nonneg (int_str n)).
    destruct (Z.le_gt_cases 2 (byte_len (int_str n))) as [?|Hlt]; [done|].
    assert (10 ^ byte_len (int_str n) <= 10 ^ 1) by (apply Z.pow_le_mono_r; lia). lia. }
  unfold dec_str. set (ds := int_str n) in *. set (len := byte_len ds) in *.
  assert (len <= 28) as Hl28 by (unfold len, byte_len; lia).
  destruct (Z.leb_spec (-7) 0); [|lia]. destruct (Z.ltb_spec (-6) (-7 + len)); [|lia]. cbn [andb].
  rewrite Z.eqb_refl. rewrite app_empty_r, app_empty_l.
  destruct (Z.leb_spec (-7 + len) 0) as [Hz0|Hz0].
  - pose proof (zeros_digits (Z.to_nat (- (-7 + len)))) as [Hz Hzn].
    set (zs := str_repeat _ _) in *.
    assert (byte_len zs = 7 - len) as Hzl.
    { unfold zs, byte_len. change "0"%string with (str1 zero_char). rewrite str_repeat_length. lia. }
    change ("." ++s zs ++s ds) with (String dot (zs ++s ds)).
    pose proof (dec_parse_plain false "0" (zs ++s ds) true eq_refl) as Hp. cbn [sign_str] in Hp.
    rewrite app_empty_l in Hp. rewrite Hp; clear Hp.
    + rewrite byte_len_app, Hzl. fold len. do 2 f_equal; [|lia].
      rewrite (num_app "0"), num_app, Hzn, Hv. change (num "0") with 0. lia.
    + unfold all_digits in *. by rewrite str_all_app, Hz, Hd.
    + done.
    + done.
    + rewrite byte_len_app, Hzl. fold len. change (byte_len "0") with 1. lia.
  - destruct (Z.leb_spec len (-7 + len)); [lia|].
    set (a := str_take _ ds). set (b := str_drop _ ds).
    assert (a ++s b = ds) as Hab by apply take_drop_str.
    assert (byte_len a = len - 7) as Hal.
    { unfold a, byte_len. rewrite str_take_length; [lia|]. unfold len, byte_len in *. lia. }
    assert (byte_len b = 7) as Hbl.
    { pose proof (byte_len_app a b) as Hab'. rewrite Hab in Hab'. fold len in Hab'. lia. }
    assert (all_digits a = true ∧ all_digits b = true) as [Ha Hb].
    { unfold all_digits in *. rewrite <- Hab, str_all_app in Hd. by apply andb_true_iff in Hd. }
    change ("." ++s b) with (String dot b).
    pose proof (dec_parse_plain false a b true Ha Hb) as Hp. cbn [sign_str] in Hp.
    rewrite app_empty_l in Hp. rewrite Hp; clear Hp.
    + by rewrite Hbl, Hab, Hv.
    + intros He. rewrite He in Hal. change (0 = len - 7) in Hal. lia.
    + done.
    + lia.
Qed.

(** C40. A quote is never a stroop short and never a stroop too much: an amount is printed
    as the least number of stroops that covers it, and that text is read back as exactly
    that number. *)
Theorem amount_rounds_up c e :
  0 <= c → ndigits c + e + 7 < DEC_PREC →
  ∃ s n, amount_str (DFin false c e) = Ok s ∧ dec_parse s = Some (DFin false n (-7))
    ∧ rounds_up_to c e n.
Proof.
  intros Hc Hd. destruct (to_stroops_spec false c e Hc Hd) as (n & Hn & Hr & Hup).
  exists (dec_str false n (-7)), n. unfold amount_str. rewrite Hn. split_and!; [done| |done].
  by apply stroops_text.
Qed.
Lemma amount_rounds_up_witness :
  ∃ s n, amount_str (DFin false 1 (-9)) = Ok s ∧ dec_parse s = Some (DFin false n (-7))
    ∧ rounds_up_to 1 (-9) n.
Proof. apply amount_rounds_up; [lia|vm_compute; reflexivity]. Defined.

(** An invoice in USDC asks for exactly its price: the seven decimals it is quoted
    with are the dollars of the catalog, to the micro. *)
Theorem usdc_quote_exact {W} (cfg : StellarConfig) http_get price (w : W) :
  0 < micros price < 10 ^ 20 →
  ∃ s, stellar_quote cfg http_get price "USDC" w = (Ok s, w)
    ∧ dec_parse s = Some (DFin false (10 * micros price) (-7)).
Proof.
  intros Hm. unfold stellar_quote. change (String.eqb (str_upper _) "USDC") with true. cbn iota.
  destruct (money_decimal_spec price ltac:(lia)) as (c & e & Hd & He & Hc & Hval).
  rewrite (proj2 (Z.ltb_ge (micros price) 0)) in Hd by lia. rewrite Z.abs_eq in Hval by lia.
  assert (10 * micros price = c * 10 ^ (e + 7)) as Hn.
  { rewrite <- Hval. replace (e + 7) with (Z.succ (e + 6)) by lia. rewrite Z.pow_succ_r by lia. lia. }
  assert (ndigits c + e + 7 < DEC_PREC) as Hsmall.
  { pose proof (ndigits_mul_pow c (e + 7) Hc ltac:(lia)) as Hnd. rewrite <- Hn in Hnd.
    pose proof (ndigits_le (10 * micros price) 21 ltac:(lia)). unfold DEC_PREC. lia. }
  destruct (to_stroops_spec false c e ltac:(lia) Hsmall) as (n & Hs & Hr & Hup).
  unfold rounds_up_to in Hup. destruct (Z.leb_spec (-7) e); [|lia].
  exists (dec_str false n (-7)). split.
  - unfold lift. rewrite Hd. cbn [mbind result_bind]. unfold amount_str. by rewrite Hs.
  - rewrite stroops_text by done. do 2 f_equal. lia.
Qed.
Lemma usdc_quote_exact_witness :
  ∃ s, stellar_quote (mkStellarConfig "testnet" "" "GDEST" "USDC" "GISSUER" "")
         (λ _ _, mret (HttpFailed "")) (mkMoney 19000000) "USDC" tt = (Ok s, tt)
    ∧ dec_parse s = Some (DFin false 190000000 (-7)).
Proof. by apply (usdc_quote_exact (mkStellarConfig "testnet" "" "GDEST" "USDC" "GISSUER" "")). Defined.

(** ** What a signed envelope proves *)

(** The operation is a payment to the invoice's destination in its asset. *)
Definition addressed (i : Invoice) (op : operation) : bool :=
  match op with
  | PaymentOperation to what _ =>
      String.eqb (account_id to) (destination i) && String.eqb (asset_code what) (str_upper (asset i))
  | OtherOperation => false
  end.

(** The first such operation decides. *)
Lemma pays_first payer owed i ops :
  match list_find (λ op, addressed i op = true) ops with
  | Some (_, PaymentOperation _ _ how_much) =>
      pays payer owed i ops
      = (let sent := horizon_decimal (JStr how_much) in
         enough ← dec_ge sent owed;
         text ← amount_str sent;
         if enough : bool then Ok (mkVerifyResult true payer EmptyString text)
         else Ok (mkVerifyResult false payer
                    ("it pays " ++s text ++s " and the price is " ++s settlement_amount i) text))
  | _ => ∃ v, pays payer owed i ops = Ok v ∧ valid v = false
  end.
Proof.
  induction ops as [|op ops IH]; cbn [list_find pays]; [by eexists|].
  assert (pays payer owed i (op :: ops) = pays payer owed i ops ∨ addressed i op = true) as Hskip.
  { destruct op as [to what how_much|]; cbn [pays addressed]; [|by left].
    destruct (String.eqb _ _); [|by left]. destruct (String.eqb _ _); [by right|by left]. }
  destruct (decide (addressed i op = true)) as [Ha|Hn].
  - destruct op as [to what how_much|]; [|done]. cbn [addressed] in Ha.
    apply andb_true_iff in Ha as [-> ->]. done.
  - destruct Hskip as [Hs|]; [|done]. cbn [pays] in Hs. rewrite Hs.
    by destruct (list_find _ ops) as [[n [to what how_much|]]|].
Qed.
Lemma pays_sound payer owed i ops v :
  pays payer owed i ops = Ok v → valid v = true →
  verify_payer v = payer ∧ ∃ n to what how_much,
    list_find (λ op, addressed i op = true) ops = Some (n, PaymentOperation to what how_much)
    ∧ dec_ge (horizon_decimal (JStr how_much)) owed = Ok true
    ∧ amount_str (horizon_decimal (JStr how_much)) = Ok (verify_amount v).
Proof.
  intros Hp Hv. pose proof (pays_first payer owed i ops) as Hf.
  destruct (list_find _ ops) as [[n [to what how_much|]]|].
  - rewrite Hp in Hf. cbv zeta in Hf. destruct (dec_ge _ owed) as [b|] eqn:Hge; [|done].
    cbn [mbind result_bind] in Hf. destruct (amount_str _) as [text_|] eqn:Ht; [|done].
    cbn [mbind result_bind] in Hf. destruct b; injection Hf as ->; [|done]. split; [done|].
    exists n, to, what, how_much. by split_and!.
  - destruct Hf as (? & Hf & Hn). rewrite Hp in Hf. injection Hf as <-. congruence.
  - destruct Hf as (? & Hf & Hn). rewrite Hp in Hf. injection Hf as <-. congruence.
Qed.

(** C24. An envelope is only ever found valid when it pays: the SDK read it for this
    network, its memo is the invoice's, its own source account signed it, and the first
    of its operations that is a payment to the invoice's destination in an asset of the
    invoice's code -- no earlier one is -- is of no less than the invoice's amount, and its
    sum is the one reported. *)
Theorem stellar_verify_sound cfg sdk transaction i v :
  stellar_verify cfg sdk transaction i = Ok v → valid v = true →
  ∃ s e earlier to what how_much later,
    sdk = Some s ∧ from_xdr s transaction (cfg_passphrase cfg) = Ok e
    ∧ memo_text (env_memo e) = invoice_memo i ∧ verify_payer v = account_id (env_source e)
    ∧ signed_by s e (account_id (env_source e)) = true
    ∧ env_operations e = earlier ++ PaymentOperation to what how_much :: later
    ∧ account_id to = destination i ∧ asset_code what = str_upper (asset i)
    ∧ (∀ to' what' sum, PaymentOperation to' what' sum ∈ earlier →
         account_id to' ≠ destination i ∨ asset_code what' ≠ str_upper (asset i))
    ∧ dec_ge (horizon_decimal (JStr how_much)) (horizon_decimal (JStr (settlement_amount i))) = Ok true
    ∧ amount_str (horizon_decimal (JStr how_much)) = Ok (verify_amount v).
Proof.
  unfold stellar_verify. destruct sdk as [s|]; [|by intros [= <-]].
  destruct (from_xdr s transaction (cfg_passphrase cfg)) as [e|m] eqn:Hx; [|by intros [= <-]].
  destruct (String.eqb_spec (memo_text (env_memo e)) (invoice_memo i)) as [Hm|]; cbn [negb];
    [|by intros [= <-]].
  destruct (signed_by s e (account_id (env_source e))) eqn:Hs; cbn [negb]; [|by intros [= <-]].
  intros Hp Hv. destruct (pays_sound _ _ _ _ _ Hp Hv) as (Hpayer & n & to & what & how_much & Hf & Hge & Ht).
  apply list_find_Some in Hf as (Hn & Ha & Hbefore). cbn [addressed] in Ha.
  apply andb_true_iff in Ha as [Hto%String.eqb_eq Hwhat%String.eqb_eq].
  exists s, e, (take n (env_operations e)), to, what, how_much, (drop (S n) (env_operations e)).
  split_and!; try done; [by rewrite take_drop_middle|]. intros to' what' sum (k & Hk)%list_elem_of_lookup_1.
  apply lookup_take_Some in Hk as [Hk Hlt]. specialize (Hbefore k _ Hk Hlt). cbn [addressed] in Hbefore.
  destruct (String.eqb_spec (account_id to') (destination i)); [|by left].
  destruct (String.eqb_spec (asset_code what') (str_upper (asset i))); [by destruct Hbefore|by right].
Qed.

(** Whoever issued the asset: an envelope is judged by the code of what it pays alone, so
    that one paying an asset anybody has issued under the name is found as valid as one
    paying the real one. *)
Definition reissue (issuer : string) (op : operation) : operation :=
  match op with
  | PaymentOperation to what how_much =>
      PaymentOperation to
        (if bool_decide (is_Some (asset_code_of what)) then mkSdkAsset (asset_code_of what) (Some issuer)
         else mkSdkAsset (Some "XLM"%string) (Some issuer)) how_much
  | OtherOperation => OtherOperation
  end.
Lemma asset_code_reissued issuer to what how_much :
  ∃ what', reissue issuer (PaymentOperation to what how_much) = PaymentOperation to what' how_much
    ∧ asset_issuer what' = Some issuer ∧ asset_code what' = asset_code what.
Proof.
  cbn [reissue]. eexists. split; [done|]. destruct what as [[c|] o]; cbn [asset_code_of].
  - rewrite bool_decide_true by (by eexists). split; [done|]. unfold asset_code.
    cbn [asset_code_of asset_issuer]. rewrite bool_decide_true by (by eexists).
    rewrite andb_false_r. destruct (String.eqb_spec c "XLM") as [->|]; [|done]. by destruct o.
  - rewrite bool_decide_false by (by intros [? ?]). split; [done|]. by destruct o.
Qed.
Theorem verify_ignores_issuer payer owed i issuer ops :
  pays payer owed i (map (reissue issuer) ops) = pays payer owed i ops.
Proof.
  induction ops as [|[to what how_much|] ops IH]; [done| |done]. cbn [map].
  destruct (asset_code_reissued issuer to what how_much) as (what' & -> & _ & Hc).
  cbn [pays]. by rewrite Hc, IH.
Qed.

(** Submitting never raises on its own account, whatever Horizon answers or fails to:
    it reports success exactly when the answer is not an error status and does not deny
    success, and says why in every other case. *)
Theorem stellar_settle_reports {W} cfg (http_post : string → list (string * string) → M W exn http_reply)
    transaction w w' reply :
  http_post (cfg_horizon cfg ++s "/transactions") [("tx"%string, transaction)] w = (Ok reply, w') →
  ∃ r, stellar_settle cfg http_post transaction w = (Ok r, w')
    ∧ settle_network r = cfg_x402_network cfg
    ∧ (settle_success r = true ↔
         ∃ status body, reply = HttpReply status body ∧ status < 400
           ∧ jtruthy (jget_default "successful" (JBool true) (body_object body)) = true)
    ∧ (settle_success r = true → settle_reason r = EmptyString).
Proof.
  intros Hreply. unfold stellar_settle. rewrite run_bind, Hreply.
  destruct reply as [m|status body].
  { eexists. split; [reflexivity|]. split_and!; [done| |done]. cbn. split; [done|naive_solver]. }
  destruct (Z.leb_spec 400 status) as [H4|H4].
  { eexists. split; [reflexivity|]. split_and!; [done| |done]. cbn. split; [done|].
    intros (? & ? & [= <- <-] & ? & _). lia. }
  destruct (jtruthy _) eqn:Hs; cbn [negb].
  - eexists. split; [reflexivity|]. split_and!; [done| |done]. cbn. split; [|done]. intros _.
    by exists status, body.
  - eexists. split; [reflexivity|]. split_and!; [done| |done]. cbn. split; [done|].
    intros (? & ? & [= <- <-] & _ & Hs'). congruence.
Qed.

(** The newest payment with the memo is the one that is looked at. *)
Theorem newest_payment_decides {W} (now_utc : M W exn Z) fromisoformat memo r rs w w' p :
  payment_of_record now_utc fromisoformat r w = (Ok (Some p), w') → payment_memo p = memo →
  first_with_memo now_utc fromisoformat memo (r :: rs) w = (Ok (Some p), w').
Proof.
  intros Hr Hm. cbn [first_with_memo]. rewrite run_bind, Hr.
  by rewrite (proj2 (String.eqb_eq _ _) Hm).
Qed.

(** ** Concrete payments *)

Definition demo_config : StellarConfig := mkStellarConfig "testnet" "" "GDEST" "XLM" "" "0.10".
(** A payment of [amount], as Horizon describes it. *)
Definition horizon_record (amount : string) (asset : list (string * json)) : json :=
  JObj (app [("type", JStr "payment"); ("from", JStr "GPAYER"); ("to", JStr "GDEST");
         ("amount", JStr amount); ("transaction_hash", JStr "tx");
         ("transaction", JObj [("memo_type", JStr "text"); ("memo", JStr "cz1")])] asset)%string.
Definition horizon_page (rs : list json) : json := JObj [("_embedded", JObj [("records", JList rs)])]%string.
Definition horizon_answering (rs : list json) : PaymentNetwork BillWorld :=
  stellar_network bw_clock demo_config None
    (λ _ _, mret (HttpReply 200 (Ok (horizon_page rs)))) (λ _ _, mret (HttpFailed "")) (λ _, None).

(** An asset anybody issued under the name XLM pays an invoice in XLM. *)
Theorem counterfeit_is_credited issuer :
  ∃ w' e,
    confirm bw_clock bw_draw
      (horizon_answering [horizon_record "8.0000000"
        [("asset_type", JStr "credit_alphanum4"); ("asset_code", JStr "XLM");
         ("asset_issuer", JStr issuer)]%string])
      bw_catalog "cz1" (bw_with_invoice "tokens-1m")
    = (Ok (paid (bw_invoice "tokens-1m") "tx" "GPAYER"), w')
    ∧ rows w' = [e] ∧ entry_tokens e = 1000000.
Proof. eexists _, _. split; [vm_compute; reflexivity|]. by vm_compute. Qed.

(** A stroop sent later with the same memo hides the payment that came before it: the
    invoice is not found paid. *)
Theorem dust_hides_payment :
  let native := [("asset_type", JStr "native")]%string in
  let real := horizon_record "8.0000000" native in
  let dust := horizon_record "0.0000001" native in
  (confirm bw_clock bw_draw (horizon_answering [real]) bw_catalog "cz1" (bw_with_invoice "tokens-1m")).1
    = Ok (paid (bw_invoice "tokens-1m") "tx" "GPAYER")
  ∧ (confirm bw_clock bw_draw (horizon_answering [dust; real]) bw_catalog "cz1"
       (bw_with_invoice "tokens-1m")).1 = Ok (bw_invoice "tokens-1m").
Proof. by vm_compute. Qed.

(** An SDK that reads one envelope, signed by its source. *)
Definition demo_envelope : envelope :=
  mkEnvelope (mkSdkAccount (Some "GPAYER"%string) "") (MemoBytes "cz1")
    [OtherOperation; PaymentOperation (mkSdkAccount (Some "GDEST"%string) "")
       (mkSdkAsset (Some "XLM"%string) None) "8.0000000"] (Some "digest"%string) ["signature"%string].
Definition demo_sdk : StellarSdk :=
  mkSdk (λ xdr _, if String.eqb xdr "AAAA" then Ok demo_envelope else Raise "bad XDR"%string)
    (λ a, Some a) (λ k d s, String.eqb s "signature") (λ _ _ _, false).

Lemma stellar_verify_sound_witness :
  ∃ earlier to what how_much later,
    env_operations demo_envelope = earlier ++ PaymentOperation to what how_much :: later
    ∧ account_id to = "GDEST"%string.
Proof.
  destruct (stellar_verify_sound demo_config (Some demo_sdk) "AAAA" (bw_invoice "tokens-1m")
    (mkVerifyResult true "GPAYER" EmptyString "8.0000000"))
    as (s & e & earlier & to & what & how_much & later & Hsdk & He & _ & _ & _ & Hin & Hto & _).
  - vm_compute. reflexivity.
  - reflexivity.
  - injection Hsdk as <-. cbn in He. injection He as <-.
    exists earlier, to, what, how_much, later. split; [exact Hin|exact Hto].
Defined.

Lemma stellar_settle_reports_witness :
  ∃ r, stellar_settle demo_config (λ _ _, mret (HttpReply 200 (Raise "no JSON"%string))) "AAAA" tt = (Ok r, tt)
    ∧ settle_success r = true.
Proof.
  destruct (stellar_settle_reports demo_config (λ _ _, mret (HttpReply 200 (Raise "no JSON"%string))) "AAAA"
    tt tt (HttpReply 200 (Raise "no JSON"%string)) eq_refl) as (r & Hr & _ & Hs & _).
  exists r. split; [exact Hr|]. apply Hs. eexists _, _. split; [reflexivity|]. split; [lia|reflexivity].
Defined.
