(* ===== verification/X402Service.v ===== *)
(** * Being payable over HTTP 402 *)
(** [application/x402_service.py], and the two headers of [domain/x402.py]: reading
    [X-PAYMENT] and writing [X-PAYMENT-RESPONSE].  The service runs on the same store and
    network as billing; whether a signed envelope pays an invoice, and what the ledger
    says of it, are the network's. *)
From S2P Require Export BillingService PyJsonFacts PyBase64.
From Stdlib Require Import Ascii.
From stdpp Require Import options.
Local Open Scope Z_scope.

(** ** The headers *)

(** [value == n], as Python compares a JSON value with an integer: [True] is 1 and 1.0
    is 1. *)
Definition json_is_int (value : json) (n : Z) : bool :=
  match value with
  | JInt m => m =? n
  | JBool b => (if b then 1 else 0) =? n
  | JFloat (FFin neg c e) =>
      let signed := if neg : bool then - c else c in
      if 0 <=? e then signed * 10 ^ e =? n else signed =? n * 10 ^ (- e)
  | _ => false
  end.

Section decoding.
(** What the library's exception says of a header that is not base64 JSON. *)
Context (why : string → string).

(** [PaymentPayload.decode] *)
Definition decode (header : string) : result exn PaymentPayload :=
  let raw := str_strip header in
  if negb (str_truthy raw) then Raise (X402Error "the X-PAYMENT header is empty")
  else if MAX_PAYLOAD_BYTES <? py_len raw
  then Raise (X402Error "the X-PAYMENT header is too large")
  else
    match data ← b64decode true raw; loads data with
    | None => Raise (X402Error ("the X-PAYMENT header is not base64 JSON: " ++s why raw))
    | Some body =>
        if negb (is_dict body) then Raise (X402Error "the X-PAYMENT header is not a JSON object")
        else
          let version := jget "x402Version" body in
          if negb (json_is_int version X402_VERSION)
          then Raise (X402Error ("x402 version " ++s py_repr version ++s " is not supported; this speaks "
                                 ++s int_str X402_VERSION))
          else
            Ok (mkPaymentPayload (str_or_empty (jget "scheme" body)) (str_or_empty (jget "network" body))
                  (match jget "payload" body with JObj inner => inner | _ => [] end) X402_VERSION)
    end.
End decoding.

(** [SettleResult.encode] *)
Definition settle_encode (r : SettleResult) : string := b64encode (dumps_compact (settle_as_json r)).

(** ** The service *)

Definition QUOTE_TTL : Z := minutes 10.
Definition DEFAULT_TIMEOUT_S : Z := 120.

Section service.
Context {W D : Type} `{!Field W D} `{!BillingStore D}.
Context (now_utc : M W exn Z) (new_entry_id new_token : M W exn string).
Context (network : PaymentNetwork W) (catalog : Catalog) (default_asset : string).
(** The constructor's [price] and [resource]. *)
Context (x402_price : Money) (x402_resource : string) (why : string → string).

(** [supported] *)
Definition supported : list (string * string) := [(SCHEME, network_id network)].

(** [requirements]; no [price] is [None]. *)
Definition requirements (account resource : string) (price : option Money)
    : M W exn (PaymentRequirements * Invoice) :=
  let amount := default x402_price price in
  now ← now_utc;
  token ← new_token;
  quoted ← network_quote network amount default_asset;
  i ← store_write (put_invoice
    (mkInvoice (new_invoice_id token) account "x402" (tokens_worth catalog amount) amount
       default_asset quoted (network_destination network) now (now + QUOTE_TTL) PENDING "x402"
       EmptyString EmptyString));
  mret (mkPaymentRequirements SCHEME (network_id network) (settlement_amount i)
          (if str_truthy resource then resource else x402_resource)
          (comma_str (invoice_tokens i) ++s " CodeZard tokens")
          (destination i) default_asset DEFAULT_TIMEOUT_S "application/json"
          [("memo", JStr (invoice_memo i)); ("invoice", JStr (invoice_id i));
           ("tokens", JInt (invoice_tokens i))]%string,
        i).

(** [challenge] *)
Definition payment_challenge (account reason resource : string) : M W exn PaymentRequired :=
  '(r, _) ← requirements account resource None;
  mret (mkPaymentRequired reason [r]).

(** [_invoice_of] *)
Definition invoice_of (r : PaymentRequirements) : M W exn (option Invoice) :=
  let id := str_or_empty (jget "invoice" (JObj (req_extra r))) in
  if negb (str_truthy id) then mret None
  else
    found ← store_read (invoice id);
    match found with
    | None => mret None
    | Some i =>
        now ← now_utc;
        mret (if is_open i now then Some i else None)
    end.

Definition refuse_verify (reason : string) : VerifyResult :=
  mkVerifyResult false EmptyString reason EmptyString.

(** [verify] *)
Definition verify_payment (p : PaymentPayload) (r : PaymentRequirements) : M W exn VerifyResult :=
  if negb (String.eqb (payload_scheme p) SCHEME)
  then mret (refuse_verify ("scheme " ++s str_repr (payload_scheme p) ++s " is not supported"))
  else if negb (String.eqb (payload_network p) (network_id network))
  then mret (refuse_verify ("this is " ++s network_id network ++s ", not "
                            ++s str_repr (payload_network p)))
  else if negb (str_truthy (payload_transaction p))
  then mret (refuse_verify "the payload carries no signed transaction")
  else
    found ← invoice_of r;
    match found with
    | None => mret (refuse_verify "that payment requirement is unknown or expired")
    | Some i => network_verify network (payload_transaction p) i
    end.

(** [settle] *)
Definition settle_payment (p : PaymentPayload) (r : PaymentRequirements) : M W exn SettleResult :=
  verified ← verify_payment p r;
  if negb (valid verified)
  then mret (mkSettleResult false (network_id network) EmptyString EmptyString (verify_reason verified))
  else
    result ← network_settle network (payload_transaction p);
    if negb (settle_success result) then mret result
    else
      found ← invoice_of r;
      match found with
      | None => mret result
      | Some i =>
          let from := if str_truthy (settle_payer result) then settle_payer result
                      else if str_truthy (verify_payer verified) then verify_payer verified
                      else invoice_account i in
          store_write (put_invoice (paid i (settle_transaction result) from)) ;;
          credit now_utc new_entry_id from (invoice_tokens i) PURCHASE
            ("x402:" ++s settle_transaction result) (price i)
            ("x402 · " ++s settlement_amount i ++s " " ++s asset i) ;;
          mret result
      end.

(** [redeem] *)
Definition redeem (header resource : string) : M W exn (string * SettleResult) :=
  p ← lift (decode why header);
  let id := str_or_empty (jget "invoice" (JObj (payload_fields p))) in
  found ← (if str_truthy id then store_read (invoice id) else mret None);
  match found with
  | None => raise (X402Error "that payment does not name an invoice this gateway issued")
  | Some i =>
      result ← settle_payment p
        (mkPaymentRequirements SCHEME (network_id network) (settlement_amount i)
           (if str_truthy resource then resource else x402_resource) EmptyString (destination i)
           (asset i) 300 "application/json"
           [("memo", JStr (invoice_memo i)); ("invoice", JStr (invoice_id i))]%string);
      if negb (settle_success result)
      then raise (X402Error (if str_truthy (settle_reason result) then settle_reason result
                             else "the payment could not be settled"))
      else
        mret (if str_truthy (settle_payer result) then settle_payer result else invoice_account i,
              result)
  end.
End service.

(** ** The payment header *)

(** A payload as a client writes it. *)
Definition well_formed_payload (p : PaymentPayload) : Prop :=
  payload_version p = X402_VERSION ∧ plain_json (payload_as_json p) = true
  ∧ byte_len (b64encode (dumps_compact (payload_as_json p))) <= MAX_PAYLOAD_BYTES.

(** The payment header carries any payload a client can write: encoded as compact
    JSON in base64, it is read back exactly.  And reading a header never fails in any
    other way than by saying that it does not pay. *)
Theorem payload_header why p header :
  (well_formed_payload p → decode why (b64encode (dumps_compact (payload_as_json p))) = Ok p)
  ∧ (∀ e, decode why header = Raise e → class_of e = cX402Error).
Proof.
  split.
  - intros (Hv & Hp & Hl). set (text_ := b64encode _) in *. unfold decode.
    assert (str_all (λ c, negb (space_char c)) text_ = true) as Hsp.
    { apply b64encode_all; [|done]. intros v Hv'.
      destruct (b64_char_spec v Hv') as (_ & _ & _ & _ & _ & _ & _ & H). cbn zeta in H. by rewrite H. }
    assert (str_strip text_ = text_) as ->.
    { unfold str_strip. rewrite lstrip_by_none by done. by apply rstrip_by_none. }
    assert (b64decode true text_ = Some (dumps_compact (payload_as_json p))) as Hd
      by apply b64decode_encode.
    assert (str_truthy text_ = true) as ->.
    { apply str_truthy_spec. intros He. rewrite He in Hd. discriminate Hd. }
    assert (py_len text_ = byte_len text_) as ->.
    { apply py_len_ascii, b64encode_all; [intros v Hv'; apply (b64_char_spec v Hv')|done]. }
    rewrite (proj2 (Z.ltb_ge _ _)) by done. rewrite Hd. cbn [negb mbind option_bind].
    rewrite loads_dumps_compact by done. destruct p as [sch net fields version]. cbn in Hv. subst version.
    set (doc := payload_as_json _). change (is_dict doc) with true. cbn [negb].
    change (jget "x402Version" doc) with (JInt 1). change (jget "scheme" doc) with (JStr sch).
    change (jget "network" doc) with (JStr net). change (jget "payload" doc) with (JObj fields).
    cbn [json_is_int]. change (1 =? X402_VERSION) with true. cbn [negb].
    by rewrite !str_or_empty_str.
  - intros e. unfold decode. destruct (negb _); [by intros [= <-]|].
    destruct (_ <? _); [by intros [= <-]|].
    destruct (data ← _; loads data) as [body|]; [|by intros [= <-]].
    destruct (negb _); [by intros [= <-]|]. by destruct (negb _); [intros [= <-]|].
Qed.

(** ** What a settlement does *)

Section settling.
#[local] Set Default Proof Using "Type*".
Context {W D : Type} `{!Field W D} `{!BillingStore D} `{!BillingStoreLaws D}.
Context (now_utc : M W exn Z) (new_entry_id : M W exn string) (network : PaymentNetwork W).

Abbreviation verify_ := (verify_payment now_utc network).
Abbreviation settle_ := (settle_payment now_utc new_entry_id network).

(** The invoice a requirement names. *)
Definition named (r : PaymentRequirements) : string :=
  str_or_empty (jget "invoice" (JObj (req_extra r))).

(** What a caller says of a payment decides nothing but which invoice is meant: two
    requests that carry the same signed transaction, scheme and network and name the same
    invoice are verified and settled alike, whatever amount, address, asset or payer they
    claim. *)
Theorem claims_decide_nothing p p' r r'
    (Hs : payload_scheme p = payload_scheme p') (Hn : payload_network p = payload_network p')
    (Ht : payload_transaction p = payload_transaction p') (Hr : named r = named r') w :
  verify_ p r w = verify_ p' r' w ∧ settle_ p r w = settle_ p' r' w.
Proof.
  assert (invoice_of now_utc r = invoice_of now_utc r') as Hi.
  { unfold invoice_of. unfold named in Hr. by rewrite Hr. }
  assert (verify_ p r = verify_ p' r') as Hv.
  { unfold verify_payment. by rewrite Hs, Hn, Ht, Hi. }
  split; [by rewrite Hv|]. unfold settle_payment. by rewrite Hv, Ht, Hi.
Qed.

Lemma invoice_of_run r w :
  str_truthy (named r) = true →
  invoice_of now_utc r w
  = match invoice (named r) (store w) with
    | None => (Ok None, w)
    | Some i => match now_utc w with
                | (Ok t, w1) => (Ok (if is_open i t then Some i else None), w1)
                | (Raise e, w1) => (Raise e, w1)
                end
    end.
Proof.
  intros H. unfold invoice_of. fold (named r). rewrite H. cbn [negb].
  rewrite run_bind, run_store_read. fold (store w).
  destruct (invoice (named r) (store w)); done.
Qed.

(** Nothing is submitted unverified: a settlement that succeeded went to the network
    with a transaction which that same network had just said pays an invoice this gateway
    issued, which was pending and not past its ten minutes. *)
Theorem settle_sound p r w w' result :
  settle_ p r w = (Ok result, w') → settle_success result = true →
  payload_scheme p = SCHEME ∧ payload_network p = network_id network
  ∧ ∃ i t w1 v w2 w3,
      invoice (named r) (store w) = Some i ∧ now_utc w = (Ok t, w1) ∧ is_open i t = true
      ∧ network_verify network (payload_transaction p) i w1 = (Ok v, w2) ∧ valid v = true
      ∧ network_settle network (payload_transaction p) w2 = (Ok result, w3).
Proof.
  unfold settle_payment. intros H Hok. apply bind_ok_inv in H as (v & w2 & Hv & H).
  destruct (valid v) eqn:Hvalid; cbn [negb] in H; [|injection H as <- <-; done].
  apply bind_ok_inv in H as (res & w3 & Hset & H).
  assert (res = result) as ->.
  { destruct (settle_success res); cbn [negb] in H; [|by injection H].
    apply bind_ok_inv in H as ([i|] & w4 & _ & H); [|by injection H].
    apply bind_ok_inv in H as (? & w5 & _ & H). apply bind_ok_inv in H as (? & w6 & _ & H).
    by injection H. }
  unfold verify_payment in Hv.
  destruct (String.eqb_spec (payload_scheme p) SCHEME) as [Hs|];
    cbn [negb] in Hv; [|injection Hv as <- <-; done].
  destruct (String.eqb_spec (payload_network p) (network_id network)) as [Hn|];
    cbn [negb] in Hv; [|injection Hv as <- <-; done].
  destruct (str_truthy (payload_transaction p)); cbn [negb] in Hv; [|injection Hv as <- <-; done].
  apply bind_ok_inv in Hv as (found & w1 & Hf & Hv). destruct found as [i|]; [|injection Hv as <- <-; done].
  split; [done|]. split; [done|]. destruct (str_truthy (named r)) eqn:Hid.
  - rewrite invoice_of_run in Hf by done. destruct (invoice (named r) (store w)) as [j|]; [|done].
    destruct (now_utc w) as [[t|e] w0] eqn:Ht; [|done].
    destruct (is_open j t) eqn:Ho; [|done]. injection Hf as -> ->. exists i, t, w1, v, w2, w3. by split_and!.
  - unfold invoice_of in Hf. fold (named r) in Hf. rewrite Hid in Hf. done.
Qed.

Hypothesis now_draws : draws now_utc.
Hypothesis id_draws : draws new_entry_id.

(** A requirement whose invoice is settled, or was never issued, pays for nothing: the
    network is not asked. *)
Lemma closed_refused q r w :
  str_truthy (named r) = true →
  (∀ i, invoice (named r) (store w) = Some i → status i ≠ PENDING) →
  ∃ reason w', settle_ q r w = (Ok (mkSettleResult false (network_id network) EmptyString EmptyString reason), w')
    ∧ (w' = w ∨ w' = (now_utc w).2).
Proof.
  intros Hn Hclosed. unfold settle_payment, verify_payment.
  destruct (negb (String.eqb (payload_scheme q) SCHEME)); [eexists _, w; split; [done|by left]|].
  destruct (negb (String.eqb (payload_network q) _)); [eexists _, w; split; [done|by left]|].
  destruct (negb (str_truthy _)); [eexists _, w; split; [done|by left]|].
  rewrite run_bind, run_bind, invoice_of_run by done.
  destruct (invoice (named r) (store w)) as [i|] eqn:Hi; [|eexists _, w; split; [done|by left]].
  destruct (now_draws w) as (t & w1 & Ht & _). rewrite Ht. unfold is_open.
  rewrite bool_decide_false by (by apply Hclosed). eexists _, w1. split; [done|by right].
Qed.

(** The situation of a payment that is good: the invoice is open and the network says
    the transaction pays it and, submitted, that it was included. *)
Record good_payment (p : PaymentPayload) (r : PaymentRequirements) (i : Invoice) (t : Z)
    (v : VerifyResult) (result : SettleResult) (w w1 w2 w3 : W) : Prop := mkGood {
  good_scheme : payload_scheme p = SCHEME;
  good_network : payload_network p = network_id network;
  good_transaction : str_truthy (payload_transaction p) = true;
  good_named : named r = invoice_id i;
  good_id : str_truthy (invoice_id i) = true;
  good_invoice : invoice (invoice_id i) (store w) = Some i;
  good_clock : now_utc w = (Ok t, w1);
  good_open : is_open i t = true;
  good_verify : network_verify network (payload_transaction p) i w1 = (Ok v, w2);
  good_valid : valid v = true;
  good_settle : network_settle network (payload_transaction p) w2 = (Ok result, w3);
  good_success : settle_success result = true;
  good_store : store w3 = store w
}.

(** Whom a settlement credits. *)
Definition credited (result : SettleResult) (v : VerifyResult) (i : Invoice) : string :=
  if str_truthy (settle_payer result) then settle_payer result
  else if str_truthy (verify_payer v) then verify_payer v else invoice_account i.

Lemma settle_payment_run p r i t v result w w1 w2 w3 :
  good_payment p r i t v result w w1 w2 w3 →
  settle_ p r w
  = (found ← invoice_of now_utc r;
     match found with
     | None => mret result
     | Some i =>
         store_write (put_invoice (paid i (settle_transaction result) (credited result v i))) ;;
         credit now_utc new_entry_id (credited result v i) (invoice_tokens i) PURCHASE
           ("x402:" ++s settle_transaction result) (price i)
           ("x402 · " ++s settlement_amount i ++s " " ++s asset i) ;;
         mret result
     end) w3.
Proof.
  intros [Hs Hn Ht Hr Hid Hi Hc Ho Hv Hok Hset Hsucc _]. unfold settle_payment. rewrite run_bind.
  assert (verify_ p r w = (Ok v, w2)) as ->.
  { unfold verify_payment. rewrite Hs, Hn, Ht, !String.eqb_refl. cbn [negb].
    rewrite run_bind, invoice_of_run by (by rewrite Hr). by rewrite Hr, Hi, Hc, Ho. }
  rewrite Hok. cbn [negb]. rewrite run_bind, Hset, Hsucc. done.
Qed.

(** What a good payment leaves. *)
Lemma settled_once p r i t v result w w1 w2 w3 t' w4 :
  good_payment p r i t v result w w1 w2 w3 →
  now_utc w3 = (Ok t', w4) → is_open i t' = true →
  storable_invoice i → (∀ w', rows w' = rows w → fresh_ids new_entry_id w') →
  ∃ w', settle_ p r w = (Ok result, w')
    ∧ match find_reference ("x402:" ++s settle_transaction result) (rows w) with
      | Some _ => rows w' = rows w
      | None => ∃ e, rows w' = rows w ++ [e] ∧ entry_account e = credited result v i
                  ∧ entry_tokens e = invoice_tokens i ∧ kind e = PURCHASE
      end
    ∧ invoice (invoice_id i) (store w')
      = Some (merge_invoice i (paid i (settle_transaction result) (credited result v i))).
Proof.
  intros Hgood Hc' Ho' (Hn & H1 & H2) Hids. rewrite (settle_payment_run _ _ _ _ _ _ _ _ _ _ Hgood).
  destruct Hgood as [_ _ _ Hr Hid Hi _ _ _ _ _ _ Hs].
  destruct (now_draws w3) as (t2 & w42 & Ht2 & Hs4). rewrite Hc' in Ht2. injection Ht2 as <- <-.
  rewrite run_bind, invoice_of_run by (by rewrite Hr). rewrite Hr, Hs, Hi, Hc', Ho'.
  set (done_ := paid i _ _). set (ref := "x402:" ++s _). set (note := "x402 · " ++s _).
  assert (store w4 = store w) as Hs4' by congruence.
  destruct (put_invoice_known done_ (store w) i) as [Ho Hk]; [done|cbn; by rewrite H1, H2|].
  set (w5 := setf (put_invoice done_ (store w)).2 w4).
  assert (store w5 = (put_invoice done_ (store w)).2) as Hs5 by apply store_setf.
  assert (rows w5 = rows w) as Hr5 by (unfold rows; by rewrite Hs5, put_invoice_ledger).
  rewrite run_bind. rewrite run_store_write. fold (store w4). rewrite Hs4', Ho. fold w5. cbn beta iota.
  assert (∃ e w6, credit now_utc new_entry_id (credited result v i) (invoice_tokens i) PURCHASE ref
        (price i) note w5 = (Ok e, w6)
      ∧ invoice (invoice_id i) (store w6) = Some (merge_invoice i done_)
      ∧ match find_reference ref (rows w) with
        | Some _ => rows w6 = rows w
        | None => ∃ e, rows w6 = rows w ++ [e] ∧ entry_account e = credited result v i
                    ∧ entry_tokens e = invoice_tokens i ∧ kind e = PURCHASE
        end) as (e & w6 & Hcr & Hi6 & Hrows).
  { destruct (find_reference ref (rows w)) as [e|] eqn:Hf.
    - destruct (credit_known now_utc new_entry_id now_draws id_draws (credited result v i)
        (invoice_tokens i) PURCHASE ref (price i) note w5 e) as (w6 & Hcr & Hs6); [done..|by rewrite Hr5|].
      exists e, w6. unfold rows. rewrite Hs6. fold (rows w5). split_and!; [done| |done].
      by rewrite Hs5.
    - destruct (credit_new now_utc new_entry_id now_draws id_draws (credited result v i)
        (invoice_tokens i) PURCHASE ref (price i) note w5) as
        (e & w6 & Hcr & Hr6 & Ha & Hkk & Htt & _ & _ & Hinv & _); [done..|by apply Hids|by rewrite Hr5|].
      exists e, w6. split_and!; [done|by rewrite Hinv, Hs5|]. exists e. rewrite Hr6, Hr5. by split_and!. }
  rewrite run_bind, Hcr. exists w6. by split_and!.
Qed.

(** A good payment is credited exactly once: its invoice is stored as paid and the
    tokens it was issued for go, in one row, to whoever the settled transaction names as
    its source (to nobody a second time, if that transaction is in the ledger already);
    and after that no payment whatever that names the invoice is verified, submitted or
    credited again. *)
Theorem settle_credits_once p r i t v result w w1 w2 w3 t' w4 :
  good_payment p r i t v result w w1 w2 w3 →
  now_utc w3 = (Ok t', w4) → is_open i t' = true →
  storable_invoice i → (∀ w', rows w' = rows w → fresh_ids new_entry_id w') →
  ∃ w', settle_ p r w = (Ok result, w')
    ∧ match find_reference ("x402:" ++s settle_transaction result) (rows w) with
      | Some _ => rows w' = rows w
      | None => ∃ e, rows w' = rows w ++ [e] ∧ entry_account e = credited result v i
                  ∧ entry_tokens e = invoice_tokens i ∧ kind e = PURCHASE
      end
    ∧ ∀ q r' w'', named r' = invoice_id i → store w'' = store w' →
        ∃ reason w5, settle_ q r' w''
            = (Ok (mkSettleResult false (network_id network) EmptyString EmptyString reason), w5)
          ∧ (w5 = w'' ∨ w5 = (now_utc w'').2).
Proof.
  intros Hgood Hc' Ho' Hst Hids.
  destruct (settled_once p r i t v result w w1 w2 w3 t' w4 Hgood Hc' Ho' Hst Hids) as (w' & Hset & Hrows & Hpaid).
  exists w'. split; [done|]. split; [done|]. destruct Hgood as [_ _ _ _ Hid].
  intros q r' w'' Hr' Hs''. apply closed_refused; [by rewrite Hr'|].
  intros j. rewrite Hr', Hs'', Hpaid. by intros [= <-].
Qed.

(** A quote that runs out while the transaction is being submitted: the money has moved,
    the answer is success, and nobody is credited. *)
Theorem settle_late_credits_nobody p r i t v result w w1 w2 w3 t' w4 :
  good_payment p r i t v result w w1 w2 w3 →
  now_utc w3 = (Ok t', w4) → is_open i t' = false →
  ∃ w', settle_ p r w = (Ok result, w') ∧ store w' = store w.
Proof.
  intros Hgood Hc' Ho'. rewrite (settle_payment_run _ _ _ _ _ _ _ _ _ _ Hgood).
  destruct Hgood as [_ _ _ Hr Hid Hi _ _ _ _ _ _ Hs].
  destruct (now_draws w3) as (t2 & w42 & Ht2 & Hs4). rewrite Hc' in Ht2. injection Ht2 as <- <-.
  rewrite run_bind, invoice_of_run by (by rewrite Hr). rewrite Hr, Hs, Hi, Hc', Ho'.
  exists w4. split; [done|congruence].
Qed.
End settling.

(** ** A concrete payment *)

Definition x402_invoice : Invoice :=
  mkInvoice "cz402" "" "x402" 1000000 (mkMoney 8000000) "XLM" "8.0000000" "GDEST" 0 QUOTE_TTL
    PENDING "x402" EmptyString EmptyString.
Definition x402_world : BillWorld := mkBillWorld (put_invoice x402_invoice empty_db).2 1000000 0.
Definition x402_payload : PaymentPayload :=
  mkPaymentPayload "exact" "stellar-testnet"
    [("transaction", JStr "AAAAsigned"); ("invoice", JStr "cz402")]%string 1.
Definition x402_requirements (claimed : string) : PaymentRequirements :=
  mkPaymentRequirements "exact" "stellar-testnet" claimed "/runs" EmptyString "GDEST" "XLM" 120
    "application/json" [("invoice", JStr "cz402")]%string.
(** A network that takes ten minutes to include the transaction. *)
Definition slow_network : PaymentNetwork BillWorld :=
  mkNetwork BillWorld "stellar-testnet" "GDEST" (λ _, mret None) (λ _ _, mret "8.0000000"%string)
    (network_verify paying_network)
    (λ _ w, (Ok (mkSettleResult true "stellar-testnet" "tx" "GPAYER" EmptyString),
             mkBillWorld (bw_db w) (bw_now w + QUOTE_TTL) (bw_draws w))).

Lemma payload_header_witness :
  decode (λ _, EmptyString) (b64encode (dumps_compact (payload_as_json x402_payload))) = Ok x402_payload.
Proof.
  apply (proj1 (payload_header (λ _, EmptyString) x402_payload EmptyString)).
  unfold well_formed_payload. split_and!; [reflexivity|vm_compute; reflexivity|vm_compute; discriminate].
Defined.

Lemma claims_decide_nothing_witness :
  settle_payment bw_clock bw_draw paying_network x402_payload (x402_requirements "8.0000000") x402_world
  = settle_payment bw_clock bw_draw paying_network x402_payload (x402_requirements "0.0000001") x402_world.
Proof. by apply (claims_decide_nothing bw_clock bw_draw paying_network). Defined.

Definition x402_result : SettleResult :=
  mkSettleResult true "stellar-testnet" "tx" "GPAYER" EmptyString.
Definition x402_verdict : VerifyResult := mkVerifyResult true "GPAYER" EmptyString "8.0000000".

Lemma x402_good :
  good_payment bw_clock paying_network x402_payload (x402_requirements "8.0000000") x402_invoice 1000000
    x402_verdict x402_result x402_world x402_world x402_world x402_world.
Proof. split; vm_compute; reflexivity. Qed.
Lemma x402_slow :
  good_payment bw_clock slow_network x402_payload (x402_requirements "8.0000000") x402_invoice 1000000
    x402_verdict x402_result x402_world x402_world x402_world
    (network_settle slow_network "AAAAsigned" x402_world).2.
Proof. split; vm_compute; reflexivity. Qed.

Lemma settle_sound_witness :
  payload_scheme x402_payload = SCHEME.
Proof.
  refine (proj1 (settle_sound bw_clock bw_draw paying_network x402_payload (x402_requirements "8.0000000")
    x402_world _ x402_result _ eq_refl)).
  vm_compute. reflexivity.
Defined.

Lemma settle_credits_once_witness :
  ∃ w' e, settle_payment bw_clock bw_draw paying_network x402_payload (x402_requirements "8.0000000")
            x402_world = (Ok x402_result, w')
    ∧ rows w' = [e] ∧ entry_account e = "GPAYER"%string ∧ entry_tokens e = 1000000.
Proof.
  destruct (settle_credits_once bw_clock bw_draw paying_network bw_clock_draws bw_draw_draws
    x402_payload (x402_requirements "8.0000000") x402_invoice 1000000 x402_verdict x402_result x402_world
    x402_world x402_world x402_world 1000000 x402_world x402_good eq_refl eq_refl)
    as (w' & Hs & (e & He & Ha & Ht & _) & _).
  - split_and!; [cbn; lia|reflexivity|reflexivity].
  - intros w' Hr id w'' _. rewrite Hr. cbn. set_solver.
  - exists w', e. split_and!; [exact Hs|exact He|exact Ha|exact Ht].
Defined.

Lemma settle_late_credits_nobody_witness :
  ∃ w', settle_payment bw_clock bw_draw slow_network x402_payload (x402_requirements "8.0000000")
          x402_world = (Ok x402_result, w') ∧ store w' = store x402_world.
Proof.
  eapply (settle_late_credits_nobody bw_clock bw_draw slow_network bw_clock_draws bw_draw_draws _ _ _ _ _ _ _ _ _ _ _ _ x402_slow).
  - vm_compute. reflexivity.
  - vm_compute. reflexivity.
Defined.
