(* ===== verification/Books.v ===== *)
(** * The books *)
(** What [application/billing_service.py] and [application/x402_service.py] leave in the
    ledger when they do not run alone: every call of the store runs on a worker thread,
    so other operations have their steps between two steps of one, and its task can be
    cancelled there.  Also the tables of the store with such interruptions written down,
    for concrete runs. *)
From S2P Require Export X402Service.
From stdpp Require Import options.
Local Open Scope Z_scope.

(** What the service may do while others do the same.  Every call of the store lets the
    others have theirs, and may be where the task is cancelled; so what an operation
    promises is what it leaves true at each of its steps, given that the others leave it
    true at theirs. *)
Section books.
#[local] Set Default Proof Using "Type*".
Context {W D : Type} `{!Field W D} `{!BillingStore D} `{!TableLaws D}.
Context (network : PaymentNetwork W) (catalog : Catalog) (chain : SubscriptionRegistry W).

(** Why a row is in the ledger: it takes tokens, or grants a free period's, a period
    the contract reported, an invoice the network showed a settling payment of, or an
    invoice whose signed payment the network verified and then settled. *)
Inductive warranted (known : Invoice → Prop) (e : LedgerEntry) : Prop :=
  | by_use : entry_tokens e <= 0 → kind e = USAGE ∨ kind e = EXPIRY → warranted known e
  | by_free_plan p s :
      p ∈ plans catalog → is_free p = true → kind e = GRANT → entry_tokens e = plan_tokens p →
      reference e = "grant:" ++s period_key s → warranted known e
  | by_subscription s p wa wb :
      chain_subscription chain (entry_account e) wa = (Ok (Some s), wb) →
      catalog_plan catalog (onchain_plan s) = Ok p → kind e = GRANT →
      entry_tokens e = plan_tokens p → reference e = "chain:" ++s onchain_period_key s →
      warranted known e
  | by_payment i p wa wb :
      known i → payment_for network i wa = (Ok (Some p), wb) → settles p i 100 = Ok true →
      entry_account e = invoice_account i → entry_tokens e = invoice_tokens i →
      reference e = "invoice:" ++s invoice_id i → warranted known e
  | by_call i tx v r wa wb wc wd :
      known i → network_verify network tx i wa = (Ok v, wb) → valid v = true →
      network_settle network tx wc = (Ok r, wd) → settle_success r = true →
      kind e = PURCHASE → entry_tokens e = invoice_tokens i →
      reference e = "x402:" ++s settle_transaction r → warranted known e.

Lemma warranted_mono (P Q : Invoice → Prop) e : (∀ i, P i → Q i) → warranted P e → warranted Q e.
Proof.
  intros H [?|? ? ?|? ? ? ?|? ? ? ?|? ? ? ? ? ? ? ?]; [by eapply by_use|by eapply by_free_plan|
    by eapply by_subscription|eapply by_payment; eauto|eapply by_call; eauto].
Qed.

(** The invoice is stored, perhaps with another status. *)
Definition known (w : W) (i : Invoice) : Prop :=
  ∃ j, invoice (invoice_id i) (store w) = Some j ∧ same_terms i j.

(** Every row has its reason, the ledger begins with the rows [l], and the invoices
    [ks] are stored under the terms they have. *)
Definition books (l : list LedgerEntry) (ks : Invoice → Prop) (w : W) : Prop :=
  (∀ e, e ∈ rows w → warranted (known w) e) ∧ l `prefix_of` rows w ∧ ∀ i, ks i → known w i.

(** Rows are only added, each for a reason, and the terms of invoices never change. *)
Definition keeps_books {A} (m : M W exn A) : Prop := ∀ l ks, preserves (books l ks) m.

Lemma books_store {A} (f : D → result exn A * D) :
  (∀ d, ledger (f d).2 = ledger d) →
  (∀ d k old, invoice k d = Some old → ∃ new, invoice k (f d).2 = Some new ∧ same_terms old new) →
  keeps_books (in_thread f).
Proof.
  intros Hl Hi l ks w (Hw & Hp & Hk). unfold in_thread. cbn [snd].
  assert (∀ i, known w i → known (setf (f (getf w)).2 w) i) as Hknown.
  { intros i (j & Hj & Ht). destruct (Hi _ _ _ Hj) as (new & Hn & Ht').
    exists new. rewrite store_setf. split; [done|by etrans]. }
  unfold books, rows in *. rewrite store_setf, Hl. fold (store w). split_and!; [|done|by auto].
  intros e He. eapply warranted_mono, Hw, He. exact Hknown.
Qed.

Lemma books_append l ks e :
  (∀ P : Invoice → Prop, (∀ i, ks i → P i) → warranted P e) →
  preserves (books l ks) (in_thread (append e)).
Proof.
  intros Hwar w (Hw & Hp & Hk). unfold in_thread. cbn [snd].
  assert (∀ i, known w i → known (setf (append e (getf w)).2 w) i) as Hknown.
  { intros i (j & Hj & Ht). exists j. by rewrite store_setf, append_invoice. }
  unfold books, rows in *. rewrite store_setf. fold (store w) in *. split_and!.
  - intros e' He. destruct (append_grows e (store w)) as [Hg|Hg]; rewrite Hg in He.
    + eapply warranted_mono, Hw, He. exact Hknown.
    + apply elem_of_app in He as [He|He%list_elem_of_singleton].
      * eapply warranted_mono, Hw, He. exact Hknown.
      * subst e'. apply Hwar. by auto.
  - destruct (append_grows e (store w)) as [-> | ->]; [done|by apply prefix_app_r].
  - by auto.
Qed.

Lemma books_weaken l (ks ks' : Invoice → Prop) w :
  (∀ i, ks i → ks' i) → books l ks' w → books l ks w.
Proof. intros H (Hw & Hp & Hk). split_and!; auto. Qed.

(** What the world does while the service runs is of that kind. *)
Hypothesis over_keeps : keeps_books (in_thread handed_over).
Hypothesis back_keeps : keeps_books (in_thread handed_back).

Lemma store_write_keeps {A} (f : D → result exn A * D) l ks :
  preserves (books l ks) (in_thread f) → preserves (books l ks) (store_write f).
Proof.
  intros Hf. unfold store_write. apply preserves_bind; [apply over_keeps|]. intros _.
  apply preserves_bind; [done|]. intros a. apply preserves_bind; [apply back_keeps|].
  intros _. apply preserves_ret.
Qed.
Lemma store_read_keeps {A} (f : D → A) : keeps_books (store_read f).
Proof. intros l ks. apply store_write_keeps, books_store; [done|by eexists]. Qed.
Lemma put_invoice_keeps i : keeps_books (store_write (put_invoice i)).
Proof.
  intros l ks. apply store_write_keeps, books_store; [apply put_invoice_ledger|].
  intros d k old. apply put_invoice_terms.
Qed.
Lemma put_subscription_keeps s : keeps_books (store_write (put_subscription s)).
Proof.
  intros l ks. apply store_write_keeps, books_store; [apply put_subscription_ledger|].
  intros d k old Ho. rewrite put_subscription_invoice. by eexists.
Qed.

(** An invoice that was read is known from then on, and asks for what any invoice
    known under its id does. *)
Lemma read_invoice_keeps {B} id l (ks : Invoice → Prop) (k : option Invoice → M W exn B) :
  (∀ found ks', (∀ i, ks i ∨ found = Some i → ks' i) →
     (∀ j, found = Some j → invoice_id j = id ∧ ∀ i, ks i → invoice_id i = id → same_terms i j) →
     preserves (books l ks') (k found)) →
  preserves (books l ks) (store_read (invoice id) ≫= k).
Proof.
  intros Hk w Hw. unfold store_read, store_write. rewrite run_bind, run_bind.
  pose proof (over_keeps l ks w Hw) as H1. destruct (in_thread handed_over w) as [[[]|x] w1]; [|done].
  cbn [snd] in H1. rewrite run_bind. unfold in_thread at 1. cbn [fst snd]. rewrite setf_getf, run_bind.
  set (found := invoice id (getf w1)). destruct H1 as (Hwar & Hp & Hknown).
  assert (books l (λ i, ks i ∨ found = Some i) w1) as H2.
  { split_and!; [done|done|]. intros i [?|Hi]; [by auto|].
    exists i. rewrite (invoice_key _ _ _ Hi). by split. }
  pose proof (back_keeps l _ w1 H2) as H3. destruct (in_thread handed_back w1) as [[[]|x] w2]; cbn in H3 |- *.
  2:{ eapply books_weaken, H3. intros i ?. by left. }
  eapply books_weaken; [|eapply Hk; [|..|exact H3]]; cbn; [by auto|by auto|].
  intros j Hj. split; [by apply (invoice_key _ _ _ Hj)|]. intros i Hi Hid.
  destruct (Hknown i Hi) as (j' & Hj' & Ht). rewrite Hid in Hj'. unfold store in Hj'.
  fold found in Hj'. congruence.
Qed.
Lemma put_invoice_then {B} i l ks (k : Invoice → M W exn B) :
  preserves (books l ks) (k i) → preserves (books l ks) (store_write (put_invoice i) ≫= k).
Proof.
  intros Hk. apply preserves_bind_ran; [apply put_invoice_keeps|]. intros j wa wb Hj.
  enough (j = i) as -> by done. unfold store_write in Hj.
  apply bind_ok_inv in Hj as (? & w1 & _ & (a & w2 & Ha & (? & w3 & _ & [= <- _])%bind_ok_inv)%bind_ok_inv).
  unfold in_thread in Ha. injection Ha as Ha _. by eapply put_invoice_answer.
Qed.

(** *** The operations *)

Context (now_utc : M W exn Z) (new_entry_id new_token : M W exn string)
        (default_asset : string) (reserve : Z).
Hypothesis now_keeps : keeps_books now_utc.
Hypothesis id_keeps : keeps_books new_entry_id.
Hypothesis token_keeps : keeps_books new_token.
Hypothesis payment_keeps : ∀ i, keeps_books (payment_for network i).
Hypothesis quote_keeps : ∀ m a, keeps_books (network_quote network m a).
Hypothesis verify_keeps : ∀ tx i, keeps_books (network_verify network tx i).
Hypothesis settle_keeps : ∀ tx, keeps_books (network_settle network tx).
Hypothesis chain_keeps : ∀ a, keeps_books (chain_subscription chain a).
Hypothesis build_keeps : ∀ f a x, build_subscribe chain = Some f → keeps_books (f a x).
Hypothesis submit_keeps : ∀ f x, chain_submit chain = Some f → keeps_books (f x).

Lemma credit_keeps account n k ref m note l ks :
  (∀ e P, (∀ i, ks i → P i) → entry_account e = account → kind e = k → entry_tokens e = n →
     reference e = ref → warranted P e) →
  preserves (books l ks) (credit now_utc new_entry_id account n k ref m note).
Proof.
  intros Hwar. unfold credit. destruct (_ <? _); [apply preserves_raise|].
  apply preserves_bind; [apply id_keeps|]. intros id. apply preserves_bind; [apply now_keeps|].
  intros t. by apply store_write_keeps, books_append; intros; apply Hwar.
Qed.

Lemma free_plan_elem p : free_plan catalog = Some p → p ∈ plans catalog ∧ is_free p = true.
Proof using Type.
  unfold free_plan. intros ([i q] & (Hl & Hf & _)%list_find_Some & ->)%fmap_Some.
  by split; [eapply list_elem_of_lookup_2|].
Qed.
Lemma plan_or_none_elem id p :
  plan_or_none catalog id = Some p → p ∈ plans catalog ∧ catalog_plan catalog id = Ok p.
Proof using Type.
  unfold plan_or_none. destruct (catalog_plan catalog id) as [q|] eqn:Hq; [|done]. intros [= ->].
  split; [|done]. revert Hq. unfold catalog_plan, catalog_product.
  destruct (find_product id (everything catalog)) as [[q|q]|] eqn:Hf; [|done..]. intros [= ->].
  assert (PPlan p ∈ everything catalog) as Hin.
  { revert Hf. induction (everything catalog) as [|x l IH]; cbn; [done|].
    destruct (String.eqb _ _); [intros [= ->]; by left|intros H; right; by apply IH]. }
  unfold everything in Hin. apply elem_of_app in Hin as [Hin|Hin];
    apply list_elem_of_fmap in Hin as (x & [= ->] & Hin). done.
Qed.

Lemma grant_keeps account p s :
  p ∈ plans catalog → is_free p = true → keeps_books (grant now_utc new_entry_id account p s).
Proof.
  intros Hp Hf l ks. unfold grant. apply preserves_bind; [|intros; apply preserves_ret].
  apply credit_keeps. intros e P _ _ Hk Hn Href. by eapply by_free_plan.
Qed.

(** Go through an operation, one of whose calls is the goal in the end. *)
#[local] Ltac keep_books :=
  repeat match goal with
  | |- keeps_books _ => intros ? ?
  | |- preserves _ (_ ≫= _) => apply preserves_bind; [|intros]
  | |- preserves _ (try_except _ _) => apply preserves_try; [|unfold except; intros]
  | |- preserves _ (if ?b then _ else _) => destruct b eqn:?
  | |- preserves _ (match ?x with _ => _ end) => destruct x eqn:?
  | H : (if ?b then _ else _) = Some _ |- _ => destruct b; simplify_eq
  | |- preserves _ (mret _) => apply preserves_ret
  | |- preserves _ (raise _) => apply preserves_raise
  | |- preserves _ (lift _) => apply preserves_lift
  | |- preserves _ (store_read _) => apply store_read_keeps
  | |- preserves _ (store_write (put_invoice _)) => apply put_invoice_keeps
  | |- preserves _ (store_write (put_subscription _)) => apply put_subscription_keeps
  | |- _ => first [apply now_keeps|apply id_keeps|apply token_keeps|apply quote_keeps]
  end.

Lemma balance_keeps account : keeps_books (balance account).
Proof. unfold balance. keep_books. Qed.

Lemma charge_keeps account id usage : keeps_books (charge now_utc new_entry_id catalog account id usage).
Proof.
  intros l ks. unfold charge. keep_books.
  apply store_write_keeps, books_append. intros P _. apply by_use; [cbn; lia|by left].
Qed.

Lemma expire_keeps account s t : keeps_books (expire_grant new_entry_id account s t).
Proof.
  intros l ks. unfold expire_grant. apply preserves_bind; [apply balance_keeps|]. intros b.
  keep_books. apply store_write_keeps, books_append. intros P _. apply by_use; [cbn; lia|by right].
Qed.

Lemma begin_free_keeps account t : keeps_books (begin_free now_utc new_entry_id catalog account t).
Proof.
  intros l ks. unfold begin_free. destruct (free_plan catalog) as [p|] eqn:Hp; [|apply preserves_ret].
  apply free_plan_elem in Hp as [Hp Hf]. keep_books. by apply grant_keeps.
Qed.

Lemma mirror_keeps account t : keeps_books (mirror_chain now_utc new_entry_id catalog chain account t).
Proof.
  intros l ks. unfold mirror_chain. destruct (negb _); [apply preserves_ret|].
  apply preserves_bind_ran; [keep_books; apply chain_keeps|].
  intros [s|] wa wb Hs; [|apply preserves_ret].
  assert (∃ wc, chain_subscription chain account wa = (Ok (Some s), wc)) as [wc Hchain].
  { unfold try_except, except in Hs. destruct (chain_subscription chain account wa) as [[o|x] wc].
    - injection Hs as -> _. by exists wc.
    - by destruct (isinstance x cException). }
  destruct (negb _); [apply preserves_ret|].
  destruct (plan_or_none catalog (onchain_plan s)) as [p|] eqn:Hp; [|apply preserves_ret].
  apply plan_or_none_elem in Hp as [_ Hp]. keep_books.
  apply credit_keeps. intros e P _ <- Hk Hn Href. by eapply by_subscription.
Qed.

Lemma settle_period_keeps account :
  keeps_books (settle_period now_utc new_entry_id catalog chain account).
Proof.
  intros l ks. unfold settle_period. apply preserves_bind; [apply now_keeps|]. intros t.
  apply preserves_bind; [apply mirror_keeps|]. intros [s|]; [apply preserves_ret|].
  apply preserves_bind; [apply store_read_keeps|]. intros [s|]; [|apply begin_free_keeps].
  destruct (negb _); [apply preserves_ret|]. apply preserves_bind; [apply expire_keeps|]. intros _.
  destruct (plan_or_none catalog (sub_plan_id s)) as [p|] eqn:Hp; keep_books.
  apply plan_or_none_elem in Hp as [Hp _]. by apply grant_keeps.
Qed.

Lemma deliver_keeps i p wa wb l (ks : Invoice → Prop) :
  ks i → payment_for network i wa = (Ok (Some p), wb) → settles p i 100 = Ok true →
  ∀ tx from, preserves (books l ks) (deliver now_utc new_entry_id catalog (paid i tx from)).
Proof.
  intros Hk Hpay Hs tx from. unfold deliver. apply preserves_bind; [apply preserves_lift|].
  intros product. apply preserves_bind; [|intros; keep_books].
  apply credit_keeps. intros e P HP Ha _ Hn Href. eapply by_payment; eauto.
Qed.

Lemma confirm_keeps id : keeps_books (confirm now_utc new_entry_id network catalog id).
Proof.
  intros l ks. unfold confirm. apply read_invoice_keeps. intros [i|] ks' Hks' _; [|apply preserves_raise].
  destruct (bool_decide _); [apply preserves_ret|].
  apply preserves_bind_ran; [apply payment_keeps|]. intros [p|] wa wb Hpay; [|keep_books].
  apply preserves_bind_ran; [apply preserves_lift|]. intros pays wc wd [= Hpays _].
  destruct pays; cbn [negb]; [|apply preserves_ret].
  apply put_invoice_then, preserves_bind; [|intros; apply preserves_ret].
  eapply deliver_keeps; [apply Hks'; by right|exact Hpay|exact Hpays].
Qed.

Lemma reconcile_keeps limit : keeps_books (reconcile now_utc new_entry_id network catalog limit).
Proof.
  intros l ks. unfold reconcile. apply preserves_bind; [apply store_read_keeps|]. intros invoices.
  induction invoices as [|i invoices IH]; cbn [sweep]; [apply preserves_ret|].
  apply preserves_bind; [|intros; apply preserves_bind; [apply IH|intros; apply preserves_ret]].
  apply preserves_try; [|unfold except; intros; keep_books].
  apply preserves_bind; [apply confirm_keeps|intros; apply preserves_ret].
Qed.

Lemma checkout_keeps account sku_ asset_ :
  keeps_books (checkout now_utc new_token network catalog default_asset chain account sku_ asset_).
Proof. unfold checkout. keep_books. Qed.

Lemma authorize_keeps account needed :
  keeps_books (authorize now_utc new_entry_id catalog reserve chain account needed).
Proof.
  intros l ks. unfold authorize. apply preserves_bind; [apply settle_period_keeps|]. intros _.
  apply preserves_bind; [apply balance_keeps|]. intros b. keep_books.
Qed.

Lemma view_keeps account limit : keeps_books (view now_utc new_entry_id catalog chain account limit).
Proof.
  intros l ks. unfold view. apply preserves_bind; [apply settle_period_keeps|]. intros s.
  apply preserves_bind; [apply store_read_keeps|]. intros history.
  apply preserves_bind; [apply balance_keeps|]. intros b. keep_books.
Qed.

Lemma submit_keeps_books account xdr :
  keeps_books (submit_subscription now_utc new_entry_id catalog chain account xdr).
Proof.
  intros l ks. unfold submit_subscription.
  destruct (if chain_available chain then _ else _) as [f|] eqn:Hf; [|apply preserves_raise].
  destruct (chain_available chain); [|done]. apply preserves_bind; [by apply submit_keeps|].
  intros tx. apply preserves_bind; [apply settle_period_keeps|]. intros; apply preserves_ret.
Qed.
Lemma subscribe_keeps_books account id :
  keeps_books (subscribe_transaction network catalog chain account id).
Proof.
  intros l ks. unfold subscribe_transaction. keep_books. by apply build_keeps.
Qed.

(** *** Paid calls *)

Context (x402_price : Money) (x402_resource : string) (why : string → string).

Lemma challenge_keeps account reason resource :
  keeps_books (payment_challenge now_utc new_token network catalog default_asset x402_price
                 x402_resource account reason resource).
Proof. intros l ks. unfold payment_challenge, requirements. keep_books. Qed.

Lemma invoice_of_then {B} r l (ks : Invoice → Prop) (k : option Invoice → M W exn B) :
  (∀ found ks', (∀ i, ks i ∨ found = Some i → ks' i) →
     (∀ j, found = Some j → invoice_id j = named r ∧ ∀ i, ks i → invoice_id i = named r → same_terms i j) →
     preserves (books l ks') (k found)) →
  preserves (books l ks) (invoice_of now_utc r ≫= k).
Proof.
  intros Hk. unfold invoice_of. fold (named r). destruct (negb _).
  { intros w Hw. apply (Hk None ks); [by intros i [?|?]|done|done]. }
  apply preserves_bind_assoc, read_invoice_keeps. intros [j|] ks' Hks' Hj.
  - apply preserves_bind_assoc, preserves_bind; [apply now_keeps|]. intros t w Hw. rewrite run_bind, run_ret.
    destruct (is_open j t); [by apply Hk|]. apply Hk; [|done|done]. intros i [?|?]; [by auto|done].
  - intros w Hw. by apply (Hk None ks').
Qed.

(** A payment that was found good is one the network verified, of an invoice that is
    known and bears the name the requirement gives. *)
Lemma verify_then {B} p r l (ks : Invoice → Prop) (k : VerifyResult → M W exn B) :
  (∀ v ks', (∀ i, ks i → ks' i) →
     (valid v = true → ∃ i wa wb, ks' i ∧ invoice_id i = named r
        ∧ network_verify network (payload_transaction p) i wa = (Ok v, wb)) →
     preserves (books l ks') (k v)) →
  preserves (books l ks) (verify_payment now_utc network p r ≫= k).
Proof.
  intros Hk. unfold verify_payment.
  do 3 (destruct (negb _); [intros w Hw; by apply (Hk _ ks)|]).
  apply preserves_bind_assoc, invoice_of_then. intros [i|] ks' Hks' Hj.
  - apply preserves_bind_ran; [apply verify_keeps|]. intros v wa wb Hv. apply Hk; [by auto|].
    intros _. destruct (Hj i eq_refl) as [Hid _]. exists i, wa, wb. split_and!; [by auto|done|done].
  - intros w Hw. apply (Hk _ ks'); [by auto|done|done].
Qed.

Lemma settle_payment_keeps p r : keeps_books (settle_payment now_utc new_entry_id network p r).
Proof.
  intros l ks. unfold settle_payment. apply verify_then. intros v ks1 _ Hv.
  destruct (valid v) eqn:Hvalid; cbn [negb]; [|apply preserves_ret].
  destruct (Hv eq_refl) as (i & wa & wb & Hi & Hid & Hver).
  apply preserves_bind_ran; [apply settle_keeps|]. intros result wc wd Hset.
  destruct (settle_success result) eqn:Hok; cbn [negb]; [|apply preserves_ret].
  apply invoice_of_then. intros [j|] ks2 Hks2 Hj; [|apply preserves_ret].
  destruct (Hj j eq_refl) as [_ Ht]. specialize (Ht i Hi Hid).
  apply preserves_bind; [apply put_invoice_keeps|]. intros _.
  apply preserves_bind; [|intros; apply preserves_ret].
  apply credit_keeps. intros e P HP _ Hk Hn Href.
  eapply (by_call _ _ i); eauto. unfold same_terms in Ht. rewrite Hn. by destruct Ht as (_ & _ & _ & -> & _).
Qed.

Lemma redeem_keeps header resource :
  keeps_books (redeem now_utc new_entry_id network x402_resource why header resource).
Proof.
  intros l ks. unfold redeem. apply preserves_bind; [apply preserves_lift|]. intros p.
  apply preserves_bind; [keep_books|]. intros [i|]; [|apply preserves_raise].
  apply preserves_bind; [apply settle_payment_keeps|]. intros result. keep_books.
Qed.

(** C25. Tokens are earned, whoever runs meanwhile.  Every operation of the two services
    keeps the books, through each of its calls of the store, whatever the network and the
    contract answer and wherever the task is cancelled, provided that what happens
    between its steps keeps them too: the rows that were in the ledger stay, in their
    order, and each row has its reason -- it takes tokens for use or expiry, or it gives
    those of a free plan's period, of a period the contract reported for that account, of
    a stored invoice, to its account and under its name, that a payment the network
    showed settles, or of one whose signed payment the network verified and settled; and
    no stored invoice ever changes its account, tokens, price or address. *)
Theorem tokens_are_earned account sku_ asset_ id limit usage needed xdr p r header resource reason :
  keeps_books (settle_period now_utc new_entry_id catalog chain account)
  ∧ keeps_books (authorize now_utc new_entry_id catalog reserve chain account needed)
  ∧ keeps_books (charge now_utc new_entry_id catalog account id usage)
  ∧ keeps_books (view now_utc new_entry_id catalog chain account limit)
  ∧ keeps_books (checkout now_utc new_token network catalog default_asset chain account sku_ asset_)
  ∧ keeps_books (confirm now_utc new_entry_id network catalog id)
  ∧ keeps_books (reconcile now_utc new_entry_id network catalog limit)
  ∧ keeps_books (subscribe_transaction network catalog chain account id)
  ∧ keeps_books (submit_subscription now_utc new_entry_id catalog chain account xdr)
  ∧ keeps_books (payment_challenge now_utc new_token network catalog default_asset x402_price
                   x402_resource account reason resource)
  ∧ keeps_books (settle_payment now_utc new_entry_id network p r)
  ∧ keeps_books (redeem now_utc new_entry_id network x402_resource why header resource).
Proof.
  split_and!; [apply settle_period_keeps|apply authorize_keeps|apply charge_keeps|apply view_keeps
    |apply checkout_keeps|apply confirm_keeps|apply reconcile_keeps|apply subscribe_keeps_books
    |apply submit_keeps_books|apply challenge_keeps|apply settle_payment_keeps|apply redeem_keeps].
Qed.
End books.

(** ** The tables, shared *)

(** The same tables when an operation is not alone: what happens around its calls is
    written down in advance, one turn at a time -- nothing, another task's debit, or the
    cancellation of this one. *)
Inductive Turn : Type :=
  | Quiet
  | Debit (id account : string) (n : N)
  | Cancelled.
Record SharedDb : Type := mkShared { shared_db : SqliteDb; shared_turns : list Turn }.

Definition take_turn (d : SharedDb) : result exn unit * SharedDb :=
  match shared_turns d with
  | [] => (Ok tt, d)
  | Quiet :: turns => (Ok tt, mkShared (shared_db d) turns)
  | Debit id account n :: turns =>
      (Ok tt, mkShared (append (mkEntry id account USAGE (- Z.of_N n) 0 (mkMoney 0) EmptyString
                                  EmptyString) (shared_db d)).2 turns)
  | Cancelled :: turns => (Raise CancelledError, mkShared (shared_db d) turns)
  end.
Definition on_tables {A} (f : SqliteDb → result exn A * SqliteDb) (d : SharedDb) : result exn A * SharedDb :=
  ((f (shared_db d)).1, mkShared (f (shared_db d)).2 (shared_turns d)).

Global Instance SharedBillingStore : BillingStore SharedDb := {|
  append e := on_tables (append e);
  entries a n d := entries a n (shared_db d);
  all_entries a d := all_entries a (shared_db d);
  put_invoice i := on_tables (put_invoice i);
  invoice k d := invoice k (shared_db d);
  open_invoices n d := open_invoices n (shared_db d);
  put_subscription s := on_tables (put_subscription s);
  subscription a d := subscription a (shared_db d);
  handed_over := take_turn;
  handed_back := take_turn
|}.

Global Instance SharedBillingStore_tables : TableLaws SharedDb.
Proof.
  refine {| ledger d := ledger (shared_db d) |}.
  - intros a d. exact (all_entries_ledger a (shared_db d)).
  - intros e [d turns] e' Hf Hs. pose proof (append_known e d e' Hf Hs) as H. cbn in *.
    unfold on_tables. cbn. by rewrite H.
  - intros e d. exact (append_new e (shared_db d)).
  - intros e [d turns] Hs. destruct (append_too_large e d Hs) as (x & H & Hx). exists x. cbn in *.
    unfold on_tables. cbn. by rewrite H.
  - intros e d. exact (append_grows e (shared_db d)).
  - intros e d. exact (append_invoice e (shared_db d)).
  - intros e d. exact (append_subscription e (shared_db d)).
  - intros k d. exact (invoice_key k (shared_db d)).
  - intros i d. exact (put_invoice_ledger i (shared_db d)).
  - intros i d. exact (put_invoice_subscription i (shared_db d)).
  - intros i d. exact (put_invoice_other i (shared_db d)).
  - intros i d. exact (put_invoice_known i (shared_db d)).
  - intros i d. exact (put_invoice_answer i (shared_db d)).
  - intros i d. exact (put_invoice_terms i (shared_db d)).
  - intros a d. exact (subscription_key a (shared_db d)).
  - intros s d. exact (put_subscription_ledger s (shared_db d)).
  - intros s d. exact (put_subscription_invoice s (shared_db d)).
  - intros s d. exact (put_subscription_spec s (shared_db d)).
Defined.

(** ** Operations interrupted *)

(** A world that is nothing but those tables; the ids are drawn from their length. *)
Definition shared_clock : M SharedDb exn Z := mret 0.
Definition shared_draw : M SharedDb exn string :=
  gets (λ d, "e" ++s int_str (Z.of_nat (length (ledger (shared_db d))))).
Definition shared_start (turns : list Turn) : SharedDb :=
  mkShared (put_invoice (bw_invoice "tokens-1m") empty_db).2 turns.
Definition shared_confirm (turns : list Turn) : result exn Invoice * SharedDb :=
  confirm shared_clock shared_draw paying_network bw_catalog "cz1" (shared_start turns).

Abbreviation shared_keeps := (keeps_books (W:=SharedDb) paying_network bw_catalog NoSubscriptions).

Lemma shared_still {A} (m : M SharedDb exn A) : (∀ d, (m d).2 = d) → shared_keeps m.
Proof. intros H l ks d Hd. by rewrite H. Qed.
Lemma turns_keep : shared_keeps (in_thread take_turn).
Proof.
  intros l ks d Hd. unfold in_thread, take_turn. cbn [getf setf Field_self].
  destruct d as [db [|[|id a n|] turns]]; cbn [shared_turns shared_db fst snd]; [exact Hd|exact Hd| |exact Hd].
  set (e := mkEntry id a USAGE _ _ _ _ _).
  pose proof (books_append (W:=SharedDb) paying_network bw_catalog NoSubscriptions l ks e) as H.
  specialize (H ltac:(intros P _; apply by_use; [cbn; lia|by left]) (mkShared db turns) Hd). exact H.
Qed.

(** A confirmation, another task's debit made while it waits, and the credit. *)
Lemma tokens_are_earned_witness :
  let w' := (shared_confirm [Quiet; Quiet; Debit "d" "bob" 7]).2 in
  map entry_tokens (rows w') = [-7; 1000000]
  ∧ ∀ e, e ∈ rows w' →
      warranted (W:=SharedDb) paying_network bw_catalog NoSubscriptions (known w') e.
Proof.
  intros w'. split; [vm_compute; reflexivity|].
  assert (books paying_network bw_catalog NoSubscriptions [] (λ _, False)
            (shared_start [Quiet; Quiet; Debit "d" "bob" 7])) as H0.
  { split_and!; [intros e He; by apply not_elem_of_nil in He|apply prefix_nil|done]. }
  destruct (tokens_are_earned paying_network bw_catalog NoSubscriptions turns_keep turns_keep
    shared_clock shared_draw shared_draw "XLM" 0
    ltac:(intros; by apply shared_still)
    ltac:(intros; by apply shared_still)
    ltac:(intros; by apply shared_still)
    ltac:(intros; by apply shared_still)
    ltac:(intros; by apply shared_still)
    ltac:(intros; by apply shared_still)
    ltac:(intros; by apply shared_still)
    ltac:(intros; by apply shared_still)
    ltac:(done) ltac:(done) (mkMoney 0) EmptyString
    (λ _, EmptyString) "alice" "" "" "cz1" 0 no_usage 0 "" x402_payload (x402_requirements "") "" "" "")
    as (_ & _ & _ & _ & _ & Hconfirm & _).
  exact (proj1 (Hconfirm [] (λ _, False) _ H0)).
Defined.

(** The invoice is stored as paid before its tokens are credited, each in a transaction
    of its own: a confirmation cancelled between the two, or a process that dies there,
    has taken the money for good.  Nothing that is in the ledger is wrong, but every
    later confirmation answers the paid invoice, and the sweep does not visit it. *)
Example confirm_cancelled_loses_credit :
  let '(o, w) := shared_confirm [Quiet; Quiet; Quiet; Cancelled] in
  o = Raise CancelledError ∧ rows w = []
  ∧ (status <$> invoice "cz1" (store w)) = Some PAID
  ∧ (let '(o', w') := confirm shared_clock shared_draw paying_network bw_catalog "cz1" w in
     (∃ i, o' = Ok i ∧ status i = PAID) ∧ rows w' = [])
  ∧ (reconcile shared_clock shared_draw paying_network bw_catalog 100 w).1 = Ok [].
Proof. vm_compute. split_and!; try done. by eexists. Qed.
