(* ===== verification/Subscriptions.v ===== *)
(** * The subscriptions contract *)
(** [infrastructure/billing/subscriptions.py]: the deployed contract, read and written
    through the SDK, and the decoding of what it answers.  The SDK is a record of the
    calls made of it; an object it hands over is its attributes. *)
From S2P Require Export Identity Stellar Models.
From Stdlib Require Import Ascii.
From stdpp Require Import options.
Local Open Scope Z_scope.

(** ** The SDK's objects *)

Inductive sdk_value : Type :=
  | SNone
  | SInt (n : Z)
  | SBytes (b : string)
  | SStr (s : string)
  | SSeq (items : list sdk_value)
  | SObj (attributes : list (string * sdk_value)).

Definition is_none (v : sdk_value) : bool := match v with SNone => true | _ => false end.

(** [getattr(v, k, fallback)]; Python's own values have none of the attributes asked for. *)
Definition attr (k : string) (v fallback : sdk_value) : sdk_value :=
  match v with SObj attributes => default fallback (assoc_get k attributes) | _ => fallback end.

(** [int(v)]; the SDK's objects do not convert. *)
Definition sdk_int (v : sdk_value) : result exn Z :=
  match v with
  | SInt n => Ok n
  | SStr s | SBytes s => py_int (JStr s)
  | SNone | SSeq _ | SObj _ =>
      Raise (TypeError "int() argument must be a string, a bytes-like object or a real number")
  end.

(** The items a [for] goes through. *)
Definition sdk_iter (v : sdk_value) : result exn (list sdk_value) :=
  match v with
  | SSeq items => Ok items
  | SBytes b => Ok ((λ c, SInt (ascii_code c)) <$> String.list_ascii_of_string b)
  | SStr s => Ok ((λ c, SStr (str1 c)) <$> String.list_ascii_of_string s)
  | SNone | SInt _ | SObj _ => Raise (TypeError "the object is not iterable")
  end.

(** [datetime.fromtimestamp(t, UTC)] of an integer: the years 1 to 9999, and what is
    raised beyond them. *)
Definition fromtimestamp (t : Z) : result exn Z :=
  if (-62135596800 <=? t) && (t <=? 253402300799) then Ok (t * SECOND)
  else if (-67768040609740800 <=? t) && (t <=? 67768036191676799)
  then Raise (ValueError "year is out of range")
  else if (- 2 ^ 63 <=? t) && (t <? 2 ^ 63)
  then Raise (ForeignError "OSError" "[Errno 75] Value too large for defined data type")
  else Raise (OverflowError "timestamp out of range for platform time_t").

Section reading.
(** [str] of an object of the SDK, or of a sequence. *)
Context (object_str : sdk_value → string).

Definition sdk_str (v : sdk_value) : string :=
  match v with SStr s => s | SInt n => int_str n | SNone => "None" | _ => object_str v end.

(** [_symbol] *)
Definition symbol (v : sdk_value) : string :=
  let raw := attr "sym" v SNone in
  let raw := attr "sc_symbol" raw raw in
  match raw with
  | SBytes b => decode_replace b
  | SNone => EmptyString
  | _ => sdk_str raw
  end.

(** [_u64] *)
Definition u64_of (attribute : string) (v : sdk_value) : option (result exn Z) :=
  let raw := attr attribute v SNone in
  if is_none raw then None else Some (sdk_int (attr "uint64" raw (attr "uint32" raw raw))).
Definition u64 (v : sdk_value) : result exn Z :=
  match u64_of "u64" v with
  | Some r => r
  | None => match u64_of "u32" v with Some r => r | None => Ok 0 end
  end.

(** The loop of [_map]. *)
Definition map_fields (entries : list sdk_value) : dict sdk_value :=
  foldl (λ fields entry,
    let key := symbol (attr "key" entry SNone) in
    if str_truthy key then dset key (attr "val" entry SNone) fields else fields) [] entries.

(** [_map] *)
Definition sdk_map (value : sdk_value) : result exn (dict sdk_value) :=
  let entries := attr "sc_map" (attr "map" value SNone) SNone in
  let entries := if is_none entries then attr "map" value SNone else entries in
  if is_none entries then Ok []
  else es ← sdk_iter entries; mret (map_fields es).

Definition field (k : string) (fields : dict sdk_value) : sdk_value :=
  default SNone (assoc_get k fields).

(** The three exceptions that read as "not subscribed". *)
Definition unreadable (e : exn) : bool :=
  isinstance e cTypeError || isinstance e cValueError || String.eqb (type_name e) "AttributeError".

(** [_read] *)
Definition read_subscription (value : sdk_value) : result exn (option OnChainSubscription) :=
  fields ← sdk_map value;
  match fields with
  | [] => Ok None
  | _ =>
      match (started ← u64 (field "started" fields);
             expires ← u64 (field "expires" fields);
             periods ← u64 (field "periods" fields);
             mret (symbol (field "plan" fields), started, expires, periods)) with
      | Raise e => if unreadable e then Ok None else Raise e
      | Ok (plan, started, expires, periods) =>
          if negb (str_truthy plan) || (expires =? 0) then Ok None
          else
            s ← fromtimestamp started;
            x ← fromtimestamp expires;
            mret (Some (mkOnChain plan s x periods))
      end
  end.
End reading.

(** [OnChainSubscription.as_json] *)
Definition onchain_as_json (s : OnChainSubscription) : json :=
  JObj [("plan", JStr (onchain_plan s)); ("started", JStr (isoformat (onchain_started s)));
        ("expires", JStr (isoformat (onchain_expires s))); ("periods", JInt (onchain_periods s))]%string.

Definition RPC_URLS : list (string * string) :=
  [("stellar-testnet", "https://soroban-testnet.stellar.org");
   ("stellar", "https://mainnet.sorobanrpc.com")]%string.

(** ** The SDK's calls *)

Inductive scval : Type := ScAddress (a : string) | ScSymbol (s : string).

(** The transaction [build_subscribe] describes to the SDK. *)
Record invocation : Type := mkInvocation {
  inv_passphrase : string;
  inv_base_fee : Z;
  inv_contract_id : string;
  inv_function : string;
  inv_parameters : list scval;
  inv_timeout : Z
}.

Record SorobanSdk (W Client Account Tx : Type) : Type := mkSoroban {
  (* [None] when the package imports, or what the [ImportError] says *)
  import_error : option string;
  public_passphrase : string;
  testnet_passphrase : string;
  (* ContractClient(contract, rpc, passphrase); .invoke(function, args, source).result() *)
  ContractClient : string → string → string → Client;
  client_invoke : Client → string → list scval → string → M W exn sdk_value;
  (* SorobanServer(rpc) *)
  rpc_load_account : string → string → M W exn Account;
  rpc_prepare : string → Tx → M W exn Tx;
  rpc_send : string → Tx → M W exn (string * string);
  rpc_poll : string → string → M W exn string;
  tx_build : Account → invocation → result exn Tx;
  tx_to_xdr : Tx → string;
  tx_from_xdr : string → string → result exn Tx;
  sdk_object_str : sdk_value → string
}.
Arguments import_error {_ _ _ _} _.
Arguments public_passphrase {_ _ _ _} _.
Arguments testnet_passphrase {_ _ _ _} _.
Arguments ContractClient {_ _ _ _} _ _ _ _.
Arguments client_invoke {_ _ _ _} _ _ _ _ _.
Arguments rpc_load_account {_ _ _ _} _ _ _.
Arguments rpc_prepare {_ _ _ _} _ _ _.
Arguments rpc_send {_ _ _ _} _ _ _.
Arguments rpc_poll {_ _ _ _} _ _ _.
Arguments tx_build {_ _ _ _} _ _ _.
Arguments tx_to_xdr {_ _ _ _} _ _.
Arguments tx_from_xdr {_ _ _ _} _ _ _.
Arguments sdk_object_str {_ _ _ _} _ _.

(** [self._client] and [self._reason]. *)
Record ContractState (Client : Type) : Type := mkContractState {
  cs_client : option Client;
  cs_reason : string
}.
Arguments mkContractState {_} _ _.
Arguments cs_client {_} _.
Arguments cs_reason {_} _.

Section contract.
Context {W Client Account Tx : Type} `{!Field W (ContractState Client)}.
Context (sdk : SorobanSdk W Client Account Tx).
(** The constructor's arguments. *)
Context (contract_id network source rpc_url : string).

(** [__init__] *)
Definition contract_init : ContractState Client := mkContractState None EmptyString.
Definition contract_rpc_url : string :=
  if str_truthy rpc_url then rpc_url
  else default "https://soroban-testnet.stellar.org"%string (assoc_get network RPC_URLS).

(** [_passphrase], which [_load] spells out too. *)
Definition contract_passphrase : string :=
  if String.eqb network "stellar" then public_passphrase sdk else testnet_passphrase sdk.

Definition import_failed (error : string) : string :=
  "this gateway cannot read the subscriptions contract: the Stellar dependency is not installed ("
  ++s error ++s "). Install it with: pip install -e " ++s str1 dquote ++s ".[stellar]" ++s str1 dquote.

(** [_load] *)
Definition load_contract (st : ContractState Client) : ContractState Client :=
  if bool_decide (is_Some (cs_client st)) || str_truthy (cs_reason st) then st
  else if negb (str_truthy contract_id)
  then mkContractState None "no subscriptions contract is configured"
  else match import_error sdk with
  | Some error => mkContractState None (import_failed error)
  | None => mkContractState (Some (ContractClient sdk contract_id contract_rpc_url contract_passphrase))
              (cs_reason st)
  end.
Definition load : M W exn (ContractState Client) := λ w,
  (Ok (load_contract (getf w)), setf (load_contract (getf w)) w).

(** [available], [unavailable_reason] *)
Definition contract_available : M W exn bool :=
  if negb (str_truthy contract_id) then mret false
  else st ← load; mret (bool_decide (is_Some (cs_client st))).
Definition unavailable_reason : M W exn string := st ← load; mret (cs_reason st).

Definition contract_failed {A} (what : string) (e : exn) : M W exn A :=
  raise (SubscriptionContractError (what ++s exn_message e)).

(** [subscription] *)
Definition contract_subscription (address : string) : M W exn (option OnChainSubscription) :=
  st ← load;
  match cs_client st with
  | None => mret None
  | Some client =>
      if negb (is_address address) then mret None
      else
        result ← try_except (client_invoke sdk client "subscription" [ScAddress address] source)
                   (except cException (contract_failed "the subscriptions contract could not be read: "));
        lift (read_subscription (sdk_object_str sdk) result)
  end.

(** The error of a contract that cannot be loaded. *)
Definition not_loaded (st : ContractState Client) : exn :=
  SubscriptionContractError
    (if str_truthy (cs_reason st) then cs_reason st else "no subscriptions contract").

Definition subscribe_invocation (address plan : string) (fee : Z) : invocation :=
  mkInvocation contract_passphrase fee contract_id "subscribe" [ScAddress address; ScSymbol plan] 300.

(** [build_subscribe] *)
Definition contract_build_subscribe (address plan : string) (fee : Z) : M W exn string :=
  if negb (is_address address)
  then raise (SubscriptionContractError "that is not a Stellar address")
  else
    st ← load;
    match cs_client st with
    | None => raise (not_loaded st)
    | Some _ =>
        prepared ← try_except
          (account ← rpc_load_account sdk contract_rpc_url address;
           transaction ← lift (tx_build sdk account (subscribe_invocation address plan fee));
           rpc_prepare sdk contract_rpc_url transaction)
          (except cException (contract_failed "the subscription transaction could not be built: "));
        mret (tx_to_xdr sdk prepared)
    end.

Definition pending (status : string) : bool :=
  mem_str status ["SendTransactionStatus.PENDING"; "PENDING"]%string.
Definition succeeded (status : string) : bool :=
  mem_str status ["GetTransactionStatus.SUCCESS"; "SUCCESS"]%string.

(** [submit] *)
Definition contract_submit (signed_xdr : string) : M W exn string :=
  st ← load;
  match cs_client st with
  | None => raise (not_loaded st)
  | Some _ =>
      try_except
        (transaction ← lift (tx_from_xdr sdk signed_xdr contract_passphrase);
         '(status, hash) ← rpc_send sdk contract_rpc_url transaction;
         (if pending status then mret tt
          else raise (SubscriptionContractError ("the network refused the transaction: " ++s status))) ;;
         settled ← rpc_poll sdk contract_rpc_url hash;
         (if succeeded settled then mret tt
          else raise (SubscriptionContractError ("the transaction failed on the ledger: " ++s settled))) ;;
         mret hash)
        (λ e, if isinstance e cSubscriptionContractError then None
              else if isinstance e cException
              then Some (contract_failed "the subscription could not be submitted: " e) else None)
  end.

(** [SubscriptionContract], as the billing service sees it.  [available] asks whether the
    SDK loads, which [load_settled] shows not to depend on the state. *)
Definition sdk_available : bool :=
  str_truthy contract_id && bool_decide (import_error sdk = None).
Definition SubscriptionContract : SubscriptionRegistry W :=
  mkChain W sdk_available contract_id contract_subscription
    (Some (λ address plan, contract_build_subscribe address plan 1000000)) (Some contract_submit).
End contract.

(** ** Reading back what the contract writes *)

(** The contract's [Option<Subscription>] as the SDK decodes it: a struct is a map sorted
    by field name.  Older versions hand over wrappers ([sc_map], [sc_symbol], [uint64],
    [uint32]), newer ones the plain values; an object has every arm of its union, [None]
    but for one. *)
Section encoding.
Context (wrapped : bool).
Definition wrap (k : string) (v : sdk_value) : sdk_value := if wrapped then SObj [(k, v)] else v.
Definition scv_symbol (s : string) : sdk_value := SObj [("sym"%string, wrap "sc_symbol" (SBytes s))].
Definition scv_u64 (n : Z) : sdk_value := SObj [("u32", SNone); ("u64", wrap "uint64" (SInt n))]%string.
Definition scv_u32 (n : Z) : sdk_value := SObj [("u32", wrap "uint32" (SInt n)); ("u64", SNone)]%string.
Definition scv_entry (k : string) (v : sdk_value) : sdk_value :=
  SObj [("key", scv_symbol k); ("val", v)]%string.
Definition scv_subscription (plan : string) (started expires periods : Z) : sdk_value :=
  SObj [("map"%string, wrap "sc_map"
    (SSeq [scv_entry "expires" (scv_u64 expires); scv_entry "periods" (scv_u32 periods);
           scv_entry "plan" (scv_symbol plan); scv_entry "started" (scv_u64 started)]))].
End encoding.

(** A Soroban symbol. *)
Definition symbol_char (c : ascii) : bool := alnum_char c || Ascii.eqb c "_".

Lemma decode_replace_ascii s : str_all (λ c, ascii_code c <? 128) s = true → decode_replace s = s.
Proof.
  induction s as [|c s IH]; [done|]. cbn [str_all decode_replace]. intros [Hc Hs]%andb_true_iff.
  by rewrite Hc, IH.
Qed.
Lemma symbol_ascii s : str_all symbol_char s = true → decode_replace s = s.
Proof.
  intros H. apply decode_replace_ascii. eapply str_all_impl; [|exact H].
  intros c. unfold symbol_char. all_ascii c.
Qed.

Lemma fromtimestamp_ok t : -62135596800 <= t <= 253402300799 → fromtimestamp t = Ok (t * SECOND).
Proof.
  intros [H1 H2]. unfold fromtimestamp.
  by rewrite (proj2 (Z.leb_le _ _) H1), (proj2 (Z.leb_le _ _) H2).
Qed.

(** What the contract records is what the gateway reads, whichever version of the SDK
    hands it over; a contract that holds nothing for an address, or an expiry of zero,
    reads as no subscription. *)
Theorem contract_read_back object_str wrapped plan started expires periods :
  str_all symbol_char plan = true → plan ≠ EmptyString →
  0 <= started <= 253402300799 → 0 <= expires <= 253402300799 →
  read_subscription object_str (scv_subscription wrapped plan started expires periods)
    = Ok (if expires =? 0 then None
          else Some (mkOnChain plan (started * SECOND) (expires * SECOND) periods))
  ∧ read_subscription object_str SNone = Ok None.
Proof.
  intros Hp Hne Hs He. split; [|done].
  assert (sdk_map object_str (scv_subscription wrapped plan started expires periods)
    = Ok [("expires", scv_u64 wrapped expires); ("periods", scv_u32 wrapped periods);
          ("plan", scv_symbol wrapped plan); ("started", scv_u64 wrapped started)]%string) as Hm
    by (destruct wrapped; reflexivity).
  assert (symbol object_str (scv_symbol wrapped plan) = plan) as Hsym
    by (destruct wrapped; cbn; by apply symbol_ascii).
  assert (∀ n, u64 (scv_u64 wrapped n) = Ok n) as H64 by (by destruct wrapped).
  assert (u64 (scv_u32 wrapped periods) = Ok periods) as H32 by (by destruct wrapped).
  unfold read_subscription. rewrite Hm. cbn [mbind result_bind].
  change (field "started" _) with (scv_u64 wrapped started).
  change (field "expires" _) with (scv_u64 wrapped expires).
  change (field "periods" _) with (scv_u32 wrapped periods).
  change (field "plan" _) with (scv_symbol wrapped plan).
  rewrite !H64, H32, Hsym. cbn [mbind result_bind mret result_ret].
  apply str_truthy_spec in Hne. rewrite Hne. cbn [negb orb].
  destruct (expires =? 0); [done|]. rewrite !fromtimestamp_ok by lia. done.
Qed.

Lemma contract_read_back_witness :
  read_subscription (λ _, EmptyString) (scv_subscription true "starter" 1000 2592000 1)
  = Ok (Some (mkOnChain "starter" 1000000000 2592000000000 1)).
Proof.
  refine (proj1 (contract_read_back (λ _, EmptyString) true "starter" 1000 2592000 1 _ _ _ _));
    try reflexivity; [done|lia|lia].
Defined.

(** A moment that no [datetime] can hold is outside what reads as "not subscribed". *)
Example read_escapes :
  read_subscription (λ _, EmptyString) (scv_subscription true "starter" 1000 (2 ^ 64 - 1) 1)
  = Raise (OverflowError "timestamp out of range for platform time_t").
Proof. vm_compute. reflexivity. Qed.

(** ** Loading *)

Section loading.
Context {W Client Account Tx : Type} `{!Field W (ContractState Client)}.
Context (sdk : SorobanSdk W Client Account Tx) (contract_id network source rpc_url : string).

Abbreviation load_ := (load_contract sdk contract_id network rpc_url).
Abbreviation available_ := (sdk_available sdk contract_id).

(** The states of a contract: fresh, or loaded once. *)
Definition loaded_or_fresh (st : ContractState Client) : Prop :=
  st = contract_init ∨ st = load_ contract_init.

Lemma load_fresh :
  load_ contract_init
  = if negb (str_truthy contract_id)
    then mkContractState None "no subscriptions contract is configured"
    else match import_error sdk with
    | Some error => mkContractState None (import_failed error)
    | None => mkContractState (Some (ContractClient sdk contract_id (contract_rpc_url network rpc_url)
                (contract_passphrase sdk network))) EmptyString
    end.
Proof. done. Qed.
Lemma load_again : load_ (load_ contract_init) = load_ contract_init.
Proof.
  rewrite load_fresh. destruct (str_truthy contract_id); [|done].
  by destruct (import_error sdk).
Qed.

(** Loading settles on the same state whatever was asked before, and the client is there
    exactly when the contract is available. *)
Lemma load_settled st :
  loaded_or_fresh st →
  load_ st = load_ contract_init
  ∧ cs_client (load_ st)
    = (if available_ then Some (ContractClient sdk contract_id (contract_rpc_url network rpc_url)
                                  (contract_passphrase sdk network)) else None).
Proof.
  intros Hst. assert (load_ st = load_ contract_init) as -> by (destruct Hst as [-> | ->]; [done|apply load_again]).
  split; [done|]. rewrite load_fresh. unfold sdk_available.
  destruct (str_truthy contract_id); [|done]. by destruct (import_error sdk).
Qed.

Definition settled_world (w : W) : W := setf (load_ (getf w)) w.

Lemma load_run w : load sdk contract_id network rpc_url w = (Ok (load_ (getf w)), settled_world w).
Proof. done. Qed.

(** [available] of the contract is what the registry record says. *)
Lemma available_settled w :
  loaded_or_fresh (getf w) →
  (contract_available sdk contract_id network rpc_url w).1 = Ok available_.
Proof.
  intros Hst. unfold contract_available. destruct (str_truthy contract_id) eqn:Hid; cbn [negb].
  - rewrite run_bind, load_run. destruct (load_settled _ Hst) as [_ ->].
    unfold sdk_available. rewrite Hid. by destruct (import_error sdk).
  - unfold sdk_available. by rewrite Hid.
Qed.

(** The contract's silence is never made up: no subscription is answered only when the
    deployment has no contract to ask, the address is none, or the contract itself said
    so; a call that fails is an error that says it could not be read. *)
Theorem contract_standing address w :
  loaded_or_fresh (getf w) →
  let answer := contract_subscription sdk contract_id network source rpc_url address w in
  let client := ContractClient sdk contract_id (contract_rpc_url network rpc_url)
                  (contract_passphrase sdk network) in
  if available_ && is_address address then
    match client_invoke sdk client "subscription" [ScAddress address] source (settled_world w) with
    | (Ok v, w') => answer = (read_subscription (sdk_object_str sdk) v, w')
    | (Raise e, w') =>
        answer = (Raise (if isinstance e cException
          then SubscriptionContractError ("the subscriptions contract could not be read: "
                                          ++s exn_message e)
          else e), w')
    end
  else answer = (Ok None, settled_world w).
Proof.
  intros Hst. cbn zeta. unfold contract_subscription. rewrite run_bind, load_run.
  destruct (load_settled _ Hst) as [_ ->]. destruct available_; cbn [andb]; [|done].
  destruct (is_address address); cbn [negb]; [|done].
  rewrite run_bind. unfold try_except, except, contract_failed.
  destruct (client_invoke _ _ _ _ _ _) as [[v|e] w']; [done|].
  by destruct (isinstance e cException).
Qed.

Lemma caught_ok {A} (m : M W exn A) what w a w' :
  try_except m (except cException (contract_failed what)) w = (Ok a, w') → m w = (Ok a, w').
Proof.
  unfold try_except, except, contract_failed. destruct (m w) as [[b|e] w1]; [done|].
  by destruct (isinstance e cException).
Qed.

(** What the wallet is asked to sign is the subscriber's own call: a transaction from
    the account that signs, to this gateway's contract, that subscribes that very address
    to the plan named, on the network configured, and that is void in five minutes. *)
Theorem subscribe_is_the_subscribers address plan fee w xdr w' :
  loaded_or_fresh (getf w) →
  contract_build_subscribe sdk contract_id network rpc_url address plan fee w = (Ok xdr, w') →
  is_address address = true ∧ available_ = true
  ∧ ∃ account transaction prepared w1,
      rpc_load_account sdk (contract_rpc_url network rpc_url) address (settled_world w)
        = (Ok account, w1)
      ∧ tx_build sdk account
          (mkInvocation (contract_passphrase sdk network) fee contract_id "subscribe"
             [ScAddress address; ScSymbol plan] 300) = Ok transaction
      ∧ rpc_prepare sdk (contract_rpc_url network rpc_url) transaction w1 = (Ok prepared, w')
      ∧ xdr = tx_to_xdr sdk prepared.
Proof.
  intros Hst. unfold contract_build_subscribe. destruct (is_address address); [|done]. cbn [negb].
  rewrite run_bind, load_run. destruct (load_settled _ Hst) as [_ ->].
  destruct available_; [|done]. intros (prepared & w2 & Htry & Hret)%bind_ok_inv.
  injection Hret as <- <-. apply caught_ok in Htry.
  apply bind_ok_inv in Htry as (account & w1 & Hacc & Htry).
  apply bind_ok_inv in Htry as (transaction & w1' & Hb & Hprep).
  unfold lift in Hb. injection Hb as Hb <-. eauto 10.
Qed.

(** C29. A subscription counts as sent only once the ledger took it: the hash answered is
    that of a transaction, read for this network, which the network accepted and then
    reported successful; and whatever goes wrong otherwise is one error of the gateway's,
    never a library's. *)
Theorem submit_waits_for_the_ledger signed_xdr w r w' :
  loaded_or_fresh (getf w) →
  contract_submit sdk contract_id network rpc_url signed_xdr w = (r, w') →
  match r with
  | Ok hash => ∃ transaction status settled w1,
      tx_from_xdr sdk signed_xdr (contract_passphrase sdk network) = Ok transaction
      ∧ rpc_send sdk (contract_rpc_url network rpc_url) transaction (settled_world w)
        = (Ok (status, hash), w1) ∧ pending status = true
      ∧ rpc_poll sdk (contract_rpc_url network rpc_url) hash w1 = (Ok settled, w')
      ∧ succeeded settled = true
  | Raise e => class_of e = cSubscriptionContractError ∨ isinstance e cException = false
  end.
Proof.
  intros Hst. unfold contract_submit. rewrite run_bind, load_run.
  destruct (load_settled _ Hst) as [_ ->]. destruct available_; [|by intros [= <- <-]; left].
  unfold try_except. set (m := _ ≫= _). destruct (m (settled_world w)) as [[hash|e] w1] eqn:Hm.
  - intros [= <- <-]. apply bind_ok_inv in Hm as (transaction & s1 & Ht & Hm).
    unfold lift in Ht. injection Ht as Ht <-.
    apply bind_ok_inv in Hm as ([status h] & s2 & Hs & Hm).
    destruct (pending status) eqn:Hpend; [|done].
    rewrite run_bind, run_ret in Hm. apply bind_ok_inv in Hm as (settled & s3 & Hp & Hm).
    destruct (succeeded settled) eqn:Hsucc; [|done]. injection Hm as <- <-. eauto 10.
  - destruct (isinstance e cSubscriptionContractError) eqn:He.
    + intros [= <- <-]. left. by destruct e.
    + destruct (isinstance e cException) eqn:Hx; intros [= <- <-]; [by left|by right].
Qed.
End loading.

(** ** The chain and the ledger *)

Section mirroring.
#[local] Set Default Proof Using "Type*".
Context {W D : Type} `{!Field W D} `{!BillingStore D} `{!BillingStoreLaws D}.
Context (now_utc : M W exn Z) (new_entry_id : M W exn string) (catalog : Catalog)
        (chain : SubscriptionRegistry W).
Hypothesis now_draws : draws now_utc.
Hypothesis id_draws : draws new_entry_id.

(** A period paid for on the chain is the account's subscription from the first visit
    on, and its plan's tokens are credited by exactly one row however often the account is
    visited: the row is named after the plan and the second the period started. *)
Theorem chain_period_credited_once account s p now w w1 w2 :
  chain_available chain = true → now_utc w = (Ok now, w1) →
  chain_subscription chain account w1 = (Ok (Some s), w2) → onchain_active s now = true →
  catalog_plan catalog (onchain_plan s) = Ok p → 0 <= plan_tokens p → int64 (plan_tokens p) = true →
  (∀ w', rows w' = rows w2 → fresh_ids new_entry_id w') →
  let mirrored := mkSubscription account (plan_id p) (onchain_started s) (onchain_expires s) ACTIVE in
  ∃ w', settle_period now_utc new_entry_id catalog chain account w = (Ok (Some mirrored), w')
    ∧ subscription account (store w') = Some mirrored
    ∧ match find_reference ("chain:" ++s onchain_period_key s) (rows w2) with
      | Some _ => rows w' = rows w2
      | None => ∃ e, rows w' = rows w2 ++ [e] ∧ entry_account e = account ∧ kind e = GRANT
                  ∧ entry_tokens e = plan_tokens p
                  ∧ reference e = "chain:" ++s onchain_period_key s
      end.
Proof.
  intros Hav Hnow Hsub Hact Hplan Hn H64 Hids mirrored.
  unfold settle_period. rewrite run_bind, Hnow. cbn beta iota.
  unfold mirror_chain. rewrite Hav. cbn [negb]. rewrite run_bind, run_bind.
  unfold try_except. rewrite Hsub. cbn beta iota. rewrite Hact. cbn [negb].
  unfold plan_or_none. rewrite Hplan. cbn iota. fold mirrored.
  destruct (put_sub_run mirrored w2) as [Hput Hfound]. rewrite run_bind, Hput. cbn beta iota.
  set (w3 := setf _ w2) in *.
  assert (rows w3 = rows w2) as Hrows
    by (unfold rows, w3; by rewrite store_setf, put_subscription_ledger).
  change (sub_account mirrored) with account in Hfound.
  rewrite run_bind. destruct (find_reference _ (rows w2)) as [e|] eqn:Href; rewrite <- Hrows in Href.
  - destruct (credit_known now_utc new_entry_id now_draws id_draws account (plan_tokens p) GRANT _
      (mkMoney 0) (plan_name p ++s " · on-chain") w3 e Hn H64 eq_refl Href) as (w' & Hc & Hs).
    rewrite Hc. exists w'. unfold rows in *. rewrite Hs. by split_and!.
  - destruct (credit_new now_utc new_entry_id now_draws id_draws account (plan_tokens p) GRANT _
      (mkMoney 0) (plan_name p ++s " · on-chain") w3 Hn H64 eq_refl (Hids _ Hrows) Href)
      as (e & w' & Hc & Hl & Ha & Hk & Ht & Hr & _ & _ & Hsubs).
    rewrite Hc. exists w'. rewrite Hsubs, <- Hrows. split_and!; [done|done|]. exists e. by split_and!.
Qed.
End mirroring.

Definition starter_on_chain : SubscriptionRegistry BillWorld :=
  mkChain BillWorld true "C" (λ _, mret (Some (mkOnChain "starter" 1000000 (days 30) 1))) None None.

Lemma chain_period_credited_once_witness :
  ∃ w', settle_period bw_clock bw_draw bw_catalog starter_on_chain "alice" bw_start
        = (Ok (Some (mkSubscription "alice" "starter" 1000000 (days 30) ACTIVE)), w').
Proof.
  destruct (catalog_plan bw_catalog "starter") as [p|e] eqn:Hp; [|by vm_compute in Hp].
  destruct (chain_period_credited_once bw_clock bw_draw bw_catalog starter_on_chain bw_clock_draws
    bw_draw_draws "alice" (mkOnChain "starter" 1000000 (days 30) 1) p 0 bw_start bw_start bw_start
    eq_refl eq_refl eq_refl eq_refl Hp) as (w' & Hw & _ & _).
  - injection Hp as <-. vm_compute. done.
  - injection Hp as <-. reflexivity.
  - intros w' Hr id w'' _. rewrite Hr. cbn. set_solver.
  - exists w'. injection Hp as <-. exact Hw.
Defined.

(** ** A deployment *)

(** An SDK whose network takes what it is given; a transaction is what it does, spelled. *)
Definition demo_soroban {W} : SorobanSdk W string string string :=
  {| import_error := None; public_passphrase := "public"; testnet_passphrase := "test";
     ContractClient c r p := c ++s "@" ++s r;
     client_invoke _ _ _ source :=
       if str_truthy source then mret (scv_subscription false "starter" 1000 2592000 1)
       else raise (ForeignError "RpcError" "no such account");
     rpc_load_account _ a := mret a;
     rpc_prepare _ t := mret (t ++s "!");
     rpc_send _ t := mret ("PENDING", "hash")%string;
     rpc_poll _ _ := mret "SUCCESS"%string;
     tx_build a i := Ok (a ++s ":" ++s inv_function i);
     tx_to_xdr t := t;
     tx_from_xdr x _ := if str_truthy x then Ok x else Raise (ValueError "empty");
     sdk_object_str _ := EmptyString |}.
Definition demo_subscriber : string := "G" ++s str_repeat 55 "A".

Lemma contract_standing_witness :
  (contract_subscription demo_soroban "CABC" "stellar-testnet" "GSRC" "" demo_subscriber contract_init).1
    = Ok (Some (mkOnChain "starter" 1000000000 2592000000000 1))
  ∧ (contract_subscription demo_soroban "CABC" "stellar-testnet" "" "" demo_subscriber contract_init).1
    = Raise (SubscriptionContractError "the subscriptions contract could not be read: no such account").
Proof.
  split.
  - exact (f_equal fst (contract_standing demo_soroban "CABC" "stellar-testnet" "GSRC" "" demo_subscriber
      contract_init ltac:(by left))).
  - exact (f_equal fst (contract_standing demo_soroban "CABC" "stellar-testnet" "" "" demo_subscriber
      contract_init ltac:(by left))).
Defined.

Lemma subscribe_is_the_subscribers_witness :
  ∃ account transaction,
    tx_build (demo_soroban (W:=ContractState string)) account
      (mkInvocation "test" 1000000 "CABC" "subscribe" [ScAddress demo_subscriber; ScSymbol "starter"] 300)
    = Ok transaction.
Proof.
  destruct (subscribe_is_the_subscribers demo_soroban "CABC" "stellar-testnet" "" demo_subscriber "starter"
    1000000 contract_init (demo_subscriber ++s ":subscribe!")
    (load_contract demo_soroban "CABC" "stellar-testnet" "" contract_init) ltac:(by left) eq_refl)
    as (_ & _ & account & transaction & _ & _ & _ & Hb & _).
  exists account, transaction. exact Hb.
Defined.

Lemma submit_waits_for_the_ledger_witness :
  ∃ transaction status settled w,
    tx_from_xdr (demo_soroban (W:=ContractState string)) "signed" "test" = Ok transaction ∧ pending status = true
    ∧ rpc_poll (demo_soroban (W:=ContractState string)) "https://soroban-testnet.stellar.org" "hash" w = (Ok settled, w)
    ∧ succeeded settled = true.
Proof.
  destruct (submit_waits_for_the_ledger demo_soroban "CABC" "stellar-testnet" "" "signed" contract_init
    (Ok "hash"%string) (load_contract demo_soroban "CABC" "stellar-testnet" "" contract_init)
    ltac:(by left) eq_refl) as (t & status & settled & w1 & Ht & _ & Hp & Hpoll & Hs).
  exists t, status, settled, w1. split_and!; [exact Ht|exact Hp| |exact Hs].
  injection Hpoll as <-. reflexivity.
Defined.
