(* ===== verification/OnChain.v ===== *)
(** * The contract on the chain *)
(** [contracts/subscriptions/src/lib.rs]: the contract a subscriber pays, what its calls do
    and refuse, and what they add up to; then, with [Subscriptions] and the billing service,
    what a payment to it becomes in the gateway's ledger.  The token payments are made in is
    another contract, a parameter with the laws of its interface; who signed an invocation and
    when its ledger closed are the host's to say. *)
From S2P Require Export Subscriptions.
From stdpp Require Import options.
Local Open Scope Z_scope.

Module Contract.

(** ** Data *)

(** [Plan]; an address and a symbol are texts, an [i128], a [u64] and a [u32] integers. *)
Record Plan : Type := mkPlan {
  price : Z;
  period : Z;
  tokens : Z;
  active : bool
}.

(** [Subscription] *)
Record Subscription : Type := mkSubscription {
  sub_plan : string;
  started : Z;
  expires : Z;
  periods : Z
}.

(** [Error] *)
Inductive Error : Type :=
  | AlreadyInitialised | NotInitialised | NoSuchPlan | PlanNotForSale | BadPlan | NotSubscribed
  | BadAmount.
Definition error_code (e : Error) : Z :=
  match e with
  | AlreadyInitialised => 1 | NotInitialised => 2 | NoSuchPlan => 3 | PlanNotForSale => 4
  | BadPlan => 5 | NotSubscribed => 6 | BadAmount => 7
  end.

(** What ends an invocation: the contract's own panic, a missing signature, the token's
    refusal, or an addition that does not fit ([overflow-checks]). *)
Inductive Trap : Type :=
  | Panic (e : Error)
  | AuthFailed (who : string)
  | TokenRefused
  | ArithmeticOverflow.

(** [Subscribed], [PlanSet], [Withdrawn] and [AdminChanged]. *)
Inductive Event : Type :=
  | Subscribed (subscriber plan : string) (expires price periods : Z)
  | PlanSet (plan : string) (price period tokens : Z) (active : bool)
  | Withdrawn (to : string) (amount : Z)
  | AdminChanged (admin : string).

(** What the host says of an invocation: who signed it, and when its ledger closed. *)
Record Env : Type := mkEnv {
  env_auths : list string;
  env_timestamp : Z
}.

(** [token::Client]: the token's address, from, to and the amount. *)
Record TokenClient (T : Type) : Type := mkTokenClient {
  token_transfer : string → string → string → Z → T → option T;
  token_balance : string → string → T → Z
}.
Arguments token_transfer {_} _ _ _ _ _ _.
Arguments token_balance {_} _ _ _ _.

(** A transfer that goes through moves exactly what it says. *)
Class TokenLaws {T} (client : TokenClient T) : Prop := {
  balance_nonneg token who t : 0 <= token_balance client token who t;
  transfer_moves token from to amount t t' :
    token_transfer client token from to amount t = Some t' →
    ∀ who, token_balance client token who t'
           = token_balance client token who t
             - (if bool_decide (who = from) then amount else 0)
             + (if bool_decide (who = to) then amount else 0)
}.

(** The contract's storage, a field per variant of [Key], beside the token's and the events
    published. *)
Record Chain (T : Type) : Type := mkChainState {
  key_admin : option string;
  key_token : option string;
  key_plans : option (list string);
  key_plan : gmap string Plan;
  key_sub : gmap string Subscription;
  chain_tokens : T;
  published : list Event
}.
Arguments mkChainState {_} _ _ _ _ _ _ _.
Arguments key_admin {_} _.
Arguments key_token {_} _.
Arguments key_plans {_} _.
Arguments key_plan {_} _.
Arguments key_sub {_} _.
Arguments chain_tokens {_} _.
Arguments published {_} _.

(** A contract just deployed. *)
Definition deployed {T} (t : T) : Chain T := mkChainState None None None ∅ ∅ t [].

(** ** Operations *)

Definition checked_add (width a b : Z) : result Trap Z :=
  if a + b <? 2 ^ width then Ok (a + b) else Raise ArithmeticOverflow.

(** The period [subscribe] records. *)
Definition next_period (current : option Subscription) (id : string) (plan : Plan) (now : Z)
    : result Trap Subscription :=
  match current with
  | Some existing =>
      if String.eqb (sub_plan existing) id && (now <? expires existing)
      then x ← checked_add 64 (expires existing) (period plan);
           n ← checked_add 32 (periods existing) 1;
           mret (mkSubscription id (started existing) x n)
      else x ← checked_add 64 now (period plan);
           n ← checked_add 32 (periods existing) 1;
           mret (mkSubscription id now x n)
  | None => x ← checked_add 64 now (period plan); mret (mkSubscription id now x 1)
  end.

Section operations.
Context {T : Type} (client : TokenClient T).
(** [env.current_contract_address()], and the invocation. *)
Context (self : string) (env : Env).
Abbreviation C := (M (Chain T) Trap).

Definition panic {A} (e : Error) : C A := raise (Panic e).
Definition require_auth (who : string) : C unit :=
  if bool_decide (who ∈ env_auths env) then mret tt else raise (AuthFailed who).
Definition publish (e : Event) : C unit :=
  modify (λ c, mkChainState (key_admin c) (key_token c) (key_plans c) (key_plan c) (key_sub c)
                 (chain_tokens c) (published c ++ [e])).

(** [admin], [token], [require_plan] *)
Definition admin : C string :=
  found ← gets key_admin; match found with Some a => mret a | None => panic NotInitialised end.
Definition token : C string :=
  found ← gets key_token; match found with Some a => mret a | None => panic NotInitialised end.
Definition require_plan (id : string) : C Plan :=
  found ← gets (λ c, key_plan c !! id); match found with Some p => mret p | None => panic NoSuchPlan end.

(** [token.transfer] *)
Definition transfer (tk from to : string) (amount : Z) : C unit :=
  t ← gets chain_tokens;
  match token_transfer client tk from to amount t with
  | None => raise TokenRefused
  | Some t' => modify (λ c, mkChainState (key_admin c) (key_token c) (key_plans c) (key_plan c)
                              (key_sub c) t' (published c))
  end.

(** [initialise] *)
Definition initialise (admin token : string) : C unit :=
  found ← gets key_admin;
  match found with
  | Some _ => panic AlreadyInitialised
  | None => modify (λ c, mkChainState (Some admin) (Some token) (Some []) (key_plan c) (key_sub c)
                           (chain_tokens c) (published c))
  end.

(** [set_plan] *)
Definition set_plan (id : string) (price period tokens : Z) (active : bool) : C unit :=
  a ← admin;
  require_auth a ;;
  if (price <=? 0) || (period =? 0) then panic BadPlan
  else
    modify (λ c, mkChainState (key_admin c) (key_token c) (key_plans c)
      (<[id := mkPlan price period tokens active]> (key_plan c)) (key_sub c) (chain_tokens c) (published c)) ;;
    stored ← gets key_plans;
    let ids := default [] stored in
    (if bool_decide (id ∈ ids) then mret tt
     else modify (λ c, mkChainState (key_admin c) (key_token c) (Some (ids ++ [id])) (key_plan c) (key_sub c)
                         (chain_tokens c) (published c))) ;;
    publish (PlanSet id price period tokens active).

(** [subscribe] *)
Definition subscribe (subscriber id : string) : C Subscription :=
  require_auth subscriber ;;
  plan ← require_plan id;
  if negb (active plan) then panic PlanNotForSale
  else
    tk ← token;
    transfer tk subscriber self (price plan) ;;
    current ← gets (λ c, key_sub c !! subscriber);
    updated ← lift (next_period current id plan (env_timestamp env));
    modify (λ c, mkChainState (key_admin c) (key_token c) (key_plans c) (key_plan c)
      (<[subscriber := updated]> (key_sub c)) (chain_tokens c) (published c)) ;;
    publish (Subscribed subscriber id (expires updated) (price plan) (periods updated)) ;;
    mret updated.

(** [subscription], [is_active], [plan], [plans], [balance] *)
Definition subscription (who : string) : C (option Subscription) := gets (λ c, key_sub c !! who).
Definition is_active (who : string) : C bool :=
  found ← gets (λ c, key_sub c !! who);
  mret (match found with Some s => env_timestamp env <? expires s | None => false end).
Definition plan (id : string) : C (option Plan) := gets (λ c, key_plan c !! id).
Definition plans : C (list string) := gets (λ c, default [] (key_plans c)).
Definition balance : C Z :=
  tk ← token; gets (λ c, token_balance client tk self (chain_tokens c)).

(** [withdraw] *)
Definition withdraw (to : string) (amount : Z) : C unit :=
  a ← admin;
  require_auth a ;;
  tk ← token;
  held ← gets (λ c, token_balance client tk self (chain_tokens c));
  if (amount <=? 0) || (held <? amount) then panic BadAmount
  else
    transfer tk self to amount ;;
    publish (Withdrawn to amount).

(** [set_admin] *)
Definition set_admin (new_admin : string) : C unit :=
  a ← admin;
  require_auth a ;;
  require_auth new_admin ;;
  modify (λ c, mkChainState (Some new_admin) (key_token c) (key_plans c) (key_plan c) (key_sub c)
                 (chain_tokens c) (published c)) ;;
  publish (AdminChanged new_admin).

(** [admin_address], [token_address] *)
Definition admin_address : C string := admin.
Definition token_address : C string := token.

(** The host reverts what an invocation that traps did. *)
Definition invoke {A} (m : C A) : C A := λ c,
  match m c with (Ok a, c') => (Ok a, c') | (Raise x, _) => (Raise x, c) end.
End operations.

(** ** What a call does *)

(** The calls that write. *)
Inductive Call : Type :=
  | CallInitialise (admin token : string)
  | CallSetPlan (id : string) (price period tokens : Z) (active : bool)
  | CallSubscribe (subscriber id : string)
  | CallWithdraw (to : string) (amount : Z)
  | CallSetAdmin (new_admin : string).

Section calls.
Context {T : Type} (client : TokenClient T) (self : string).

Definition run_call (env : Env) (call : Call) : M (Chain T) Trap unit :=
  match call with
  | CallInitialise a t => initialise a t
  | CallSetPlan id price period tokens active => set_plan env id price period tokens active
  | CallSubscribe who id => subscribe client self env who id ;; mret tt
  | CallWithdraw to amount => withdraw client self env to amount
  | CallSetAdmin a => set_admin env a
  end.

(** The state after a subscription that went through. *)
Definition subscribed (who id : string) (p : Plan) (s : Subscription) (t : T) (c : Chain T) : Chain T :=
  mkChainState (key_admin c) (key_token c) (key_plans c) (key_plan c) (<[who := s]> (key_sub c)) t
    (published c ++ [Subscribed who id (expires s) (price p) (periods s)]).

(** Everything a subscription needs, in the order it is asked for. *)
Theorem subscribe_spec env who id c :
  subscribe client self env who id c =
    if bool_decide (who ∉ env_auths env) then (Raise (AuthFailed who), c)
    else match key_plan c !! id with
    | None => (Raise (Panic NoSuchPlan), c)
    | Some p =>
        if negb (active p) then (Raise (Panic PlanNotForSale), c)
        else match key_token c with
        | None => (Raise (Panic NotInitialised), c)
        | Some tk =>
            match token_transfer client tk who self (price p) (chain_tokens c) with
            | None => (Raise TokenRefused, c)
            | Some t =>
                match next_period (key_sub c !! who) id p (env_timestamp env) with
                | Ok s => (Ok s, subscribed who id p s t c)
                | Raise x => (Raise x, mkChainState (key_admin c) (key_token c) (key_plans c) (key_plan c)
                                         (key_sub c) t (published c))
                end
            end
        end
    end.
Proof.
  unfold subscribe, require_auth. rewrite run_bind. destruct (decide (who ∈ env_auths env)) as [Ha|Ha].
  2:{ by rewrite bool_decide_false, bool_decide_true. }
  rewrite bool_decide_true, bool_decide_false by (done || by intros []). cbn [mret M_ret].
  unfold require_plan. rewrite run_bind, run_bind, run_gets. destruct (key_plan c !! id) as [p|]; [|done].
  cbn [mret M_ret]. destruct (active p); cbn [negb]; [|done].
  unfold token. rewrite run_bind, run_bind, run_gets. destruct (key_token c) as [tk|] eqn:Htk; [|done].
  cbn [mret M_ret]. unfold transfer. rewrite run_bind, run_bind, run_gets.
  destruct (token_transfer _ _ _ _ _ _) as [t|]; [|done].
  rewrite run_modify. rewrite run_bind, run_gets. cbn. destruct (next_period _ _ _ _); [reflexivity|]. rewrite <- Htk. reflexivity.
Qed.

Lemma checked_ok width a b n : checked_add width a b = Ok n → n = a + b ∧ n < 2 ^ width.
Proof. unfold checked_add. destruct (Z.ltb_spec (a + b) (2 ^ width)); by intros [= <-]. Qed.
Lemma result_ok_inv {E A B} (r : result E A) (f : A → result E B) b :
  r ≫= f = Ok b → ∃ a, r = Ok a ∧ f a = Ok b.
Proof. destruct r; [|done]. by exists a. Qed.

(** A subscriber who pays gets all of what is paid for: the period is added to the end of
    the running one of the same plan, or starts now; the receipt grows by one. *)
Lemma next_period_spec current id p now s :
  next_period current id p now = Ok s →
  sub_plan s = id
  ∧ (∃ kept, expires s = kept + period p ∧ expires s < 2 ^ 64
      ∧ started s = (match current with
                     | Some e => if String.eqb (sub_plan e) id && (now <? expires e) then started e else now
                     | None => now end)
      ∧ kept = match current with
               | Some e => if String.eqb (sub_plan e) id && (now <? expires e) then expires e else now
               | None => now end)
  ∧ periods s = match current with Some e => periods e + 1 | None => 1 end.
Proof.
  unfold next_period. destruct current as [e|]; [destruct (_ && _)|]; cbn zeta.
  1,2: intros (x & [-> Hx]%checked_ok & (n & [-> _]%checked_ok & [= <-])%result_ok_inv)%result_ok_inv.
  3: intros (x & [-> Hx]%checked_ok & [= <-])%result_ok_inv.
  all: split; [reflexivity|]; (split; [|reflexivity]); eexists; split; [reflexivity|]; split; [exact Hx|]; by split.
Qed.
End calls.

(** ** What the calls add up to *)

(** What was paid, what was taken out, and how often an account subscribed, from the events
    anybody can read. *)
Definition took (e : Event) : Z := match e with Subscribed _ _ _ price _ => price | _ => 0 end.
Definition gave (e : Event) : Z := match e with Withdrawn _ amount => amount | _ => 0 end.
Definition once (who : string) (e : Event) : Z :=
  match e with Subscribed w _ _ _ _ => if bool_decide (w = who) then 1 else 0 | _ => 0 end.
Definition total (f : Event → Z) (es : list Event) : Z := foldr (λ e n, f e + n) 0 es.
Definition taken : list Event → Z := total took.
Definition withdrawn : list Event → Z := total gave.
Definition times (who : string) : list Event → Z := total (once who).
#[local] Arguments total : simpl never.

Lemma total_snoc f es e : total f (es ++ [e]) = total f es + f e.
Proof. unfold total. induction es as [|x es IH]; cbn; [lia|]. rewrite IH. lia. Qed.

Section history.
#[local] Set Default Proof Using "Type*".
Context {T : Type} (client : TokenClient T) `{!TokenLaws client} (self : string).

(** The host's types. *)
Definition typed_call (call : Call) : Prop :=
  match call with CallSetPlan _ _ period _ _ => 0 <= period < 2 ^ 64 | _ => True end.

(** An invocation that went through, which the contract's own address cannot have signed;
    or the token moving elsewhere, which takes nothing from the contract. *)
Inductive step : Chain T → Chain T → Prop :=
  | step_call env call c c' :
      typed_call call → self ∉ env_auths env → run_call client self env call c = (Ok tt, c') → step c c'
  | step_token c t :
      (∀ tk, token_balance client tk self (chain_tokens c) <= token_balance client tk self t) →
      step c (mkChainState (key_admin c) (key_token c) (key_plans c) (key_plan c) (key_sub c) t (published c)).

(** A contract in order. *)
Record chain_ok (c : Chain T) : Prop := mkChainOk {
  ok_initialised : match key_admin c, key_token c, key_plans c with
    | Some _, Some _, Some ids => NoDup ids ∧ ∀ id, id ∈ ids ↔ is_Some (key_plan c !! id)
    | None, None, None => key_plan c = ∅ ∧ key_sub c = ∅ ∧ published c = []
    | _, _, _ => False
    end;
  ok_plan : ∀ id p, key_plan c !! id = Some p → 0 < price p ∧ 0 < period p < 2 ^ 64;
  ok_money : ∀ tk, key_token c = Some tk →
    taken (published c) <= token_balance client tk self (chain_tokens c) + withdrawn (published c);
  ok_receipt : ∀ who, times who (published c)
    = match key_sub c !! who with Some s => periods s | None => 0 end;
  ok_period : ∀ who s, key_sub c !! who = Some s →
    started s < expires s < 2 ^ 64 ∧ is_Some (key_plan c !! sub_plan s)
}.

Lemma deployed_ok t : chain_ok (deployed t).
Proof.
  by split.
Qed.

(** What the guards leave of an accepted call. *)
Lemma admin_ok (c c' : Chain T) a : admin c = (Ok a, c') → key_admin c = Some a ∧ c' = c.
Proof. unfold admin. rewrite run_bind, run_gets. destruct (key_admin c); by intros [= -> ->]. Qed.
Lemma token_ok (c c' : Chain T) a : token c = (Ok a, c') → key_token c = Some a ∧ c' = c.
Proof. unfold token. rewrite run_bind, run_gets. destruct (key_token c); by intros [= -> ->]. Qed.
Lemma require_auth_ok env who (c c' : Chain T) u :
  require_auth env who c = (Ok u, c') → who ∈ env_auths env ∧ c' = c.
Proof. unfold require_auth. case_bool_decide; by intros [= _ ->]. Qed.

Lemma initialise_ok a t c c' :
  chain_ok c → initialise a t c = (Ok tt, c') → chain_ok c' ∧ key_admin c = None ∧ key_admin c' = Some a.
Proof.
  intros [Hi Hp Hm Hr Hs]. unfold initialise. rewrite run_bind, run_gets.
  destruct (key_admin c) eqn:Ha; [done|]. intros [= <-].
  destruct (key_token c), (key_plans c); try done. destruct Hi as (He & Hse & Hpub).
  split; [|done]. split; cbn; try done.
  - split; [constructor|]. intros id. rewrite He, lookup_empty. split; [by intros ?%not_elem_of_nil|by intros []].
  - intros tk _. rewrite Hpub. unfold taken, withdrawn, total. cbn [foldr]. pose proof (balance_nonneg tk self (chain_tokens c)). lia.
Qed.

(** An update of everything but the money, the subscriptions and what was said of them. *)
Lemma set_plan_ok env id price period tokens active (c c' : Chain T) :
  chain_ok c → 0 <= period < 2 ^ 64 → set_plan env id price period tokens active c = (Ok tt, c') →
  chain_ok c' ∧ key_admin c' = key_admin c ∧ ∃ a, key_admin c = Some a ∧ a ∈ env_auths env.
Proof.
  intros [Hi Hp Hm Hr Hs] Hw. unfold set_plan.
  intros (a & c1 & [Ha ->]%admin_ok & (u & c2 & [Hauth ->]%require_auth_ok & H)%bind_ok_inv)%bind_ok_inv.
  destruct (Z.leb_spec price 0), (Z.eqb_spec period 0); try done. cbn [orb] in H.
  rewrite run_bind, run_modify, run_bind, run_gets in H. cbn [key_plans] in H.
  rewrite Ha in Hi. destruct (key_token c) as [tk|] eqn:Htk; [|done].
  destruct (key_plans c) as [ids|] eqn:Hids; [|done]. destruct Hi as [Hnd Hin]. change (default [] (Some ids)) with ids in H.
  assert (∃ ids', NoDup ids' ∧ (∀ i, i ∈ ids' ↔ i ∈ ids ∨ i = id)
    ∧ c' = mkChainState (key_admin c) (key_token c) (Some ids') (<[id := mkPlan price period tokens active]> (key_plan c))
             (key_sub c) (chain_tokens c) (published c ++ [PlanSet id price period tokens active]))
    as (ids' & Hnd' & Hin' & ->).
  { rewrite run_bind in H. case_bool_decide.
    - injection H as <-. exists ids. split_and!; [done|set_solver|by rewrite Htk].
    - injection H as <-. exists (ids ++ [id]). split_and!; [|set_solver|by rewrite Htk].
      apply NoDup_app. split_and!; [done|set_solver|apply NoDup_singleton]. }
  split; [|split; [done|by exists a]]. split; cbn.
  - rewrite Ha, Htk. split; [done|]. intros i. rewrite Hin', Hin, lookup_insert_is_Some. destruct (decide (id = i)); naive_solver.
  - intros i p [[<- <-]|[_ Hl]]%lookup_insert_Some; [cbn; lia|by eapply Hp].
  - intros tk' Htk'. unfold taken, withdrawn in *. rewrite !total_snoc. cbn. rewrite !Z.add_0_r. apply Hm. congruence.
  - intros who. unfold times in *. rewrite total_snoc. cbn. rewrite Z.add_0_r. apply Hr.
  - intros who s Hwho. destruct (Hs who s Hwho) as [? Hpl]. split; [done|].
    rewrite lookup_insert_is_Some. destruct (decide (id = sub_plan s)); auto.
Qed.

Lemma subscribe_ok env who id (c c' : Chain T) s :
  chain_ok c → who ≠ self → subscribe client self env who id c = (Ok s, c') →
  chain_ok c' ∧ key_admin c' = key_admin c.
Proof.
  intros [Hi Hp Hm Hr Hs] Hself. rewrite subscribe_spec. case_bool_decide; [done|].
  destruct (key_plan c !! id) as [p|] eqn:Hid; [|done]. destruct (active p); cbn [negb]; [|done].
  destruct (key_token c) as [tk|] eqn:Htk; [|done]. destruct (token_transfer _ _ _ _ _ _) as [t|] eqn:Ht; [|done].
  destruct (next_period _ _ _ _) as [s'|] eqn:Hnext; [|done]. intros [= -> <-].
  pose proof (next_period_spec _ _ _ _ _ Hnext) as (Hplan & (kept & Hx & Hlt & Hst & Hkept) & Hper).
  destruct (Hp id p Hid) as [Hprice Hperiod]. split; [|done]. split; cbn; try done.
  - by rewrite Htk.
  - intros tk' [= <-]%(eq_trans (eq_sym Htk)). unfold taken, withdrawn in *. rewrite !total_snoc. cbn.
    rewrite (transfer_moves _ _ _ _ _ _ Ht self), bool_decide_false, bool_decide_true by done.
    specialize (Hm tk eq_refl). lia.
  - intros w. unfold times in *. rewrite total_snoc. cbn. case_bool_decide as Hw.
    + subst w. rewrite lookup_insert_eq, Hper, Hr. destruct (key_sub c !! who); lia.
    + rewrite lookup_insert_ne by done. rewrite Hr. lia.
  - intros w s' [[<- <-]|[Hne Hl]]%lookup_insert_Some; [|by eapply Hs].
    split; [|by rewrite Hplan, Hid]. split; [|done]. rewrite Hx, Hst, Hkept.
    destruct (key_sub c !! who) as [e|] eqn:He; [|lia]. destruct (Hs who e He) as [? _].
    destruct (_ && _); lia.
Qed.

Lemma withdraw_ok env to amount (c c' : Chain T) :
  chain_ok c → withdraw client self env to amount c = (Ok tt, c') →
  chain_ok c' ∧ key_admin c' = key_admin c ∧ ∃ a, key_admin c = Some a ∧ a ∈ env_auths env.
Proof.
  intros [Hi Hp Hm Hr Hs]. unfold withdraw.
  intros (a & c1 & [Ha ->]%admin_ok & (u & c2 & [Hauth ->]%require_auth_ok & H)%bind_ok_inv)%bind_ok_inv.
  apply bind_ok_inv in H as (tk & c3 & [Htk ->]%token_ok & H). rewrite run_bind, run_gets in H.
  destruct (Z.leb_spec amount 0); [done|]. destruct (_ <? amount); [done|]. cbn [orb] in H.
  unfold transfer in H. rewrite run_bind, run_bind, run_gets in H.
  destruct (token_transfer _ _ _ _ _ _) as [t|] eqn:Ht; [|done]. rewrite run_modify in H. injection H as <-.
  split; [|split; [done|by exists a]]. split; cbn; try done.
  - rewrite Ha in Hi |- *. exact Hi.
  - intros tk' [= <-]%(eq_trans (eq_sym Htk)). unfold taken, withdrawn in *. rewrite !total_snoc. cbn.
    rewrite (transfer_moves _ _ _ _ _ _ Ht self), bool_decide_true by done.
    specialize (Hm tk Htk). case_bool_decide; lia.
  - intros who. unfold times in *. rewrite total_snoc. cbn. rewrite Z.add_0_r. apply Hr.
Qed.

Lemma set_admin_ok env a (c c' : Chain T) :
  chain_ok c → set_admin env a c = (Ok tt, c') →
  chain_ok c' ∧ key_admin c' = Some a ∧ a ∈ env_auths env ∧ ∃ old, key_admin c = Some old ∧ old ∈ env_auths env.
Proof.
  intros [Hi Hp Hm Hr Hs]. unfold set_admin.
  intros (old & c1 & [Ha ->]%admin_ok & (u & c2 & [Hauth ->]%require_auth_ok & H)%bind_ok_inv)%bind_ok_inv.
  apply bind_ok_inv in H as (u' & c3 & [Hauth' ->]%require_auth_ok & H). rewrite run_bind, run_modify in H.
  injection H as <-. split; [|split_and!; [done|done|by exists old]]. rewrite Ha in Hi. split; cbn; try done.
  - intros tk Htk. unfold taken, withdrawn in *. rewrite !total_snoc. cbn. rewrite !Z.add_0_r. by apply Hm.
  - intros who. unfold times in *. rewrite total_snoc. cbn. rewrite Z.add_0_r. apply Hr.
Qed.

Lemma call_ok env call (c c' : Chain T) :
  chain_ok c → typed_call call → self ∉ env_auths env → run_call client self env call c = (Ok tt, c') →
  chain_ok c'
  ∧ ((key_admin c' = key_admin c ∧ match call with CallInitialise _ _ | CallSetAdmin _ => False | _ => True end)
     ∨ (∃ a t, call = CallInitialise a t ∧ key_admin c = None ∧ key_admin c' = Some a)
     ∨ (∃ a old, call = CallSetAdmin a ∧ key_admin c = Some old ∧ key_admin c' = Some a
          ∧ old ∈ env_auths env ∧ a ∈ env_auths env))
  ∧ match call with
    | CallSetPlan _ _ _ _ _ | CallWithdraw _ _ => ∃ a, key_admin c = Some a ∧ a ∈ env_auths env
    | CallSubscribe who _ => who ∈ env_auths env
    | _ => True
    end.
Proof.
  intros Hok Hty Hself. destruct call as [a t|id price period tokens active|who id|to amount|a]; cbn [run_call].
  - intros (? & ? & ?)%initialise_ok; [|done]. split_and!; [done|right; left; eauto 6|done].
  - intros (? & ? & ?)%set_plan_ok; [|done..]. split_and!; [done|by left|done].
  - intros (s & c1 & Hs & [= <-])%bind_ok_inv.
    assert (who ∈ env_auths env) as Hauth.
    { unfold subscribe in Hs. by apply bind_ok_inv in Hs as (? & ? & [? _]%require_auth_ok & _). }
    apply subscribe_ok in Hs as [? ?]; [|done|by intros ->]. split_and!; [done|by left|done].
  - intros (? & ? & ?)%withdraw_ok; [|done]. split_and!; [done|by left|done].
  - intros (? & ? & ? & old & ? & ?)%set_admin_ok; [|done]. split_and!; [done|right; right; eauto 10|done].
Qed.

Lemma steps_ok c c' : chain_ok c → rtc step c c' → chain_ok c'.
Proof.
  intros Hok H. induction H as [|c c1 c2 Hstep _ IH]; [done|]. apply IH.
  destruct Hstep as [env call c c' Hty Hself Hcall|c t' Hmore].
  - by eapply call_ok.
  - destruct Hok as [Hi Hp Hm Hr Hs]. split; cbn; try done. intros tk Htk. specialize (Hm tk Htk).
    specialize (Hmore tk). lia.
Qed.

(** C9. However the contract is called, and by whom: its takings are held or were withdrawn, to
    the last unit; the [periods] of an account is the number of times it paid; a period ends
    after it started and before the end of time; the catalogue lists each plan there is,
    once, at a price and for a time that are positive. *)
Theorem contract_in_order t c : rtc step (deployed t) c → chain_ok c.
Proof. apply steps_ok, deployed_ok. Qed.

(** C10. Nothing moves unsigned.  A call that went through kept the administrator, or set the
    first one, or was signed by the one that leaves and the one that comes; only the
    administrator changes plans and takes money out; and of all the accounts there are,
    only a subscriber who signed, or the contract itself when its administrator did, has
    less of the contract's token than before. *)
Theorem nothing_moves_unsigned env call (c c' : Chain T) :
  chain_ok c → typed_call call → self ∉ env_auths env → run_call client self env call c = (Ok tt, c') →
  (key_admin c' = key_admin c ∨ key_admin c = None
   ∨ ∃ old a, key_admin c = Some old ∧ key_admin c' = Some a ∧ old ∈ env_auths env ∧ a ∈ env_auths env)
  ∧ (key_plan c' ≠ key_plan c → ∃ a, key_admin c = Some a ∧ a ∈ env_auths env)
  ∧ ∀ tk who, key_token c = Some tk →
      token_balance client tk who (chain_tokens c') < token_balance client tk who (chain_tokens c) →
      who ∈ env_auths env ∨ (who = self ∧ ∃ a, key_admin c = Some a ∧ a ∈ env_auths env).
Proof.
  intros Hok Hty Hself Hcall. destruct (call_ok _ _ _ _ Hok Hty Hself Hcall) as (_ & Hadmin & Hsigned).
  split; [naive_solver|]. destruct call as [a t|id price period tokens active|who id|to amount|a]; cbn [run_call] in Hcall.
  - unfold initialise in Hcall. rewrite run_bind, run_gets in Hcall. destruct (key_admin c); [done|].
    injection Hcall as <-. split; [by intros []|]. cbn. lia.
  - split; [done|]. enough (chain_tokens c' = chain_tokens c) as -> by lia. revert Hcall. unfold set_plan.
    intros (? & c1 & [_ ->]%admin_ok & (? & c2 & [_ ->]%require_auth_ok & H)%bind_ok_inv)%bind_ok_inv.
    destruct (_ || _); [done|]. rewrite run_bind, run_modify, run_bind, run_gets, run_bind in H.
    by case_bool_decide; injection H as <-.
  - apply bind_ok_inv in Hcall as (s & c1 & Hs & [= <-]). rewrite subscribe_spec in Hs.
    case_bool_decide; [done|]. destruct (key_plan c !! id) as [p|] eqn:Hid; [|done]. destruct (active p); [|done].
    destruct (key_token c) as [tk|] eqn:Htk; [|done]. destruct (token_transfer _ _ _ _ _ _) as [t|] eqn:Ht; [|done].
    destruct (next_period _ _ _ _); [|done]. injection Hs as -> <-. split; [by intros []|]. cbn.
    intros tk' w [= <-]. rewrite (transfer_moves _ _ _ _ _ _ Ht w). left. case_bool_decide; [by subst|].
    case_bool_decide; [|lia]. destruct (ok_plan _ Hok id p Hid). lia.
  - unfold withdraw in Hcall.
    apply bind_ok_inv in Hcall as (a & c1 & [Ha ->]%admin_ok & (? & c2 & [_ ->]%require_auth_ok & H)%bind_ok_inv).
    apply bind_ok_inv in H as (tk & c3 & [Htk ->]%token_ok & H). rewrite run_bind, run_gets in H.
    destruct (Z.leb_spec amount 0); [done|]. destruct (_ <? amount); [done|]. cbn [orb] in H.
    unfold transfer in H. rewrite run_bind, run_bind, run_gets in H.
    destruct (token_transfer _ _ _ _ _ _) as [t|] eqn:Ht; [|done]. injection H as <-.
    split; [by intros []|]. intros tk' w [= <-]%(eq_trans (eq_sym Htk)). cbn.
    rewrite (transfer_moves _ _ _ _ _ _ Ht w). right. case_bool_decide; [done|]. case_bool_decide; lia.
  - unfold set_admin in Hcall.
    apply bind_ok_inv in Hcall as (old & c1 & [Ha ->]%admin_ok & (? & c2 & [_ ->]%require_auth_ok & H)%bind_ok_inv).
    apply bind_ok_inv in H as (? & c3 & [_ ->]%require_auth_ok & H). injection H as <-.
    split; [by intros []|]. cbn. lia.
Qed.
End history.
End Contract.

(** ** From the contract to the ledger *)

(** The contract's answer as the SDK hands it over, and what the gateway makes of it. *)
Definition scv_answer (wrapped : bool) (found : option Contract.Subscription) : sdk_value :=
  match found with
  | Some s => scv_subscription wrapped (Contract.sub_plan s) (Contract.started s) (Contract.expires s)
                (Contract.periods s)
  | None => SNone
  end.
Definition onchain_of (s : Contract.Subscription) : OnChainSubscription :=
  mkOnChain (Contract.sub_plan s) (Contract.started s * SECOND) (Contract.expires s * SECOND)
    (Contract.periods s).

(** The reference of the row that credits a period. *)
Definition period_reference (plan : string) (started : Z) : string :=
  "chain:" ++s plan ++s ":" ++s int_str started.

Lemma onchain_reference s :
  "chain:" ++s onchain_period_key (onchain_of s) = period_reference (Contract.sub_plan s) (Contract.started s).
Proof. unfold onchain_period_key, onchain_of. cbn [onchain_plan onchain_started]. by rewrite Z.div_mul. Qed.

(** What every reader of the contract may count on: a record a datetime can hold, of a plan
    a symbol names. *)
Definition readable (s : Contract.Subscription) : Prop :=
  str_all symbol_char (Contract.sub_plan s) = true ∧ Contract.sub_plan s ≠ EmptyString
  ∧ 0 <= Contract.started s < Contract.expires s ∧ Contract.expires s <= 253402300799.

Section paying.
#[local] Set Default Proof Using "Type*".
Context {T : Type} (client : Contract.TokenClient T) `{!Contract.TokenLaws client} (self : string).
Context {W D Client Account Tx : Type} `{!Field W D} `{!BillingStore D} `{!BillingStoreLaws D}
        `{!Field W (ContractState Client)}.
Context (sdk : SorobanSdk W Client Account Tx) (contract_id network source rpc_url : string).
Context (now_utc : M W exn Z) (new_entry_id : M W exn string) (catalog : Catalog).
Hypothesis now_draws : draws (D:=D) now_utc.
Hypothesis id_draws : draws (D:=D) new_entry_id.

Abbreviation registry := (SubscriptionContract sdk contract_id network source rpc_url).
Abbreviation visit := (settle_period now_utc new_entry_id catalog registry).

(** A visit of an account at [w], by a gateway that can ask the contract, and to which the
    contract, at [w2], answers [found]. *)
Record visited (who : string) (found : option Contract.Subscription) (now : Z) (w w2 : W) : Prop := mkVisited {
  visit_asks : sdk_available sdk contract_id = true ∧ is_address who = true;
  visit_reads : ∃ wrapped w1, now_utc w = (Ok now, w1)
    ∧ loaded_or_fresh sdk contract_id network rpc_url (getf w1)
    ∧ client_invoke sdk (ContractClient sdk contract_id (contract_rpc_url network rpc_url)
          (contract_passphrase sdk network)) "subscription" [ScAddress who] source
        (settled_world sdk contract_id network rpc_url w1) = (Ok (scv_answer wrapped found), w2)
}.

Lemma visit_credits who s p now w w2 :
  visited who (Some s) now w w2 → readable s → now < Contract.expires s * SECOND →
  catalog_plan catalog (Contract.sub_plan s) = Ok p → 0 <= plan_tokens p → int64 (plan_tokens p) = true →
  (∀ w', rows w' = rows w2 → fresh_ids new_entry_id w') →
  let reference_ := period_reference (Contract.sub_plan s) (Contract.started s) in
  let mirrored := mkSubscription who (plan_id p) (Contract.started s * SECOND)
                    (Contract.expires s * SECOND) ACTIVE in
  ∃ w', visit who w = (Ok (Some mirrored), w')
    ∧ subscription who (store w') = Some mirrored
    ∧ match find_reference reference_ (rows w2) with
      | Some _ => rows w' = rows w2
      | None => ∃ e, rows w' = rows w2 ++ [e] ∧ entry_account e = who ∧ kind e = GRANT
                  ∧ entry_tokens e = plan_tokens p ∧ reference e = reference_
      end.
Proof.
  intros [[Hav Haddr] (wrapped & w1 & Hnow & Hfresh & Hask)] (Hsym & Hne & Hs & Hx) Hrun Hplan Hn H64 Hids.
  cbn zeta. rewrite <- onchain_reference.
  assert (chain_subscription registry who w1 = (Ok (Some (onchain_of s)), w2)) as Hsub.
  { pose proof (contract_standing sdk contract_id network source rpc_url who w1 Hfresh) as Hread.
    cbv zeta in Hread. rewrite Hav, Haddr, Hask in Hread. cbn [andb] in Hread.
    change (chain_subscription registry who w1)
      with (contract_subscription sdk contract_id network source rpc_url who w1). rewrite Hread.
    cbn [scv_answer]. rewrite (proj1 (contract_read_back _ _ _ (Contract.started s) (Contract.expires s) (Contract.periods s) Hsym Hne ltac:(lia) ltac:(lia))).
    destruct (Z.eqb_spec (Contract.expires s) 0); [lia|done]. }
  exact (chain_period_credited_once (D:=D) now_utc new_entry_id catalog registry now_draws id_draws who
    (onchain_of s) p now w w1 w2 Hav Hnow Hsub (proj2 (Z.ltb_lt _ _) Hrun) Hplan Hn H64 Hids).
Qed.

(** What an accepted subscription left behind. *)
Lemma subscribe_paid env who id (c c' : Contract.Chain T) s :
  Contract.chain_ok client self c → who ≠ self → Contract.subscribe client self env who id c = (Ok s, c') →
  Contract.key_sub c' !! who = Some s
  ∧ ∃ p tk, Contract.key_plan c !! id = Some p ∧ Contract.key_token c = Some tk ∧ 0 < Contract.price p
      ∧ Contract.next_period (Contract.key_sub c !! who) id p (Contract.env_timestamp env) = Ok s
      ∧ Contract.token_balance client tk who (Contract.chain_tokens c')
        = Contract.token_balance client tk who (Contract.chain_tokens c) - Contract.price p.
Proof.
  intros Hok Hne. rewrite Contract.subscribe_spec. case_bool_decide; [done|].
  destruct (Contract.key_plan c !! id) as [p|] eqn:Hp; [|done]. destruct (Contract.active p); [|done]. cbn [negb].
  destruct (Contract.key_token c) as [tk|] eqn:Htk; [|done].
  destruct (Contract.token_transfer _ _ _ _ _ _) as [t|] eqn:Ht; [|done].
  destruct (Contract.next_period _ _ _ _) as [s'|] eqn:Hs; [|done]. intros [= -> <-]. cbn.
  split; [by rewrite lookup_insert_eq|]. exists p, tk.
  destruct (Contract.ok_plan _ _ _ Hok id p Hp). split_and!; [done..|].
  rewrite (Contract.transfer_moves _ _ _ _ _ _ Ht who), bool_decide_true, bool_decide_false by done. lia.
Qed.


(** C26. Renewing early buys time and no tokens.  A subscriber who pays again for the plan
    that is running, and whose running period was credited, pays the full price, and the
    contract counts one more period; but the period keeps the second it started, which is
    what the gateway's row is named after: no visit adds a row for what was paid. *)
Theorem early_renewal_buys_no_tokens env who id (c c' : Contract.Chain T) e s p row now w w2 :
  Contract.chain_ok client self c → who ≠ self →
  Contract.key_sub c !! who = Some e → Contract.sub_plan e = id →
  Contract.env_timestamp env < Contract.expires e →
  Contract.subscribe client self env who id c = (Ok s, c') →
  str_all symbol_char id = true → id ≠ EmptyString → 0 <= Contract.started e →
  Contract.expires s <= 253402300799 → now < Contract.expires s * SECOND →
  visited who (Contract.key_sub c' !! who) now w w2 →
  catalog_plan catalog id = Ok p → 0 <= plan_tokens p → int64 (plan_tokens p) = true →
  (∀ w', rows w' = rows w2 → fresh_ids new_entry_id w') →
  find_reference (period_reference id (Contract.started e)) (rows w2) = Some row →
  Contract.periods s = Contract.periods e + 1
  ∧ (∃ pl tk, Contract.key_plan c !! id = Some pl ∧ Contract.key_token c = Some tk
      ∧ Contract.token_balance client tk who (Contract.chain_tokens c')
        = Contract.token_balance client tk who (Contract.chain_tokens c) - Contract.price pl
      ∧ 0 < Contract.price pl ∧ Contract.expires s = Contract.expires e + Contract.period pl)
  ∧ ∃ w', visit who w = (Ok (Some (mkSubscription who (plan_id p)
        (Contract.started e * SECOND) (Contract.expires s * SECOND) ACTIVE)), w')
      ∧ rows w' = rows w2.
Proof.
  intros Hok Hne He Hsame Hearly Hsub Hsym Hid H0 Hx Hrun Hvisit Hplan Hn H64 Hids Hknown.
  destruct (subscribe_paid _ _ _ _ _ _ Hok Hne Hsub) as (Hfound & pl & tk & Hpl & Htk & Hprice & Hnext & Hbal).
  destruct (Contract.ok_plan _ _ _ Hok id pl Hpl) as [_ Hper]. destruct (Contract.ok_period _ _ _ Hok who e He) as [Hwf _].
  apply Contract.next_period_spec in Hnext as (Hnamed & (kept & Hexp & _ & Hstart & Hkept) & Hcount).
  rewrite He, Hsame, String.eqb_refl, (proj2 (Z.ltb_lt _ _) Hearly) in *. cbn [andb] in *. subst kept.
  split; [done|]. split; [by exists pl, tk|].
  rewrite Hfound in Hvisit. rewrite <- Hnamed in Hplan.
  destruct (visit_credits who s p now w w2 Hvisit) as (w' & Hv & _ & Hrows); try done.
  { split_and!; rewrite ?Hnamed; try done; lia. }
  rewrite Hnamed, Hstart, Hknown in Hrows. rewrite Hstart in Hv. by exists w'.
Qed.
End paying.

(** ** A chain and a gateway that reads it *)

(** One token, an account's balance each; a transfer needs the money. *)
Definition holds (who : string) (t : gmap string Z) : Z := Z.max 0 (default 0 (t !! who)).
Definition demo_token : Contract.TokenClient (gmap string Z) :=
  {| Contract.token_balance _ who t := holds who t;
     Contract.token_transfer _ from to amount t :=
       if (amount <? 0) || (holds from t <? amount) then None
       else let t := <[from := holds from t - amount]> t in Some (<[to := holds to t + amount]> t) |}.

#[export] Instance demo_token_laws : Contract.TokenLaws demo_token.
Proof.
  split; cbn; [unfold holds; lia|]. intros _ from to amount t t'.
  destruct (Z.ltb_spec amount 0), (Z.ltb_spec (holds from t) amount); try done. intros [= <-] who.
  assert (∀ k (v : Z) m w, 0 <= v → holds w (<[k := v]> m) = if bool_decide (w = k) then v else holds w m) as Hins.
  { intros k v m w Hv. unfold holds. case_bool_decide; [subst|]; [rewrite lookup_insert_eq; cbn; lia|].
    by rewrite lookup_insert_ne. }
  assert (∀ w m, 0 <= holds w m) as Hpos by (unfold holds; lia).
  rewrite !Hins by (rewrite ?Hins; repeat case_bool_decide; pose proof (Hpos to t); lia).
  repeat case_bool_decide; subst; try done; lia.
Qed.

(** The contract of a shop that sells one plan for a month; who may subscribe, and when. *)
Definition demo_price : Z := 50.
Definition demo_funds : gmap string Z := {[ demo_subscriber := 120 ]}.
Definition demo_calls : list (Contract.Env * Contract.Call) :=
  [(Contract.mkEnv [] 900, Contract.CallInitialise "admin" "XLM");
   (Contract.mkEnv ["admin"] 950, Contract.CallSetPlan "starter" demo_price 2592000 3000000 true);
   (Contract.mkEnv [demo_subscriber] 1000, Contract.CallSubscribe demo_subscriber "starter");
   (Contract.mkEnv ["admin"] 1500, Contract.CallWithdraw "admin" 20)]%string.
Definition run_calls (calls : list (Contract.Env * Contract.Call)) (c : Contract.Chain (gmap string Z)) :
    Contract.Chain (gmap string Z) :=
  foldl (λ c '(env, call), (Contract.invoke (Contract.run_call demo_token "shop" env call) c).2) c calls.
Definition demo_chain (n : nat) : Contract.Chain (gmap string Z) :=
  run_calls (take n demo_calls) (Contract.deployed demo_funds).

(** A world that holds the gateway's tables, its client of the contract, and the chain. *)
Record ShopWorld : Type := mkShopWorld {
  sw_db : SqliteDb;
  sw_client : ContractState string;
  sw_chain : Contract.Chain (gmap string Z)
}.
#[export] Program Instance ShopWorld_db : Field ShopWorld SqliteDb :=
  {| getf := sw_db; setf d w := mkShopWorld d (sw_client w) (sw_chain w) |}.
Solve All Obligations with by intros [].
#[export] Program Instance ShopWorld_client : Field ShopWorld (ContractState string) :=
  {| getf := sw_client; setf c w := mkShopWorld (sw_db w) c (sw_chain w) |}.
Solve All Obligations with by intros [].

Definition shop_soroban : SorobanSdk ShopWorld string string string :=
  {| import_error := None; public_passphrase := "public"; testnet_passphrase := "test";
     ContractClient c r p := c ++s "@" ++s r;
     client_invoke _ _ args _ := λ w,
       (match args with
        | [ScAddress a] => Ok (scv_answer true (Contract.key_sub (sw_chain w) !! a))
        | _ => Raise (ForeignError "RpcError" "bad arguments")
        end, w);
     rpc_load_account _ a := mret a;
     rpc_prepare _ t := mret t;
     rpc_send _ t := mret ("PENDING", "hash")%string;
     rpc_poll _ _ := mret "SUCCESS"%string;
     tx_build a i := Ok (a ++s ":" ++s inv_function i);
     tx_to_xdr t := t;
     tx_from_xdr x _ := Ok x;
     sdk_object_str _ := EmptyString |}.
Definition shop_clock : M ShopWorld exn Z := mret (2000 * SECOND).
(** Entry ids are drawn by counting the rows. *)
Definition shop_draw : M ShopWorld exn string := gets (λ w, int_str (Z.of_nat (length (rows w)))).
Definition shop_world (d : SqliteDb) (c : Contract.Chain (gmap string Z)) : ShopWorld :=
  mkShopWorld d contract_init c.
Definition shop_visit : string → M ShopWorld exn (option Subscription) :=
  settle_period shop_clock shop_draw bw_catalog
    (SubscriptionContract shop_soroban "CABC" "stellar-testnet" "GSRC" "").

(** The calls of the host's types that the contract did not sign. *)
Definition outside (calls : list (Contract.Env * Contract.Call)) : Prop :=
  Forall (λ '(env, call), Contract.typed_call call ∧ "shop"%string ∉ Contract.env_auths env) calls.
Lemma run_calls_steps calls c :
  outside calls → rtc (Contract.step demo_token "shop") c (run_calls calls c).
Proof.
  intros Hcalls. revert c. induction Hcalls as [|[env call] calls [Hty Hself] _ IH]; intros c; [apply rtc_refl|].
  etrans; [|apply IH]. unfold Contract.invoke.
  destruct (Contract.run_call _ _ _ _ _) as [[[]|] c'] eqn:Hc; [|apply rtc_refl].
  apply rtc_once. by apply (Contract.step_call _ _ env call).
Qed.
Lemma demo_outside n : outside (take n demo_calls).
Proof.
  apply Forall_take.
  repeat first [apply Forall_nil | apply Forall_cons; split]; cbn; first [done | split; [lia || exact I|set_solver]].
Qed.
Lemma demo_chain_ok n : Contract.chain_ok demo_token "shop" (demo_chain n).
Proof.
  apply (Contract.steps_ok demo_token "shop" (Contract.deployed demo_funds)).
  - exact (Contract.deployed_ok demo_token "shop" demo_funds).
  - apply run_calls_steps, demo_outside.
Qed.
Lemma shop_clock_draws : draws (D:=SqliteDb) shop_clock.
Proof. intros w. by eexists _, _. Qed.
Lemma shop_draw_draws : draws (D:=SqliteDb) shop_draw.
Proof. intros w. by eexists _, _. Qed.

(** What the gateway's world is once the contract answered. *)
Definition shop_asked (d : SqliteDb) (c : Contract.Chain (gmap string Z)) : ShopWorld :=
  mkShopWorld d (load_contract shop_soroban "CABC" "stellar-testnet" "" contract_init) c.
Lemma shop_visited d c :
  visited shop_soroban "CABC" "stellar-testnet" "GSRC" "" shop_clock demo_subscriber
    (Contract.key_sub c !! demo_subscriber) (2000 * SECOND) (shop_world d c) (shop_asked d c).
Proof. split; [done|]. exists true, (shop_world d c). split_and!; [done|by left|reflexivity]. Qed.

Lemma contract_in_order_witness :
  Contract.taken (Contract.published (demo_chain 4)) = 50
  ∧ Contract.taken (Contract.published (demo_chain 4))
    <= holds "shop" (Contract.chain_tokens (demo_chain 4)) + Contract.withdrawn (Contract.published (demo_chain 4)).
Proof.
  split; [vm_compute; reflexivity|].
  refine (Contract.ok_money _ _ _ (Contract.contract_in_order demo_token "shop" demo_funds (demo_chain 4) _) "XLM"%string _).
  - apply run_calls_steps, demo_outside.
  - vm_compute. reflexivity.
Defined.

Lemma nothing_moves_unsigned_witness :
  let env := Contract.mkEnv [demo_subscriber] 1000 in
  let call := Contract.CallSubscribe demo_subscriber "starter" in
  let c' := (Contract.run_call demo_token "shop" env call (demo_chain 2)).2 in
  holds demo_subscriber (Contract.chain_tokens c') = 70
  ∧ (demo_subscriber ∈ Contract.env_auths env
     ∨ demo_subscriber = "shop"%string
       ∧ ∃ a, Contract.key_admin (demo_chain 2) = Some a ∧ a ∈ Contract.env_auths env).
Proof.
  cbn zeta. split; [vm_compute; reflexivity|].
  refine (proj2 (proj2 (Contract.nothing_moves_unsigned demo_token "shop" (Contract.mkEnv [demo_subscriber] 1000)
    (Contract.CallSubscribe demo_subscriber "starter") (demo_chain 2) _ (demo_chain_ok 2) I _ (outcome_ok _ _ tt _)))
    "XLM"%string demo_subscriber _ _).
  - cbn. set_solver.
  - vm_compute. reflexivity.
  - reflexivity.
  - vm_compute. reflexivity.
Defined.

(** The subscriber pays at a second, on a chain. *)
Definition pay_at (now : Z) (c : Contract.Chain (gmap string Z)) :=
  Contract.subscribe demo_token "shop" (Contract.mkEnv [demo_subscriber] now) demo_subscriber "starter" c.
(** A month bought at second 1000, and one more at second 1800. *)
Definition bought : Contract.Chain (gmap string Z) := (pay_at 1000 (demo_chain 2)).2.
Definition first_month : Contract.Subscription := Contract.mkSubscription "starter" 1000 2593000 1.
Definition renewed_at_1800 : Contract.Chain (gmap string Z) := (pay_at 1800 bought).2.
Definition two_months : Contract.Subscription := Contract.mkSubscription "starter" 1000 5185000 2.
(** The ledger once the first month was seen. *)
Definition credited_db : SqliteDb := sw_db (shop_visit demo_subscriber (shop_world empty_db bought)).2.

Lemma bought_run : pay_at 1000 (demo_chain 2) = (Ok first_month, bought).
Proof. unfold bought. apply outcome_ok. vm_compute. reflexivity. Qed.
Lemma renewed_run : pay_at 1800 bought = (Ok two_months, renewed_at_1800).
Proof. unfold renewed_at_1800. apply outcome_ok. vm_compute. reflexivity. Qed.
Lemma bought_ok : Contract.chain_ok demo_token "shop" bought.
Proof.
  apply (Contract.subscribe_ok demo_token "shop" (Contract.mkEnv [demo_subscriber] 1000) demo_subscriber "starter"
    (demo_chain 2) bought first_month (demo_chain_ok 2)); [done|exact bought_run].
Qed.


(** The contract's plan is published with 3,000,000 tokens a period, which the gateway
    never reads: it credits the 4,000,000 of the plan it sells under that name. *)
Example published_tokens_ignored :
  (Contract.tokens <$> Contract.key_plan bought !! "starter"%string) = Some 3000000
  ∧ (entry_tokens <$> ledger_rows credited_db) = [4000000].
Proof. split; vm_compute; reflexivity. Qed.

(** Two months paid for, one month of tokens. *)
Lemma early_renewal_buys_no_tokens_witness :
  Contract.periods two_months = 2
  ∧ holds demo_subscriber (Contract.chain_tokens renewed_at_1800)
    = holds demo_subscriber (Contract.chain_tokens bought) - demo_price
  ∧ length (rows (shop_asked credited_db renewed_at_1800)) = 1%nat
  ∧ ∃ w, shop_visit demo_subscriber (shop_world credited_db renewed_at_1800)
      = (Ok (Some (mkSubscription demo_subscriber "starter" (1000 * SECOND) (5185000 * SECOND) ACTIVE)), w)
      ∧ rows w = rows (shop_asked credited_db renewed_at_1800).
Proof.
  destruct (catalog_plan bw_catalog "starter") as [p|e] eqn:Hp; [|by vm_compute in Hp].
  destruct (find_reference (period_reference "starter" 1000) (rows (shop_asked credited_db renewed_at_1800)))
    as [row|] eqn:Hrow; [|by vm_compute in Hrow].
  destruct (early_renewal_buys_no_tokens demo_token "shop" shop_soroban "CABC" "stellar-testnet" "GSRC" ""
    shop_clock shop_draw bw_catalog shop_clock_draws shop_draw_draws (Contract.mkEnv [demo_subscriber] 1800)
    demo_subscriber "starter" bought renewed_at_1800 first_month two_months p row (2000 * SECOND)
    (shop_world credited_db renewed_at_1800) (shop_asked credited_db renewed_at_1800))
    as (Hn & (pl & tk & Hpl & _ & Hbal & _) & w & Hv & Hrows).
  - exact bought_ok.
  - done.
  - vm_compute. reflexivity.
  - reflexivity.
  - done.
  - exact renewed_run.
  - reflexivity.
  - done.
  - done.
  - done.
  - done.
  - exact (shop_visited credited_db renewed_at_1800).
  - exact Hp.
  - injection Hp as <-. done.
  - injection Hp as <-. done.
  - intros w' Hr id w'' Hd. assert (id = int_str (Z.of_nat (length (rows w')))) as -> by (by injection Hd).
    rewrite Hr. vm_compute. intros H. by apply list_elem_of_singleton in H.
  - exact Hrow.
  - split; [done|]. split; [|split; [vm_compute; reflexivity|]].
    + vm_compute in Hpl. injection Hpl as <-. exact Hbal.
    + exists w. injection Hp as <-. split; [exact Hv|exact Hrows].
Defined.
