(* ===== verification/PaymentGate.v ===== *)
(** * Who pays for a run *)
(** [api/payment_gate.py]: the account a request's spending is charged to, from a session
    token, from a payment, or from neither; with the sign-in dependency and the invoice
    route of [api/routes/billing.py] and the handlers of [api/routes/x402.py], which
    answer from the same services. *)
From S2P Require Export X402Service Identity.
From Stdlib Require Import Ascii.
From stdpp Require Import options.
Local Open Scope Z_scope.

Definition space : ascii := " "%char.

Section gate.
Context {W D : Type} `{!Field W D} `{!BillingStore D}.
Context (now_utc : M W exn Z) (new_entry_id new_token : M W exn string) (clock : M W exn Z).
Context (network : PaymentNetwork W) (catalog : Catalog) (default_asset : string) (reserve : Z)
        (chain : SubscriptionRegistry W) (why : string → string).

(** What the gate reads of [Container]: whether there is a billing service, the identity
    service, and the price and resource of the x402 service. *)
Record Container : Type := mkContainer {
  charging : bool;
  identity : option IdentityService;
  x402 : option (Money * string)
}.
Context (container : Container).

(** The bearer token of an [Authorization] header. *)
Definition bearer (authorization : string) : option string :=
  let '(scheme, _, token) := str_partition space authorization in
  if negb (String.eqb (str_lower scheme) "bearer") || negb (str_truthy token) then None
  else Some (str_strip token).

(** [_session_account] *)
Definition session_account (authorization : string) : M W exn string :=
  match bearer authorization, identity container with
  | Some token, Some svc =>
      try_except (account_of clock svc token) (except cIdentityError (λ _, mret EmptyString))
  | _, _ => mret EmptyString
  end.

(** [_refuse] *)
Definition refuse {A} (account reason path : string) : M W exn A :=
  match x402 container with
  | None => raise (PaymentRequiredError (mkPaymentRequired reason []))
  | Some (price, resource) =>
      document ← try_except
        (payment_challenge now_utc new_token network catalog default_asset price resource
           account reason path)
        (except cException (λ _, raise (PaymentRequiredError (mkPaymentRequired reason []))));
      raise (PaymentRequiredError document)
  end.

(** [_paid_account]: the account, and what it leaves on the request's state. *)
Definition paid_account (header path : string) : M W exn (string * option string) :=
  match x402 container with
  | None => mret (EmptyString, None)
  | Some (_, resource) =>
      '(account, settlement) ← try_except
        (redeem now_utc new_entry_id network resource why header path)
        (except cX402Error (λ e, refuse EmptyString (exn_message e) path));
      mret (account, Some (settle_encode settlement))
  end.

Definition unpaid_reason : string := "this gateway charges for runs: sign in or pay per call".

(** [payer_of] *)
Definition payer_of (authorization x_payment path : string) : M W exn (string * option string) :=
  if negb (charging container) then mret (EmptyString, None)
  else
    account ← session_account authorization;
    '(account, settlement) ←
      (if negb (str_truthy account) && str_truthy x_payment && bool_decide (is_Some (x402 container))
       then paid_account x_payment path else mret (account, None));
    (if str_truthy account then mret tt else refuse EmptyString unpaid_reason path) ;;
    try_except
      (authorize now_utc new_entry_id catalog reserve chain account 0 ;; mret tt)
      (except cInsufficientFundsError (λ e, refuse account (exn_message e) path)) ;;
    mret (account, settlement).

(** ** Routes that sign in and ask *)

(** [account_of] of [api/routes/billing.py], the dependency of every signed-in route. *)
Definition signed_in (svc : IdentityService) (authorization : string) : M W exn string :=
  match bearer authorization with
  | None => raise (IdentityError "sign in first")
  | Some token => account_of clock svc token
  end.

(** [GET /billing/invoices/{invoice_id}] *)
Definition invoice_route (svc : IdentityService) (authorization invoice_id : string) : M W exn json :=
  account ← signed_in svc authorization;
  confirmed ← confirm now_utc new_entry_id network catalog invoice_id;
  if negb (String.eqb (invoice_account confirmed) account)
  then raise (InvoiceNotFoundError invoice_id)
  else mret (invoice_as_json confirmed).

(** [GET /x402/supported] *)
Definition supported_route : json := supported_as_json (supported network).
(** [POST /x402/verify] *)
Definition verify_route (p : PaymentPayload) (r : PaymentRequirements) : M W exn json :=
  v ← verify_payment now_utc network p r; mret (verify_as_json v).
(** [POST /x402/settle]: the status and the body. *)
Definition settle_route (p : PaymentPayload) (r : PaymentRequirements) : M W exn (Z * json) :=
  result ← settle_payment now_utc new_entry_id network p r;
  mret (if settle_success result then 200 else 402, settle_as_json result).
(** [POST /x402/quote] *)
Definition quote_route (x402_price : Money) (x402_resource payer resource usd : string) : M W exn json :=
  price ← (if str_truthy usd then m ← lift (money_parse (JStr usd)); mret (Some m) else mret None);
  '(r, i) ← requirements now_utc new_token network catalog default_asset x402_price x402_resource
              payer resource price;
  mret (JObj [("x402Version", JInt 1); ("accepts", JList [requirements_as_json r]);
              ("invoice", JStr (invoice_id i))]%string).
End gate.

(** ** What the gate guarantees *)

Section guarantees.
Context {W D : Type} `{!Field W D} `{!BillingStore D}.
Context (now_utc : M W exn Z) (new_entry_id new_token : M W exn string) (clock : M W exn Z).
Context (network : PaymentNetwork W) (catalog : Catalog) (default_asset : string) (reserve : Z)
        (chain : SubscriptionRegistry W) (why : string → string) (container : Container).

Abbreviation gate := (payer_of now_utc new_entry_id new_token clock network catalog default_asset reserve
  chain why container).
Abbreviation refuse_ := (refuse now_utc new_token network catalog default_asset container).

(** Refusing always raises. *)
Lemma refuse_raises {A} account reason path w (a : A) w' :
  refuse_ account reason path w ≠ (Ok a, w').
Proof.
  unfold refuse. destruct (x402 container) as [[price resource]|]; [|done].
  rewrite run_bind. by destruct (try_except _ _ w) as [[d|e] w1].
Qed.

(** What a refusal says, when quoting fails with nothing worse than an [Exception]. *)
Lemma refuse_told {A} account reason path w :
  (∀ price resource e w', x402 container = Some (price, resource) →
     payment_challenge now_utc new_token network catalog default_asset price resource
       account reason path w = (Raise e, w') → isinstance e cException = true) →
  ∃ d w', (refuse_ account reason path : M W exn A) w = (Raise (PaymentRequiredError d), w')
    ∧ required_error d = reason ∧ (length (accepts d) ≤ 1)%nat.
Proof.
  intros Hexc. unfold refuse. destruct (x402 container) as [[price resource]|] eqn:Hx;
    [|eexists _, w; split_and!; [done..|cbn; lia]].
  rewrite run_bind. unfold try_except.
  destruct (payment_challenge _ _ _ _ _ _ _ _ _ _ w) as [[d|e] w2] eqn:Hq.
  - exists d, w2. unfold payment_challenge in Hq. rewrite run_bind in Hq.
    destruct (requirements _ _ _ _ _ _ _ _ _ _ w) as [[[r i]|e] w3]; [|done].
    injection Hq as <- <-. by split_and!.
  - unfold except. rewrite (Hexc _ _ _ _ eq_refl Hq). eexists _, w2. split_and!; [done..|cbn; lia].
Qed.

Lemma session_account_sound authorization w w' account :
  session_account clock container authorization w = (Ok account, w') → account ≠ EmptyString →
  ∃ token svc, bearer authorization = Some token ∧ identity container = Some svc
    ∧ account_of clock svc token w = (Ok account, w').
Proof.
  unfold session_account. intros H Hne.
  destruct (bearer authorization) as [token|]; [|injection H as <- <-; done].
  destruct (identity container) as [svc|]; [|injection H as <- <-; done].
  exists token, svc. split_and!; [done..|]. unfold try_except in H.
  destruct (account_of clock svc token w) as [[a|e] w1]; [done|].
  unfold except in H. destruct (isinstance e cIdentityError); [|done]. injection H as <- <-. done.
Qed.

Lemma paid_account_sound header path w w' account settlement :
  paid_account now_utc new_entry_id new_token network catalog default_asset why container header path w
    = (Ok (account, settlement), w') →
  account = EmptyString ∨
  ∃ price resource result, x402 container = Some (price, resource)
    ∧ redeem now_utc new_entry_id network resource why header path w = (Ok (account, result), w')
    ∧ settlement = Some (settle_encode result).
Proof.
  unfold paid_account. destruct (x402 container) as [[price resource]|] eqn:Hx; [|intros [= <- _ _]; by left].
  intros H. right. apply bind_ok_inv in H as ([a result] & w1 & Hr & H). injection H as <- <- <-.
  exists price, resource, result. split_and!; [done| |done]. unfold try_except in Hr.
  destruct (redeem now_utc new_entry_id network resource why header path w) as [[r|e] w2]; [done|].
  unfold except in Hr. destruct (isinstance e cX402Error); [|done].
  by apply refuse_raises in Hr.
Qed.

(** What a gate that let a caller through has seen. *)
Lemma payer_of_ok authorization x_payment path w w' account settlement :
  gate authorization x_payment path w = (Ok (account, settlement), w') →
  (charging container = false ∧ account = EmptyString ∧ w' = w)
  ∨ (charging container = true ∧ account ≠ EmptyString
     ∧ ∃ w1 b,
         ((∃ token svc, bearer authorization = Some token ∧ identity container = Some svc
             ∧ account_of clock svc token w = (Ok account, w1))
          ∨ (∃ w0 price resource result, x402 container = Some (price, resource)
             ∧ redeem now_utc new_entry_id network resource why x_payment path w0
               = (Ok (account, result), w1)
             ∧ settlement = Some (settle_encode result)))
         ∧ authorize now_utc new_entry_id catalog reserve chain account 0 w1 = (Ok b, w')).
Proof.
  unfold payer_of. destruct (charging container) eqn:Hch; cbn [negb];
    [|intros [= <- <- <-]; left; by split_and!].
  intros H. right. apply bind_ok_inv in H as (a0 & w0 & Hs & H).
  apply bind_ok_inv in H as ([a st] & w1 & Hp & H).
  apply bind_ok_inv in H as (? & w2 & Hne & H).
  assert (a ≠ EmptyString ∧ w2 = w1) as [Ha ->].
  { destruct (str_truthy a) eqn:Ht; [|by apply refuse_raises in Hne].
    apply str_truthy_spec in Ht. split; [done|]. by injection Hne. }
  apply bind_ok_inv in H as (? & w3 & Hauth & H). injection H as <- <- <-.
  assert (∃ b, authorize now_utc new_entry_id catalog reserve chain a 0 w1 = (Ok b, w3)) as [b Hb].
  { unfold try_except in Hauth. rewrite run_bind in Hauth.
    destruct (authorize now_utc new_entry_id catalog reserve chain a 0 w1) as [[b|e] w4];
      [exists b; by injection Hauth as _ <-|].
    unfold except in Hauth. destruct (isinstance e cInsufficientFundsError); [|done].
    by apply refuse_raises in Hauth. }
  split_and!; [done..|]. exists w1, b. split; [|done].
  destruct (negb (str_truthy a0) && _ && _) eqn:Hc.
  - right. apply paid_account_sound in Hp as [->|(price & resource & result & Hx & Hr & Hst)]; [done|].
    by exists w0, price, resource, result.
  - left. injection Hp as <- <- <-. by apply session_account_sound.
Qed.

(** Nobody spends another's balance: the account the gate answers is nobody's when
    the gateway does not charge; otherwise it is one that a session token of this gateway
    proves, or the one a settlement of this very request's payment named -- and in both
    cases one whose balance has just been found to cover a run. *)
Theorem payer_proved authorization x_payment path w w' account settlement :
  gate authorization x_payment path w = (Ok (account, settlement), w') →
  (charging container = false ∧ account = EmptyString ∧ w' = w)
  ∨ (charging container = true ∧ account ≠ EmptyString
     ∧ ∃ w1 b,
         ((∃ token svc, bearer authorization = Some token ∧ identity container = Some svc
             ∧ account_of clock svc token w = (Ok account, w1))
          ∨ (∃ w0 price resource result, x402 container = Some (price, resource)
             ∧ redeem now_utc new_entry_id network resource why x_payment path w0
               = (Ok (account, result), w1)
             ∧ settlement = Some (settle_encode result)))
         ∧ authorize now_utc new_entry_id catalog reserve chain account 0 w1 = (Ok b, w')).
Proof. apply payer_of_ok. Qed.

(** A signed-in caller's payment header is not touched: whatever it holds, nothing of
    it is read, submitted or settled. *)
Theorem session_spends_no_payment authorization x_payment x_payment' path w w1 account :
  session_account clock container authorization w = (Ok account, w1) → account ≠ EmptyString →
  gate authorization x_payment path w = gate authorization x_payment' path w.
Proof.
  intros Hs Hne. unfold payer_of. destruct (charging container); [|done]. cbn [negb].
  rewrite !run_bind, Hs. apply str_truthy_spec in Hne. by rewrite Hne.
Qed.

(** Whoever has neither a session nor a payment is told the price and nothing else:
    the answer is a 402 whose body is the protocol's own document, with one way to pay, or
    with none when the network could not quote it -- whatever went wrong in quoting it. *)
Theorem unpaid_is_told authorization path w w1 request_id :
  charging container = true → session_account clock container authorization w = (Ok EmptyString, w1) →
  (∀ price resource e w2, x402 container = Some (price, resource) →
     payment_challenge now_utc new_token network catalog default_asset price resource
       EmptyString unpaid_reason path w1 = (Raise e, w2) → isinstance e cException = true) →
  ∃ d w', gate authorization EmptyString path w = (Raise (PaymentRequiredError d), w')
    ∧ required_error d = unpaid_reason ∧ (length (accepts d) ≤ 1)%nat
    ∧ answer_for request_id (PaymentRequiredError d)
      = Some {| answer_status := 402; answer_headers := []; answer_body := required_as_json d |}.
Proof.
  intros Hch Hs Hexc.
  destruct (refuse_told (A:=unit) EmptyString unpaid_reason path w1 Hexc) as (d & w' & Hr & Hd & Hl).
  exists d, w'. split_and!; [|done..]. unfold payer_of. rewrite Hch. cbn [negb]. rewrite run_bind, Hs.
  cbn [str_truthy negb andb]. rewrite run_bind. cbn [mret M_ret]. rewrite run_bind. cbn [str_truthy].
  by rewrite Hr.
Qed.

End guarantees.

(** ** Invoices are private *)

Section invoices.
#[local] Set Default Proof Using "Type*".
Context {W D : Type} `{!Field W D} `{!BillingStore D} `{!Undisturbed D}.
Context (now_utc : M W exn Z) (new_entry_id : M W exn string) (clock : M W exn Z)
        (network : PaymentNetwork W) (catalog : Catalog).
Abbreviation route := (invoice_route now_utc new_entry_id clock network catalog).

(** An invoice is shown to its own account only; and of one that is paid, everybody
    else learns exactly what they would of one that does not exist. *)
Theorem invoice_private svc authorization id w :
  (∀ j w', route svc authorization id w = (Ok j, w') →
     ∃ account i w1, signed_in clock svc authorization w = (Ok account, w1)
       ∧ confirm now_utc new_entry_id network catalog id w1 = (Ok i, w')
       ∧ j = invoice_as_json i ∧ invoice_account i = account)
  ∧ (∀ account w1, signed_in clock svc authorization w = (Ok account, w1) →
     match invoice id (store w1) with
     | None => True
     | Some i => status i = PAID ∧ invoice_account i ≠ account
     end →
     route svc authorization id w = (Raise (InvoiceNotFoundError id), w1)).
Proof.
  unfold invoice_route. split.
  - intros j w' H. apply bind_ok_inv in H as (account & w1 & Ha & H).
    apply bind_ok_inv in H as (i & w2 & Hc & H).
    destruct (String.eqb_spec (invoice_account i) account) as [He|]; [|done]. cbn [negb] in H.
    injection H as <- <-. by exists account, i, w1.
  - intros account w1 Ha Hi. rewrite run_bind, Ha. rewrite run_bind. unfold confirm.
    rewrite run_bind, run_store_read. fold (store w1).
    destruct (invoice id (store w1)) as [i|]; [|done]. destruct Hi as [Hp Hne].
    rewrite bool_decide_true by done. cbn [mret M_ret].
    by rewrite (proj2 (String.eqb_neq _ _)).
Qed.

(** While it is pending it can be told apart: the network is asked before the account is
    compared, so a failure of the network answers for an invoice that exists and is
    somebody else's. *)
Theorem invoice_told_apart svc authorization id w account w1 i e w2 :
  signed_in clock svc authorization w = (Ok account, w1) →
  invoice id (store w1) = Some i → status i ≠ PAID →
  payment_for network i w1 = (Raise e, w2) →
  route svc authorization id w = (Raise e, w2).
Proof.
  intros Ha Hi Hst Hp. unfold invoice_route. rewrite run_bind, Ha. rewrite run_bind.
  unfold confirm. rewrite run_bind, run_store_read. fold (store w1). rewrite Hi. cbn beta iota.
  rewrite bool_decide_false by done. by rewrite run_bind, Hp.
Qed.
End invoices.

(** ** A concrete gateway *)

Definition bw_seconds : M BillWorld exn Z := gets (λ w, bw_now w / SECOND).
Definition demo_container : Container := mkContainer true (Some demo_identity) (Some (mkMoney 500000, "/runs"%string)).
Definition demo_bearer : string := "Bearer " ++s demo_session_token.
Definition gate_world : BillWorld :=
  mkBillWorld (put_invoice (bw_invoice "tokens-1m") empty_db).2 (1700040000 * SECOND) 0.
Abbreviation demo_gate := (payer_of bw_clock bw_draw bw_draw bw_seconds paying_network bw_catalog "XLM"
  DEFAULT_RESERVE NoSubscriptions (λ _, EmptyString) demo_container).
Definition demo_passed : BillWorld := (demo_gate demo_bearer EmptyString "/runs" gate_world).2.

Lemma demo_gate_passes :
  demo_gate demo_bearer EmptyString "/runs" gate_world = (Ok (demo_address, None), demo_passed).
Proof. vm_compute. reflexivity. Qed.
Lemma demo_session_found :
  session_account bw_seconds demo_container demo_bearer gate_world = (Ok demo_address, gate_world).
Proof. vm_compute. reflexivity. Qed.
Lemma demo_no_session :
  session_account bw_seconds demo_container EmptyString gate_world = (Ok EmptyString, gate_world).
Proof. vm_compute. reflexivity. Qed.
Lemma demo_signed_in :
  signed_in bw_seconds demo_identity demo_bearer gate_world = (Ok demo_address, gate_world).
Proof. vm_compute. reflexivity. Qed.

Lemma payer_proved_witness :
  demo_address ≠ EmptyString ∧ ∃ w1 b,
    authorize bw_clock bw_draw bw_catalog DEFAULT_RESERVE NoSubscriptions demo_address 0 w1
    = (Ok b, demo_passed).
Proof.
  destruct (payer_proved bw_clock bw_draw bw_draw bw_seconds paying_network bw_catalog "XLM"
    DEFAULT_RESERVE NoSubscriptions (λ _, EmptyString) demo_container demo_bearer EmptyString "/runs"
    gate_world demo_passed demo_address None demo_gate_passes)
    as [(H & _)|(_ & Hne & w1 & b & _ & Ha)]; [discriminate H|].
  split; [exact Hne|]. exists w1, b. exact Ha.
Defined.

Lemma session_spends_no_payment_witness :
  demo_gate demo_bearer EmptyString "/runs" gate_world = demo_gate demo_bearer "anything" "/runs" gate_world.
Proof.
  apply (session_spends_no_payment bw_clock bw_draw bw_draw bw_seconds paying_network bw_catalog "XLM"
    DEFAULT_RESERVE NoSubscriptions (λ _, EmptyString) demo_container demo_bearer EmptyString "anything"
    "/runs" gate_world gate_world demo_address demo_session_found).
  discriminate.
Defined.

Lemma unpaid_is_told_witness :
  ∃ d w', demo_gate EmptyString EmptyString "/runs" gate_world = (Raise (PaymentRequiredError d), w')
    ∧ required_error d = unpaid_reason.
Proof.
  destruct (unpaid_is_told bw_clock bw_draw bw_draw bw_seconds paying_network bw_catalog "XLM"
    DEFAULT_RESERVE NoSubscriptions (λ _, EmptyString) demo_container EmptyString "/runs"
    gate_world gate_world None eq_refl demo_no_session) as (d & w' & Hg & Hd & _).
  - intros price resource e w2 [= <- <-] H. vm_compute in H. discriminate H.
  - exists d, w'. split; [exact Hg|exact Hd].
Defined.

Lemma invoice_private_witness :
  invoice_route bw_clock bw_draw bw_seconds paying_network bw_catalog demo_identity demo_bearer "cz9" gate_world
  = (Raise (InvoiceNotFoundError "cz9"), gate_world).
Proof.
  refine (proj2 (invoice_private bw_clock bw_draw bw_seconds paying_network bw_catalog demo_identity demo_bearer "cz9"
    gate_world) demo_address gate_world demo_signed_in _).
  exact I.
Defined.

(** A network that cannot be asked. *)
Definition dark_network : PaymentNetwork BillWorld :=
  mkNetwork BillWorld "stellar-testnet" "GDEST"
    (λ _, raise (PaymentNetworkError "Horizon answered 503")) (λ _ _, mret "8.0000000"%string)
    (network_verify paying_network) (network_settle paying_network).
Lemma invoice_told_apart_witness :
  invoice_route bw_clock bw_draw bw_seconds dark_network bw_catalog demo_identity demo_bearer "cz1" gate_world
  = (Raise (PaymentNetworkError "Horizon answered 503"), gate_world).
Proof.
  apply (invoice_told_apart bw_clock bw_draw bw_seconds dark_network bw_catalog demo_identity demo_bearer "cz1"
    gate_world demo_address gate_world (bw_invoice "tokens-1m") _ _ demo_signed_in);
    [reflexivity|discriminate|reflexivity].
Defined.
