(* ===== verification/PaidCall.v ===== *)
(** * A call that pays for itself *)
(** The gate of [api/payment_gate.py], the payment service and the billing service, from the
    [X-PAYMENT] header of a request to the account its run is charged to. *)
From S2P Require Export PaymentGate.
From stdpp Require Import options.
Local Open Scope Z_scope.

Section paid_call.
#[local] Set Default Proof Using "Type*".
Context {W D : Type} `{!Field W D} `{!BillingStore D} `{!BillingStoreLaws D}.
Context (now_utc : M W exn Z) (new_entry_id new_token : M W exn string) (clock : M W exn Z).
Context (network : PaymentNetwork W) (catalog : Catalog) (default_asset : string) (reserve : Z)
        (chain : SubscriptionRegistry W) (why : string → string) (container : Container).
Hypothesis now_draws : draws (D:=D) now_utc.
Hypothesis id_draws : draws (D:=D) new_entry_id.
Abbreviation gate := (payer_of now_utc new_entry_id new_token clock network catalog default_asset reserve
  chain why container).
Abbreviation session := (session_account clock container).

(** The header a client writes, and the requirement [redeem] settles it against. *)
Definition header_of (p : PaymentPayload) : string := b64encode (dumps_compact (payload_as_json p)).
Definition redeemed (i : Invoice) (resource : string) : PaymentRequirements :=
  mkPaymentRequirements SCHEME (network_id network) (settlement_amount i) resource EmptyString (destination i)
    (asset i) 300 "application/json" [("memo", JStr (invoice_memo i)); ("invoice", JStr (invoice_id i))]%string.
Definition names (p : PaymentPayload) (i : Invoice) : Prop :=
  str_or_empty (jget "invoice" (JObj (payload_fields p))) = invoice_id i ∧ str_truthy (invoice_id i) = true.

(** Redeeming a well-formed header is settling what it says. *)
Lemma redeem_run p i resource path w :
  well_formed_payload p → names p i → invoice (invoice_id i) (store w) = Some i →
  redeem now_utc new_entry_id network resource why (header_of p) path w
  = (result ← settle_payment now_utc new_entry_id network p
       (redeemed i (if str_truthy path then path else resource));
     if negb (settle_success result)
     then raise (X402Error (if str_truthy (settle_reason result) then settle_reason result
                            else "the payment could not be settled"))
     else mret (if str_truthy (settle_payer result) then settle_payer result else invoice_account i, result)) w.
Proof.
  intros Hp [Hn Ht] Hi. unfold redeem, header_of. rewrite run_bind, run_lift.
  rewrite (proj1 (payload_header why p EmptyString) Hp).
  cbn beta iota. cbv zeta. rewrite Hn, Ht. rewrite run_bind. rewrite run_store_read.
  fold (store w). by rewrite Hi.
Qed.

(** A caller without a session is asked for its payment. *)
Lemma gate_redeems p authorization price resource path w w0 :
  charging container = true → x402 container = Some (price, resource) →
  session authorization w = (Ok EmptyString, w0) → well_formed_payload p →
  gate authorization (header_of p) path w
  = ('(account, settlement) ← paid_account now_utc new_entry_id new_token network catalog default_asset why container
                                (header_of p) path;
     (if str_truthy account then mret tt
      else refuse now_utc new_token network catalog default_asset container EmptyString unpaid_reason path) ;;
     try_except
       (authorize now_utc new_entry_id catalog reserve chain account 0 ;; mret tt)
       (except cInsufficientFundsError (λ e, refuse now_utc new_token network catalog default_asset container account
                                               (exn_message e) path)) ;;
     mret (account, settlement)) w0.
Proof.
  intros Hch Hx Hs Hp. unfold payer_of. rewrite Hch. cbn [negb]. rewrite run_bind, Hs. cbn beta iota.
  assert (str_truthy (header_of p) = true) as ->.
  { apply str_truthy_spec. intros He. pose proof (proj1 (payload_header why p EmptyString) Hp) as Hd.
    fold (header_of p) in Hd. rewrite He in Hd. discriminate Hd. }
  rewrite Hx. cbn [str_truthy negb andb]. by rewrite bool_decide_true by done.
Qed.

(** *** A spent invoice stays spent *)

Hypothesis token_draws : draws (D:=D) new_token.
Hypothesis quote_aside : ∀ m a w, store (D:=D) (network_quote network m a w).2 = store w.
Hypothesis chain_aside : ∀ a w, store (D:=D) (chain_subscription chain a w).2 = store w.

Definition spent (id : string) (w : W) : Prop :=
  ∃ j, invoice id (store w) = Some j ∧ status j = PAID.

Lemma spent_aside {A} (m : M W exn A) id : (∀ w, store (m w).2 = store w) → preserves (spent id) m.
Proof. intros H w Hw. unfold spent. by rewrite H. Qed.
Lemma spent_draws {A} (m : M W exn A) id : draws (D:=D) m → preserves (spent id) m.
Proof. intros H. apply spent_aside. intros w. by destruct (H w) as (a & w' & -> & Hs). Qed.
Lemma spent_append e id : preserves (spent id) (store_write (append e)).
Proof.
  intros w Hw. rewrite run_store_write. unfold spent. cbn [snd]. by rewrite store_setf, append_invoice.
Qed.
Lemma spent_subscription s id : preserves (spent id) (store_write (put_subscription s)).
Proof.
  intros w Hw. rewrite run_store_write. unfold spent. cbn [snd].
  by rewrite store_setf, put_subscription_invoice.
Qed.
Lemma spent_invoice i id : id ≠ invoice_id i → preserves (spent id) (store_write (put_invoice i)).
Proof.
  intros Hne w Hw. rewrite run_store_write. unfold spent. cbn [snd]. by rewrite store_setf, put_invoice_other.
Qed.

(** Go through an operation none of whose writes is of the invoice. *)
#[local] Ltac keep_spent :=
  repeat match goal with
  | |- preserves _ (_ ≫= _) => apply preserves_bind; [|intros]
  | |- preserves _ (try_except _ _) => apply preserves_try; [|unfold except; intros]
  | |- preserves _ (if ?b then _ else _) => destruct b
  | |- preserves _ (match ?x with _ => _ end) => destruct x
  | H : (if ?b then _ else _) = Some _ |- _ => destruct b; simplify_eq
  | |- preserves _ (mret _) => apply preserves_ret
  | |- preserves _ (raise _) => apply preserves_raise
  | |- preserves _ (store_read _) => apply preserves_store_read
  | |- preserves _ (store_write (append _)) => apply spent_append
  | |- preserves _ (store_write (put_subscription _)) => apply spent_subscription
  | |- _ => first [apply spent_draws; assumption | apply spent_aside; by auto]
  end.

Lemma spent_settle_period account id :
  preserves (spent id) (settle_period now_utc new_entry_id catalog chain account).
Proof.
  unfold settle_period, mirror_chain, begin_free, expire_grant, grant, credit, balance. keep_spent.
Qed.

(** A refusal writes an invoice down, under an id of its own. *)
Definition other_tokens (id : string) : Prop :=
  ∀ w token w', new_token w = (Ok token, w') → id ≠ new_invoice_id token.
Lemma spent_refuse {A} account reason path id :
  other_tokens id →
  preserves (spent id)
    (refuse (A:=A) now_utc new_token network catalog default_asset container account reason path).
Proof.
  intros Hother. unfold refuse. destruct (x402 container) as [[price resource]|]; [|apply preserves_raise].
  apply preserves_bind; [|intros; apply preserves_raise].
  apply preserves_try; [|unfold except; intros; keep_spent].
  unfold payment_challenge. apply preserves_bind; [|intros; keep_spent]. unfold requirements.
  apply preserves_bind; [by apply spent_draws|]. intros t.
  apply preserves_bind_ran; [by apply spent_draws|]. intros token w w' Ht. keep_spent.
  apply spent_invoice. by eapply Hother.
Qed.
Lemma spent_authorize account needed id :
  preserves (spent id) (authorize now_utc new_entry_id catalog reserve chain account needed).
Proof.
  unfold authorize, balance. apply preserves_bind; [apply spent_settle_period|intros]. keep_spent.
Qed.

(** A quote fails with nothing worse than an [Exception]. *)
Hypothesis quotes_fail_softly : ∀ price resource account reason path w e w',
  x402 container = Some (price, resource) →
  payment_challenge now_utc new_token network catalog default_asset price resource account reason path w
    = (Raise e, w') → isinstance e cException = true.

(** A header whose invoice is closed is answered by a refusal. *)
Lemma closed_header_refused authorization p i price resource path w w0 :
  charging container = true → x402 container = Some (price, resource) →
  session authorization w = (Ok EmptyString, w0) → well_formed_payload p → names p i →
  invoice (invoice_id i) (store w0) = Some i → status i ≠ PENDING →
  ∃ d w', gate authorization (header_of p) path w = (Raise (PaymentRequiredError d), w')
    ∧ (other_tokens (invoice_id i) → spent (invoice_id i) w0 → spent (invoice_id i) w').
Proof.
  intros Hch Hx Hs Hp Hn Hi Hclosed.
  rewrite (gate_redeems p authorization price resource path w w0 Hch Hx Hs Hp). rewrite run_bind.
  unfold paid_account. rewrite Hx. rewrite run_bind. unfold try_except.
  rewrite (redeem_run p i resource path w0 Hp Hn Hi).
  set (r := redeemed i _). assert (named r = invoice_id i) as Hr.
  { unfold named, r, redeemed. cbn [req_extra]. change (jget "invoice" _) with (JStr (invoice_id i)).
    apply str_or_empty_str. }
  destruct (closed_refused now_utc new_entry_id network now_draws id_draws p r w0) as (reason & w1 & Hset & Hw1).
  { rewrite Hr. apply Hn. }
  { intros j. rewrite Hr, Hi. by intros [= <-]. }
  rewrite run_bind, Hset. cbn [settle_success negb]. unfold except. cbn [raise].
  match goal with |- context [isinstance (X402Error ?m) cX402Error] =>
    change (isinstance (X402Error m) cX402Error) with true; cbn beta iota;
    destruct (refuse_told now_utc new_token network catalog default_asset container (A:=string * SettleResult)
      EmptyString (exn_message (X402Error m)) path w1) as (d & w2 & Hrefuse & _) end.
  { intros price' resource' e w' Hx' He. by eapply quotes_fail_softly. }
  exists d, w2. unfold raise. rewrite Hrefuse. split; [done|]. intros Hother Hspent.
  eapply preserves_run; [by apply spent_refuse|exact Hrefuse|].
  destruct Hw1 as [->| ->]; [done|]. by apply (spent_draws now_utc).
Qed.

(** A caller whose payment was settled is asked for its balance. *)
Lemma paid_gate authorization p i price resource path w w0 result w5 :
  charging container = true → x402 container = Some (price, resource) →
  session authorization w = (Ok EmptyString, w0) → well_formed_payload p → names p i →
  invoice (invoice_id i) (store w0) = Some i →
  settle_payment now_utc new_entry_id network p (redeemed i (if str_truthy path then path else resource)) w0
    = (Ok result, w5) →
  settle_success result = true → settle_payer result ≠ EmptyString →
  gate authorization (header_of p) path w
  = (try_except
       (authorize now_utc new_entry_id catalog reserve chain (settle_payer result) 0 ;; mret tt)
       (except cInsufficientFundsError (λ e, refuse now_utc new_token network catalog default_asset container
                                               (settle_payer result) (exn_message e) path)) ;;
     mret (settle_payer result, Some (settle_encode result))) w5.
Proof.
  intros Hch Hx Hs Hp Hn Hi Hset Hsucc Htruthy%str_truthy_spec.
  rewrite (gate_redeems p authorization price resource path w w0 Hch Hx Hs Hp).
  rewrite run_bind. unfold paid_account. rewrite Hx. rewrite run_bind. unfold try_except at 1.
  rewrite (redeem_run p i resource path w0 Hp Hn Hi).
  rewrite run_bind, Hset, Hsucc. cbn [negb]. rewrite Htruthy. rewrite run_ret. cbn beta iota. rewrite run_ret.
  cbn beta iota. by rewrite Htruthy, run_bind, run_ret.
Qed.

End paid_call.

(** ** A paid call *)

(** Tokens that never name the invoice already issued. *)
Definition bw_token : M BillWorld exn string := n ← bw_draw; mret ("q" ++s n).
Lemma bw_token_draws : draws bw_token.
Proof. intros w. eexists _, _. by split. Qed.

Abbreviation bw_gate := (payer_of bw_clock bw_draw bw_token bw_seconds paying_network bw_catalog "XLM"
  DEFAULT_RESERVE NoSubscriptions (λ _, EmptyString) demo_container).
Lemma paid_quotes_softly price_ resource account_ reason path w e w' :
  x402 demo_container = Some (price_, resource) →
  payment_challenge bw_clock bw_token paying_network bw_catalog "XLM" price_ resource account_ reason path w
    = (Raise e, w') → isinstance e cException = true.
Proof.
  intros _ H. unfold payment_challenge, requirements in H.
  inv_bind H; [by destruct a|]. injection Hk as <-. inv_bind Hm; [|done]. inv_bind Hk; [|done]. inv_bind Hk0; [|done].
  inv_bind Hk; [done|]. injection Hk0 as <-. rewrite run_store_write in Hm2. cbn -[sqlite_put_invoice] in Hm2.
  unfold sqlite_put_invoice in Hm2. destruct (negb _); [by injection Hm2 as <- _|done].
Qed.

Definition paid_world : BillWorld :=
  (settle_payment bw_clock bw_draw paying_network x402_payload (redeemed (W:=BillWorld) paying_network x402_invoice "/runs") x402_world).2.
Definition paid_visit : result exn (option Subscription) * BillWorld :=
  settle_period bw_clock bw_draw bw_catalog NoSubscriptions "GPAYER" paid_world.
Lemma paid_settles :
  settle_period bw_clock bw_draw bw_catalog NoSubscriptions "GPAYER" paid_world
  = (Ok (Some (mkSubscription "GPAYER" "free" 1000000 (1000000 + days 7) ACTIVE)), paid_visit.2).
Proof. apply outcome_ok. vm_compute. reflexivity. Qed.
Lemma paid_enough :
  (Z.max 0 DEFAULT_RESERVE <=? total (balance_of "GPAYER" (all_entries "GPAYER" (store paid_visit.2)))) = true.
Proof. vm_compute. reflexivity. Qed.

