(* ===== verification/Agents.v ===== *)
(** * What the agents are sent and what they answer *)
(** The reading half of [application/orchestration.py]: the prompt made of an approved
    plan, the tests on what the planner answered, and [StreamScan], which reads the
    generating agent's event stream as it goes past. *)
From S2P Require Export PyJson Billing Models.
From Stdlib Require Import Ascii.
From stdpp Require Import options.
Local Open Scope Z_scope.

(** ** Reading a plan *)

(** [_list] and [_items] *)
Definition as_list (v : json) : list json := match v with JList l => l | _ => [] end.
Definition items (v : json) : list json := filter (λ v, is_dict v = true) (as_list v).

(** [_entity] *)
Definition entity (e : json) : string :=
  let name := str_or_empty (jget "name" e) in
  let detail := str_join ", " (map py_str (as_list (jget "fields" e))) in
  let detail := if str_truthy detail then detail
                else str_strip (str_or_empty (jget "description" e)) in
  if str_truthy detail then name ++s " (" ++s detail ++s ")" else name.

Definition HEADER : string :=
  "Generá un proyecto completo, con su estructura de archivos, README y tests.".

(** One section of the prompt, or none when it has nothing to list. *)
Definition section (title : string) (parts : list string) : list string :=
  match parts with [] => [] | _ => [title ++s str_join "; " parts] end.

Definition flow (f : json) : string :=
  py_str (jget "name" f) ++s ": " ++s str_join " → " (map py_str (as_list (jget "steps" f))).

(** [prompt_for] *)
Definition prompt_for (plan : json) : string :=
  let sections :=
    section "Entidades: " (map entity (items (jget "entities" plan)))
    ++ section "Roles: " (map (λ r, str_or_empty (jget "name" r)) (items (jget "roles" plan)))
    ++ section "Flujos: " (map flow (items (jget "flows" plan)))
    ++ section "Restricciones: "
         (map (λ c, str_or_empty (jget "statement" c)) (items (jget "constraints" plan)))
    ++ section "Decisiones que el plan deja abiertas (resolvelas y dejá dicho qué asumiste): "
         (map py_str (as_list (jget "openQuestions" plan))) in
  let purpose := str_or_empty (jget "purpose" plan) in
  str_join (str1 nl)
    ([HEADER; EmptyString; purpose] ++ match sections with [] => [] | _ => EmptyString :: sections end).

(** [_questions] *)
Definition questions (answer : json) : list json :=
  if negb (is_dict answer) then []
  else
    let nested := jget "questionnaire" answer in
    let source := if is_dict nested then nested else answer in
    filter (λ q, is_dict q && str_truthy (str_strip (str_or_empty (jget "text" q))) = true)
           (as_list (jget "questions" source)).

(** [_is_plan] *)
Definition is_plan (answer : json) : bool :=
  is_dict answer
  && str_truthy (str_strip (str_or_empty (jget "purpose" answer)))
  && existsb (λ field, negb (bool_decide (length (items (jget field answer)) = 0%nat)))
       ["entities"; "roles"; "flows"; "constraints"]%string.

(** ** StreamScan *)

Definition MAX_TAIL : nat := Z.to_nat 8192.
Definition ARTIFACT_CHARS : nat := 24.

Definition word_char (c : ascii) : bool := alnum_char c || Ascii.eqb c "_".
Definition hex_char (c : ascii) : bool :=
  digit_char c || ((97 <=? ascii_code c) && (ascii_code c <=? 102)).

(** [[0-9a-f]{n}] at the start of the text. *)
Fixpoint hex_run (n : nat) (s : string) : option (string * string) :=
  match n, s with
  | O, _ => Some (EmptyString, s)
  | S n', String c s' =>
      if hex_char c then '(m, r) ← hex_run n' s'; Some (String c m, r) else None
  | S _, EmptyString => None
  end.
Definition starts_word (s : string) : bool :=
  match s with String c _ => word_char c | EmptyString => false end.

(** [ARTIFACT_ID.search(line)]: the first 24 hexadecimal digits that are a word;
    [after_word] when the character before is part of one. *)
Fixpoint artifact_search (after_word : bool) (s : string) : option string :=
  match s with
  | EmptyString => None
  | String c s' =>
      match (if after_word then None else hex_run ARTIFACT_CHARS s) with
      | Some (m, r) => if starts_word r then artifact_search (word_char c) s' else Some m
      | None => artifact_search (word_char c) s'
      end
  end.

Record StreamScan : Type := mkScan { artifact : string; usage : Usage; tail : string }.
Definition new_scan : StreamScan :=
  {| artifact := EmptyString; usage := no_usage; tail := EmptyString |}.

Definition set_scan_artifact (a : string) (s : StreamScan) : StreamScan :=
  {| artifact := a; usage := usage s; tail := tail s |}.
Definition set_scan_usage (u : Usage) (s : StreamScan) : StreamScan :=
  {| artifact := artifact s; usage := u; tail := tail s |}.
Definition set_scan_tail (t : string) (s : StreamScan) : StreamScan :=
  {| artifact := artifact s; usage := usage s; tail := t |}.

(** [event.get(k) == text] *)
Definition jis (j : json) (text : string) : bool :=
  match j with JStr s => String.eqb s text | _ => false end.

(** [_read] *)
Definition scan_read (line : string) (s : StreamScan) : result exn StreamScan :=
  if negb (starts_with "data: " line) then Ok s
  else match loads (str_drop 6 line) with
  | None => Ok s
  | Some event =>
      if negb (is_dict event) then Ok s
      else if jis (jget "type" event) "done" then
        let project := jget "project" event in
        let s := if is_dict project && jtruthy (jget "id" project)
                 then set_scan_artifact (py_str (jget "id" project)) s else s in
        let cost := jget "cost" event in
        if is_dict cost then u ← usage_from_agent cost; Ok (set_scan_usage u s) else Ok s
      else if negb (str_truthy (artifact s)) && jis (jget "name" event) "artifact" then
        match artifact_search false line with
        | Some m => Ok (set_scan_artifact m s)
        | None => Ok s
        end
      else Ok s
  end.

Fixpoint scan_lines (lines : list string) (s : StreamScan) : result exn StreamScan :=
  match lines with
  | [] => Ok s
  | l :: lines' => s' ← scan_read l s; scan_lines lines' s'
  end.

(** [feed] *)
Definition feed (chunk : string) (s : StreamScan) : result exn StreamScan :=
  let lines := str_split nl (tail s ++s chunk) in
  let s := set_scan_tail (str_last MAX_TAIL (List.last lines EmptyString)) s in
  scan_lines (removelast lines) s.

Fixpoint feed_all (chunks : list string) (s : StreamScan) : result exn StreamScan :=
  match chunks with
  | [] => Ok s
  | c :: chunks' => s' ← feed c s; feed_all chunks' s'
  end.

(** ** How the stream is cut does not matter *)

Lemma scan_read_tail line t s :
  scan_read line (set_scan_tail t s)
  = match scan_read line s with Ok s' => Ok (set_scan_tail t s') | Raise e => Raise e end.
Proof.
  unfold scan_read. destruct (negb (starts_with _ _)); [done|].
  destruct (loads _) as [event|]; [|done]. destruct (negb (is_dict event)); [done|].
  destruct (jis (jget "type" event) "done").
  - destruct (is_dict (jget "project" event) && _); destruct (is_dict (jget "cost" event)); try done;
      by destruct (usage_from_agent _).
  - cbn [artifact set_scan_tail]. destruct (_ && _); [|done]. by destruct (artifact_search _ _).
Qed.

Lemma scan_lines_tail lines t s :
  scan_lines lines (set_scan_tail t s)
  = match scan_lines lines s with Ok s' => Ok (set_scan_tail t s') | Raise e => Raise e end.
Proof.
  revert s. induction lines as [|l lines IH]; intros s; [done|]. cbn [scan_lines].
  rewrite scan_read_tail. destruct (scan_read l s) as [s1|]; cbn; [apply IH|done].
Qed.

Lemma scan_lines_app l l' s :
  scan_lines (l ++ l') s = (s' ← scan_lines l s; scan_lines l' s').
Proof.
  revert s. induction l as [|x l IH]; intros s; [done|]. cbn.
  destruct (scan_read x s); cbn; [apply IH|done].
Qed.

Lemma scan_lines_tail_kept lines s s' : scan_lines lines s = Ok s' → tail s' = tail s.
Proof.
  intros H. pose proof (scan_lines_tail lines (tail s) s) as E.
  assert (set_scan_tail (tail s) s = s) as Hs by by destruct s.
  rewrite Hs, H in E. injection E as E. by rewrite E.
Qed.

Definition str_concat (l : list string) : string := foldr String.app EmptyString l.
Definition short_lines (s : string) : Prop :=
  Forall (λ l, (String.length l <= MAX_TAIL)%nat) (str_split nl s).

Lemma str_last_short n s : (String.length s <= n)%nat → str_last n s = s.
Proof. intros H. unfold str_last. by replace (String.length s - n)%nat with 0%nat by lia. Qed.
Lemma str_drop_length n s : String.length (str_drop n s) = (String.length s - n)%nat.
Proof. revert s. induction n as [|n IH]; intros [|c s]; cbn; auto. Qed.
Lemma str_last_length n s : (String.length (str_last n s) <= n)%nat.
Proof. unfold str_last. rewrite str_drop_length. lia. Qed.

Lemma list_last_app {A} (l : list A) x l' d : List.last (l ++ x :: l') d = List.last (x :: l') d.
Proof. induction l as [|y l IH]; [done|]. cbn. destruct l; [done|]. exact IH. Qed.

(** The whole buffer at once: its complete lines are read, its last one is kept. *)
Definition feed_whole (buffer : string) (s : StreamScan) : result exn StreamScan :=
  s' ← scan_lines (removelast (str_split nl buffer)) s;
  Ok (set_scan_tail (List.last (str_split nl buffer) EmptyString) s').

Lemma feed_whole_app a b s :
  has_char nl (tail s) = false → short_lines ((tail s ++s a) ++s b) →
  (s' ← feed a s; feed_whole (tail s' ++s b) s') = feed_whole ((tail s ++s a) ++s b) s
  ∧ ∀ s', feed a s = Ok s' →
      has_char nl (tail s') = false
      ∧ (short_lines (tail s' ++s b)).
Proof.
  intros Ht Hshort. unfold feed, feed_whole.
  destruct (str_split_snoc nl (tail s ++s a)) as (l & x & Hl).
  destruct (str_split_cons nl b) as (y & ys & Hb).
  pose proof (str_split_app nl _ _ l x y ys Hl Hb) as Hall.
  unfold short_lines in *. rewrite Hall, Hl in *. rewrite removelast_last, last_last.
  assert (has_char nl x = false) as Hx.
  { apply (str_split_clean nl (tail s ++s a)). rewrite Hl. set_solver. }
  pose proof (str_split_app_clean nl x b y ys Hx Hb) as Hxb.
  apply Forall_app in Hshort as [_ Hshort].
  assert (String.length x <= MAX_TAIL)%nat as Hlen.
  { apply Forall_cons_1 in Hshort as [H _]. rewrite str_length_app in H. lia. }
  rewrite (str_last_short _ _ Hlen). cbv zeta.
  split.
  - rewrite scan_lines_tail. rewrite removelast_app, scan_lines_app by done.
    destruct (scan_lines l s) as [s1|]; [|done]. cbn [mbind result_bind].
    change (tail (set_scan_tail x s1)) with x. rewrite Hxb, scan_lines_tail.
    destruct (scan_lines (removelast ((x ++s y) :: ys)) s1) as [s2|]; [|done].
    cbn [mbind result_bind]. by rewrite list_last_app.
  - intros s' Hs. apply scan_lines_tail_kept in Hs. rewrite Hs. cbn [tail set_scan_tail].
    split; [done|]. by rewrite Hxb.
Qed.

Lemma feed_all_whole chunks s :
  has_char nl (tail s) = false → short_lines (tail s ++s str_concat chunks) →
  (String.length (tail s) <= MAX_TAIL)%nat →
  feed_all chunks s = feed_whole (tail s ++s str_concat chunks) s.
Proof.
  revert s. induction chunks as [|c chunks IH]; intros s Ht Hs Hl; cbn [feed_all str_concat foldr] in *.
  - rewrite app_empty_r in *. unfold feed_whole. rewrite <- (app_empty_r (tail s)).
    rewrite (str_split_app_clean nl _ EmptyString EmptyString [] Ht eq_refl), app_empty_r. cbn.
    by destruct s.
  - change (foldr String.app EmptyString chunks) with (str_concat chunks) in *.
    rewrite <- app_assoc_s in *. destruct (feed_whole_app c (str_concat chunks) s Ht Hs) as [<- Hn].
    destruct (feed c s) as [s1|] eqn:Hf; cbn [mbind result_bind]; [|done].
    destruct (Hn s1 eq_refl) as [Ht1 Hs1]. apply IH; [done|done|].
    unfold feed in Hf. apply scan_lines_tail_kept in Hf. rewrite Hf. apply str_last_length.
Qed.

(** C34. What the run keeps of a stream does not depend on how the network cut it: as
    long as no line of it is longer than [MAX_TAIL], reading it chunk by chunk ends,
    an exception included, exactly as reading it in one piece. *)
Theorem scan_ignores_chunking chunks
    (Hshort : short_lines (str_concat chunks)) :
  feed_all chunks new_scan = feed (str_concat chunks) new_scan.
Proof.
  rewrite feed_all_whole by (done || cbn; lia). symmetry.
  assert (feed_all [str_concat chunks] new_scan = feed (str_concat chunks) new_scan) as <-.
  { cbn. by destruct (feed _ _). }
  rewrite feed_all_whole by (rewrite ?str_concat; cbn; rewrite ?app_empty_r; done || (cbn; lia)).
  cbn [str_concat foldr]. by rewrite app_empty_r.
Qed.

Definition sample_id : string := "0123456789abcdef01234567".
Definition sample_done : string :=
  "data: {" ++s quoted "type" ++s ": " ++s quoted "done" ++s ", " ++s quoted "project" ++s ": {"
  ++s quoted "id" ++s ": " ++s quoted sample_id ++s "}, " ++s quoted "cost" ++s ": {"
  ++s quoted "usage" ++s ": {" ++s quoted "tokens" ++s ": 12, " ++s quoted "calls" ++s ": 2}}}"
  ++s String nl (str1 nl).
Definition cut (n : nat) (s : string) : list string := [str_take n s; str_drop n s].

Lemma scan_ignores_chunking_witness :
  match feed_all (cut 30 sample_done) new_scan with
  | Ok s => artifact s = sample_id ∧ tokens (usage s) = 12
  | Raise _ => False
  end.
Proof.
  refine (eq_ind_r (λ r, match r with Ok s => artifact s = sample_id ∧ tokens (usage s) = 12
                                   | Raise _ => False end) _
            (scan_ignores_chunking (cut 30 sample_done) _)).
  - vm_compute. split; reflexivity.
  - apply (bool_decide_unpack _). vm_compute. exact I.
Defined.

(** The memory of the scan is bounded: between chunks it keeps at most [MAX_TAIL]
    bytes of the stream, whatever arrived. *)
Theorem scan_tail_bounded chunks s s'
    (Hstart : (String.length (tail s) <= MAX_TAIL)%nat) (Hfeed : feed_all chunks s = Ok s') :
  (String.length (tail s') <= MAX_TAIL)%nat.
Proof.
  revert s Hstart Hfeed. induction chunks as [|c chunks IH]; intros s Hs; cbn.
  - by intros [= <-].
  - destruct (feed c s) as [s1|] eqn:Hf; [|done]. apply IH.
    unfold feed in Hf. apply scan_lines_tail_kept in Hf. rewrite Hf. apply str_last_length.
Qed.

Lemma scan_tail_bounded_witness :
  ∃ s, feed_all (cut 30 sample_done) new_scan = Ok s ∧ (String.length (tail s) <= MAX_TAIL)%nat.
Proof.
  destruct (feed_all (cut 30 sample_done) new_scan) as [s|] eqn:Hf; [|vm_compute in Hf; discriminate].
  exists s. split; [reflexivity|].
  refine (scan_tail_bounded (cut 30 sample_done) new_scan s _ Hf). vm_compute. lia.
Defined.

(** A final event padded beyond the cap. *)
Definition long_done : string :=
  "data: {" ++s quoted "type" ++s ": " ++s quoted "done" ++s ", " ++s quoted "text" ++s ": "
  ++s quoted (str_repeat (MAX_TAIL + 20) "x") ++s ", " ++s quoted "project" ++s ": {"
  ++s quoted "id" ++s ": " ++s quoted sample_id ++s "}}" ++s String nl (str1 nl).

(** The bound has a price: a final event longer than [MAX_TAIL] is read when it
    arrives in one chunk and lost when it arrives in two, and with it the id of a
    project that exists. *)
Theorem long_event_depends_on_chunking :
  (match feed_all [long_done] new_scan with Ok s => artifact s | Raise _ => EmptyString end)
    = sample_id
  ∧ (match feed_all (cut (MAX_TAIL + 60) long_done) new_scan with Ok s => artifact s | Raise _ => "error"%string end)
    = EmptyString.
Proof. split; vm_compute; reflexivity. Qed.

(** ** The artifact named in a sentence *)

Fixpoint ends_word (after_word : bool) (s : string) : bool :=
  match s with EmptyString => after_word | String c s' => ends_word (word_char c) s' end.

(** [m] stands in [s] as a word of 24 hexadecimal digits. *)
Definition artifact_at (after_word : bool) (s before m after : string) : Prop :=
  s = before ++s m ++s after ∧ String.length m = ARTIFACT_CHARS ∧ str_all hex_char m = true
  ∧ ends_word after_word before = false ∧ starts_word after = false.

Lemma hex_run_spec n s m r :
  hex_run n s = Some (m, r) ↔ s = m ++s r ∧ String.length m = n ∧ str_all hex_char m = true.
Proof.
  revert s m r. induction n as [|n IH]; intros s m r.
  - cbn. split.
    + intros H. assert (m = EmptyString ∧ r = s) as [-> ->] by (destruct s; by simplify_eq). done.
    + intros (-> & Hm & _). by destruct m; [destruct r|].
  - destruct s as [|c s]; cbn.
    { split; [done|]. intros (Hs & Hm & _). by destruct m. }
    destruct (hex_char c) eqn:Hc.
    + destruct (hex_run n s) as [[m' r']|] eqn:Hr; cbn.
      * apply IH in Hr. split.
        -- intros [= <- <-]. destruct Hr as (-> & <- & Hall). cbn. by rewrite Hc, Hall.
        -- intros (Hs & Hm & Hall). destruct m as [|d m]; [done|]. cbn in *.
           rewrite app_cons_s in Hs. injection Hs as <- Hs. apply andb_true_iff in Hall as [_ Hall].
           assert (hex_run n s = Some (m, r)) as Hr2 by (apply IH; split_and!; [done|lia|done]).
           assert (hex_run n s = Some (m', r')) as Hr3 by by apply IH. congruence.
      * split; [done|]. intros (Hs & Hm & Hall). destruct m as [|d m]; [done|]. cbn in *.
        rewrite app_cons_s in Hs. injection Hs as <- Hs. apply andb_true_iff in Hall as [_ Hall].
        assert (hex_run n s = Some (m, r)) as Hr2 by (apply IH; split_and!; [done|lia|done]). congruence.
    + split; [done|]. intros (Hs & Hm & Hall). destruct m as [|d m]; [done|]. cbn in *.
      rewrite app_cons_s in Hs. injection Hs as <- Hs. by rewrite Hc in Hall.
Qed.

Lemma artifact_at_cons w c s before m after :
  artifact_at (word_char c) s before m after → artifact_at w (String c s) (String c before) m after.
Proof. intros (-> & Hl & Hh & Hb & Ha). by split_and!. Qed.

(** Without a [done] event, the artifact taken from the line of an [artifact]
    step is exactly a word of 24 hexadecimal digits of it: what is found is one, and
    something is found whenever the line has one. *)
Theorem artifact_search_correct w s :
  match artifact_search w s with
  | Some m => ∃ before after, artifact_at w s before m after
  | None => ∀ before m after, ¬ artifact_at w s before m after
  end.
Proof.
  revert w. induction s as [|c s IH]; intros w; cbn [artifact_search].
  - intros before m after (Hs & Hl & _). destruct before; [|done]. by destruct m.
  - assert (∀ (Hno : ∀ m after, ¬ artifact_at w (String c s) EmptyString m after),
      match artifact_search (word_char c) s with
      | Some m => ∃ before after, artifact_at w (String c s) before m after
      | None => ∀ before m after, ¬ artifact_at w (String c s) before m after
      end) as Hskip.
    { intros Hno. specialize (IH (word_char c)). destruct (artifact_search (word_char c) s) as [m|].
      - destruct IH as (b & a & H). exists (String c b), a. by apply artifact_at_cons.
      - intros [|d b] m a H; [by eapply Hno|]. destruct H as (Hs & Hl & Hh & Hb & Ha).
        rewrite app_cons_s in Hs. injection Hs as <- Hs. by apply (IH b m a). }
    destruct w; [apply Hskip; by intros m a (_ & _ & _ & Hb & _)|].
    destruct (hex_run ARTIFACT_CHARS (String c s)) as [[m r]|] eqn:Hr.
    + destruct (starts_word r) eqn:Hw.
      * apply Hskip. intros m' a (Hs & Hl & Hh & _ & Ha).
        assert (hex_run ARTIFACT_CHARS (String c s) = Some (m', a)) as Hr'
          by (apply hex_run_spec; by split_and!).
        rewrite Hr in Hr'. injection Hr' as <- <-. congruence.
      * exists EmptyString, r. apply hex_run_spec in Hr as (? & ? & ?). by split_and!.
    + apply Hskip. intros m' a (Hs & Hl & Hh & _ & Ha).
      assert (hex_run ARTIFACT_CHARS (String c s) = Some (m', a)) as Hr'
        by (apply hex_run_spec; by split_and!). congruence.
Qed.
