(* ===== verification/Orchestration.v ===== *)
(** * The orchestrator of runs *)
(** The acting half of [application/orchestration.py]: [RunOrchestrator], which moves
    a run around the calls to the two agents.  The orchestrator is written against the
    ports it is given (the proxy, the store of runs, the log, the meter); everything it
    awaits is an effect on the world [W], and other requests may run inside any of
    them. *)
From S2P Require Export Agents RunStore Proxy.
From S2P Require Import RunLog.
From stdpp Require Import options.
Local Open Scope Z_scope.

(** ** The ports *)

(** [ProxyService], as the orchestrator calls it. *)
Record ProxyService (W : Type) : Type := mkProxyService {
  ps_forward : string → InboundRequest → M W exn UpstreamResponse;
  ps_stream : string → InboundRequest → M W exn UpstreamStream
}.
Arguments mkProxyService {_} _ _.
Arguments ps_forward {_} _ _ _.
Arguments ps_stream {_} _ _ _.

Definition ProxyService_of {W} (registry : ServiceRegistry) (client : UpstreamClient W)
    : ProxyService W :=
  {| ps_forward name request := forward registry client name request None;
     ps_stream name request := proxy_stream registry client name request None |}.

(** The three methods of the log the orchestrator writes with: plain, synchronous
    changes of the process. *)
Record RunLogPort (W : Type) : Type := mkRunLogPort {
  log_start : string → W → W;
  log_append : string → string → W → W;
  log_end : string → W → W
}.
Arguments mkRunLogPort {_} _ _ _.
Arguments log_start {_} _ _ _.
Arguments log_append {_} _ _ _ _.
Arguments log_end {_} _ _ _.

Definition RunLogPort_of {W} `{!Field W Log.State} (conf : Log.Config) : RunLogPort W :=
  {| log_start id := updf (Log.start conf id);
     log_append id chunk := updf (Log.append conf id chunk);
     log_end id := updf (Log.finish id) |}.

(** [RunMeter]; the tokens of the entry written are all that is read of the answer. *)
Record RunMeter (W : Type) : Type := mkRunMeter {
  meter_authorize : string → M W exn unit;
  meter_charge : string → string → Usage → M W exn (option Z)
}.
Arguments mkRunMeter {_} _ _.
Arguments meter_authorize {_} _ _.
Arguments meter_charge {_} _ _ _ _.

Record OrchestrationSettings : Type := mkOrchestrationSettings {
  enabled : bool;
  pm_service : string;
  backend_service : string;
  pm_token : string;
  backend_token : string;
  locale : string;
  console : bool
}.
Definition default_orchestration : OrchestrationSettings :=
  {| enabled := false; pm_service := "pm"; backend_service := "backend";
     pm_token := EmptyString; backend_token := EmptyString; locale := "es"; console := false |}.

(** ** RunOrchestrator *)

Section orchestrator.
Context {W : Type} `{!RunStore W}.
Context (proxy : ProxyService W) (settings : OrchestrationSettings) (log : RunLogPort W)
        (meter : option (RunMeter W)).
(** [time.monotonic], [secrets.token_hex(16)], a [yield] to the caller, the release of
    a stream's connection, and what a [ValueError] of [json.loads] says of a text. *)
Context (monotonic : M W exn Z) (token_hex : M W exn string)
        (emit : string → M W exn unit) (close : nat → M W exn unit)
        (json_error : string → string).

(** A method of the run, at a reading of the clock. *)
Definition move (f : Z → Run → result exn Run) (r : Run) : M W exn Run :=
  now ← monotonic; lift (f now r).
Definition touch (f : Z → Run → Run) (r : Run) : M W exn Run :=
  now ← monotonic; mret (f now r).

(** [_agent_headers] *)
Definition agent_headers (token : string) : Headers :=
  ("content-type", "application/json")%string
  :: (if str_truthy token then [("x-mirag-token"%string, token)] else []).

Definition agent_request (method path body token : string) : InboundRequest :=
  {| in_method := method; in_path := path; in_headers := agent_headers token;
     in_query_params := []; in_body := body; client_host := None; scheme := "http";
     host := None; request_id := None |}.

(** [type(v).__name__] of a JSON value, as an [AttributeError] spells it. *)
Definition json_type (v : json) : string :=
  match v with
  | JNull => "NoneType" | JBool _ => "bool" | JInt _ => "int" | JFloat _ => "float"
  | JStr _ => "str" | JList _ => "list" | JObj _ => "dict"
  end.
(** [v.get(k)], on a value that may not be a dict. *)
Definition attr_get (k : string) (v : json) : result exn json :=
  if is_dict v then Ok (jget k v)
  else Raise (ForeignError "AttributeError"
                ("'" ++s json_type v ++s "' object has no attribute 'get'")).

(** [_ask_pm] *)
Definition ask_pm (operation : string) (payload : list (string * json)) : M W exn json :=
  let body := dumps (JObj (payload ++ [("locale"%string, JStr (locale settings))])) in
  response ← ps_forward proxy (pm_service settings)
               (agent_request "POST" ("api/v1/" ++s operation) body (pm_token settings));
  let text := if str_truthy (response_body response) then response_body response else "{}"%string in
  match loads text with
  | None =>
      raise (OrchestrationError (pm_service settings)
               (operation ++s " did not answer JSON: " ++s json_error text))
  | Some answer =>
      if (400 <=? response_status response) || negb (is_dict answer) then
        detail ← (if is_dict answer
                  then lift (attr_get "message" (jor (jget "error" answer) (JObj [])))
                  else mret (JStr EmptyString));
        raise (OrchestrationError (pm_service settings)
                 (py_str (jor detail (JStr (operation ++s " answered "
                                            ++s int_str (response_status response))))))
      else mret answer
  end.

Definition questionnaire_of (reason : json) (qs : list json) : json :=
  JObj [("reason"%string, JStr (str_or_empty reason)); ("questions"%string, JList qs)].

(** [_plan] *)
Definition plan_turn (r : Run) : M W exn Run :=
  answer ← ask_pm "plan"
    [("idea", JStr (idea r));
     ("answers", JList (map (λ a, JObj [("questionId", JStr (question_id a));
                                       ("value", JStr (answer_value a))]) (answers r)));
     ("round", JInt (rounds r)); ("maxRounds", JInt MAX_ROUNDS)]%string;
  match questions answer with
  | (_ :: _) as qs =>
      if rounds_left r <=? 0 then
        raise (OrchestrationError (pm_service settings)
                 ("the PM asked for round " ++s int_str (rounds r + 1) ++s " of "
                  ++s int_str MAX_ROUNDS))
      else move (asked (summary r) (questionnaire_of (jget "reason" answer) qs)) r
  | [] =>
      if negb (is_plan answer) then
        raise (OrchestrationError (pm_service settings) "the PM returned neither a plan nor questions")
      else move (proposed answer) r
  end.

(** [start] *)
Definition start (text owner : string) : M W exn Run :=
  match meter with
  | Some m => if str_truthy owner then meter_authorize m owner else mret tt
  | None => mret tt
  end ;;
  token ← token_hex;
  created ← monotonic;
  updated ← monotonic;
  fresh ← lift (run_start text owner token created updated);
  r ← move describing fresh;
  answer ← ask_pm "analyze" [("idea"%string, JStr (idea r))];
  let text := str_or_empty (jget "summary" answer) in
  let q := jget "questionnaire" answer in
  r ← match questions q with
      | (_ :: _) as qs => move (asked text (questionnaire_of (jget "reason" q) qs)) r
      | [] => r' ← move (asked text (questionnaire_of JNull [])) r; plan_turn r'
      end;
  runs_put r.

(** [answer] *)
Definition answer (id : string) (given : list Answer) : M W exn Run :=
  stored ← runs_get id;
  r ← touch (answering given) stored;
  r ← plan_turn r;
  runs_put r.

(** [reject] *)
Definition reject (id feedback : string) : M W exn Run :=
  let text := str_strip feedback in
  if negb (str_truthy text) then raise (ValueError "a rejection needs a reason")
  else
    stored ← runs_get id;
    r ← move rejected stored;
    r ← move revising r;
    answer ← ask_pm "revise" [("plan"%string, default JNull (plan r)); ("feedback"%string, JStr text)];
    if negb (is_plan answer) then
      raise (OrchestrationError (pm_service settings) "the PM did not return a revised plan")
    else r ← move (proposed answer) r; runs_put r.

(** [approve] *)
Definition approve (id : string) : M W exn Run :=
  stored ← runs_get id;
  r ← move approved stored;
  runs_put r.

(** [_charge] *)
Definition charge_run (r : Run) (u : Usage) : M W exn Run :=
  match meter with
  | None => mret r
  | Some m =>
      if negb (str_truthy (account r)) || is_empty u then mret r
      else
        entry ← try_except
                  (e ← meter_charge m (account r) (run_id r) u; mret (inl e))
                  (except cException (λ _, mret (inr tt)));
        match entry with
        | inl (Some n) => touch (billed (Z.abs n)) r
        | _ => mret r
        end
  end.

(** The loop of [generate] over the agent's chunks. *)
Fixpoint relay_chunks (id : string) (chunks : list string) (scan : StreamScan) : M W exn StreamScan :=
  match chunks with
  | [] => mret scan
  | c :: chunks' =>
      modify (log_append log id c) ;;
      emit c ;;
      scan' ← lift (feed c scan);
      relay_chunks id chunks' scan'
  end.

(** [await self._runs.put(run.failed(text))] *)
Definition put_failed (text : string) (r : Run) : M W exn unit :=
  f ← move (failed text) r; runs_put f ;; mret tt.

(** [async for chunk in stream.chunks], to the end of the stream or its error. *)
Definition relay_body (id : string) (b : Body) : M W exn StreamScan :=
  scan ← relay_chunks id (body_chunks b) new_scan;
  match body_error b with Some e => raise e | None => mret scan end.

(** The [try] of [generate], up to the end of its [finally]. *)
Definition watch (r : Run) (upstream : UpstreamStream) : M W exn StreamScan :=
  try_finally
    (try_except
       (relay_body (run_id r) (stream_chunks upstream))
       (λ e, if isinstance e cCancelledError
             then Some (put_failed "the connection was lost during generation" r ;; raise e)
             else if isinstance e cException
             then Some (put_failed (type_name e ++s ": " ++s exn_message e) r ;; raise e)
             else None))
    (stream_aclose close upstream ;; modify (log_end log (run_id r))).

(** What [generate] does with the run once the stream is over. *)
Definition conclude (r : Run) (scan : StreamScan) : M W exn unit :=
  if negb (str_truthy (artifact scan)) then put_failed "the agent produced no artifact" r
  else
    d ← move (delivered (artifact scan)) r;
    c ← charge_run d (usage scan);
    runs_put c ;; mret tt.

(** [generate]: what is left of the generator once its caller has taken all it yields
    or has dropped it, the yields being the calls of [emit]. *)
Definition generate (id : string) : M W exn unit :=
  stored ← runs_get id;
  r ← move generating stored;
  runs_put r ;;
  let body := dumps (JObj [("question", JStr (prompt_for (default (JObj []) (plan r))));
                           ("locale", JStr (locale settings))]%string) in
  upstream ← ps_stream proxy (backend_service settings)
               (agent_request "POST" "api/v1/chat" body (backend_token settings));
  modify (log_start log (run_id r)) ;;
  scan ← watch r upstream;
  conclude r scan.

(** [read] *)
Definition read (id : string) : M W exn Run := runs_get id.

(** *** The project, once it exists *)

(** [_artifact_of] *)
Definition artifact_of (id : string) : M W exn string :=
  r ← runs_get id;
  if negb (str_truthy (artifact_id r)) then raise (NoProjectError id) else mret (artifact_id r).

(** [b"".join([chunk async for chunk in stream.chunks])] *)
Definition read_all (b : Body) : result exn string :=
  match body_error b with Some e => Raise e | None => Ok (str_concat (body_chunks b)) end.

(** What [_open] reads out of a refusal: empty when the body is not JSON or not shaped
    like an error. *)
Definition refusal_detail (body : string) : string :=
  match loads body with
  | None => EmptyString
  | Some v =>
      match (e ← attr_get "error" (jor v (JObj [])); attr_get "message" (jor e (JObj []))) with
      | Ok m => str_or_empty m
      | Raise _ => EmptyString
      end
  end.

(** [_open] *)
Definition open_stream (request : InboundRequest) : M W exn UpstreamStream :=
  upstream ← ps_stream proxy (backend_service settings) request;
  if stream_status upstream <? 400 then mret upstream
  else
    body ← try_finally (lift (read_all (stream_chunks upstream))) (stream_aclose close upstream);
    let detail := refusal_detail (str_take (Z.to_nat 4096) body) in
    if stream_status upstream =? 410 then raise ProjectGoneError
    else raise (OrchestrationError (backend_service settings)
                  (if str_truthy detail then detail
                   else "the agent answered " ++s int_str (stream_status upstream))).

(** [open_console] *)
Definition open_console (id command : string) : M W exn UpstreamStream :=
  if negb (console settings) then raise ConsoleDisabledError
  else
    a ← artifact_of id;
    open_stream (agent_request "POST" ("api/v1/artifacts/" ++s a ++s "/exec")
                   (dumps (JObj [("command"%string, JStr command)])) (backend_token settings)).

(** [open_download] *)
Definition open_download (id : string) : M W exn UpstreamStream :=
  a ← artifact_of id;
  open_stream (agent_request "GET" ("api/v1/artifacts/" ++s a ++s "/download") EmptyString
                 (backend_token settings)).
End orchestrator.

(** ** What is stored is a run in order *)

(** The states a run is stored in; the others are passed through inside a handler. *)
Definition stored_state (s : RunState) : bool :=
  match s with
  | QUESTIONNAIRE | PLAN_REVIEW | PLAN_APPROVED | BACKEND_GENERATION | ZIP_READY | FAILED => true
  | _ => false
  end.
Definition has_plan_state (s : RunState) : bool :=
  match s with PLAN_REVIEW | PLAN_APPROVED | BACKEND_GENERATION | ZIP_READY => true | _ => false end.

(** What holds of a run inside a handler as well. *)
Record base_ok (r : Run) : Prop := mkBaseOk {
  ok_rounds : 0 <= rounds r <= MAX_ROUNDS;
  ok_artifact : str_truthy (artifact_id r) = bool_decide (state r = ZIP_READY);
  ok_charged : charged r ≠ 0 → state r = ZIP_READY ∧ account r ≠ EmptyString
}.
Record run_ok (r : Run) : Prop := mkRunOk {
  ok_base : base_ok r;
  ok_state : stored_state (state r) = true;
  ok_plan : has_plan_state (state r) = true → ∃ p, plan r = Some p ∧ is_plan p = true
}.

(** A move out of any state but delivery. *)
Lemma moved_base e f now r r' :
  moved e f now r = Ok r' → (∀ s, artifact_id (f s) = artifact_id s ∧ charged (f s) = charged s
                                  ∧ account (f s) = account s ∧ state (f s) = state s) →
  e ≠ DELIVER → e ≠ RESET → base_ok r → 0 <= rounds r' <= MAX_ROUNDS → base_ok r'.
Proof.
  intros Hm Hf Hd Hr [_ Ha Hc] Hrounds. rewrite moved_spec in Hm.
  destruct (next_state (state r) e) as [s|] eqn:Hs; [|done]. injection Hm as <-.
  destruct (Hf (with_state s now r)) as (Hfa & Hfc & Hfo & Hfs).
  assert (state r ≠ ZIP_READY ∧ s ≠ ZIP_READY) as [Hz Hz'].
  { destruct (state r), e; simplify_eq/=; done. }
  split; [done| |].
  - rewrite Hfa, Hfs. cbn. rewrite Ha. by rewrite !bool_decide_false.
  - rewrite Hfc. cbn. intros H. destruct (Hc H) as [? _]. done.
Qed.

Lemma asked_ok text q now r r' :
  base_ok r → rounds r < MAX_ROUNDS → asked text q now r = Ok r' → run_ok r'.
Proof.
  intros Hb Hr Ha. pose proof (ok_rounds _ Hb).
  assert (rounds r' = rounds r + 1 ∧ state r' = QUESTIONNAIRE) as [Hrr Hs].
  { unfold asked in Ha. rewrite moved_spec in Ha.
    destruct (state r); simplify_eq/=; done. }
  split.
  - eapply moved_base; [exact Ha|done|done|done|done|]. lia.
  - by rewrite Hs.
  - by rewrite Hs.
Qed.
Lemma proposed_ok p now r r' :
  base_ok r → is_plan p = true → proposed p now r = Ok r' → run_ok r'.
Proof.
  intros Hb Hp Ha. pose proof (ok_rounds _ Hb).
  assert (rounds r' = rounds r ∧ state r' = PLAN_REVIEW ∧ plan r' = Some p) as (Hrr & Hs & Hpl).
  { unfold proposed in Ha. rewrite moved_spec in Ha. destruct (state r); simplify_eq/=; done. }
  split; [|by rewrite Hs|by eauto].
  eapply moved_base; [exact Ha|done|done|done|done|]. lia.
Qed.
(** The moves that change the state alone. *)
Lemma moved_plain e now r r' :
  e ≠ DELIVER → e ≠ RESET → base_ok r → moved e (λ r, r) now r = Ok r' →
  base_ok r' ∧ plan r' = plan r ∧ rounds r' = rounds r ∧ next_state (state r) e = Some (state r').
Proof.
  intros Hd Hr Hb Hm. pose proof Hm as Hm'. rewrite moved_spec in Hm'.
  destruct (next_state (state r) e) as [s|] eqn:Hs; [|done]. injection Hm' as Hm'.
  assert (plan r' = plan r ∧ rounds r' = rounds r ∧ state r' = s) as (? & Hro & ->) by by subst r'.
  split_and!; try done. eapply moved_base; [exact Hm|done|done|done|done|].
  rewrite Hro. apply Hb.
Qed.
Lemma approved_ok now r r' : run_ok r → approved now r = Ok r' → run_ok r'.
Proof.
  intros [Hb Hs Hp] Ha. apply moved_plain in Ha as (Hb' & Hpl & _ & Hn); [|done..].
  destruct (state r) eqn:Hst; try done. injection Hn as Hn. split; [done|by rewrite <- Hn|].
  intros _. rewrite Hpl. by apply Hp.
Qed.
Lemma generating_ok now r r' :
  run_ok r → generating now r = Ok r' → run_ok r' ∧ state r' = BACKEND_GENERATION.
Proof.
  intros [Hb Hs Hp] Ha. apply moved_plain in Ha as (Hb' & Hpl & _ & Hn); [|done..].
  destruct (state r) eqn:Hst; try done. injection Hn as Hn. split; [|done].
  split; [done|by rewrite <- Hn|]. intros _. rewrite Hpl. by apply Hp.
Qed.
Lemma failed_ok e now r r' : run_ok r → failed e now r = Ok r' → run_ok r'.
Proof.
  intros [Hb Hs Hp] Ha. pose proof (ok_rounds _ Hb).
  assert (rounds r' = rounds r ∧ state r' = FAILED) as [Hr Hs'].
  { unfold failed in Ha. rewrite moved_spec in Ha. unfold next_state in Ha.
    destruct (FAILABLE (state r)); [|done]. by injection Ha as <-. }
  split; [|by rewrite Hs'|by rewrite Hs'].
  eapply moved_base; [exact Ha|done|done|done|done|]. lia.
Qed.
Lemma delivered_ok a now r r' :
  run_ok r → str_truthy a = true → delivered a now r = Ok r' → run_ok r' ∧ state r' = ZIP_READY.
Proof.
  intros [[Hro Har Hch] Hs Hp] Ha Hd. unfold delivered in Hd. rewrite moved_spec in Hd.
  destruct (state r) eqn:Hst; try done. injection Hd as <-. split; [|done]. split; [split|done|].
  - exact Hro.
  - exact Ha.
  - cbn. intros H. destruct (Hch H) as [? _]. congruence.
  - intros _. by apply Hp.
Qed.
Lemma billed_ok n now r :
  run_ok r → state r = ZIP_READY → account r ≠ EmptyString → run_ok (billed n now r).
Proof. intros [[Hro Har Hch] Hs Hp] Hz Ha. split; [split|done|done]; [done..|]. by split. Qed.
Lemma answering_ok given now r : run_ok r → base_ok (answering given now r).
Proof. by intros [[] _ _]. Qed.

Section handlers.
Context {W : Type} `{!RunStore W} `{!RunStoreLaws W}.
Context (proxy : ProxyService W) (settings : OrchestrationSettings) (log : RunLogPort W)
        (meter : option (RunMeter W))
        (monotonic : M W exn Z) (token_hex : M W exn string)
        (emit : string → M W exn unit) (close : nat → M W exn unit)
        (json_error : string → string).

Definition runs_ok (w : W) : Prop := store_ok w ∧ ∀ k r, held w k = Some r → run_ok r.

(** Whatever runs while a handler waits (other handlers among it) keeps the store in
    order too. *)
Record calm : Prop := mkCalm {
  calm_forward name request : preserves runs_ok (ps_forward proxy name request);
  calm_stream name request : preserves runs_ok (ps_stream proxy name request);
  calm_authorize m a : meter = Some m → preserves runs_ok (meter_authorize m a);
  calm_charge m a i u : meter = Some m → preserves runs_ok (meter_charge m a i u);
  calm_clock : preserves runs_ok monotonic;
  calm_token : preserves runs_ok token_hex;
  calm_emit c : preserves runs_ok (emit c);
  calm_close n : preserves runs_ok (close n);
  calm_log_start id w : runs_ok w → runs_ok (log_start log id w);
  calm_log_append id c w : runs_ok w → runs_ok (log_append log id c w);
  calm_log_end id w : runs_ok w → runs_ok (log_end log id w)
}.
Hypothesis others : calm.
#[local] Set Default Proof Using "Type*".

(** [m] keeps the store in order and returns only what satisfies [P]. *)
Definition yields {A} (P : A → Prop) (m : M W exn A) : Prop :=
  triple runs_ok m (λ o w, runs_ok w ∧ match o with Ok a => P a | Raise _ => True end).

Lemma yields_ret {A} (P : A → Prop) (a : A) : P a → yields P (mret a).
Proof. by intros Ha w Hw. Qed.
Lemma yields_raise {A} (P : A → Prop) e : yields P (raise e).
Proof. by intros w Hw. Qed.
Lemma yields_lift {A} (P : A → Prop) (x : result exn A) : (∀ a, x = Ok a → P a) → yields P (lift x).
Proof. intros Ha w Hw. split; [done|]. cbn. destruct x; auto. Qed.
Lemma yields_bind {A B} (P : A → Prop) (Q : B → Prop) (m : M W exn A) (f : A → M W exn B) :
  yields P m → (∀ a, P a → yields Q (f a)) → yields Q (m ≫= f).
Proof.
  intros Hm Hf w Hw. rewrite run_bind. specialize (Hm w Hw).
  destruct (m w) as [[a|e] w1]; cbn in *; [|by destruct Hm].
  destruct Hm as [Hw1 Ha]. by apply Hf.
Qed.
Lemma yields_any {A} (m : M W exn A) : preserves runs_ok m → yields (λ _, True) m.
Proof. intros H w Hw. specialize (H w Hw). by destruct (m w) as [[] ?]. Qed.
Lemma yields_preserves {A} (P : A → Prop) (m : M W exn A) : yields P m → preserves runs_ok m.
Proof. intros H w Hw. by destruct (H w Hw). Qed.
Lemma yields_seq {A B} (Q : B → Prop) (m : M W exn A) (f : A → M W exn B) :
  preserves runs_ok m → (∀ a, yields Q (f a)) → yields Q (m ≫= f).
Proof. intros Hm Hf. eapply yields_bind; [by apply yields_any|auto]. Qed.

Lemma yields_get id : yields run_ok (runs_get id).
Proof.
  intros w [Hs Hw]. destruct (runs_get id w) as [o w1] eqn:Hg. cbn.
  destruct (get_law _ _ _ _ Hs Hg) as (Hs1 & Ho & Hk). split.
  - split; [done|]. intros k r Hr. destruct (Hk k) as [He|He]; [|congruence].
    rewrite He in Hr. by eapply Hw.
  - destruct o; [|done]. destruct Ho as (Hh & _). by eapply Hw.
Qed.
Lemma yields_put r : run_ok r → yields run_ok (runs_put r).
Proof.
  intros Hr w [Hs Hw]. destruct (runs_put r w) as [o w1] eqn:Hg. cbn.
  destruct (put_law _ _ _ _ Hs Hg) as (Hs1 & -> & Hself & Hk). split; [|done].
  split; [done|]. intros k r' Hr'. destruct (decide (k = run_id r)) as [->|Hne].
  - rewrite Hself in Hr'. by injection Hr' as <-.
  - destruct (Hk k Hne) as [He|He]; [|congruence]. rewrite He in Hr'. by eapply Hw.
Qed.
Lemma yields_move (P : Run → Prop) f r :
  (∀ now r', f now r = Ok r' → P r') → yields P (move monotonic f r).
Proof.
  intros Hf. apply yields_seq; [apply others|]. intros now. apply yields_lift. eauto.
Qed.
Lemma yields_touch (P : Run → Prop) f r :
  (∀ now, P (f now r)) → yields P (touch monotonic f r).
Proof. intros Hf. apply yields_seq; [apply others|]. intros now. by apply yields_ret. Qed.

Lemma ask_pm_keeps op payload :
  preserves runs_ok (ask_pm proxy settings json_error op payload).
Proof.
  apply preserves_bind; [apply others|]. intros response. cbv zeta.
  destruct (loads _); [|apply preserves_raise].
  destruct (_ || _); [|apply preserves_ret].
  apply preserves_bind; [|intros; apply preserves_raise].
  destruct (is_dict _); [apply preserves_lift|apply preserves_ret].
Qed.

Lemma plan_turn_yields r :
  base_ok r → yields run_ok (plan_turn proxy settings monotonic json_error r).
Proof.
  intros Hb. apply yields_seq; [apply ask_pm_keeps|]. intros a.
  destruct (questions a) as [|q qs].
  - destruct (negb (is_plan a)) eqn:Hp; [apply yields_raise|]. apply negb_false_iff in Hp.
    apply yields_move. intros now r'. by apply proposed_ok.
  - destruct (rounds_left r <=? 0) eqn:Hl; [apply yields_raise|]. bool_to_Z.
    apply yields_move. intros now r'. apply asked_ok; [done|]. unfold rounds_left in Hl. lia.
Qed.

Lemma start_yields text owner :
  yields run_ok (start proxy settings meter monotonic token_hex json_error text owner).
Proof.
  unfold start. apply yields_seq.
  { destruct meter as [m|] eqn:Hm; [|apply preserves_ret].
    destruct (str_truthy owner); [|apply preserves_ret]. by apply others. }
  intros _. apply yields_seq; [apply others|]. intros token.
  apply yields_seq; [apply others|]. intros created.
  apply yields_seq; [apply others|]. intros updated.
  apply (yields_bind (λ r, base_ok r ∧ rounds r = 0)).
  { apply yields_lift. intros r. unfold run_start. cbv zeta. destruct (negb _); [done|].
    destruct (_ <? _); [done|]. intros [= <-]. split; [|done]. by split. }
  intros fresh [Hb H0]. apply (yields_bind (λ r, base_ok r ∧ rounds r = 0)).
  { apply yields_move. intros now r' Hm. apply moved_plain in Hm as (? & _ & Hr & _); [|done..].
    split; [done|congruence]. }
  intros r [Hb1 H1]. apply yields_seq; [apply ask_pm_keeps|]. intros a. cbv zeta.
  apply (yields_bind run_ok); [|intros; by apply yields_put].
  destruct (questions (jget "questionnaire" a)) as [|q qs].
  - apply (yields_bind run_ok); [|intros r2 [Hb2 _ _]; by apply plan_turn_yields].
    apply yields_move. intros now r'. apply asked_ok; [done|]. unfold MAX_ROUNDS. lia.
  - apply yields_move. intros now r'. apply asked_ok; [done|]. unfold MAX_ROUNDS. lia.
Qed.

Lemma answer_yields id given :
  yields run_ok (answer proxy settings monotonic json_error id given).
Proof.
  apply (yields_bind run_ok); [apply yields_get|]. intros r Hr.
  apply (yields_bind base_ok); [apply yields_touch; intros; by apply answering_ok|].
  intros r1 Hr1. apply (yields_bind run_ok); [by apply plan_turn_yields|].
  intros; by apply yields_put.
Qed.

Lemma reject_yields id feedback :
  yields run_ok (reject proxy settings monotonic json_error id feedback).
Proof.
  unfold reject. cbv zeta. destruct (negb _); [apply yields_raise|].
  apply (yields_bind run_ok); [apply yields_get|]. intros r [Hb _ _].
  apply (yields_bind base_ok).
  { apply yields_move. intros now r' Hm. by apply moved_plain in Hm as (? & _); [|done..]. }
  intros r1 Hb1. apply (yields_bind base_ok).
  { apply yields_move. intros now r' Hm. by apply moved_plain in Hm as (? & _); [|done..]. }
  intros r2 Hb2. apply yields_seq; [apply ask_pm_keeps|]. intros a.
  destruct (negb (is_plan a)) eqn:Hp; [apply yields_raise|]. apply negb_false_iff in Hp.
  apply (yields_bind run_ok); [|intros; by apply yields_put].
  apply yields_move. intros now r'. by apply proposed_ok.
Qed.

Lemma approve_yields id : yields run_ok (approve monotonic id).
Proof.
  apply (yields_bind run_ok); [apply yields_get|]. intros r Hr.
  apply (yields_bind run_ok); [|intros; by apply yields_put].
  apply yields_move. intros now r'. by apply approved_ok.
Qed.

Lemma put_failed_keeps text r : run_ok r → preserves runs_ok (put_failed monotonic text r).
Proof.
  intros Hr. apply (yields_preserves (λ _, True)).
  apply (yields_bind run_ok); [apply yields_move; intros; by eapply failed_ok|].
  intros f Hf. apply (yields_bind run_ok); [by apply yields_put|]. intros; by apply yields_ret.
Qed.

Lemma relay_chunks_keeps id chunks scan :
  preserves runs_ok (relay_chunks log emit id chunks scan).
Proof.
  revert scan. induction chunks as [|c chunks IH]; intros scan; [apply preserves_ret|].
  cbn [relay_chunks]. apply preserves_bind; [apply preserves_modify, others|]. intros _.
  apply preserves_bind; [apply others|]. intros _.
  apply preserves_bind; [apply preserves_lift|]. intros s. apply IH.
Qed.

Lemma watch_keeps r upstream :
  run_ok r → preserves runs_ok (watch log monotonic emit close r upstream).
Proof.
  intros Hr. apply preserves_finally.
  - apply preserves_try.
    + apply preserves_bind; [apply relay_chunks_keeps|]. intros s.
      destruct (body_error _); [apply preserves_raise|apply preserves_ret].
    + intros e k Hk.
      assert (∃ text, k = (put_failed monotonic text r ;; raise e)) as [text ->].
      { destruct (isinstance e cCancelledError); [by simplify_eq; eauto|].
        destruct (isinstance e cException); by simplify_eq; eauto. }
      apply preserves_bind; [by apply put_failed_keeps|]. intros; apply preserves_raise.
  - apply preserves_bind; [apply others|]. intros _. apply preserves_modify, others.
Qed.

Lemma charge_run_yields r u :
  run_ok r → state r = ZIP_READY → yields run_ok (charge_run meter monotonic r u).
Proof.
  intros Hr Hz. unfold charge_run. destruct meter as [m|] eqn:Hm; [|by apply yields_ret].
  destruct (negb (str_truthy (account r)) || is_empty u) eqn:Hc; [by apply yields_ret|].
  apply orb_false_iff in Hc as [Ha _]. apply negb_false_iff, str_truthy_spec in Ha.
  apply yields_seq.
  - apply preserves_try; [apply preserves_bind; [by apply others|intros; apply preserves_ret]|].
    unfold except. intros e k. destruct (isinstance e cException); [|done].
    intros [= <-]. apply preserves_ret.
  - intros [[n|]|]; [|by apply yields_ret..]. apply yields_touch. intros. by apply billed_ok.
Qed.

Lemma conclude_keeps r scan :
  run_ok r → preserves runs_ok (conclude meter monotonic r scan).
Proof.
  intros Hr. unfold conclude. destruct (negb (str_truthy (artifact scan))) eqn:Ha.
  { by apply put_failed_keeps. }
  apply (yields_preserves (λ _, True)).
  apply negb_false_iff in Ha. apply (yields_bind (λ r, run_ok r ∧ state r = ZIP_READY)).
  { apply yields_move. intros now r'. by apply delivered_ok. }
  intros d [Hd Hz]. apply (yields_bind run_ok); [by apply charge_run_yields|].
  intros c Hc. apply (yields_bind run_ok); [by apply yields_put|]. intros; by apply yields_ret.
Qed.

Lemma generate_keeps id :
  preserves runs_ok (generate proxy settings log meter monotonic emit close id).
Proof.
  apply (yields_preserves (λ _, True)).
  apply (yields_bind run_ok); [apply yields_get|]. intros r Hr.
  apply (yields_bind (λ r, run_ok r ∧ state r = BACKEND_GENERATION)).
  { apply yields_move. intros now r'. by apply generating_ok. }
  intros r1 [Hr1 Hs1]. apply (yields_bind run_ok); [by apply yields_put|]. intros _ _.
  cbv zeta. apply yields_seq; [apply others|]. intros upstream.
  apply yields_seq; [apply preserves_modify, others|]. intros _.
  apply yields_seq; [by apply watch_keeps|]. intros scan.
  by apply yields_any, conclude_keeps.
Qed.

(** C2. Every run the gateway keeps or answers with is in order, however the
    handlers of concurrent requests interleave at the points where they wait: at most
    [MAX_ROUNDS] questionnaires are counted on it, one under review, approved,
    generating or delivered has a plan that says its purpose and names something, it
    has an artifact exactly when it is delivered, and nothing is charged before that
    nor to nobody. *)
Theorem handlers_keep_runs_in_order :
  (∀ text owner, yields run_ok (start proxy settings meter monotonic token_hex json_error text owner))
  ∧ (∀ id given, yields run_ok (answer proxy settings monotonic json_error id given))
  ∧ (∀ id feedback, yields run_ok (reject proxy settings monotonic json_error id feedback))
  ∧ (∀ id, yields run_ok (approve monotonic id))
  ∧ (∀ id, preserves runs_ok (generate proxy settings log meter monotonic emit close id))
  ∧ (∀ id, yields run_ok (read id)).
Proof.
  split_and!; [apply start_yields|apply answer_yields|apply reject_yields|apply approve_yields
              |apply generate_keeps|apply yields_get].
Qed.
End handlers.

(** ** Whose run it is *)

Lemma moved_account e f now r r' :
  moved e f now r = Ok r' → (∀ s, account (f s) = account s) → account r' = account r.
Proof.
  rewrite moved_spec. destruct (next_state (state r) e) as [s|]; [|done]. intros [= <-] Hf.
  by rewrite Hf.
Qed.

Section owner.
Context {W : Type} `{!RunStore W}.
Context (proxy : ProxyService W) (settings : OrchestrationSettings) (meter : option (RunMeter W))
        (monotonic : M W exn Z) (token_hex : M W exn string) (json_error : string → string).

Lemma move_account e f r (w : W) r' w' :
  move monotonic (λ now r, moved e f now r) r w = (Ok r', w') → (∀ s, account (f s) = account s) →
  account r' = account r.
Proof.
  intros (now & w1 & _ & Hm)%bind_ok_inv Hf. injection Hm as Hm _. by eapply moved_account.
Qed.

Lemma plan_turn_account r w r' w' :
  plan_turn proxy settings monotonic json_error r w = (Ok r', w') → account r' = account r.
Proof.
  unfold plan_turn. intros (a & w1 & _ & H)%bind_ok_inv. destruct (questions a) as [|q qs].
  - destruct (negb (is_plan a)); [done|]. by eapply (move_account PROPOSE) in H.
  - destruct (rounds_left r <=? 0); [done|]. by eapply (move_account ASK) in H.
Qed.

(** The run that [start] stores is charged to the account it was given. *)
Lemma start_owner text owner w r w' :
  start proxy settings meter monotonic token_hex json_error text owner w = (Ok r, w') →
  ∃ r0 w1, runs_put r0 w1 = (Ok r, w') ∧ account r0 = owner.
Proof.
  unfold start. intros H.
  do 4 apply bind_ok_inv in H as (? & ? & _ & H).
  apply bind_ok_inv in H as (fresh & w1 & Hf & H). injection Hf as Hf <-.
  assert (account fresh = owner) as Hown.
  { revert Hf. unfold run_start. cbv zeta. destruct (negb _); [done|].
    destruct (_ <? _); [done|]. by intros [= <-]. }
  apply bind_ok_inv in H as (r1 & w2 & H1 & H). apply (move_account DESCRIBE) in H1; [|done].
  apply bind_ok_inv in H as (a & w3 & _ & H). cbv zeta in H.
  apply bind_ok_inv in H as (r2 & w4 & H2 & H). exists r2, w4. split; [exact H|].
  rewrite <- Hown, <- H1. destruct (questions _) as [|q qs].
  - apply bind_ok_inv in H2 as (r3 & w5 & H3 & H2). apply plan_turn_account in H2.
    apply (move_account ASK) in H3; [congruence|done].
  - by apply (move_account ASK) in H2.
Qed.
End owner.

(** ** The gate, and what a generation does *)

Section generation.
Context {W : Type} `{!RunStore W}.
Context (settings : OrchestrationSettings) (log : RunLogPort W)
        (meter : option (RunMeter W)) (monotonic : M W exn Z)
        (emit : string → M W exn unit) (close : nat → M W exn unit).

(** C14. The gate is the run's own state: whatever the agents, the log, the meter and
    the caller are, a generation of a run that the store does not hold, or that is in
    any state but [PLAN_APPROVED], ends in [RunNotFoundError] or
    [IllegalTransitionError] with no effect beyond the store's read and the clock's:
    no agent is called, nothing is logged, yielded or charged. *)
Theorem generation_gate proxy id w :
  match runs_get id w with
  | (Raise e, w1) => generate proxy settings log meter monotonic emit close id w = (Raise e, w1)
  | (Ok r, w1) =>
      state r ≠ PLAN_APPROVED →
      ∀ now w2, monotonic w1 = (Ok now, w2) →
      generate proxy settings log meter monotonic emit close id w
      = (Raise (IllegalTransitionError (state_str (state r)) "GENERATE"), w2)
  end.
Proof.
  destruct (runs_get id w) as [[r|e] w1] eqn:Hg.
  - intros Hs now w2 Hc. unfold generate. rewrite (run_bind_ok _ _ _ _ _ Hg).
    apply run_bind_raise. unfold move. rewrite (run_bind_ok _ _ _ _ _ Hc).
    unfold generating. rewrite run_lift, moved_spec. by destruct (state r).
  - unfold generate. by apply run_bind_raise.
Qed.

(** *** The order of its effects *)

(** What others can observe of a generation. *)
Inductive Effect : Type :=
  | EEmit (chunk : string)
  | EClose (connection : nat)
  | ECharge (account run_id : string) (usage : Usage).

Context (proxy : ProxyService W) (effects : W → list Effect).

Record traced : Prop := mkTraced {
  traced_emit c w : effects (emit c w).2 = effects w ++ [EEmit c];
  traced_close n w : effects (close n w).2 = effects w ++ [EClose n] ∧ (close n w).1 = Ok tt;
  traced_charge m a i u w : meter = Some m →
    effects (meter_charge m a i u w).2 = effects w ++ [ECharge a i u];
  traced_get id w : effects (runs_get id w).2 = effects w;
  traced_put r w : effects (runs_put r w).2 = effects w;
  traced_clock w : effects (monotonic w).2 = effects w;
  traced_stream name request w : effects (ps_stream proxy name request w).2 = effects w;
  traced_log_start id w : effects (log_start log id w) = effects w;
  traced_log_append id c w : effects (log_append log id c w) = effects w;
  traced_log_end id w : effects (log_end log id w) = effects w
}.
Hypothesis tr : traced.
#[local] Set Default Proof Using "Type*".

(** [m] leaves no trace. *)
Definition quiet {A} (m : M W exn A) : Prop := ∀ w, effects (m w).2 = effects w.

Lemma quiet_bind {A B} (m : M W exn A) (f : A → M W exn B) :
  quiet m → (∀ a, quiet (f a)) → quiet (m ≫= f).
Proof.
  intros Hm Hf w. rewrite run_bind. specialize (Hm w).
  destruct (m w) as [[a|e] w1]; [|done]. by rewrite Hf.
Qed.
Lemma quiet_move f r : quiet (move monotonic f r).
Proof. apply quiet_bind; [intros w; apply tr|by intros a w]. Qed.
Lemma quiet_put_failed text r : quiet (put_failed monotonic text r).
Proof.
  apply quiet_bind; [apply quiet_move|]. intros f.
  apply quiet_bind; [intros w; apply tr|by intros a w].
Qed.

(** The chunks the loop yielded, and its outcome. *)
Lemma relay_chunks_trace id chunks scan w o w' :
  relay_chunks log emit id chunks scan w = (o, w') →
  ∃ l, effects w' = effects w ++ map EEmit l ∧ l `prefix_of` chunks
    ∧ ∀ s, o = Ok s → l = chunks ∧ feed_all chunks scan = Ok s.
Proof.
  revert scan w. induction chunks as [|c chunks IH]; intros scan w; cbn [relay_chunks].
  - intros [= <- <-]. exists []. cbn. rewrite app_nil_r. split_and!; [done|done|].
    by intros s [= ->].
  - intros H. inv_bind H; [|done]. injection Hm as _ <-. inv_bind Hk.
    + pose proof (traced_emit tr c (log_append log id c w)) as He. rewrite Hm in He. cbn in He.
      rewrite (traced_log_append tr) in He. inv_bind Hk0.
      * injection Hm0 as Hf ->. destruct (IH _ _ Hk) as (l & Hl & Hp & Hs).
        exists (c :: l). split_and!.
        -- rewrite Hl, He, <- app_assoc. done.
        -- by apply prefix_cons.
        -- intros s ->. destruct (Hs s eq_refl) as [-> Hfa]. cbn. by rewrite Hf.
      * injection Hm0 as Hf ->. exists [c]. split_and!; [by rewrite He|by exists chunks|].
        by intros s ->.
    + pose proof (traced_emit tr c (log_append log id c w)) as He. rewrite Hm in He. cbn in He.
      rewrite (traced_log_append tr) in He. exists [c]. split_and!; [done|by exists chunks|].
      by intros s ->.
Qed.

(** The chunks yielded up to some point, all of them when a scan is returned. *)
Definition yielded (b : Body) (w w' : W) (o : result exn StreamScan) : Prop :=
  ∃ l, effects w' = effects w ++ map EEmit l ∧ l `prefix_of` body_chunks b
    ∧ ∀ s, o = Ok s → l = body_chunks b ∧ feed_all (body_chunks b) new_scan = Ok s
                      ∧ body_error b = None.

Lemma relay_body_trace id b w o w' :
  relay_body log emit id b w = (o, w') → yielded b w w' o.
Proof.
  unfold relay_body. intros Hb. inv_bind Hb.
  - destruct (relay_chunks_trace _ _ _ _ _ _ Hm) as (l & Hl & Hp & Hs).
    destruct (Hs _ eq_refl) as [Hall Hf]. exists l.
    destruct (body_error b) as [e|]; injection Hk as <- <-; split_and!; try done.
    by intros s' [= <-].
  - destruct (relay_chunks_trace _ _ _ _ _ _ Hm) as (l & Hl & Hp & Hs).
    exists l. subst o. by split_and!.
Qed.

Lemma put_failed_raise text r (e : exn) w :
  effects ((put_failed monotonic text r ;; raise (A:=StreamScan) e) w).2 = effects w
  ∧ is_ok ((put_failed monotonic text r ;; raise (A:=StreamScan) e) w).1 = false.
Proof.
  pose proof (quiet_put_failed text r w) as Hq. rewrite run_bind.
  by destruct (put_failed monotonic text r w) as [[] ?].
Qed.

Lemma watch_trace r upstream w o w' :
  watch log monotonic emit close r upstream w = (o, w') →
  let b := stream_chunks upstream in
  ∃ l, effects w' = effects w ++ map EEmit l ++ [EClose (body_connection b)]
    ∧ l `prefix_of` body_chunks b
    ∧ ∀ s, o = Ok s → l = body_chunks b ∧ feed_all (body_chunks b) new_scan = Ok s
                      ∧ body_error b = None.
Proof.
  cbv zeta. unfold watch, try_finally, try_except. set (b := stream_chunks upstream).
  destruct (relay_body log emit (run_id r) b w) as [o1 w1] eqn:Hb. intros H.
  pose proof (relay_body_trace _ _ _ _ _ Hb) as (l & Hl & Hp & Hs).
  assert (∀ o2 w2, effects w2 = effects w1 → (∀ s, o2 = Ok s → o1 = Ok s) →
    match (stream_aclose close upstream ;; modify (log_end log (run_id r))) w2 with
    | (Ok _, s'') => (o2, s'') | (Raise e, s'') => (Raise e, s'')
    end = (o, w') →
    effects w' = effects w1 ++ [EClose (body_connection b)] ∧ ∀ s, o = Ok s → o1 = Ok s) as Hfin.
  { intros o2 w2 He Ho. unfold stream_aclose. rewrite run_bind. fold b.
    destruct (traced_close tr (body_connection b) w2) as [Hc Hok].
    destruct (close (body_connection b) w2) as [oc w3]. cbn in Hc, Hok. subst oc. cbn.
    intros [= <- <-]. by rewrite (traced_log_end tr), Hc, He. }
  exists l. destruct o1 as [s|e].
  - destruct (Hfin _ _ eq_refl (λ s H, H) H) as [-> Ho]. rewrite Hl, <- app_assoc.
    split_and!; [done|done|]. intros s' H'. by apply Hs, Ho.
  - assert (effects w' = effects w1 ++ [EClose (body_connection b)] ∧ ∀ s, o ≠ Ok s) as [-> Hno].
    { destruct (isinstance e cCancelledError);
        [|destruct (isinstance e cException)];
        match type of H with
        | context [(put_failed monotonic ?text r ;; raise e) w1] =>
            pose proof (put_failed_raise text r e w1) as [He Hr];
            destruct ((put_failed monotonic text r ;; raise e) w1) as [o2 w2]; cbn in He, Hr;
            destruct (Hfin o2 w2 He ltac:(intros s ->; done) H) as [-> Ho]
        | _ => destruct (Hfin _ _ eq_refl ltac:(done) H) as [-> Ho]
        end; (split; [done|intros s Hs'; by specialize (Ho s Hs')]). }
    rewrite Hl, <- app_assoc. split_and!; [done|done|]. intros s Hs'. by destruct (Hno s).
Qed.

(** At most one charge, for what was consumed, to the account of the run. *)
Lemma charge_run_trace r u w :
  ∃ bill, effects (charge_run meter monotonic r u w).2 = effects w ++ bill
    ∧ (bill = [] ∨ bill = [ECharge (account r) (run_id r) u] ∧ is_Some meter
                   ∧ account r ≠ EmptyString ∧ is_empty u = false).
Proof.
  unfold charge_run. destruct meter as [m|] eqn:Hmeter; [|exists []; by rewrite app_nil_r; auto].
  destruct (negb _ || _) eqn:Hc; [exists []; by rewrite app_nil_r; auto|].
  apply orb_false_iff in Hc as [Ha Hu]. apply negb_false_iff, str_truthy_spec in Ha.
  exists [ECharge (account r) (run_id r) u]. split; [|right; by eauto].
  pose proof (traced_charge tr m (account r) (run_id r) u w Hmeter) as Hch.
  rewrite run_bind. unfold try_except. rewrite run_bind.
  assert (∀ (x : option Z + unit) w2, effects w2 = effects w ++ [ECharge (account r) (run_id r) u] →
    effects ((match x with inl (Some n) => touch monotonic (billed (Z.abs n)) r | _ => mret r end : M W exn Run) w2).2
    = effects w ++ [ECharge (account r) (run_id r) u]) as Hend.
  { intros x w2 <-. destruct x as [[n|]|]; [|done..]. unfold touch. rewrite run_bind.
    pose proof (traced_clock tr w2) as Hk. by destruct (monotonic w2) as [[] ?]. }
  destruct (meter_charge m (account r) (run_id r) u w) as [[n|e] w1] eqn:Hm; cbn in Hch |- *.
  - by apply (Hend (inl n)).
  - unfold except. destruct (isinstance e cException); [by apply (Hend (inr tt))|done].
Qed.

(** What is observed of the end of a generation: at most one charge. *)
Lemma conclude_trace r scan w o w' :
  conclude meter monotonic r scan w = (o, w') →
  ∃ bill, effects w' = effects w ++ bill
    ∧ (bill = [] ∨ artifact scan ≠ EmptyString
         ∧ bill = [ECharge (account r) (run_id r) (usage scan)]
         ∧ account r ≠ EmptyString ∧ is_empty (usage scan) = false).
Proof.
  unfold conclude. intros Hrun. destruct (negb (str_truthy (artifact scan))) eqn:Ha.
  - exists []. pose proof (quiet_put_failed "the agent produced no artifact" r w) as Hq.
    rewrite Hrun in Hq. cbn in Hq. rewrite Hq, app_nil_r. auto.
  - apply negb_false_iff, str_truthy_spec in Ha.
    pose proof (quiet_move (delivered (artifact scan)) r w) as Hq. inv_bind Hrun.
    2:{ rewrite Hm in Hq. cbn in Hq. exists []. rewrite app_nil_r. auto. }
    rewrite Hm in Hq. cbn in Hq. rename a into d, s into w1.
    assert (account d = account r ∧ run_id d = run_id r) as [Hda Hdi].
    { unfold move in Hm. inv_bind Hm; [|done]. unfold lift in Hk0. injection Hk0 as Hd _.
      unfold delivered in Hd. rewrite moved_spec in Hd.
      destruct (next_state _ _); [|done]. injection Hd as <-. by cbn. }
    destruct (charge_run_trace d (usage scan) w1) as (bill & Hb & Hbill). exists bill. split.
    + rewrite <- Hq, <- Hb. inv_bind Hk; [|by rewrite Hm0].
      rewrite Hm0. cbn. pose proof (traced_put tr a s) as Hpt. inv_bind Hk0.
      * injection Hk as _ <-. by rewrite Hm1 in Hpt.
      * by rewrite Hm1 in Hpt.
    + rewrite Hda, Hdi in Hbill. naive_solver.
Qed.

(** The steps of a generation up to its stream, none of which is observed. *)
Lemma generate_opens id w o w' :
  generate proxy settings log meter monotonic emit close id w = (o, w') →
  (effects w' = effects w ∧ is_ok o = false)
  ∨ ∃ upstream r0 r w5,
      (∃ request w1 w2, ps_stream proxy (backend_service settings) request w1 = (Ok upstream, w2))
      ∧ (∃ w1 w2, runs_get id w1 = (Ok r0, w2)) ∧ state r0 = PLAN_APPROVED
      ∧ account r = account r0 ∧ run_id r = run_id r0 ∧ effects w5 = effects w
      ∧ (scan ← watch log monotonic emit close r upstream; conclude meter monotonic r scan) w5
        = (o, w').
Proof.
  unfold generate. intros Hrun.
  pose proof (traced_get tr id w) as Hget. inv_bind Hrun; rewrite Hm in Hget; cbn in Hget;
    [|left; by subst o].
  rename a into r0, s into w1.
  pose proof (quiet_move generating r0 w1) as Hmove. inv_bind Hk; rewrite Hm0 in Hmove; cbn in Hmove;
    [|left; subst o; split; [congruence|done]].
  rename a into r, s into w2.
  assert (state r0 = PLAN_APPROVED ∧ account r = account r0 ∧ run_id r = run_id r0) as (Hs0 & Hacc & Hrid).
  { unfold move in Hm0. inv_bind Hm0; [|done]. unfold lift in Hk. injection Hk as Hgen _.
    unfold generating in Hgen. rewrite moved_spec in Hgen.
    destruct (state r0) eqn:Hst; try done. by injection Hgen as <-. }
  pose proof (traced_put tr r w2) as Hput. inv_bind Hk0; rewrite Hm1 in Hput; cbn in Hput;
    [|left; subst o; split; [congruence|done]].
  rename s into w3. cbv zeta in Hk.
  inv_bind Hk; pose proof (f_equal (λ x, effects x.2) Hm2) as He; cbn in He;
    rewrite (traced_stream tr) in He; [|left; subst o; split; [congruence|done]].
  right. rewrite run_bind, run_modify in Hk0.
  exists a0, r0, r, (log_start log (run_id r) s). split_and!; eauto.
  rewrite (traced_log_start tr). congruence.
Qed.

(** C1. A generation is paid for at most once, and only when it delivered: its caller
    is yielded a prefix of the agent's chunks, in order; the agent's connection is then
    closed, exactly once; and only if every chunk went through, the stream ended
    without an error and an artifact was found in it, is the run's account charged
    for the usage read in the stream.  Before the stream is open nothing happens at
    all. *)
Theorem generation_charges_delivery id w o w'
    (Hrun : generate proxy settings log meter monotonic emit close id w = (o, w')) :
  (effects w' = effects w ∧ is_ok o = false)
  ∨ ∃ upstream r l bill,
      (∃ request w1 w2, ps_stream proxy (backend_service settings) request w1 = (Ok upstream, w2))
      ∧ (∃ w1 w2, runs_get id w1 = (Ok r, w2)) ∧ state r = PLAN_APPROVED
      ∧ effects w' = effects w ++ map EEmit l
                     ++ EClose (body_connection (stream_chunks upstream)) :: bill
      ∧ l `prefix_of` body_chunks (stream_chunks upstream)
      ∧ (bill = [] ∨ ∃ s, l = body_chunks (stream_chunks upstream)
           ∧ body_error (stream_chunks upstream) = None
           ∧ feed_all l new_scan = Ok s ∧ artifact s ≠ EmptyString
           ∧ bill = [ECharge (account r) (run_id r) (usage s)]
           ∧ account r ≠ EmptyString ∧ is_empty (usage s) = false).
Proof.
  destruct (generate_opens _ _ _ _ Hrun)
    as [?|(upstream & r0 & r & w5 & Hup & Hr0 & Hs0 & Hacc & Hrid & H0 & Hk)]; [by left|right].
  inv_bind Hk; destruct (watch_trace _ _ _ _ _ Hm) as (l & Hl & Hp & Hs); cbv zeta in *.
  - destruct (Hs _ eq_refl) as (Hall & Hfeed & Herr).
    destruct (conclude_trace _ _ _ _ _ Hk0) as (bill & Hb & Hbill).
    exists upstream, r0, l, bill. split_and!; [done..| | |].
    + by rewrite Hb, Hl, H0, <- !app_assoc.
    + done.
    + destruct Hbill as [->|(Ha & -> & Hne & Hu)]; [by left|right].
      exists a. rewrite Hacc, Hrid in *. by rewrite Hall.
  - exists upstream, r0, l, []. split_and!; [done..| |done|by left]. by rewrite Hl, H0.
Qed.
End generation.

(** ** How a generation ends *)

Section outcome.
Context {W : Type} `{!RunStore W} `{!RunStoreLaws W}.
Context (proxy : ProxyService W) (settings : OrchestrationSettings) (log : RunLogPort W)
        (meter : option (RunMeter W)) (monotonic : M W exn Z)
        (emit : string → M W exn unit) (close : nat → M W exn unit).

Definition store_kept (w w' : W) : Prop :=
  store_ok w → store_ok w' ∧ ∀ k, held w' k = held w k.

(** Nobody else touches the store meanwhile, and the clock runs.  The agent, the
    caller, the connection and the meter may raise whatever they like. *)
Record undisturbed : Prop := mkUndisturbed {
  und_emit c w : store_kept w (emit c w).2;
  und_close n w : store_kept w (close n w).2;
  und_charge m a i u w : meter = Some m → store_kept w (meter_charge m a i u w).2;
  und_clock w : store_kept w (monotonic w).2 ∧ is_ok (monotonic w).1 = true;
  und_stream name request w : store_kept w (ps_stream proxy name request w).2;
  und_log_start id w : store_kept w (log_start log id w);
  und_log_append id c w : store_kept w (log_append log id c w);
  und_log_end id w : store_kept w (log_end log id w)
}.
Hypothesis und : undisturbed.
#[local] Set Default Proof Using "Type*".

(** The store holds the run, under its id. *)
Definition holds (r : Run) (w : W) : Prop := store_ok w ∧ held w (run_id r) = Some r.

Lemma holds_kept r w w' : store_kept w w' → holds r w → holds r w'.
Proof. intros H [Hs Hr]. destruct (H Hs) as [Hs' Hk]. split; [done|]. by rewrite Hk. Qed.

Lemma move_run f r w :
  ∃ now w', move monotonic f r w = (f now r, w') ∧ store_kept w w'.
Proof.
  unfold move. destruct (und_clock und w) as [Hk Hok]. rewrite run_bind.
  destruct (monotonic w) as [[now|e] w1]; [|done]. by exists now, w1.
Qed.
Lemma put_run r w : store_ok w → ∃ w', runs_put r w = (Ok r, w') ∧ holds r w'.
Proof.
  intros Hs. destruct (runs_put r w) as [o w1] eqn:Hp.
  destruct (put_law _ _ _ _ Hs Hp) as (Hs1 & -> & Hh & _). by exists w1.
Qed.

Lemma put_failed_run text r w :
  state r = BACKEND_GENERATION → store_ok w →
  ∃ now w', put_failed monotonic text r w = (Ok tt, w')
    ∧ holds (set_error text (with_state FAILED now r)) w'.
Proof.
  intros Hst Hs. unfold put_failed.
  destruct (move_run (failed text) r w) as (now & w1 & Hm & Hk).
  assert (failed text now r = Ok (set_error text (with_state FAILED now r))) as Hf.
  { unfold failed. rewrite moved_spec, Hst. done. }
  rewrite Hf in Hm. rewrite (run_bind_ok _ _ _ _ _ Hm).
  destruct (put_run (set_error text (with_state FAILED now r)) w1 (proj1 (Hk Hs))) as (w2 & Hp & Hh).
  rewrite (run_bind_ok _ _ _ _ _ Hp). by exists now, w2.
Qed.

Lemma relay_chunks_kept id chunks scan w :
  store_kept w (relay_chunks log emit id chunks scan w).2.
Proof.
  revert scan w. induction chunks as [|c chunks IH]; intros scan w Hs; [done|].
  cbn [relay_chunks]. rewrite !run_bind, run_modify. cbn.
  destruct (und_log_append und id c w Hs) as [Hs1 Hk1].
  destruct (und_emit und c (log_append log id c w) Hs1) as [Hs2 Hk2]. rewrite run_bind.
  destruct (emit c (log_append log id c w)) as [[[]|e] w2]; cbn in Hs2, Hk2 |- *;
    [|split; [done|intros k; by rewrite Hk2, Hk1]].
  destruct (feed c scan) as [s|e]; cbn; [|split; [done|intros k; by rewrite Hk2, Hk1]].
  destruct (IH s w2 Hs2) as [Hs3 Hk3]. split; [done|]. intros k. by rewrite Hk3, Hk2, Hk1.
Qed.

(** The two clauses of the [try], and what each writes into the run. *)
Definition caught (e : exn) : bool := isinstance e cCancelledError || isinstance e cException.
Definition words (e : exn) : string :=
  if isinstance e cCancelledError then "the connection was lost during generation"
  else type_name e ++s ": " ++s exn_message e.

(** Who raised an error: the proxy when the agent's stream was opened, the connection
    when it was closed, or the meter when the run was charged. *)
Definition open_raised (e : exn) : Prop :=
  ∃ request wa wb, ps_stream proxy (backend_service settings) request wa = (Raise e, wb).
Definition close_raised (e : exn) : Prop := ∃ n wa wb, close n wa = (Raise e, wb).
Definition charge_raised (e : exn) : Prop :=
  ∃ m a i u wa wb, meter = Some m ∧ meter_charge m a i u wa = (Raise e, wb).

(** The [finally] of [watch], after whatever the body left. *)
Lemma watch_finally r upstream (P : W → Prop) (o2 : result exn StreamScan) w2 o w' :
  (∀ wa wb, store_kept wa wb → P wa → P wb) → P w2 →
  match (stream_aclose close upstream ;; modify (log_end log (run_id r))) w2 with
  | (Ok _, s'') => (o2, s'')
  | (Raise e, s'') => (Raise e, s'')
  end = (o, w') →
  P w' ∧ (o = o2 ∨ ∃ e, o = Raise e ∧ close_raised e).
Proof.
  intros HP H2. unfold stream_aclose. rewrite run_bind.
  pose proof (und_close und (body_connection (stream_chunks upstream)) w2) as Hc.
  destruct (close _ w2) as [[[]|e] w3] eqn:Hclose; cbn in Hc |- *; intros [= <- <-].
  - split; [|by left]. eapply HP; [apply und|]. by eapply HP.
  - split; [by eapply HP|]. right. exists e. split; [done|]. by eexists _, _, _.
Qed.

(** What [watch] leaves of a run that is generating. *)
Lemma watch_outcome r upstream w o w' :
  state r = BACKEND_GENERATION → holds r w →
  watch log monotonic emit close r upstream w = (o, w') →
  match o with
  | Ok _ => holds r w'
  | Raise e =>
      (∃ now e1, holds (set_error (words e1) (with_state FAILED now r)) w'
         ∧ caught e1 = true ∧ (e = e1 ∨ close_raised e))
      ∨ (holds r w' ∧ (caught e = false ∨ close_raised e))
  end.
Proof.
  intros Hst Hh. unfold watch, try_finally, try_except.
  assert (store_kept w (relay_body log emit (run_id r) (stream_chunks upstream) w).2) as Hk.
  { unfold relay_body. rewrite run_bind.
    pose proof (relay_chunks_kept (run_id r) (body_chunks (stream_chunks upstream)) new_scan w) as H.
    destruct (relay_chunks _ _ _ _ _ w) as [[s|e] w1]; [|done].
    by destruct (body_error _). }
  destruct (relay_body _ _ _ _ w) as [o1 w1]. cbn in Hk.
  pose proof (holds_kept _ _ _ Hk Hh) as Hh1.
  destruct o1 as [s|e].
  { intros H. destruct (watch_finally _ _ (holds r) _ _ _ _ (holds_kept r) Hh1 H)
      as [Hh' [->|(e & -> & Hc)]]; [done|]. right. by auto. }
  assert (caught e = true → ∃ now w2,
    (put_failed monotonic (words e) r ;; raise (A:=StreamScan) e) w1 = (Raise e, w2)
    ∧ holds (set_error (words e) (with_state FAILED now r)) w2) as Hput.
  { intros _. destruct (put_failed_run (words e) r w1 Hst (proj1 Hh1)) as (now & w2 & Hp & Hh2).
    exists now, w2. by rewrite (run_bind_ok _ _ _ _ _ Hp). }
  unfold caught, words in Hput |- *.
  destruct (isinstance e cCancelledError) eqn:Hc; [|destruct (isinstance e cException) eqn:He].
  1,2: destruct (Hput eq_refl) as (now & w2 & Heq & Hh2); cbn in Heq |- *; rewrite Heq; intros H;
    destruct (watch_finally _ _ _ _ _ _ _ (holds_kept _) Hh2 H) as [Hh' [->|(e' & -> & Hcl)]];
    left; exists now, e; rewrite Hc, ?He; split_and!; try done; cbn; auto.
  intros H. destruct (watch_finally _ _ (holds r) _ _ _ _ (holds_kept r) Hh1 H)
    as [Hh' [->|(e' & -> & Hcl)]]; right; rewrite ?Hc, ?He; auto.
Qed.

Lemma charge_run_outcome r u w :
  ∃ o w', charge_run meter monotonic r u w = (o, w') ∧ store_kept w w'
    ∧ match o with
      | Ok r' => r' = r ∨ ∃ n now, r' = billed n now r
      | Raise e => charge_raised e ∧ isinstance e cException = false
      end.
Proof.
  unfold charge_run. destruct meter as [m|] eqn:Hm;
    [|exists (Ok r), w; split_and!; [done|by intros ?|by left]].
  destruct (negb _ || _); [exists (Ok r), w; split_and!; [done|by intros ?|by left]|].
  pose proof (und_charge und m (account r) (run_id r) u w Hm) as Hk.
  rewrite run_bind. unfold try_except. rewrite run_bind.
  destruct (meter_charge m (account r) (run_id r) u w) as [[[n|]|e] w1] eqn:Hc; cbn in Hk |- *.
  - unfold touch. rewrite run_bind. destruct (und_clock und w1) as [Hk2 Hok].
    destruct (monotonic w1) as [[now|] w2]; [|done]. cbn in *.
    do 2 eexists. split_and!; [done| |right; by eexists _, _].
    intros Hs. destruct (Hk Hs) as [Hs1 Hh1]. destruct (Hk2 Hs1) as [Hs2 Hh2].
    split; [done|]. intros k. by rewrite Hh2.
  - exists (Ok r), w1. split_and!; [done|done|by left].
  - unfold except. destruct (isinstance e cException) eqn:He.
    + exists (Ok r), w1. split_and!; [done|done|by left].
    + exists (Raise e), w1. split_and!; [done|done| |done].
      exists m, (account r), (run_id r), u, w, w1. by split.
Qed.

Lemma conclude_outcome r scan w o w' :
  state r = BACKEND_GENERATION → holds r w →
  conclude meter monotonic r scan w = (o, w') →
  match o with
  | Ok _ => ∃ c, holds c w' ∧ run_id c = run_id r ∧ plan c = plan r ∧ account c = account r
      ∧ ((state c = ZIP_READY ∧ artifact_id c ≠ EmptyString)
         ∨ (state c = FAILED ∧ run_error c = "the agent produced no artifact"%string))
  | Raise e => holds r w' ∧ charge_raised e ∧ isinstance e cException = false
  end.
Proof.
  unfold conclude. intros Hst Hh Hrun. destruct (negb (str_truthy (artifact scan))) eqn:Ha.
  - destruct (put_failed_run "the agent produced no artifact" r w Hst (proj1 Hh))
      as (now & w1 & Hf & Hh').
    rewrite Hf in Hrun. injection Hrun as <- <-. eexists. split; [exact Hh'|].
    split_and!; try done. by right.
  - apply negb_false_iff, str_truthy_spec in Ha.
    destruct (move_run (delivered (artifact scan)) r w) as (now & w1 & Hd & Hkd).
    assert (delivered (artifact scan) now r
      = Ok (set_artifact (artifact scan) (with_state ZIP_READY now r))) as Hdel
      by (unfold delivered; by rewrite moved_spec, Hst).
    rewrite Hdel in Hd. rewrite (run_bind_ok _ _ _ _ _ Hd) in Hrun. set (d := set_artifact _ _) in *.
    destruct (charge_run_outcome d (usage scan) w1) as ([c|e] & w2 & Hc & Hkc & Hcd).
    + rewrite (run_bind_ok _ _ _ _ _ Hc) in Hrun.
      destruct (put_run c w2 (proj1 (Hkc (proj1 (Hkd (proj1 Hh)))))) as (w3 & Hp & Hh').
      rewrite (run_bind_ok _ _ _ _ _ Hp) in Hrun. injection Hrun as <- <-.
      exists c. split; [done|]. destruct Hcd as [->|(n & t & ->)]; split_and!; try done; by left.
    + rewrite run_bind, Hc in Hrun. injection Hrun as <- <-. split; [|done].
      eapply holds_kept; [exact Hkc|]. by eapply holds_kept.
Qed.

(** An observation of the world that only a charge can disturb. *)
Record aside (P : W → Prop) : Prop := mkAside {
  aside_get id : preserves P (runs_get id);
  aside_put r : preserves P (runs_put r);
  aside_clock : preserves P monotonic;
  aside_emit c : preserves P (emit c);
  aside_close n : preserves P (close n);
  aside_stream name request : preserves P (ps_stream proxy name request);
  aside_log_start id w : P w → P (log_start log id w);
  aside_log_append id c w : P w → P (log_append log id c w);
  aside_log_end id w : P w → P (log_end log id w)
}.

Lemma relay_chunks_aside P id chunks scan :
  aside P → preserves P (relay_chunks log emit id chunks scan).
Proof.
  intros HP. revert scan. induction chunks as [|c chunks IH]; intros scan; [apply preserves_ret|].
  cbn [relay_chunks]. destruct HP. repeat (apply preserves_bind; [|intros ?]); auto using preserves_modify with gw_effects.
Qed.
Lemma put_failed_aside P text r : aside P → preserves P (put_failed monotonic text r).
Proof.
  intros HP. unfold put_failed, move. destruct HP. auto 6 with gw_effects.
Qed.
Lemma watch_aside P r upstream : aside P → preserves P (watch log monotonic emit close r upstream).
Proof.
  intros HP. pose proof (relay_chunks_aside P) as Hrelay. pose proof (put_failed_aside P) as Hput.
  apply preserves_finally; [apply preserves_try|].
  - unfold relay_body. apply preserves_bind; [by apply Hrelay|]. intros s.
    destruct (body_error _); auto with gw_effects.
  - intros e k Hk. destruct (isinstance e cCancelledError); [|destruct (isinstance e cException); [|done]];
      injection Hk as <-; auto with gw_effects.
  - unfold stream_aclose. destruct HP. auto using preserves_modify with gw_effects.
Qed.

(** The scan that is returned is that of the whole stream. *)
Lemma relay_chunks_scan id chunks scan w s w' :
  relay_chunks log emit id chunks scan w = (Ok s, w') → feed_all chunks scan = Ok s.
Proof using Type.
  revert scan w. induction chunks as [|c chunks IH]; intros scan w; cbn [relay_chunks feed_all]; [by intros [= ->]|].
  intros (? & ? & _ & (? & ? & _ & (s1 & ? & Hs1 & H)%bind_ok_inv)%bind_ok_inv)%bind_ok_inv.
  injection Hs1 as Hs1 _. rewrite Hs1. by eapply IH.
Qed.
Lemma watch_scan r upstream w s w' :
  watch log monotonic emit close r upstream w = (Ok s, w') →
  feed_all (body_chunks (stream_chunks upstream)) new_scan = Ok s.
Proof using Type.
  unfold watch, try_finally. destruct (try_except _ _ w) as [o w1] eqn:Htry. intros H.
  assert (o = Ok s) as -> by (repeat case_match; by simplify_eq). clear H.
  unfold try_except, relay_body in Htry. rewrite run_bind in Htry.
  destruct (relay_chunks _ _ _ _ _ w) as [[s1|e] w2] eqn:Hr;
    [destruct (body_error _) as [e|]; cbn [raise mret M_ret] in Htry|].
  2: injection Htry as -> _; by eapply relay_chunks_scan.
  all: destruct (isinstance e cCancelledError); [|destruct (isinstance e cException)]; try done.
  all: by apply bind_ok_inv in Htry as (? & ? & _ & ?).
Qed.

(** A generation of an approved run: it ends before there is a whole stream, and the run
    was failed or left generating; or all of the stream was read, and what is left of it
    is [conclude].  Whatever the collaborators keep is kept up to there. *)
Lemma generate_reaches P id w0 w1 r0 o w' :
  aside P → P w0 → store_ok w0 → runs_get id w0 = (Ok r0, w1) → state r0 = PLAN_APPROVED →
  generate proxy settings log meter monotonic emit close id w0 = (o, w') →
  (∃ e r, o = Raise e ∧ P w' ∧ held w' id = Some r ∧ plan r = plan r0 ∧ account r = account r0
     ∧ charged r = charged r0
     ∧ ((state r = FAILED ∧ ∃ e1, caught e1 = true ∧ run_error r = words e1
                                  ∧ (e = e1 ∨ close_raised e))
        ∨ (state r = BACKEND_GENERATION ∧ (open_raised e ∨ caught e = false ∨ close_raised e))))
  ∨ ∃ upstream scan r w2, (∃ request wa wb, ps_stream proxy (backend_service settings) request wa
                                            = (Ok upstream, wb))
      ∧ feed_all (body_chunks (stream_chunks upstream)) new_scan = Ok scan
      ∧ run_id r = id ∧ state r = BACKEND_GENERATION ∧ plan r = plan r0 ∧ account r = account r0
      ∧ charged r = charged r0 ∧ holds r w2 ∧ P w2 ∧ conclude meter monotonic r scan w2 = (o, w').
Proof.
  intros HP H0 Hok Hget Happ Hrun.
  destruct (get_law _ _ _ _ Hok Hget) as (Hok1 & (_ & _ & Hid) & _).
  pose proof (preserves_run _ _ _ _ _ (aside_get P HP id) Hget H0) as H1. clear H0.
  unfold generate in Hrun. rewrite (run_bind_ok _ _ _ _ _ Hget) in Hrun.
  destruct (move_run generating r0 w1) as (now & w2 & Hm & Hk).
  assert (P w2) as H2.
  { eapply preserves_run, H1; [|exact Hm]. unfold move. destruct HP. auto with gw_effects. }
  assert (generating now r0 = Ok (with_state BACKEND_GENERATION now r0)) as Hg
    by (unfold generating; by rewrite moved_spec, Happ).
  rewrite Hg in Hm. rewrite (run_bind_ok _ _ _ _ _ Hm) in Hrun.
  set (r := with_state BACKEND_GENERATION now r0) in *.
  destruct (put_run r w2 (proj1 (Hk Hok1))) as (w3 & Hp & Hh).
  pose proof (preserves_run _ _ _ _ _ (aside_put P HP r) Hp H2) as H3. clear H1 H2.
  rewrite (run_bind_ok _ _ _ _ _ Hp) in Hrun. cbv zeta in Hrun.
  assert (run_id r = id) as Hrid by done.
  set (req := agent_request _ _ _ _) in Hrun. clearbody req.
  pose proof (und_stream und (backend_service settings) req w3) as Hs.
  inv_bind Hrun; rewrite Hm0 in Hs; cbn in Hs;
    pose proof (preserves_run _ _ _ _ _ (aside_stream P HP _ _) Hm0 H3) as H4.
  2:{ left. destruct (holds_kept _ _ _ Hs Hh) as [_ Hh'].
      rewrite Hrid in Hh'. exists e, r. split_and!; try done. right. split; [done|]. left. by eexists _, _, _. }
  apply (holds_kept _ _ _ Hs) in Hh. rename a into upstream, s into w4.
  rewrite run_bind in Hk0. cbn in Hk0.
  apply (holds_kept _ _ _ (und_log_start und (run_id r) w4)) in Hh.
  apply (aside_log_start P HP (run_id r)) in H4.
  inv_bind Hk0; pose proof (watch_outcome r upstream _ _ _ eq_refl Hh Hm1) as Hh5; cbn in Hh5;
    pose proof (preserves_run _ _ _ _ _ (watch_aside P r upstream HP) Hm1 H4) as H5.
  - right. apply watch_scan in Hm1. exists upstream, a, r. eexists. split_and!; eauto.
  - left. destruct Hh5 as [(t & e1 & [_ Hh5] & Hcaught & He)|[[_ Hh5] He]].
    + cbn in Hh5. rewrite Hid in Hh5.
      exists e. eexists. split_and!; [done|done|exact Hh5|done|done|done|]. left. by eauto.
    + rewrite Hrid in Hh5. exists e, r. split_and!; try done. right. by auto.
Qed.

(** C13. How a generation ends, on every path, when nobody else touches the store: the
    run keeps its plan and its payer.  When the generator ran to its end, it is
    delivered with an artifact, or failed for the lack of one.  When it raised, the run
    is failed, with the words of the error or the cancellation that broke the stream,
    which is what was raised unless closing the connection raised something else; or it
    is left generating, and then the agent's stream could not be opened, or what was
    raised is neither an [Exception] nor a cancellation, or it came from closing the
    connection, or from the meter and is no [Exception] (a cancellation, say:
    [charge_cancelled_leaves_generating]). *)
Theorem generation_outcome id w0 w1 r0 o w'
    (Hok : store_ok w0) (Hget : runs_get id w0 = (Ok r0, w1)) (Happ : state r0 = PLAN_APPROVED)
    (Hrun : generate proxy settings log meter monotonic emit close id w0 = (o, w')) :
  ∃ r, held w' id = Some r ∧ plan r = plan r0 ∧ account r = account r0
    ∧ match o with
      | Ok _ => (state r = ZIP_READY ∧ artifact_id r ≠ EmptyString)
                ∨ (state r = FAILED ∧ run_error r = "the agent produced no artifact"%string)
      | Raise e =>
          (state r = FAILED ∧ ∃ e1, caught e1 = true ∧ run_error r = words e1
                                    ∧ (e = e1 ∨ close_raised e))
          ∨ (state r = BACKEND_GENERATION
             ∧ (open_raised e ∨ caught e = false ∨ close_raised e
                ∨ (charge_raised e ∧ isinstance e cException = false)))
      end.
Proof.
  assert (aside (λ _, True)) as Haside by by split.
  destruct (generate_reaches _ id w0 w1 r0 o w' Haside I Hok Hget Happ Hrun)
    as [(e & r & -> & _ & Hr & ? & ? & _ & Hend)|(up & s & r & w2 & _ & _ & Hid & Hst & Hp & Ha & _ & Hh & _ & Hk)].
  - exists r. split_and!; try done. destruct Hend as [?|[? [?|[?|?]]]]; [by left|right; by auto..].
  - pose proof (conclude_outcome _ _ _ _ _ Hst Hh Hk) as Hend. destruct o as [[]|e].
    + destruct Hend as (c & [_ Hc] & Hci & Hcp & Hca & Hend).
      exists c. rewrite Hci, Hid in Hc. split_and!; [done|congruence|congruence|done].
    + destruct Hend as ([_ Hc] & Hcharge & He). exists r. rewrite Hid in Hc.
      split_and!; try done. right. by auto 6.
Qed.
End outcome.

(** ** A small process to run the handlers in *)

Record DemoWorld : Type := mkDemoWorld {
  demo_runs : RunTable;
  demo_time : Z;
  demo_log : Log.State;
  demo_served : list (RunState * Z);  (* state and rounds of every run answered with *)
  demo_effects : list Effect
}.
Definition demo_start : DemoWorld := mkDemoWorld [] 0 Log.InMemoryRunLog [] [].

Global Program Instance demo_runs_field : Field DemoWorld RunTable := {|
  getf := demo_runs;
  setf d w := mkDemoWorld d (demo_time w) (demo_log w) (demo_served w) (demo_effects w)
|}.
Solve Obligations with (done || by intros []).
Global Program Instance demo_log_field : Field DemoWorld Log.State := {|
  getf := demo_log;
  setf l w := mkDemoWorld (demo_runs w) (demo_time w) l (demo_served w) (demo_effects w)
|}.
Solve Obligations with (done || by intros []).

Definition demo_clock : M DemoWorld exn Z := λ w,
  (Ok (demo_time w + 1),
   mkDemoWorld (demo_runs w) (demo_time w + 1) (demo_log w) (demo_served w) (demo_effects w)).
Definition demo_token : M DemoWorld exn string := mret "00"%string.
Definition demo_effect (e : Effect) : M DemoWorld exn unit :=
  modify (λ w, mkDemoWorld (demo_runs w) (demo_time w) (demo_log w) (demo_served w)
                 (demo_effects w ++ [e])).
Definition demo_close (n : nat) : M DemoWorld exn unit := demo_effect (EClose n).
Definition demo_emit (c : string) : M DemoWorld exn unit := demo_effect (EEmit c).
Definition demo_meter : RunMeter DemoWorld :=
  {| meter_authorize _ := mret tt;
     meter_charge a i u := demo_effect (ECharge a i u) ;; mret (Some (- tokens u)) |}.
Definition demo_json_error (_ : string) : string := "no JSON".
Definition demo_store : RunStore DemoWorld := InMemoryRunStore default_run_store demo_clock.
#[local] Existing Instance demo_store.

Lemma demo_laws : RunStoreLaws DemoWorld.
Proof.
  apply (memory_laws_of default_run_store demo_clock demo_time).
  - intros w. exists (demo_clock w).2. cbn. split_and!; [done|done|lia].
  - done.
  - vm_compute. discriminate.
Qed.
#[local] Existing Instance demo_laws.

(** An agent that answers every call with the same text, once [before] has run: the
    requests served while the call is awaited. *)
Definition demo_agents (before : M DemoWorld exn unit) (text : string) (chunks : list string)
    : ProxyService DemoWorld :=
  {| ps_forward _ _ := before ;; mret (mkResponse 200 [] text None None);
     ps_stream _ _ := mret (mkStream 200 [] (mkBody chunks None 7) None) |}.
Definition demo_log_port : RunLogPort DemoWorld := RunLogPort_of Log.default_config.

(** A handler whose answer reaches its caller. *)
Definition served (m : M DemoWorld exn Run) : M DemoWorld exn unit :=
  r ← m;
  modify (λ w, mkDemoWorld (demo_runs w) (demo_time w) (demo_log w)
                 (demo_served w ++ [(state r, rounds r)]) (demo_effects w)).

Definition demo_asks : string :=
  "{" ++s quoted "questions" ++s ": [{" ++s quoted "text" ++s ": " ++s quoted "Who uses it?" ++s "}]}".
Definition demo_analysis : string :=
  "{" ++s quoted "summary" ++s ": " ++s quoted "A shop" ++s ", " ++s quoted "questionnaire"
  ++s ": " ++s demo_asks ++s "}".
Definition demo_plans : string :=
  "{" ++s quoted "purpose" ++s ": " ++s quoted "Repair bikes" ++s ", " ++s quoted "entities"
  ++s ": [{" ++s quoted "name" ++s ": " ++s quoted "Bike" ++s "}]}".

Definition demo_start_run (text : string) : M DemoWorld exn Run :=
  start (demo_agents (mret tt) text []) default_orchestration None demo_clock demo_token
    demo_json_error "a bike shop" EmptyString.
Definition demo_answer (before : M DemoWorld exn unit) (text : string) : M DemoWorld exn Run :=
  answer (demo_agents before text []) default_orchestration demo_clock demo_json_error "00" [].
Definition demo_generate (agents : ProxyService DemoWorld) (emit : string → M DemoWorld exn unit)
    : M DemoWorld exn unit :=
  generate agents default_orchestration demo_log_port None demo_clock emit demo_close "00".

Lemma demo_same_runs w w' : demo_runs w' = demo_runs w → runs_ok w → runs_ok w'.
Proof. destruct w, w'; cbn. intros ->. done. Qed.

Lemma demo_calm text : calm (demo_agents (mret tt) text []) demo_log_port None demo_clock demo_token
                         demo_emit demo_close.
Proof.
  split; try (intros; intros w Hw; exact Hw); try done;
    intros; (eapply demo_same_runs; [|eassumption]; reflexivity).
Qed.
Lemma demo_start_ok : runs_ok demo_start.
Proof.
  split; [|intros k r; discriminate]. split; [split; constructor|].
  change (0 <= 500). lia.
Qed.

Lemma handlers_keep_runs_in_order_witness :
  ∃ r, (demo_start_run demo_analysis demo_start).1 = Ok r ∧ run_ok r.
Proof.
  pose proof (proj2 (proj1 (@handlers_keep_runs_in_order DemoWorld demo_store demo_laws
    (demo_agents (mret tt) demo_analysis []) default_orchestration demo_log_port None
    demo_clock demo_token demo_emit demo_close demo_json_error (demo_calm demo_analysis))
    "a bike shop"%string EmptyString demo_start demo_start_ok)) as H.
  assert (is_ok (demo_start_run demo_analysis demo_start).1 = true) as Hk
    by (vm_compute; reflexivity).
  change (match (demo_start_run demo_analysis demo_start).1 with Ok a => run_ok a | Raise _ => True end) in H.
  destruct (demo_start_run demo_analysis demo_start).1 as [r|e]; [by exists r|discriminate Hk].
Defined.

(** Two answers to the same questionnaire, sent at once, are each served another:
    the handler reads the run before it asks the planner and writes it back after, so
    the two count the same round and three questionnaires are served with the counter
    at [MAX_ROUNDS]. *)
Theorem concurrent_answers_exceed_rounds :
  demo_served
    (served (demo_answer (served (demo_answer (mret tt) demo_asks)) demo_asks)
       (served (demo_start_run demo_analysis) demo_start).2).2
  = [(QUESTIONNAIRE, 1); (QUESTIONNAIRE, 2); (QUESTIONNAIRE, 2)].
Proof. vm_compute. reflexivity. Qed.

(** An answer that was waiting for the planner when the run's plan was proposed and
    approved by another request overwrites the approval: the run answered with as
    approved is stored as a questionnaire again, and can no longer be generated. *)
Theorem stale_answer_undoes_approval :
  let w := (served (demo_answer (served (demo_answer (mret tt) demo_plans);;
                                 served (approve demo_clock "00")) demo_asks)
             (served (demo_start_run demo_analysis) demo_start).2).2 in
  demo_served w = [(QUESTIONNAIRE, 1); (PLAN_REVIEW, 1); (PLAN_APPROVED, 1); (QUESTIONNAIRE, 2)]
  ∧ (demo_generate (demo_agents (mret tt) demo_plans []) demo_emit w).1
    = Raise (IllegalTransitionError "QUESTIONNAIRE" "GENERATE").
Proof. split; vm_compute; reflexivity. Qed.

(** An approved run. *)
Definition demo_approved : DemoWorld :=
  (approve demo_clock "00" (demo_answer (mret tt) demo_plans (demo_start_run demo_analysis demo_start).2).2).2.
Definition demo_down : ProxyService DemoWorld :=
  {| ps_forward _ _ := raise (UpstreamConnectionError "pm" false);
     ps_stream _ _ := raise (UpstreamConnectionError "backend" false) |}.
Definition demo_state (w : DemoWorld) : option RunState := state <$> held w "00".

(** A generation can end and leave its run generating for ever: when the agent
    cannot be reached, because the run is stored as generating before the stream is
    opened and outside the handler's [try]; and when the caller drops the stream,
    because [GeneratorExit] is neither an [Exception] nor a [CancelledError].  In both
    cases the error is reported to nobody who could retry: a new generation is
    refused. *)
Theorem generation_left_hanging :
  (let '(o, w) := demo_generate demo_down demo_emit demo_approved in
   o = Raise (UpstreamConnectionError "backend" false)
   ∧ demo_state w = Some BACKEND_GENERATION
   ∧ (demo_generate demo_down demo_emit w).1
     = Raise (IllegalTransitionError "BACKEND_GENERATION" "GENERATE"))
  ∧ (let '(o, w) := demo_generate (demo_agents (mret tt) demo_plans ["x"; "y"]%string)
                      (λ _, raise GeneratorExit) demo_approved in
     o = Raise GeneratorExit ∧ demo_state w = Some BACKEND_GENERATION).
Proof. split; vm_compute; by split_and!. Qed.

(** An agent that refuses with an error that is a plain string makes [_ask_pm] raise
    an [AttributeError], which is not the gateway's and is answered as an internal
    error, where an error object is carried through as an [OrchestrationError]. *)
Theorem string_error_escapes :
  let refusing text := {| ps_forward _ _ := mret (mkResponse 503 [] text None None);
                          ps_stream _ _ := raise (RuntimeError "unused") |} : ProxyService DemoWorld in
  let ask text := (ask_pm (refusing text) default_orchestration demo_json_error "plan" [] demo_start).1 in
  ask ("{" ++s quoted "error" ++s ": {" ++s quoted "message" ++s ": " ++s quoted "no quota" ++s "}}")
    = Raise (OrchestrationError "pm" "no quota")
  ∧ ∃ e, ask ("{" ++s quoted "error" ++s ": " ++s quoted "no quota" ++s "}") = Raise e
      ∧ isinstance e cGatewayError = false ∧ classify e = (500, "internal_error"%string).
Proof. split; [vm_compute; reflexivity|]. eexists. split; [vm_compute; reflexivity|]. split; vm_compute; reflexivity. Qed.

(** *** Generations in the small process *)

(** A run that an account pays for, approved. *)
Definition demo_paid : DemoWorld :=
  (approve demo_clock "00" (demo_answer (mret tt) demo_plans
     (start (demo_agents (mret tt) demo_analysis []) default_orchestration None demo_clock demo_token
        demo_json_error "a bike shop" "GA" demo_start).2).2).2.
Definition demo_delivering : ProxyService DemoWorld :=
  demo_agents (mret tt) demo_plans (cut 30 sample_done).
Definition demo_generation : result exn unit * DemoWorld :=
  generate demo_delivering default_orchestration demo_log_port (Some demo_meter) demo_clock
    demo_emit demo_close "00" demo_paid.

Lemma generation_gate_witness :
  (generate demo_down default_orchestration demo_log_port None demo_clock demo_emit demo_close "00"
     demo_start).1 = Raise (RunNotFoundError "00").
Proof.
  pose proof (generation_gate default_orchestration demo_log_port None demo_clock demo_emit demo_close
    demo_down "00" demo_start) as H.
  assert (runs_get "00" demo_start = (Raise (RunNotFoundError "00"), (runs_get "00" demo_start).2)) as Hg
    by (vm_compute; reflexivity).
  rewrite Hg in H. rewrite H. reflexivity.
Defined.

Lemma demo_traced :
  traced demo_log_port (Some demo_meter) demo_clock demo_emit demo_close demo_delivering demo_effects.
Proof.
  split; try done.
  - by intros m a i u w [= <-].
  - intros id w. change (demo_effects (memory_get default_run_store demo_clock id w).2 = demo_effects w).
    unfold memory_get. rewrite run_bind. unfold demo_clock. autorewrite with gw_run.
    by case_goal.
  - intros r w. change (demo_effects (memory_put default_run_store demo_clock r w).2 = demo_effects w).
    unfold memory_put. rewrite run_bind. unfold demo_clock. autorewrite with gw_run.
    by case_goal.
Qed.

Lemma generation_charges_delivery_witness :
  is_ok demo_generation.1 = true
  ∧ ∃ l bill, demo_effects demo_generation.2
    = demo_effects demo_paid ++ map EEmit l ++ EClose 7 :: bill.
Proof.
  assert (is_ok demo_generation.1 = true) as Hok by (vm_compute; reflexivity).
  split; [exact Hok|].
  destruct (generation_charges_delivery default_orchestration demo_log_port (Some demo_meter)
    demo_clock demo_emit demo_close demo_delivering demo_effects demo_traced "00" demo_paid
    demo_generation.1 demo_generation.2 (surjective_pairing _))
    as [[_ H]|(u & r & l & bill & (req & wa & wb & Hu) & _ & _ & H & _)].
  - rewrite H in Hok. discriminate Hok.
  - injection Hu as <- _. exists l, bill. exact H.
Defined.

Lemma demo_undisturbed :
  undisturbed demo_delivering demo_log_port (Some demo_meter) demo_clock demo_emit demo_close.
Proof. split; try done. by intros m a i u w [= <-]. Qed.

(** The task is cancelled while the charge waits for its thread. *)
Definition cancelled_meter : RunMeter DemoWorld :=
  {| meter_authorize _ := mret tt;
     meter_charge _ _ _ w := (Raise CancelledError, w) |}.
Definition cancelled_generation : result exn unit * DemoWorld :=
  generate demo_delivering default_orchestration demo_log_port (Some cancelled_meter)
    demo_clock demo_emit demo_close "00" demo_paid.

(** The project was delivered to the caller, and the run says that it is still being
    generated, for ever. *)
Example charge_cancelled_leaves_generating :
  (∃ e, cancelled_generation.1 = Raise e ∧ isinstance e cCancelledError = true)
  ∧ match held cancelled_generation.2 "00" with
    | Some r => state r = BACKEND_GENERATION ∧ run_error r = EmptyString ∧ artifact_id r = EmptyString
    | None => False
    end.
Proof. split; [eexists; split; vm_compute; reflexivity|vm_compute; by split_and!]. Qed.

Definition demo_paid_run : Run :=
  match (runs_get "00" demo_paid).1 with Ok r => r | Raise _ => sample_run end.
Lemma demo_paid_get : runs_get "00" demo_paid = (Ok demo_paid_run, (runs_get "00" demo_paid).2).
Proof. vm_compute. reflexivity. Qed.
Lemma demo_paid_approved : state demo_paid_run = PLAN_APPROVED.
Proof. vm_compute. reflexivity. Qed.
Lemma demo_paid_ok : store_ok demo_paid.
Proof.
  split; [|vm_compute; discriminate].
  apply (table_ok_sublist [("00"%string, demo_paid_run)]).
  - vm_compute. constructor. constructor.
  - split; [apply NoDup_singleton|apply Forall_singleton; vm_compute; reflexivity].
Qed.

Lemma generation_outcome_witness :
  ∃ r, held demo_generation.2 "00" = Some r ∧ plan r = plan demo_paid_run.
Proof.
  destruct (@generation_outcome DemoWorld demo_store demo_laws demo_delivering
    default_orchestration demo_log_port (Some demo_meter) demo_clock demo_emit demo_close
    demo_undisturbed "00" demo_paid _ demo_paid_run demo_generation.1 demo_generation.2
    demo_paid_ok demo_paid_get demo_paid_approved (surjective_pairing _)) as (r & Hr & Hp & _).
  exists r. split; [exact Hr|exact Hp].
Defined.

Example demo_generation_delivers :
  match held demo_generation.2 "00" with
  | Some r => state r = ZIP_READY ∧ artifact_id r = sample_id ∧ charged r = 12
  | None => False
  end.
Proof. vm_compute. split_and!; reflexivity. Qed.
