(* ===== verification/Settings.v ===== *)
(** * Settings *)
(** [config/settings.py]: the values an operator gives, what is refused of them and how
    a service's settings become its definition.  The typed values are what pydantic has
    read from the environment; a URL is the text its [HttpUrl] prints; durations are
    nanoseconds. *)
From S2P Require Export Orchestration.
From Stdlib Require Import Ascii.
From stdpp Require Import options.
Local Open Scope Z_scope.

(** ** Errors *)

(** One entry of pydantic's report: a field's own constraint, named by where it is, or
    what a validator of the source raised. *)
Inductive setting_error : Type :=
  | Constraint (location : string)
  | Refused (message : string).
Global Instance setting_error_eq_dec : EqDecision setting_error.
Proof. solve_decision. Defined.

Definition require (holds : bool) (e : setting_error) : list setting_error :=
  if holds then [] else [e].

(** An [after] validator runs on a model whose fields are all valid. *)
Definition after (fields : list setting_error) (validators : list setting_error) : list setting_error :=
  match fields with [] => validators | _ => fields end.

(** ** A service *)

Record ServiceSettings : Type := mkServiceSettings {
  svc_name : string;
  svc_base_url : option string;
  svc_base_urls : list string;
  svc_timeout_seconds : Z;
  svc_health_path : string;
  svc_read_timeout_seconds : option Z;
  svc_headers : Headers
}.

(** [^[a-z0-9][a-z0-9_-]*$]; the dollar of pydantic's regular expressions is the very end. *)
Definition name_first (c : ascii) : bool := digit_char c || ((97 <=? ascii_code c) && (ascii_code c <=? 122)).
Definition name_char (c : ascii) : bool := name_first c || has_char c "_-".
Definition service_name_ok (s : string) : bool :=
  match s with EmptyString => false | String c s' => name_first c && str_all name_char s' end.

(** [HeaderName]: a token. *)
Definition token_char (c : ascii) : bool := alnum_char c || has_char c "!#$%&'*+.^_`|~-".
Definition header_name_ok (s : string) : bool := str_truthy s && str_all token_char s.

(** A line feed, a carriage return, a null. *)
Definition breaks_line (c : ascii) : bool :=
  (ascii_code c =? 10) || (ascii_code c =? 13) || (ascii_code c =? 0).
Definition single_line (secret : string) : bool := str_truthy secret && negb (str_any breaks_line secret).

(** [_header_values_are_single_line]: the first value that is not. *)
Fixpoint header_values_are_single_line (headers : Headers) : list setting_error :=
  match headers with
  | [] => []
  | (name, secret) :: headers' =>
      if single_line secret then header_values_are_single_line headers'
      else [Refused ("header '" ++s name ++s "' must be a non-empty single line")]
  end.

Definition header_names_are_tokens (headers : Headers) : list setting_error :=
  headers ≫= λ h, require (header_name_ok h.1) (Constraint ("headers." ++s h.1)).

(** [_normalized_urls] *)
Definition normalized_urls (s : ServiceSettings) : list string :=
  rstrip_char "/" <$> match svc_base_url s with None => svc_base_urls s | Some u => [u] end.

(** [_servers_are_given_once] *)
Definition servers_are_given_once (s : ServiceSettings) : list setting_error :=
  if Bool.eqb (bool_decide (svc_base_url s = None)) (bool_decide (svc_base_urls s = []))
  then [Refused "set exactly one of 'base_url' and 'base_urls'"]
  else if negb (bool_decide (NoDup (normalized_urls s)))
  then [Refused "'base_urls' lists the same server twice"]
  else [].

(** [ServiceSettings(...)] *)
Definition service_errors (s : ServiceSettings) : list setting_error :=
  after
    (require (service_name_ok (svc_name s)) (Constraint "name")
     ++ require (0 <? svc_timeout_seconds s) (Constraint "timeout_seconds")
     ++ match svc_read_timeout_seconds s with
        | Some t => require (0 <? t) (Constraint "read_timeout_seconds") | None => [] end
     ++ after (header_names_are_tokens (svc_headers s)) (header_values_are_single_line (svc_headers s)))
    (servers_are_given_once s).

(** [to_definition] *)
Definition to_definition (s : ServiceSettings) : result exn ServiceDefinition :=
  ServiceDefinition_new (svc_name s) (normalized_urls s) (svc_timeout_seconds s) (svc_health_path s)
    (svc_read_timeout_seconds s) (svc_headers s).

(** ** Billing *)

Record BillingSettings : Type := mkBillingSettings {
  bil_enabled : bool;
  bil_network : string;
  bil_allow_mainnet : bool;
  bil_horizon_url : option string;
  bil_destination : string;
  bil_asset : string;
  bil_usdc_issuer : string;
  bil_xlm_usd : string;
  bil_secret : string;
  bil_database : string;
  bil_reserve_tokens : Z;
  bil_x402 : bool;
  bil_x402_price_usd : string;
  bil_contract_id : string;
  bil_rpc_url : option string;
  bil_facilitator : bool
}.

Definition default_billing : BillingSettings :=
  mkBillingSettings false "testnet" false None "" "XLM" "" "" "" "var/billing.sqlite3" 50000 true
    "0.50" "" None false.

(** [_mainnet_is_deliberate] *)
Definition mainnet_is_deliberate (b : BillingSettings) : list setting_error :=
  if String.eqb (bil_network b) "public" && negb (bil_allow_mainnet b)
  then [Refused ("GATEWAY_BILLING__NETWORK=public moves real money. Set "
                 ++s "GATEWAY_BILLING__ALLOW_MAINNET=true as well to confirm that is intended.")]
  else [].

(** [_sellable] *)
Definition sellable (b : BillingSettings) : list setting_error :=
  if negb (bil_enabled b) then []
  else if negb (str_truthy (bil_secret b))
  then [Refused ("billing is on but GATEWAY_BILLING__SECRET is empty: "
                 ++s "session tokens would be forgeable by anyone")]
  else if str_truthy (bil_contract_id b) && negb (starts_with "C" (bil_contract_id b))
  then [Refused "GATEWAY_BILLING__CONTRACT_ID is not a Soroban contract id (they start with C)"]
  else if String.eqb (bil_asset b) "USDC" && negb (str_truthy (bil_usdc_issuer b))
  then [Refused ("asset USDC needs GATEWAY_BILLING__USDC_ISSUER: an asset code "
                 ++s "without an issuer is not an asset")]
  else [].

(** [BillingSettings(...)]; of two validators the first to raise ends it. *)
Definition billing_errors (b : BillingSettings) : list setting_error :=
  after
    (require (mem_str (bil_network b) ["testnet"; "public"]%string) (Constraint "network")
     ++ require (mem_str (bil_asset b) ["XLM"; "USDC"]%string) (Constraint "asset")
     ++ require (0 <? bil_reserve_tokens b) (Constraint "reserve_tokens"))
    (after (mainnet_is_deliberate b) (sellable b)).

(** ** Resilience, and all of it *)

Definition DEFAULT_TRANSIENT_STATUS : list Z := [502; 503; 504].

Record RetrySettings : Type := mkRetrySettings {
  ret_max_attempts : Z;
  ret_base_delay_seconds : Z;
  ret_max_delay_seconds : Z;
  ret_retry_on_status : list Z
}.
Definition default_retry : RetrySettings :=
  mkRetrySettings 3 100000000 2000000000 DEFAULT_TRANSIENT_STATUS.
Definition retry_errors (r : RetrySettings) : list setting_error :=
  require (0 <? ret_max_attempts r) (Constraint "max_attempts")
  ++ require (0 <=? ret_base_delay_seconds r) (Constraint "base_delay_seconds")
  ++ require (0 <=? ret_max_delay_seconds r) (Constraint "max_delay_seconds").

Record CircuitBreakerSettings : Type := mkBreakerSettings {
  cb_failure_threshold : Z;
  cb_recovery_timeout_seconds : Z;
  cb_failure_status_codes : list Z
}.
Definition default_circuit_breaker : CircuitBreakerSettings :=
  mkBreakerSettings 5 30000000000 DEFAULT_TRANSIENT_STATUS.
Definition breaker_errors (c : CircuitBreakerSettings) : list setting_error :=
  require (0 <? cb_failure_threshold c) (Constraint "failure_threshold")
  ++ require (0 <? cb_recovery_timeout_seconds c) (Constraint "recovery_timeout_seconds").

Record Settings : Type := mkSettings {
  app_name : string;
  set_host : string;
  port : Z;
  log_level : string;
  max_connections : Z;
  set_services : list ServiceSettings;
  set_orchestration : OrchestrationSettings;
  set_billing : BillingSettings;
  set_retry : RetrySettings;
  set_circuit_breaker : CircuitBreakerSettings
}.
Definition default_settings : Settings :=
  mkSettings "API Gateway" "0.0.0.0" 8000 "INFO" 100 [] default_orchestration default_billing
    default_retry default_circuit_breaker.

(** [Settings(...)] *)
Definition settings_errors (s : Settings) : list setting_error :=
  require (0 <? port s) (Constraint "port")
  ++ require (mem_str (log_level s) ["DEBUG"; "INFO"; "WARNING"; "ERROR"; "CRITICAL"]%string)
       (Constraint "log_level")
  ++ require (0 <? max_connections s) (Constraint "max_connections")
  ++ (set_services s ≫= service_errors)
  ++ billing_errors (set_billing s)
  ++ retry_errors (set_retry s)
  ++ breaker_errors (set_circuit_breaker s).
Definition accepted (s : Settings) : Prop := settings_errors s = [].

(** [service_definitions] *)
Fixpoint service_definitions (services : list ServiceSettings) : result exn (list ServiceDefinition) :=
  match services with
  | [] => Ok []
  | s :: services' =>
      d ← to_definition s; ds ← service_definitions services'; mret (d :: ds)
  end.

(** The defaults are accepted. *)
Example defaults_accepted : settings_errors default_settings = [].
Proof. reflexivity. Qed.

(** ** What an accepted value satisfies *)

Lemma require_nil b e : require b e = [] ↔ b = true.
Proof. by destruct b. Qed.
Lemma after_nil l l' : after l l' = [] ↔ l = [] ∧ l' = [].
Proof. destruct l; cbn; naive_solver. Qed.
Lemma errors_app (l l' : list setting_error) : l ++ l' = [] ↔ l = [] ∧ l' = [].
Proof. split; [apply app_eq_nil|by intros [-> ->]]. Qed.
Lemma errors_bind {A} (f : A → list setting_error) l : (l ≫= f) = [] ↔ ∀ x, x ∈ l → f x = [].
Proof.
  induction l as [|x l IH]; cbn; [split; [by intros _ x ?%not_elem_of_nil|done]|].
  rewrite errors_app, IH. set_solver.
Qed.
Create Rewrite HintDb gw_settings.
#[export] Hint Rewrite require_nil after_nil errors_app @errors_bind : gw_settings.

Lemma values_single_line headers :
  header_values_are_single_line headers = [] ↔ ∀ n v, (n, v) ∈ headers → single_line v = true.
Proof.
  induction headers as [|[n v] headers IH]; [by split; [intros _ ? ? ?%not_elem_of_nil|]|].
  cbn [header_values_are_single_line]. destruct (single_line v) eqn:Hv.
  - rewrite IH. clear IH. set_solver.
  - split; [done|]. intros H. specialize (H n v (list_elem_of_here _ _)). congruence.
Qed.

Lemma servers_given_once s :
  servers_are_given_once s = [] ↔ normalized_urls s ≠ [] ∧ NoDup (normalized_urls s)
    ∧ (svc_base_url s = None ∨ svc_base_urls s = []).
Proof.
  unfold servers_are_given_once, normalized_urls.
  destruct (svc_base_url s) as [u|] eqn:Hu, (svc_base_urls s) as [|u' us] eqn:Hus;
    repeat case_bool_decide; cbn; try naive_solver.
Qed.

(** A service as the operator's settings are allowed to describe it. *)
Record service_setting_ok (s : ServiceSettings) : Prop := mkServiceOk {
  ok_name : service_name_ok (svc_name s) = true;
  ok_timeout : 0 < svc_timeout_seconds s;
  ok_read_timeout : ∀ t, svc_read_timeout_seconds s = Some t → 0 < t;
  ok_headers : ∀ n v, (n, v) ∈ svc_headers s → header_name_ok n = true ∧ single_line v = true;
  ok_servers : normalized_urls s ≠ [] ∧ NoDup (normalized_urls s)
}.

Lemma service_accepted s : service_errors s = [] → service_setting_ok s.
Proof.
  unfold service_errors, header_names_are_tokens. autorewrite with gw_settings.
  rewrite values_single_line, servers_given_once. intros ((Hn & Ht & Hr & Hk & Hv) & Hu & Hd & _).
  split; [done|by apply Z.ltb_lt|..|done].
  - intros t Ht'. rewrite Ht' in Hr. by apply require_nil, Z.ltb_lt in Hr.
  - intros n v Hin. split; [|by eapply Hv]. specialize (Hk (n, v) Hin). by apply require_nil in Hk.
Qed.

(** Everything an accepted configuration promises. *)
Record settings_ok (s : Settings) : Prop := mkSettingsOk {
  ok_services : ∀ svc, svc ∈ set_services s → service_setting_ok svc;
  ok_mainnet : bil_network (set_billing s) = "public"%string → bil_allow_mainnet (set_billing s) = true;
  ok_network : bil_network (set_billing s) ∈ ["testnet"; "public"]%string;
  ok_secret : bil_enabled (set_billing s) = true → bil_secret (set_billing s) ≠ EmptyString;
  ok_contract : bil_enabled (set_billing s) = true → bil_contract_id (set_billing s) ≠ EmptyString →
    starts_with "C" (bil_contract_id (set_billing s)) = true;
  ok_issuer : bil_enabled (set_billing s) = true → bil_asset (set_billing s) = "USDC"%string →
    bil_usdc_issuer (set_billing s) ≠ EmptyString;
  ok_reserve : 0 < bil_reserve_tokens (set_billing s);
  ok_retry : 1 <= ret_max_attempts (set_retry s) ∧ 0 <= ret_base_delay_seconds (set_retry s)
    ∧ 0 <= ret_max_delay_seconds (set_retry s);
  ok_breaker : 1 <= cb_failure_threshold (set_circuit_breaker s)
    ∧ 0 < cb_recovery_timeout_seconds (set_circuit_breaker s)
}.

Lemma sellable_ok b :
  sellable b = [] → bil_enabled b = true →
  bil_secret b ≠ EmptyString
  ∧ (bil_contract_id b ≠ EmptyString → starts_with "C" (bil_contract_id b) = true)
  ∧ (bil_asset b = "USDC"%string → bil_usdc_issuer b ≠ EmptyString).
Proof.
  unfold sellable. intros H Hen. rewrite Hen in H. cbn [negb] in H.
  destruct (str_truthy (bil_secret b)) eqn:Hs; [|done]. apply str_truthy_spec in Hs.
  destruct (str_truthy (bil_contract_id b)) eqn:Hc, (starts_with "C" (bil_contract_id b)) eqn:Hp;
    try done; cbn [negb andb] in H;
    (destruct (String.eqb_spec (bil_asset b) "USDC"), (str_truthy (bil_usdc_issuer b)) eqn:Hi; try done);
    rewrite ?str_truthy_spec, ?str_truthy_false in *; split_and!; try done; congruence.
Qed.

Lemma settings_accepted s : accepted s → settings_ok s.
Proof.
  unfold accepted, settings_errors, billing_errors, retry_errors, breaker_errors.
  autorewrite with gw_settings. rewrite !Z.ltb_lt, !Z.leb_le, !mem_str_spec.
  intros (_ & _ & _ & Hsvc & ((Hnet & _ & Hres) & Hmain & Hsell) & Hretry & Hcb).
  constructor; try (intros Hen; by apply (sellable_ok _ Hsell Hen)); try done; try lia.
  - intros svc Hin. by apply service_accepted, Hsvc.
  - unfold mainnet_is_deliberate in Hmain. intros Hp. rewrite Hp in Hmain.
    by destruct (bil_allow_mainnet (set_billing s)).
Qed.
