(* ===== verification/Bootstrap.v ===== *)
(** * The composition root *)
(** [bootstrap.py]: from the settings to the objects that serve requests.  The resources
    it is handed (the HTTP client, the clock, the signing libraries, opening the ledger's
    file) are parameters. *)
From S2P Require Export Settings Subscriptions PaymentGate.
From S2P Require Import RunLog.
From Stdlib Require Import Ascii.
From stdpp Require Import options.
Local Open Scope Z_scope.

(** [BillingService], [StellarNetwork], [IdentityService] and [X402Service] with the
    arguments their constructors keep. *)
Record BillingParts (W : Type) : Type := mkBillingParts {
  part_network : PaymentNetwork W;
  part_catalog : Catalog;
  part_asset : string;
  part_reserve : Z;
  part_chain : SubscriptionRegistry W;
  part_identity : IdentityService;
  part_x402 : option (Money * string)
}.
Arguments part_network {_} _.
Arguments part_catalog {_} _.
Arguments part_asset {_} _.
Arguments part_reserve {_} _.
Arguments part_chain {_} _.
Arguments part_identity {_} _.
Arguments part_x402 {_} _.

(** [RunOrchestrator]'s collaborators. *)
Record OrchestratorParts (W : Type) : Type := mkOrchestratorParts {
  orch_proxy : ProxyService W;
  orch_settings : OrchestrationSettings;
  orch_log : RunLogPort W;
  orch_meter : option (RunMeter W)
}.
Arguments orch_proxy {_} _.
Arguments orch_settings {_} _.
Arguments orch_log {_} _.
Arguments orch_meter {_} _.

(** [Container] *)
Record Gateway (W : Type) : Type := mkGateway {
  gw_registry : ServiceRegistry;
  gw_client : UpstreamClient W;
  gw_health_client : UpstreamClient W;
  gw_orchestrator : option (OrchestratorParts W);
  gw_billing : option (BillingParts W)
}.
Arguments gw_registry {_} _.
Arguments gw_client {_} _.
Arguments gw_health_client {_} _.
Arguments gw_orchestrator {_} _.
Arguments gw_billing {_} _.

Section bootstrap.
Context {W D Client Account Tx : Type} `{!Field W D} `{!BillingStore D}
        `{!Field W Turns} `{!Field W (gmap string CircuitBreaker)} `{!Field W Log.State}
        `{!Field W (ContractState Client)}.
(** What every object shares: time, ids, the closing of a connection, the transport. *)
Context (now_utc : M W exn Z) (new_entry_id : M W exn string) (clock : M W exn Z)
        (sleep : Z → M W exn unit) (close : nat → M W exn unit) (transport : UpstreamClient W).
(** Horizon over the shared HTTP client, the two halves of the SDK, [fromisoformat]. *)
Context (http_get http_post : string → list (string * string) → M W exn http_reply)
        (stellar_sdk : option StellarSdk) (soroban : SorobanSdk W Client Account Tx)
        (fromisoformat : string → option (Z * option Z)).
(** [SqliteBillingStore(path)], which opens the file. *)
Context (open_store : string → M W exn unit).

(** [StellarConfig(...)] of [_billing]. *)
Definition stellar_config (b : BillingSettings) : StellarConfig :=
  mkStellarConfig (bil_network b) (default EmptyString (bil_horizon_url b)) (bil_destination b)
    (bil_asset b) (bil_usdc_issuer b) (bil_xlm_usd b).

(** [default_catalog()] *)
Definition shipped_catalog : result exn Catalog := p ← default_pricing; default_catalog p.

(** [_billing] *)
Definition build_billing (b : BillingSettings) : M W exn (option (BillingParts W)) :=
  if negb (bil_enabled b) then mret None
  else
    open_store (bil_database b) ;;
    let network := stellar_network now_utc (stellar_config b) stellar_sdk http_get http_post fromisoformat in
    let chain :=
      if str_truthy (bil_contract_id b)
      then SubscriptionContract soroban (bil_contract_id b) (network_id network) (bil_destination b)
             (default EmptyString (bil_rpc_url b))
      else NoSubscriptions in
    catalog ← lift shipped_catalog;
    svc ← lift (identity_service (StellarSignatures stellar_sdk) (bil_secret b) "codezard" SESSION_TTL_S);
    pay ← (if bil_x402 b
           then m ← lift (money_parse (JStr (bil_x402_price_usd b))); mret (Some (m, "/runs"%string))
           else mret None);
    mret (Some (mkBillingParts W network catalog (bil_asset b) (bil_reserve_tokens b) chain svc pay)).

(** The billing service as the orchestrator's [RunMeter]. *)
Definition meter_of (p : BillingParts W) : RunMeter W :=
  mkRunMeter
    (λ account, authorize now_utc new_entry_id (part_catalog p) (part_reserve p) (part_chain p) account 0 ;;
                mret tt)
    (λ account run_id usage,
       e ← charge now_utc new_entry_id (part_catalog p) account run_id usage;
       mret (entry_tokens <$> e)).

(** [RetryPolicy(...)] and [CircuitBreaker(...)], the arguments spelled from the settings. *)
Definition policy_of (r : RetrySettings) : result exn RetryPolicy :=
  RetryPolicy_new (ret_max_attempts r) (ret_base_delay_seconds r) (ret_max_delay_seconds r)
    (ret_retry_on_status r).
Definition breaker_of (c : CircuitBreakerSettings) : result exn CircuitBreaker :=
  CircuitBreaker_new (cb_failure_threshold c) (cb_recovery_timeout_seconds c).

(** [build_container] *)
Definition build_container (s : Settings) : M W exn (Gateway W) :=
  definitions ← lift (service_definitions (set_services s));
  registry ← lift (InMemoryServiceRegistry definitions);
  policy ← lift (policy_of (set_retry s));
  let client := resilient_client clock sleep close policy (breaker_of (set_circuit_breaker s))
                  (cb_failure_status_codes (set_circuit_breaker s)) transport in
  billing ← build_billing (set_billing s);
  mret (mkGateway W registry client transport
    (if enabled (set_orchestration s)
     then Some (mkOrchestratorParts W (ProxyService_of registry client) (set_orchestration s)
                  (RunLogPort_of Log.default_config) (meter_of <$> billing))
     else None)
    billing).

(** What the payment gate reads of the container. *)
Definition gate_container (g : Gateway W) : Container :=
  mkContainer (bool_decide (is_Some (gw_billing g))) (part_identity <$> gw_billing g)
    (gw_billing g ≫= part_x402).
End bootstrap.

(** ** What accepted settings build *)

(** A service the gateway may route to. *)
Record definition_ok (d : ServiceDefinition) : Prop := mkDefinitionOk {
  def_name : service_name_ok (service_name d) = true;
  def_instances : instances d ≠ [] ∧ NoDup (instance_id <$> instances d);
  def_timeouts : 0 < timeout_seconds d ∧ 0 < read_timeout d;
  def_headers : ∀ n v, (n, v) ∈ service_headers d → header_name_ok n = true ∧ single_line v = true
}.

Lemma to_definition_ok s :
  service_setting_ok s →
  match to_definition s with
  | Ok d => definition_ok d ∧ service_name d = svc_name s ∧ base_urls d = normalized_urls s
  | Raise e => class_of e = cValueError
               ∧ ¬ NoDup (instance_id ∘ ServiceInstance_new <$> normalized_urls s)
  end.
Proof.
  intros [Hn Ht Hr Hh [Hu Hd]]. unfold to_definition, ServiceDefinition_new.
  destruct (normalized_urls s) as [|u us]; [done|].
  change (ServiceInstance_new <$> u :: us) with (ServiceInstance_new u :: (ServiceInstance_new <$> us)).
  cbn iota. unfold ids_repeat. set (ins := _ :: _). case_bool_decide as Hids; cbn [negb].
  - split; [|done]. constructor; try done. split; [done|]. unfold read_timeout. cbn.
    destruct (svc_read_timeout_seconds s) as [t|]; [by apply Hr|done].
  - split; [done|]. rewrite list_fmap_compose. exact Hids.
Qed.

Lemma definitions_ok services :
  (∀ s, s ∈ services → service_setting_ok s) →
  match service_definitions services with
  | Ok ds => (∀ d, d ∈ ds → definition_ok d) ∧ service_name <$> ds = svc_name <$> services
  | Raise e => class_of e = cValueError
      ∧ ∃ s, s ∈ services ∧ ¬ NoDup (instance_id ∘ ServiceInstance_new <$> normalized_urls s)
  end.
Proof.
  induction services as [|s services IH]; intros Hok.
  { split; [|done]. intros d Hd. by apply not_elem_of_nil in Hd. }
  cbn [service_definitions]. pose proof (to_definition_ok s (Hok s (list_elem_of_here _ _))) as Hd.
  destruct (to_definition s) as [d|e]; cbn [mbind result_bind].
  2:{ destruct Hd as [He Hc]. split; [done|]. exists s. split; [apply list_elem_of_here|done]. }
  destruct Hd as (Hd & Hname & _). specialize (IH ltac:(set_solver)).
  destruct (service_definitions services) as [ds|e]; cbn [mbind result_bind mret result_ret].
  - destruct IH as [IH Hn]. split; [set_solver|]. cbn. by rewrite Hn, Hname.
  - destruct IH as (He & s' & Hs' & Hc). split; [done|]. exists s'. set_solver.
Qed.

Lemma shipped_catalog_ok : ∃ c, shipped_catalog = Ok c.
Proof. eexists. vm_compute. reflexivity. Qed.
#[local] Opaque shipped_catalog.

Section building.
Context {W D Client Account Tx : Type} `{!Field W D} `{!BillingStore D}
        `{!Field W Turns} `{!Field W (gmap string CircuitBreaker)} `{!Field W Log.State}
        `{!Field W (ContractState Client)}.
Context (now_utc : M W exn Z) (new_entry_id : M W exn string) (clock : M W exn Z)
        (sleep : Z → M W exn unit) (close : nat → M W exn unit) (transport : UpstreamClient W).
Context (http_get http_post : string → list (string * string) → M W exn http_reply)
        (stellar_sdk : option StellarSdk) (soroban : SorobanSdk W Client Account Tx)
        (fromisoformat : string → option (Z * option Z)) (open_store : string → M W exn unit).

Abbreviation billing_of := (build_billing now_utc http_get http_post stellar_sdk soroban fromisoformat
  open_store).
Abbreviation build := (build_container now_utc new_entry_id clock sleep close transport http_get http_post
  stellar_sdk soroban fromisoformat open_store).

(** What the billing half is made of. *)
Record billing_ok (b : BillingSettings) (p : BillingParts W) : Prop := mkBillingOk {
  ok_part_secret : id_secret (part_identity p) = bil_secret b;
  ok_part_x402 : is_Some (part_x402 p) ↔ bil_x402 b = true;
  ok_part_reserve : part_reserve p = bil_reserve_tokens b;
  ok_part_destination : network_destination (part_network p) = bil_destination b;
  ok_part_network : network_id (part_network p) = cfg_x402_network (stellar_config b);
  ok_part_catalog : shipped_catalog = Ok (part_catalog p)
}.

(** Why the billing half may fail to start. *)
Definition billing_failure (b : BillingSettings) (w : W) (e : exn) : Prop :=
  bil_enabled b = true
  ∧ ((∃ w', open_store (bil_database b) w = (Raise e, w'))
     ∨ (class_of e = cValueError ∧ text (bil_secret b) = false)
     ∨ (bil_x402 b = true ∧ money_parse (JStr (bil_x402_price_usd b)) = Raise e)).

Lemma build_billing_spec b w :
  (bil_enabled b = true → bil_secret b ≠ EmptyString) →
  match billing_of b w with
  | (Ok None, w') => bil_enabled b = false ∧ w' = w
  | (Ok (Some p), w') => bil_enabled b = true ∧ billing_ok b p
  | (Raise e, w') => billing_failure b w e
  end.
Proof.
  intros Hsecret. unfold build_billing. destruct (bil_enabled b) eqn:Hen; cbn [negb]; [|done].
  rewrite run_bind. destruct (open_store (bil_database b) w) as [[[]|e] w1] eqn:Hopen.
  2:{ split; [done|]. left. eauto. }
  destruct shipped_catalog_ok as [c Hc]. rewrite run_bind, run_lift, Hc. cbn iota beta.
  rewrite run_bind, run_lift.
  unfold identity_service, encode_utf8.
  rewrite (proj2 (str_truthy_spec _) (Hsecret eq_refl)). cbn [negb].
  destruct (text (bil_secret b)) eqn:Htext; cbn [mbind result_bind mret result_ret].
  2:{ split; [done|]. right; left. by split. }
  destruct (bil_x402 b) eqn:Hx; autorewrite with gw_run.
  - destruct (money_parse (JStr (bil_x402_price_usd b))) as [m|e] eqn:Hm.
    + split; [done|]. constructor; try exact Hc; clear Hc; [done|by split|done..].
    + split; [done|]. right; right. by split.
  - split; [done|]. constructor; try exact Hc; clear Hc; [done| |done..].
    rewrite Hx. split; [intros H; by apply is_Some_None in H|done].
Qed.
(** What a container built from settings is made of. *)
Record gateway_ok (s : Settings) (g : Gateway W) : Prop := mkGatewayOk {
  ok_registered : service_name <$> registry_all (gw_registry g) = svc_name <$> set_services s;
  ok_known : ∀ d, d ∈ registry_all (gw_registry g) →
    definition_ok d ∧ registry_get (gw_registry g) (service_name d) = Ok d;
  ok_unknown : ∀ n, n ∉ svc_name <$> set_services s →
    registry_get (gw_registry g) n = Raise (ServiceNotFoundError n);
  ok_stack : ∃ p b, gw_client g
      = resilient_client clock sleep close p (Ok b) (cb_failure_status_codes (set_circuit_breaker s)) transport
    ∧ 1 <= max_attempts p ∧ (∀ n, 1 <= n <= 1024 → ∃ d, delay_for p n = Ok d ∧ 0 <= d) ∧ breaker_wf b ∧ breaker_state b = CLOSED;
  ok_health : gw_health_client g = transport;
  ok_orchestrator : match gw_orchestrator g with
    | None => enabled (set_orchestration s) = false
    | Some o => enabled (set_orchestration s) = true
        ∧ orch_proxy o = ProxyService_of (gw_registry g) (gw_client g)
        ∧ orch_meter o = meter_of now_utc new_entry_id <$> gw_billing g
    end;
  ok_billing_part : match gw_billing g with
    | None => bil_enabled (set_billing s) = false
    | Some p => bil_enabled (set_billing s) = true ∧ billing_ok (set_billing s) p
    end
}.

(** Why a gateway with accepted settings may still not start. *)
Definition startup_failure (s : Settings) (w : W) (e : exn) : Prop :=
  (class_of e = cValueError ∧ ∃ svc, svc ∈ set_services s
     ∧ ¬ NoDup (instance_id ∘ ServiceInstance_new <$> normalized_urls svc))
  ∨ (∃ n, e = DuplicateServiceError n ∧ n ∈ svc_name <$> set_services s
       ∧ ¬ NoDup (svc_name <$> set_services s))
  ∨ billing_failure (set_billing s) w e.

Lemma policy_accepted r :
  1 <= ret_max_attempts r ∧ 0 <= ret_base_delay_seconds r ∧ 0 <= ret_max_delay_seconds r →
  ∃ p, policy_of r = Ok p ∧ 1 <= max_attempts p ∧ ∀ n, 1 <= n <= 1024 → ∃ d, delay_for p n = Ok d ∧ 0 <= d.
Proof.
  intros (Ha & Hb & Hc). unfold policy_of, RetryPolicy_new.
  rewrite (proj2 (Z.ltb_ge _ _)) by lia. rewrite !(proj2 (Z.ltb_ge _ 0)) by lia. cbn [orb].
  eexists. split; [done|]. split; [done|]. intros n Hn. unfold delay_for. cbn.
  rewrite (proj2 (Z.leb_le _ _)) by lia. eexists. split; [done|].
  assert (0 <= 2 ^ (n - 1)) by (apply Z.pow_nonneg; lia). lia.
Qed.
Lemma breaker_accepted c :
  1 <= cb_failure_threshold c ∧ 0 < cb_recovery_timeout_seconds c →
  ∃ b, breaker_of c = Ok b ∧ breaker_wf b ∧ breaker_state b = CLOSED.
Proof.
  intros [Ha Hb]. unfold breaker_of.
  destruct (CircuitBreaker_new _ _) as [b|e] eqn:Hn; [by exists b; eauto using CircuitBreaker_new_wf|].
  unfold CircuitBreaker_new in Hn. rewrite (proj2 (Z.ltb_ge _ _)) in Hn by lia.
  by rewrite (proj2 (Z.leb_gt _ _)) in Hn by lia.
Qed.

Lemma build_container_spec s w :
  accepted s →
  match build s w with
  | (Ok g, _) => gateway_ok s g
  | (Raise e, _) => startup_failure s w e
  end.
Proof.
  intros [Hsvc _ _ Hsecret _ _ _ Hretry Hcb]%settings_accepted. unfold build_container.
  rewrite run_bind, run_lift. pose proof (definitions_ok _ Hsvc) as Hdefs.
  destruct (service_definitions (set_services s)) as [ds|e]; [|by left].
  destruct Hdefs as [Hds Hnames]. rewrite run_bind, run_lift.
  destruct (registry_correct ds) as [Hreg Hdup].
  destruct (decide (NoDup (service_name <$> ds))) as [Hnd|Hnd].
  2:{ destruct (Hdup Hnd) as (d & Hd & ->). right; left. exists (service_name d).
      rewrite <- Hnames. split_and!; [done|by apply list_elem_of_fmap_2|done]. }
  destruct (Hreg Hnd) as (r & -> & Hall & Hget & Hmiss). clear Hreg Hdup.
  destruct (policy_accepted _ Hretry) as (p & Hp & Hpok). rewrite run_bind, run_lift, Hp.
  destruct (breaker_accepted _ Hcb) as (b & Hb & Hbok). cbv zeta beta iota. rewrite Hb.
  rewrite run_bind. pose proof (build_billing_spec (set_billing s) w Hsecret) as Hbill.
  destruct (billing_of (set_billing s) w) as [[parts|e] w1]; [|by right; right].
  constructor; cbn [gw_registry gw_client gw_health_client gw_orchestrator gw_billing].
  - by rewrite Hall.
  - intros d Hd. rewrite Hall in Hd. auto.
  - intros n Hn. apply Hmiss. by rewrite Hnames.
  - exists p, b. naive_solver.
  - done.
  - by destruct (enabled (set_orchestration s)).
  - by destruct parts; [|destruct Hbill].
Qed.

(** C20. Settings that are accepted are enough: a container built from them is well formed
    throughout -- every service listed, under its own name, with servers, positive
    timeouts and headers of one line; a retry policy of at least one send whose waits are
    never negative and a closed circuit breaker in order; billing, identity and the meter all there or all absent, behind a
    secret that is not empty.  And starting fails for three reasons only: two servers
    whose ids collide, a name given twice, or a ledger, a secret or a price that cannot
    be used. *)
Theorem accepted_settings_build s w :
  accepted s →
  match build s w with
  | (Ok g, _) => gateway_ok s g
  | (Raise e, _) => startup_failure s w e
  end.
Proof. apply build_container_spec. Qed.

(** A registered name holds no separator, so that what follows one is an instance id. *)
Lemma service_name_bare n : service_name_ok n = true → has_char INSTANCE_SEPARATOR n = false.
Proof.
  destruct n as [|c n]; [done|]. cbn [service_name_ok]. intros [Hc Hn]%andb_true_iff.
  unfold has_char, str_any. apply negb_false_iff. cbn [str_all]. apply andb_true_iff. split.
  - revert Hc. all_ascii c.
  - eapply str_all_impl; [|exact Hn]. intros a. all_ascii a.
Qed.

(** The request that is sent for a registered service. *)
Definition sent_to (d : ServiceDefinition) (i : option ServiceInstance) (inbound : InboundRequest)
    : OutboundRequest :=
  mkOutbound d (in_method inbound) (in_path inbound) (for_upstream inbound (service_headers d))
    (in_query_params inbound) (in_body inbound) i.

(** What the transport was given, which nothing else of the process touches. *)
Context (given : W → list OutboundRequest).
Hypothesis turns_keep : ∀ (f : Turns → Turns) w, given (updf f w) = given w.
Hypothesis breakers_keep :
  ∀ (f : gmap string CircuitBreaker → gmap string CircuitBreaker) w, given (updf f w) = given w.
Hypothesis clock_keeps : ∀ w, is_ok (clock w).1 = true ∧ given (clock w).2 = given w.
Hypothesis sleep_keeps : ∀ d, says_nothing given (sleep d).
Hypothesis close_keeps : ∀ n, says_nothing given (close n).
Hypothesis transport_notes : ∀ r w, given (stream transport r w).2 = given w ++ [r].

(** The circuit of the instance was never asked for, or is closed. *)
Definition closed_for (d : ServiceDefinition) (i : ServiceInstance) (w : W) : Prop :=
  let t := target (sent_to d (Some i) (mkInbound EmptyString EmptyString [] [] EmptyString None EmptyString None None)) in
  match (getf w : gmap string CircuitBreaker) !! t with
  | Some b => breaker_state b = CLOSED
  | None => True
  end.

(** C21. Every server of an accepted configuration can be reached by the id the gateway
    gives it, through the balancer, the breakers and the retries it was built with: all the
    transport is given for [name@id] is the client's request for that very instance of that
    very service, whose URL is that server's, and it is given it when the instance's circuit
    is closed; [name] alone is only ever sent to instances of that service; and an id no
    server of the service has is refused without sending anything. *)
Theorem every_instance_reachable s w0 g w1 d inbound w :
  accepted s → build s w0 = (Ok g, w1) → d ∈ registry_all (gw_registry g) →
  let route name := route_forward (gw_registry g) (gw_client g) name inbound w in
  (∀ i, i ∈ instances d →
     url (sent_to d (Some i) inbound)
     = Ok (rstrip_char slash (base_url i) ++s "/" ++s quote PATH_SAFE_CHARS (lstrip_char slash (in_path inbound)))
     ∧ ∃ n, given (route (service_name d ++s "@" ++s instance_id i)).2
            = given w ++ replicate n (sent_to d (Some i) inbound)
        ∧ (closed_for d i w → (1 ≤ n)%nat))
  ∧ (∃ l, given (route (service_name d)).2 = given w ++ l
       ∧ Forall (λ r, ∃ i, i ∈ instances d ∧ r = sent_to d (Some i) inbound) l)
  ∧ (∀ id, id ∉ instance_id <$> instances d →
       route (service_name d ++s "@" ++s id)
       = (Raise (InstanceNotFoundError (service_name d) id), w)).
Proof using Type*.
  intros Hacc Hbuild Hd. pose proof (build_container_spec s w0 Hacc) as Hok. rewrite Hbuild in Hok.
  destruct (ok_known s g Hok d Hd) as [[Hname [_ Hids] _ _] Hget]. apply service_name_bare in Hname.
  destruct (ok_stack s g Hok) as (p & b & Hstack & Hp & _ & _ & Hclosed).
  assert (∀ name instance out, outbound (gw_registry g) name inbound instance = Ok out →
    given (proxy_stream (gw_registry g) (gw_client g) name inbound instance w).2
    = given (stream (gw_client g) out w).2) as Hsent.
  { intros name instance out Hout. unfold proxy_stream. rewrite run_bind, run_lift, Hout. cbn beta iota.
    rewrite run_bind. by destruct (stream _ _ w) as [[]]. }
  cbv zeta. unfold route_forward. split_and!.
  - intros i Hi. split; [done|].
    change ("@" ++s instance_id i) with (String INSTANCE_SEPARATOR (instance_id i)).
    rewrite (str_partition_first _ _ _ Hname), (Hsent _ _ (sent_to d (Some i) inbound)), Hstack.
    2:{ unfold outbound. rewrite Hget. cbn [mbind result_bind]. unfold service_instance.
        by rewrite (find_instance_elem _ _ Hids Hi). }
    destruct (pinned_given clock sleep close p (Ok b) (cb_failure_status_codes (set_circuit_breaker s)) transport given
      turns_keep breakers_keep clock_keeps sleep_keeps close_keeps transport_notes
      (sent_to d (Some i) inbound) i w Hp eq_refl) as (n & Hn & Hc).
    exists n. split; [exact Hn|]. intros Hcl. apply Hc. unfold circuit_closed, closed_for in *.
    change (target (with_instance i (sent_to d (Some i) inbound))) with
      (target (sent_to d (Some i) (mkInbound EmptyString EmptyString [] [] EmptyString None EmptyString None None))).
    destruct (_ !! _); [done|by exists b].
  - rewrite (str_partition_none _ _ Hname), (Hsent _ _ (sent_to d None inbound)), Hstack
      by (unfold outbound; by rewrite Hget).
    exact (unpinned_given clock sleep close p (Ok b) (cb_failure_status_codes (set_circuit_breaker s)) transport given
      turns_keep breakers_keep clock_keeps sleep_keeps close_keeps transport_notes
      (sent_to d None inbound) w eq_refl).
  - intros id Hid. change ("@" ++s id) with (String INSTANCE_SEPARATOR id).
    rewrite (str_partition_first _ _ _ Hname). unfold proxy_stream, outbound.
    rewrite Hget. cbn [mbind result_bind]. unfold service_instance.
    by rewrite (proj2 (find_instance_None _ _) Hid).
Qed.
End building.

(** ** A gateway *)

(** A process with nothing else in it. *)
Record BootWorld : Type := mkBootWorld {
  boot_bill : BillWorld;
  boot_turns : Turns;
  boot_breakers : gmap string CircuitBreaker;
  boot_log : Log.State;
  boot_contract : ContractState string;
  boot_given : list OutboundRequest
}.
Global Program Instance boot_db_field : Field BootWorld SqliteDb :=
  {| getf w := bw_db (boot_bill w);
     setf d w := mkBootWorld (setf d (boot_bill w)) (boot_turns w) (boot_breakers w) (boot_log w)
                   (boot_contract w) (boot_given w) |}.
Solve Obligations with intros; repeat match goal with
  | w : BootWorld |- _ => destruct w | w : BillWorld |- _ => destruct w end; reflexivity.
Global Program Instance boot_turns_field : Field BootWorld Turns :=
  {| getf := boot_turns;
     setf t w := mkBootWorld (boot_bill w) t (boot_breakers w) (boot_log w) (boot_contract w) (boot_given w) |}.
Solve Obligations with by repeat intros [].
Global Program Instance boot_breakers_field : Field BootWorld (gmap string CircuitBreaker) :=
  {| getf := boot_breakers;
     setf c w := mkBootWorld (boot_bill w) (boot_turns w) c (boot_log w) (boot_contract w) (boot_given w) |}.
Solve Obligations with by repeat intros [].
Global Program Instance boot_log_field : Field BootWorld Log.State :=
  {| getf := boot_log;
     setf l w := mkBootWorld (boot_bill w) (boot_turns w) (boot_breakers w) l (boot_contract w) (boot_given w) |}.
Solve Obligations with by repeat intros [].
Global Program Instance boot_contract_field : Field BootWorld (ContractState string) :=
  {| getf := boot_contract;
     setf c w := mkBootWorld (boot_bill w) (boot_turns w) (boot_breakers w) (boot_log w) c (boot_given w) |}.
Solve Obligations with by repeat intros [].

Definition boot_start : BootWorld := mkBootWorld bw_start ∅ ∅ Log.InMemoryRunLog contract_init [].
Definition boot_clock : M BootWorld exn Z := gets (λ w, bw_now (boot_bill w)).
Definition boot_draw : M BootWorld exn string := mret "id"%string.
(** A network where nothing can be connected to. *)
Definition boot_refused {A} (r : OutboundRequest) : M BootWorld exn A := λ w,
  (Raise (UpstreamConnectionError (service_name (out_service r)) false),
   mkBootWorld (boot_bill w) (boot_turns w) (boot_breakers w) (boot_log w) (boot_contract w) (boot_given w ++ [r])).
Definition boot_transport : UpstreamClient BootWorld := mkClient boot_refused boot_refused.
Definition boot_http : string → list (string * string) → M BootWorld exn http_reply :=
  λ _ _, mret (HttpFailed "no route to host").

(** Two services, one with two servers; runs and billing on. *)
Definition boot_settings : Settings :=
  mkSettings "API Gateway" "0.0.0.0" 8000 "INFO" 100
    [mkServiceSettings "backend" None ["http://b1:8000/"; "http://b2:8000"] 5000000000 "/health" None
       [("x-token", "t0ken")];
     mkServiceSettings "pm" (Some "http://pm:8000/") [] 5000000000 "/health" (Some 300000000000) []]
    (mkOrchestrationSettings true "pm" "backend" "" "" "es" false)
    (mkBillingSettings true "testnet" false None "GDEST" "XLM" "" "0.10" "s3cret" "var/billing.sqlite3"
       50000 true "0.50" "CABC" None false)
    default_retry default_circuit_breaker.

Lemma boot_accepted : accepted boot_settings.
Proof. vm_compute. reflexivity. Qed.

Abbreviation boot s := (build_container boot_clock boot_draw boot_clock (λ _, mret tt) (λ _, mret tt)
  boot_transport boot_http boot_http None demo_soroban (λ _, None) (λ _, mret tt) s boot_start).

Lemma boot_ok : is_ok (boot boot_settings).1 = true.
Proof. vm_compute. reflexivity. Qed.

Lemma accepted_settings_build_witness :
  accepted boot_settings ∧ match (boot boot_settings).1 with
    | Ok g => service_name <$> registry_all (gw_registry g) = ["backend"; "pm"]%string
        ∧ is_Some (gw_orchestrator g) ∧ is_Some (gw_billing g)
    | Raise _ => False
    end.
Proof.
  split; [exact boot_accepted|].
  pose proof (accepted_settings_build boot_clock boot_draw boot_clock (λ _, mret tt) (λ _, mret tt)
    boot_transport boot_http boot_http None demo_soroban (λ _, None) (λ _, mret tt) boot_settings boot_start
    boot_accepted) as H.
  pose proof boot_ok as Hok. destruct (boot boot_settings) as [[g|e] w]; [|discriminate Hok].
  destruct H as [Hn _ _ _ _ Ho Hb]. split; [exact Hn|].
  destruct (gw_orchestrator g); [|discriminate Ho].
  destruct (gw_billing g); [split; eauto|discriminate Hb].
Defined.

Lemma every_instance_reachable_witness :
  match (boot boot_settings).1 with
  | Ok g => ∀ d, registry_all (gw_registry g) !! 0%nat = Some d →
      ∀ i, i ∈ instances d →
        ∃ n, boot_given (route_forward (gw_registry g) (gw_client g) (service_name d ++s "@" ++s instance_id i)
               (mkInbound "GET" "x" [] [] "" None "http" None None) boot_start).2
             = replicate n (sent_to d (Some i) (mkInbound "GET" "x" [] [] "" None "http" None None))
          ∧ (1 ≤ n)%nat
  | Raise _ => False
  end.
Proof.
  pose proof boot_ok as Hok. destruct (boot boot_settings) as [[g|e] w] eqn:Hb; [|discriminate Hok].
  intros d Hd i Hi. apply list_elem_of_lookup_2 in Hd.
  assert (∀ (f : Turns → Turns) w, boot_given (updf f w) = boot_given w) as Ht by reflexivity.
  assert (∀ (f : gmap string CircuitBreaker → gmap string CircuitBreaker) w,
    boot_given (updf f w) = boot_given w) as Hc by reflexivity.
  assert (∀ w, is_ok (boot_clock w).1 = true ∧ boot_given (boot_clock w).2 = boot_given w) as Hclock
    by (intros w'; split; reflexivity).
  assert (says_nothing boot_given (mret tt)) as Hnone by (intros w'; reflexivity).
  assert (∀ r w, boot_given (stream boot_transport r w).2 = boot_given w ++ [r]) as Htransport by reflexivity.
  destruct (proj1 (every_instance_reachable boot_clock boot_draw boot_clock (λ _, mret tt)
    (λ _, mret tt) boot_transport boot_http boot_http None demo_soroban (λ _, None) (λ _, mret tt)
    boot_given Ht Hc Hclock (λ _, Hnone) (λ _, Hnone) Htransport boot_settings boot_start g w d (mkInbound "GET" "x" [] [] "" None "http" None None) boot_start
    boot_accepted Hb Hd) i Hi) as (_ & n & Hn & Hone).
  exists n. split; [exact Hn|]. apply Hone. exact I.
Defined.
