(* ===== verification/Routes.v ===== *)
(** * The routes *)
(** [api/routes/runs.py], [api/routes/billing.py] and [api/routes/health.py] over the
    services they are given, with the response models of [api/schemas.py]; and
    [api/app.py]: which routers an application has, in which order, and the services
    their dependencies find.  Matching a path and checking a body against its model are
    the web framework's. *)
From S2P Require Export Bootstrap.
From S2P Require Import RunLog.
From Stdlib Require Import Ascii.
From stdpp Require Import options.
Local Open Scope Z_scope.

(** ** Answers *)

(** What a request is answered: a handler's value under its status, or what the error
    handlers make of its exception; [None] for what is not an [Exception]. *)
Definition respond {W} (request_id : option string) (status : Z) (handler : M W exn json)
    : W → option error_answer * W := λ w,
  match handler w with
  | (Ok body, w') => (Some (mkErrorAnswer status [] body), w')
  | (Raise e, w') => (answer_for request_id e, w')
  end.

(** ** Runs *)

Section runs_routes.
Context {W D : Type} `{!Field W D} `{!BillingStore D} `{!RunStore W}.
Context (now_utc : M W exn Z) (new_entry_id new_token : M W exn string) (clock : M W exn Z).
Context (network : PaymentNetwork W) (catalog : Catalog) (default_asset : string) (reserve : Z)
        (chain : SubscriptionRegistry W) (why : string → string) (container : Container).
Context (proxy : ProxyService W) (settings : OrchestrationSettings) (log : RunLogPort W)
        (meter : option (RunMeter W)).
Context (monotonic : M W exn Z) (token_hex : M W exn string)
        (emit : string → M W exn unit) (close : nat → M W exn unit) (json_error : string → string).

(** [start]: the dependency decides who pays before the run is started; the settlement is
    what it leaves on the request. *)
Definition start_route (authorization x_payment path idea : string) : M W exn json :=
  '(payer, settlement) ← payer_of now_utc new_entry_id new_token clock network catalog default_asset
                            reserve chain why container authorization x_payment path;
  r ← start proxy settings meter monotonic token_hex json_error idea payer;
  mret (run_as_json r).

(** [read] *)
Definition read_route (id : string) : M W exn json :=
  r ← read id; mret (run_as_json r).

(** [answer]; the body's answers by question and value. *)
Definition answer_route (id : string) (given : list (string * string)) : M W exn json :=
  r ← answer proxy settings monotonic json_error id ((λ a, mkAnswer a.1 a.2) <$> given);
  mret (run_as_json r).

(** [reject] *)
Definition reject_route (id feedback : string) : M W exn json :=
  r ← reject proxy settings monotonic json_error id feedback; mret (run_as_json r).

(** [approve] *)
Definition approve_route (id : string) : M W exn json :=
  r ← approve monotonic id; mret (run_as_json r).

(** The head of a streamed response. *)
Record StreamHead : Type := mkStreamHead { media_type : string; head_headers : list (string * string) }.
Definition event_stream : StreamHead :=
  mkStreamHead "text/event-stream"
    [("Cache-Control", "no-cache, no-transform"); ("X-Accel-Buffering", "no")]%string.

(** [_relay] of the run routes. *)
Definition relay_run (upstream : UpstreamStream) : M W exn unit :=
  try_finally (iterate emit (stream_chunks upstream)) (stream_aclose close upstream).

(** [events]: the run is looked up before the response begins; what follows is a reader of
    the log. *)
Definition events_route (id : string) : M W exn StreamHead := read id ;; mret event_stream.

(** [console] *)
Definition console_route (id command : string) : M W exn (StreamHead * UpstreamStream) :=
  upstream ← open_console proxy settings close id command;
  mret (event_stream, upstream).

(** [{name.lower(): value for name, value in stream.headers}]: the last of a name. *)
Definition lowered (headers : Headers) : dict string :=
  foldl (λ d h, dset (str_lower h.1) h.2 d) [] headers.
Definition kept_headers : list string :=
  ["content-disposition"; "content-length"; "x-mirag-sha256"]%string.
(** The head of [download]. *)
Definition download_head (headers : Headers) : StreamHead :=
  let upstream := lowered headers in
  mkStreamHead (default "application/zip"%string (assoc_get "content-type" upstream))
    (kept_headers ≫= λ name, match assoc_get name upstream with Some v => [(name, v)] | None => [] end).

(** [download] *)
Definition download_route (id : string) : M W exn (StreamHead * UpstreamStream) :=
  upstream ← open_download proxy settings close id;
  mret (download_head (stream_headers upstream), upstream).
End runs_routes.

(** ** Billing *)

Section billing_routes.
Context {W D : Type} `{!Field W D} `{!BillingStore D}.
Context (now_utc : M W exn Z) (new_entry_id new_token nonce : M W exn string) (clock : M W exn Z).
Context (network : PaymentNetwork W) (catalog : Catalog) (default_asset : string) (reserve : Z)
        (chain : SubscriptionRegistry W) (svc : IdentityService).

(** [plans] *)
Definition plans_route : json :=
  match catalog_as_json catalog with
  | JObj fields =>
      JObj (fields ++ [("asset", JStr default_asset); ("reserve", JInt reserve);
                       ("network", JStr (network_id network));
                       ("destination", JStr (network_destination network));
                       ("contract", JStr (contract_id chain))]%string)
  | j => j
  end.

(** [challenge], [verify] *)
Definition challenge_route (address : string) : M W exn json :=
  '(issued, token) ← challenge clock nonce svc address; mret (challenge_as_json issued token).
Definition sign_in_route (token signature : string) : M W exn json :=
  '(session, t) ← verify clock svc token signature; mret (session_as_json session t).

(** A route of a signed-in account. *)
Definition with_account (authorization : string) (k : string → M W exn json) : M W exn json :=
  account ← signed_in clock svc authorization; k account.

(** [account], [checkout], [subscribe], [submit] *)
Definition account_route (authorization : string) : M W exn json :=
  with_account authorization (λ account,
    v ← view now_utc new_entry_id catalog chain account 50; mret (view_as_json v)).
Definition checkout_route (authorization sku_ asset_ : string) : M W exn json :=
  with_account authorization (λ account,
    i ← checkout now_utc new_token network catalog default_asset chain account sku_ asset_;
    mret (invoice_as_json i)).
Definition subscribe_route (authorization sku_ : string) : M W exn json :=
  with_account authorization (λ account, subscribe_transaction network catalog chain account sku_).
Definition submit_route (authorization xdr : string) : M W exn json :=
  with_account authorization (λ account,
    submit_subscription now_utc new_entry_id catalog chain account xdr).
End billing_routes.

(** ** Health *)

(** [InstanceHealthResponse], [ServiceHealthResponse], [ServicesHealthResponse]; a latency
    is hundredths of a millisecond. *)
Definition health_status_value (s : HealthStatus) : string :=
  match s with UP => "up" | DEGRADED => "degraded" | DOWN => "down" end.
Definition instance_as_json (i : InstanceHealth) : json :=
  JObj [("id", JStr (health_id i)); ("status", JStr (health_status_value (health_status i)));
        ("latency_ms", match latency i with Some n => JFloat (float_of_decimal false n (-2)) | None => JNull end);
        ("detail", match detail i with Some d => JStr d | None => JNull end)]%string.
Definition service_as_json (s : ServiceHealth) : json :=
  JObj [("name", JStr (health_name s)); ("status", JStr (health_status_value (service_status s)));
        ("instances", JList (map instance_as_json (health_instances s)))]%string.
(** [from_report] *)
Definition report_as_json (services : list ServiceHealth) : json :=
  JObj [("status", JStr (if is_healthy services then "ok" else "degraded"));
        ("services", JList (map service_as_json services))]%string.

(** The example the document gives of it. *)
Definition health_example : json :=
  JObj [("status", JStr "degraded");
        ("services", JList [
           JObj [("name", JStr "httpbin"); ("status", JStr "up");
                 ("instances", JList [
                    JObj [("id", JStr "0e5a7c21"); ("status", JStr "up");
                          ("latency_ms", JFloat (FFin false 341 (-2))); ("detail", JNull)]])];
           JObj [("name", JStr "mirag"); ("status", JStr "degraded");
                 ("instances", JList [
                    JObj [("id", JStr "3fa1c2d0"); ("status", JStr "up");
                          ("latency_ms", JFloat (FFin false 802 (-2))); ("detail", JNull)];
                    JObj [("id", JStr "9b2e4d11"); ("status", JStr "down"); ("latency_ms", JNull);
                          ("detail", JStr "Service 'mirag' is unreachable")]])]])]%string.

(** [liveness], [services_health] *)
Definition liveness_route : json := JObj [("status", JStr "ok")]%string.
Definition services_route {W} (client : UpstreamClient W) (timer : M W exn Z)
    (close : nat → M W exn unit) (registry : ServiceRegistry) : M W exn json :=
  report ← check_all client timer close registry; mret (report_as_json report).

(** ** The application *)

Inductive Router : Type := HealthRouter | RunsRouter | BillingRouter | X402Router | ProxyRouter.
Global Instance Router_eq_dec : EqDecision Router.
Proof. solve_decision. Defined.

(** The routers [create_app] includes, in order. *)
Definition routers (s : Settings) : list Router :=
  [HealthRouter]
  ++ (if enabled (set_orchestration s) then [RunsRouter] else [])
  ++ (if bil_enabled (set_billing s)
      then BillingRouter :: (if bil_x402 (set_billing s) then [X402Router] else []) else [])
  ++ [ProxyRouter].

(** [get_orchestrator], [get_billing], [get_identity], [get_x402] *)
Section dependencies.
Context {W : Type} (g : Gateway W).
Definition get_orchestrator : result exn (OrchestratorParts W) :=
  match gw_orchestrator g with
  | None => Raise (RuntimeError "orchestration is not enabled on this gateway") | Some o => Ok o end.
Definition get_billing : result exn (BillingParts W) :=
  match gw_billing g with
  | None => Raise (RuntimeError "billing is not enabled on this gateway") | Some p => Ok p end.
Definition get_identity : result exn IdentityService :=
  match part_identity <$> gw_billing g with
  | None => Raise (RuntimeError "billing is not enabled on this gateway") | Some svc => Ok svc end.
Definition get_x402 : result exn (Money * string) :=
  match gw_billing g ≫= part_x402 with
  | None => Raise (RuntimeError "x402 is not enabled on this gateway") | Some x => Ok x end.
End dependencies.

(** [_describe_services] *)
Definition describe_services (definitions : list ServiceDefinition) : string :=
  let described := (λ d, service_name d ++s " (" ++s
    str_join ", " ((λ i, instance_id i ++s " " ++s base_url i) <$> instances d) ++s ")") <$> definitions in
  let text := str_join ", " described in
  if str_truthy text then text else "none"%string.

(** ** What the routes guarantee *)

Section runs_guarantees.
Context {W D : Type} `{!Field W D} `{!BillingStore D} `{!RunStore W}.
Context (now_utc : M W exn Z) (new_entry_id new_token : M W exn string) (clock : M W exn Z).
Context (network : PaymentNetwork W) (catalog : Catalog) (default_asset : string) (reserve : Z)
        (chain : SubscriptionRegistry W) (why : string → string) (container : Container).
Context (proxy : ProxyService W) (settings : OrchestrationSettings) (meter : option (RunMeter W)).
Context (monotonic : M W exn Z) (token_hex : M W exn string) (json_error : string → string).

Abbreviation started := (start_route now_utc new_entry_id new_token clock network catalog default_asset
  reserve chain why container proxy settings meter monotonic token_hex json_error).

(** C6. A run belongs to whoever was proved to pay for it: the run that is stored and
    answered when one is started carries the account of the session token, or the account
    that this very request's payment was settled for, whose balance was found to cover a
    run -- or nobody's, on a gateway that does not charge. *)
Theorem started_run_belongs_to_payer authorization x_payment path idea w j w' :
  started authorization x_payment path idea w = (Ok j, w') →
  ∃ r0 r w2, runs_put r0 w2 = (Ok r, w') ∧ j = run_as_json r
    ∧ ((charging container = false ∧ account r0 = EmptyString)
       ∨ (charging container = true ∧ account r0 ≠ EmptyString
          ∧ ∃ w1 w3 b,
              ((∃ token svc, bearer authorization = Some token ∧ identity container = Some svc
                  ∧ account_of clock svc token w = (Ok (account r0), w1))
               ∨ (∃ w0 price resource result, x402 container = Some (price, resource)
                  ∧ redeem now_utc new_entry_id network resource why x_payment path w0
                    = (Ok (account r0, result), w1)))
              ∧ authorize now_utc new_entry_id catalog reserve chain (account r0) 0 w1 = (Ok b, w3))).
Proof.
  unfold start_route. intros ([payer settlement] & w1 & Hp & H)%bind_ok_inv.
  apply bind_ok_inv in H as (r & w2 & Hs & H). injection H as <- <-.
  apply start_owner in Hs as (r0 & w3 & Hput & Hacc). subst payer.
  exists r0, r, w3. split; [done|]. split; [done|].
  apply payer_of_ok in Hp as [(Hc & -> & _)|(Hc & Hne & w4 & b & Hproof & Hauth)]; [by left|right].
  split; [done|]. split; [done|]. exists w4, w1, b. split; [|exact Hauth].
  destruct Hproof as [Hproof|(w0 & price & resource & result & Hx & Hr & _)]; [by left|right].
  by exists w0, price, resource, result.
Qed.
End runs_guarantees.

(** The dict of lowered names holds the last value of every name. *)
Lemma lowered_app hs h : lowered (hs ++ [h]) = dset (str_lower h.1) h.2 (lowered hs).
Proof. unfold lowered. by rewrite foldl_app. Qed.
Lemma lowered_get hs n : assoc_get n (lowered hs) = last (values n hs).
Proof.
  induction hs as [|[k v] hs IH] using rev_ind; [done|].
  rewrite lowered_app, assoc_get_dset, values_app, values_cons, IH. cbn [fst snd].
  rewrite String.eqb_sym. change (values n []) with (@nil string). rewrite app_nil_r.
  destruct (String.eqb (str_lower k) n); [by rewrite last_snoc|by rewrite app_nil_r].
Qed.

(** A download's answer says of the agent's headers the file's name, its length and
    its checksum, each as the agent last gave it, and nothing else. *)
Theorem download_head_exact hs n v :
  (n, v) ∈ head_headers (download_head hs) ↔ n ∈ kept_headers ∧ last (values n hs) = Some v.
Proof.
  unfold download_head. cbn [head_headers]. rewrite list_elem_of_bind. split.
  - intros (name & Hin & Hname). rewrite lowered_get in Hin.
    destruct (last (values name hs)) eqn:Hl; set_solver.
  - intros [Hn Hv]. exists n. rewrite lowered_get, Hv. set_solver.
Qed.

(** ** The application and its container *)

(** A decidable proposition that computes to true. *)
Ltac by_decision := match goal with |- ?P => exact (bool_decide_eq_true_1 P eq_refl) end.

(** Which routers there are. *)
Lemma routers_shape s :
  bool_decide (RunsRouter ∈ routers s) = enabled (set_orchestration s)
  ∧ bool_decide (BillingRouter ∈ routers s) = bil_enabled (set_billing s)
  ∧ bool_decide (X402Router ∈ routers s) = bil_enabled (set_billing s) && bil_x402 (set_billing s)
  ∧ (∃ l, routers s = l ++ [ProxyRouter] ∧ ProxyRouter ∉ l) ∧ NoDup (routers s).
Proof.
  unfold routers.
  destruct (enabled (set_orchestration s)), (bil_enabled (set_billing s)), (bil_x402 (set_billing s));
    (split_and!; [reflexivity..| |by_decision]);
    match goal with |- ∃ l, ?r = _ ∧ _ => exists (removelast r) end;
    (split; [reflexivity|by_decision]).
Qed.

Section application.
Context {W D Client Account Tx : Type} `{!Field W D} `{!BillingStore D}
        `{!Field W Turns} `{!Field W (gmap string CircuitBreaker)} `{!Field W Log.State}
        `{!Field W (ContractState Client)}.
Context (now_utc : M W exn Z) (new_entry_id : M W exn string) (clock : M W exn Z)
        (sleep : Z → M W exn unit) (close : nat → M W exn unit) (transport : UpstreamClient W).
Context (http_get http_post : string → list (string * string) → M W exn http_reply)
        (stellar_sdk : option StellarSdk) (soroban : SorobanSdk W Client Account Tx)
        (fromisoformat : string → option (Z * option Z)) (open_store : string → M W exn unit).

(** C22. The routes an application registers are the ones its container can serve: whatever
    accepted settings it was made from, the runs, billing and payment routers are there
    exactly when the services their dependencies ask for are, so that none of them ever
    answers that its service is not enabled; and the proxy, which would catch any path
    under its own, comes last. *)
Theorem registered_routes_have_services s w g w' :
  accepted s →
  build_container now_utc new_entry_id clock sleep close transport http_get http_post stellar_sdk soroban
    fromisoformat open_store s w = (Ok g, w') →
  (RunsRouter ∈ routers s ↔ is_ok (get_orchestrator g) = true)
  ∧ (BillingRouter ∈ routers s ↔ is_ok (get_billing g) = true)
  ∧ (BillingRouter ∈ routers s ↔ is_ok (get_identity g) = true)
  ∧ (X402Router ∈ routers s ↔ is_ok (get_x402 g) = true)
  ∧ (∃ l, routers s = l ++ [ProxyRouter] ∧ ProxyRouter ∉ l) ∧ NoDup (routers s).
Proof.
  intros Hacc Hb. pose proof (build_container_spec now_utc new_entry_id clock sleep close transport
    http_get http_post stellar_sdk soroban fromisoformat open_store s w Hacc) as Hok.
  rewrite Hb in Hok. destruct Hok as [_ _ _ _ _ Ho Hp].
  assert (enabled (set_orchestration s) = is_ok (get_orchestrator g)) as Hruns.
  { unfold get_orchestrator. destruct (gw_orchestrator g); [by destruct Ho as [-> _]|by rewrite Ho]. }
  assert (bil_enabled (set_billing s) = is_ok (get_billing g)
    ∧ is_ok (get_identity g) = is_ok (get_billing g)
    ∧ bil_enabled (set_billing s) && bil_x402 (set_billing s) = is_ok (get_x402 g)) as (Hbil & Hid & Hx).
  { unfold get_billing, get_identity, get_x402.
    destruct (gw_billing g) as [p|]; [|by rewrite Hp]. destruct Hp as [-> Hp].
    cbn. pose proof (ok_part_x402 _ _ Hp) as Hx. split_and!; [done|done|].
    destruct (part_x402 p); destruct (bil_x402 _); try done.
    - by specialize (proj1 Hx ltac:(eauto)).
    - by destruct (proj2 Hx eq_refl). }
  destruct (routers_shape s) as (Hr & Hbr & Hxr & Hl & Hn).
  rewrite Hid, <- Hx, <- Hbil, <- Hruns, <- Hr, <- Hxr, <- Hbr, !bool_decide_eq_true. by split_and!.
Qed.
End application.

(** ** A gateway that charges *)

(** The runs beside the ledger. *)
Definition ShopWorld : Type := RunTable * BillWorld.
Global Program Instance shop_db_field : Field ShopWorld SqliteDb :=
  {| getf w := bw_db w.2; setf d w := (w.1, setf d w.2) |}.
Solve Obligations with intros; repeat match goal with
  | w : ShopWorld |- _ => destruct w as [? []] end; reflexivity.
Definition in_shop {A} (m : M BillWorld exn A) : M ShopWorld exn A := λ w, ((m w.2).1, (w.1, (m w.2).2)).
#[local] Instance shop_store : RunStore ShopWorld := InMemoryRunStore default_run_store (mret 5).
Definition closed_network : PaymentNetwork ShopWorld :=
  let closed A : M ShopWorld exn A := raise (PaymentNetworkError "closed") in
  mkNetwork ShopWorld "stellar-testnet" "GDEST" (λ _, closed _) (λ _ _, closed _) (λ _ _, closed _)
    (λ _, closed _).
Definition shop_agents : ProxyService ShopWorld :=
  {| ps_forward _ _ := mret (mkResponse 200 [] demo_analysis None None);
     ps_stream _ _ := mret (mkStream 200 [] (mkBody [] None 7) None) |}.

Abbreviation shop_start authorization := (start_route (in_shop bw_clock) (in_shop bw_draw) (in_shop bw_draw)
  (in_shop bw_seconds) closed_network bw_catalog "XLM" DEFAULT_RESERVE NoSubscriptions (λ _, EmptyString)
  demo_container shop_agents default_orchestration None (mret 5) (mret "00"%string) demo_json_error
  authorization EmptyString "/runs" "a bike shop" ([], gate_world)).
Definition shop_answer : json := match (shop_start demo_bearer).1 with Ok j => j | Raise _ => JNull end.
Lemma shop_serves : shop_start demo_bearer = (Ok shop_answer, (shop_start demo_bearer).2).
Proof. vm_compute. reflexivity. Qed.

Lemma started_run_belongs_to_payer_witness :
  ∃ r0 r, shop_answer = run_as_json r ∧ account r0 ≠ EmptyString
    ∧ ∃ w, runs_put r0 w = (Ok r, (shop_start demo_bearer).2).
Proof.
  destruct (started_run_belongs_to_payer (in_shop bw_clock) (in_shop bw_draw) (in_shop bw_draw)
    (in_shop bw_seconds) closed_network bw_catalog "XLM" DEFAULT_RESERVE NoSubscriptions (λ _, EmptyString)
    demo_container shop_agents default_orchestration None (mret 5) (mret "00"%string) demo_json_error
    demo_bearer EmptyString "/runs" "a bike shop" ([], gate_world) shop_answer (shop_start demo_bearer).2
    shop_serves) as (r0 & r & w2 & Hput & Hj & [(H & _)|(_ & Hne & _)]); [discriminate H|].
  exists r0, r. split; [exact Hj|]. split; [exact Hne|]. exists w2. exact Hput.
Defined.

Lemma registered_routes_have_services_witness :
  match boot boot_settings with
  | (Ok g, _) => RunsRouter ∈ routers boot_settings ↔ is_ok (get_orchestrator g) = true
  | (Raise _, _) => False
  end.
Proof.
  pose proof boot_ok as Hok. destruct (boot boot_settings) as [[g|e] w] eqn:Hb; [|discriminate Hok].
  exact (proj1 (registered_routes_have_services boot_clock boot_draw boot_clock (λ _, mret tt)
    (λ _, mret tt) boot_transport boot_http boot_http None demo_soroban (λ _, None) (λ _, mret tt)
    boot_settings boot_start g w boot_accepted Hb)).
Defined.

(** Without a session or a payment nothing is started: the answer is the price. *)
Example shop_asks :
  answer_status <$> (respond None 200 (λ _, shop_start EmptyString) ([], gate_world)).1 = Some 402
  ∧ (shop_start EmptyString).2.1 = [].
Proof. split; vm_compute; reflexivity. Qed.

(** The example of the document is, to the letter, the answer about two services of which
    one instance cannot be connected to. *)
Section documented_health.
Definition example_instance (id : string) : ServiceInstance := {| base_url := id; instance_id := id |}.
Definition example_service (name : string) (ids : list string) : ServiceDefinition :=
  mkService name ids 0 "/" None [] (map example_instance ids).
(** The state is the time in nanoseconds: an answer takes what its instance takes. *)
Definition example_client : UpstreamClient Z :=
  {| send r now := match out_instance r with
       | Some i =>
           if String.eqb (instance_id i) "9b2e4d11" then (Raise (UpstreamConnectionError "mirag" false), now)
           else (Ok (mkResponse 200 [] EmptyString None None),
                 now + (if String.eqb (instance_id i) "0e5a7c21" then 3410000 else 8020000))
       | None => (Raise (UpstreamConnectionError "mirag" false), now)
       end;
     stream r now := (Raise (UpstreamConnectionError "mirag" false), now) |}.
Example health_example_is_answered :
  (services_route example_client (gets id) (λ _, mret tt)
     ((λ s, (service_name s, s)) <$> [example_service "httpbin" ["0e5a7c21"];
                                      example_service "mirag" ["3fa1c2d0"; "9b2e4d11"]]) 0).1%string
  = Ok health_example.
Proof. vm_compute. reflexivity. Qed.
End documented_health.
