(* ===== verification/Bodies.v ===== *)
(** * Request bodies *)
(** The body models of [api/routes/runs.py], [api/routes/billing.py] and
    [api/routes/x402.py]: the bounds of their fields, and what they become in the domain.
    The fields are what the framework has read of the types they declare; a string's length
    is its number of characters. *)
From S2P Require Export Routes.
From Stdlib Require Import Ascii.
From stdpp Require Import options.
Local Open Scope Z_scope.

(** ** Fields *)

(** [Field(min_length=lo, max_length=hi)] *)
Definition sized (location : string) (lo hi : Z) (s : string) : list setting_error :=
  require ((lo <=? py_len s) && (py_len s <=? hi)) (Constraint location).

(** ** Runs *)

(** [StartBody], [AnswersBody], [RejectBody], [ConsoleBody] *)
Definition start_body (idea : string) : list setting_error := sized "idea" 1 MAX_IDEA_CHARS idea.
Definition answers_body (given : list (string * string)) : list Answer := (λ a, mkAnswer a.1 a.2) <$> given.
Definition reject_body (feedback : string) : list setting_error := sized "feedback" 1 2000 feedback.
Definition console_body (command : string) : list setting_error := sized "command" 1 500 command.

(** ** Billing *)

Definition MAX_SIGNATURE : Z := 512.
Definition MAX_CHALLENGE : Z := 4096.
(** [ChallengeBody], [VerifyBody], [CheckoutBody], [SubscribeBody], [SubmitBody] *)
Definition challenge_body (address : string) : list setting_error := sized "address" 56 56 address.
Definition verify_body (challenge signature : string) : list setting_error :=
  sized "challenge" 1 MAX_CHALLENGE challenge ++ sized "signature" 1 MAX_SIGNATURE signature.
Definition checkout_body (sku asset : string) : list setting_error := sized "sku" 1 64 sku ++ sized "asset" 0 12 asset.
Definition subscribe_body (sku : string) : list setting_error := sized "sku" 1 64 sku.
Definition submit_body (xdr : string) : list setting_error := sized "xdr" 1 4096 xdr.

(** ** Payments *)

Record RequirementsBody : Type := mkRequirementsBody {
  rb_scheme : string;
  rb_network : string;
  rb_maxAmountRequired : string;
  rb_resource : string;
  rb_description : string;
  rb_payTo : string;
  rb_asset : string;
  rb_maxTimeoutSeconds : Z;
  rb_extra : dict json
}.
Definition requirements_body (b : RequirementsBody) : list setting_error :=
  sized "scheme" 0 32 (rb_scheme b) ++ sized "network" 0 64 (rb_network b)
  ++ sized "maxAmountRequired" 0 64 (rb_maxAmountRequired b) ++ sized "resource" 0 512 (rb_resource b)
  ++ sized "description" 0 512 (rb_description b) ++ sized "payTo" 0 128 (rb_payTo b)
  ++ sized "asset" 0 64 (rb_asset b)
  ++ require ((1 <=? rb_maxTimeoutSeconds b) && (rb_maxTimeoutSeconds b <=? 3600)) (Constraint "maxTimeoutSeconds").
(** [RequirementsBody.to_domain]; the media type is the default of the domain's. *)
Definition requirements_to_domain (b : RequirementsBody) : PaymentRequirements :=
  mkPaymentRequirements (rb_scheme b) (rb_network b) (rb_maxAmountRequired b) (rb_resource b) (rb_description b)
    (rb_payTo b) (rb_asset b) (rb_maxTimeoutSeconds b) "application/json" (rb_extra b).

Record PayloadBody : Type := mkPayloadBody {
  pb_x402Version : Z;
  pb_scheme : string;
  pb_network : string;
  pb_payload : dict json
}.
Definition payload_body (b : PayloadBody) : list setting_error :=
  sized "scheme" 0 32 (pb_scheme b) ++ sized "network" 0 64 (pb_network b).
(** [PayloadBody.to_domain]: the version is the domain's own. *)
Definition payload_to_domain (b : PayloadBody) : PaymentPayload :=
  mkPaymentPayload (pb_scheme b) (pb_network b) (pb_payload b) X402_VERSION.
Definition quote_body (resource payer usd : string) : list setting_error :=
  sized "resource" 0 512 resource ++ sized "payer" 0 64 payer ++ sized "usd" 0 32 usd.

(** What is read of a JSON object whose fields have the types the models declare: a field
    that is absent has its default, others are ignored. *)
Definition str_field (k : string) (fields : dict json) : option string :=
  match assoc_get k fields with None => Some EmptyString | Some (JStr s) => Some s | Some _ => None end.
Definition int_field (k : string) (fallback : Z) (fields : dict json) : option Z :=
  match assoc_get k fields with None => Some fallback | Some (JInt n) => Some n | Some _ => None end.
Definition dict_field (k : string) (fields : dict json) : option (dict json) :=
  match assoc_get k fields with None => Some [] | Some (JObj d) => Some d | Some _ => None end.
Definition read_requirements (j : json) : option RequirementsBody :=
  match j with
  | JObj fields =>
      scheme ← str_field "scheme" fields; network ← str_field "network" fields;
      amount ← str_field "maxAmountRequired" fields; resource ← str_field "resource" fields;
      description ← str_field "description" fields; to ← str_field "payTo" fields;
      asset ← str_field "asset" fields; timeout ← int_field "maxTimeoutSeconds" 300 fields;
      extra ← dict_field "extra" fields;
      Some (mkRequirementsBody scheme network amount resource description to asset timeout extra)
  | _ => None
  end.
Definition read_payload (j : json) : option PayloadBody :=
  match j with
  | JObj fields =>
      version ← int_field "x402Version" 1 fields; scheme ← str_field "scheme" fields;
      network ← str_field "network" fields; payload ← dict_field "payload" fields;
      Some (mkPayloadBody version scheme network payload)
  | _ => None
  end.

(** ** Lengths *)

Lemma py_len_nonneg s : 0 <= py_len s.
Proof. induction s as [|c s IH]; cbn [py_len]; [lia|]. case_match; lia. Qed.
Lemma lstrip_len p s : py_len (lstrip_by p s) <= py_len s.
Proof. induction s as [|c s IH]; cbn [lstrip_by]; [lia|]. destruct (p c); [|lia]. cbn [py_len]. case_match; lia. Qed.
Lemma rstrip_len p s : py_len (rstrip_by p s) <= py_len s.
Proof.
  induction s as [|c s IH]; cbn [rstrip_by]; [lia|]. pose proof (py_len_nonneg s).
  destruct (rstrip_by p s) as [|d t]; [destruct (p c)|]; cbn [py_len] in *; repeat case_match; lia.
Qed.
Lemma strip_len s : py_len (str_strip s) <= py_len s.
Proof. unfold str_strip. etrans; [apply rstrip_len|apply lstrip_len]. Qed.
Lemma sized_spec l lo hi s : sized l lo hi s = [] ↔ lo <= py_len s <= hi.
Proof. unfold sized. rewrite require_nil, andb_true_iff, !Z.leb_le. done. Qed.

(** ** What the bounds are for *)

(** The bound of the route is the domain's: of an idea its body lets through only one
    that is all white space is still refused, and by a [ValueError]; every other starts a
    run. *)
Theorem start_body_within_domain idea owner token created updated :
  start_body idea = [] →
  match run_start idea owner token created updated with
  | Ok r => str_strip idea ≠ EmptyString ∧ r.(Runs.idea) = str_strip idea
  | Raise e => str_strip idea = EmptyString ∧ class_of e = cValueError
  end.
Proof.
  unfold start_body. rewrite sized_spec. intros [_ Hhi]. unfold run_start. pose proof (strip_len idea).
  destruct (str_truthy (str_strip idea)) eqn:Ht; cbn [negb].
  - apply str_truthy_spec in Ht. rewrite (proj2 (Z.ltb_ge _ _)) by lia. done.
  - apply str_truthy_false in Ht. done.
Qed.

Lemma start_body_within_domain_witness :
  is_ok (run_start " a shop " "GABC" "00" 1 2) = true.
Proof.
  pose proof (start_body_within_domain " a shop " "GABC" "00" 1 2 eq_refl) as H.
  destruct (run_start " a shop " "GABC" "00" 1 2) as [r|e]; [reflexivity|].
  destruct H as [H _]. vm_compute in H. discriminate H.
Defined.

(** A network that only quotes. *)
Definition closed_market : PaymentNetwork BillWorld :=
  let closed A : M BillWorld exn A := raise (PaymentNetworkError "closed") in
  mkNetwork BillWorld "stellar-testnet" "GDEST" (λ _, closed _) (λ _ _, mret "5.0000000"%string) (λ _ _, closed _)
    (λ _, closed _).

Section published.
Context {W D : Type} `{!Field W D} `{!BillingStore D}.
Context (now_utc : M W exn Z) (new_token : M W exn string) (network : PaymentNetwork W)
        (catalog : Catalog) (default_asset : string) (x402_price : Money) (x402_resource : string).

(** What the gateway publishes it takes back: the requirements it writes for a price,
    posted to the facilitator as they were published, pass the bounds of the body and
    become the very requirements they were, whatever else they travelled with -- given
    names, addresses and amounts of the lengths that networks use. *)
Theorem published_requirements_come_back account resource price w r i w' rest :
  requirements now_utc new_token network catalog default_asset x402_price x402_resource account resource price w
    = (Ok (r, i), w') →
  py_len (req_network r) <= 64 → py_len (pay_to r) <= 128 → py_len (req_asset r) <= 64 →
  py_len (max_amount_required r) <= 64 → py_len (req_resource r) <= 512 → py_len (req_description r) <= 512 →
  match requirements_as_json r with
  | JObj fields => ∃ b, read_requirements (JObj (fields ++ rest)) = Some b
                     ∧ requirements_body b = [] ∧ requirements_to_domain b = r
  | _ => False
  end.
Proof.
  unfold requirements. intros (now & w1 & _ & H)%bind_ok_inv.
  apply bind_ok_inv in H as (token & w2 & _ & H). apply bind_ok_inv in H as (quoted & w3 & _ & H).
  apply bind_ok_inv in H as (i' & w4 & _ & H). injection H as <- _ _.
  cbn [req_network pay_to req_asset max_amount_required req_resource req_description].
  intros Hn Hp Ha Hm Hr Hd. eexists. split; [reflexivity|]. split; [|reflexivity].
  unfold requirements_body.
  repeat (apply errors_app; split); try (apply sized_spec; split; [apply py_len_nonneg|done]); reflexivity.
Qed.
End published.

Lemma published_requirements_come_back_witness :
  match requirements bw_clock bw_draw closed_market bw_catalog "XLM" (mkMoney 500000) "/runs" "GABC" "/runs" None bw_start with
  | (Ok (r, _), _) => requirements_to_domain <$> read_requirements (requirements_as_json r) = Some r
  | (Raise _, _) => False
  end.
Proof.
  destruct (requirements bw_clock bw_draw closed_market bw_catalog "XLM" (mkMoney 500000) "/runs" "GABC" "/runs"
    None bw_start) as [[[r i]|e] w] eqn:Hr; [|vm_compute in Hr; discriminate Hr].
  destruct (published_requirements_come_back bw_clock bw_draw closed_market bw_catalog "XLM" (mkMoney 500000)
    "/runs" "GABC" "/runs" None bw_start r i w [] Hr) as (b & Hb & _ & Hd);
    try (vm_compute in Hr; injection Hr as <- _ _; vm_compute; discriminate).
  rewrite app_nil_r in Hb. unfold requirements_as_json in *. rewrite Hb. cbn. by rewrite Hd.
Defined.
