(* ===== verification/Streams.v ===== *)
(** * A generation as a response *)
(** [generate] and [_chain] of [api/routes/runs.py]: an agent's stream as the body of a
    response that only begins with its first chunk, so that a run that may not be
    generated is refused by an ordinary error. *)
From S2P Require Export Routes.
From Stdlib Require Import Ascii.
From stdpp Require Import options.
Local Open Scope Z_scope.

(** Whether the first chunk was taken: [anext] has returned. *)
Record Begun : Type := mkBegun { begun : bool }.

Section route.
Context {W : Type} `{!Field W Begun}.
(** The server: the head of a response, and a piece of its body. *)
Context (begin_response : StreamHead → M W exn unit) (send : string → M W exn unit).

(** What a generator's yield does: the first is what [anext] was waiting for, and starts
    the response; an empty one is not sent. *)
Definition yield_chunk (head : StreamHead) (chunk : string) : M W exn unit :=
  b ← gets (λ w, begun (getf w));
  if b : bool then send chunk
  else
    modify (setf (mkBegun true)) ;;
    begin_response head ;;
    if str_truthy chunk then send chunk else mret tt.

(** [first = await anext(events, ""); StreamingResponse(_chain(first, events))]: a generator
    that yields nothing has an empty response. *)
Definition chain_response (head : StreamHead) (events : (string → M W exn unit) → M W exn unit) : M W exn unit :=
  modify (setf (mkBegun false)) ;;
  events (yield_chunk head) ;;
  b ← gets (λ w, begun (getf w));
  if b : bool then mret tt else modify (setf (mkBegun true)) ;; begin_response head.

(** What is answered of a streamed response: an error while nothing has begun. *)
Definition respond_stream (request_id : option string) (route : M W exn unit)
    : W → option error_answer * W := λ w,
  match route w with
  | (Ok _, w') => (None, w')
  | (Raise e, w') => (if begun (getf w') then None else answer_for request_id e, w')
  end.
End route.

(** [generate] *)
Definition generate_route {W} `{!Field W Begun} `{!RunStore W} (begin_response : StreamHead → M W exn unit)
    (send : string → M W exn unit) (proxy : ProxyService W) (settings : OrchestrationSettings)
    (log : RunLogPort W) (meter : option (RunMeter W)) (monotonic : M W exn Z) (close : nat → M W exn unit)
    (id : string) : M W exn unit :=
  chain_response begin_response send event_stream
    (λ emit, generate proxy settings log meter monotonic emit close id).

(** ** What a generation keeps *)

Section keeps.
#[local] Set Default Proof Using "Type*".
Context {W : Type} `{!RunStore W}.
Context (proxy : ProxyService W) (settings : OrchestrationSettings) (log : RunLogPort W)
        (meter : option (RunMeter W)) (monotonic : M W exn Z) (close : nat → M W exn unit).
Context (I : W → Prop).

(** Everything but the yields of a generation keeps [I]. *)
Record collaborators_keep : Prop := mkKeep {
  keep_get id : preserves I (runs_get id);
  keep_put r : preserves I (runs_put r);
  keep_stream name request : preserves I (ps_stream proxy name request);
  keep_charge m a i u : meter = Some m → preserves I (meter_charge m a i u);
  keep_clock : preserves I monotonic;
  keep_close n : preserves I (close n);
  keep_log_start id w : I w → I (log_start log id w);
  keep_log_append id c w : I w → I (log_append log id c w);
  keep_log_end id w : I w → I (log_end log id w)
}.
Hypothesis others : collaborators_keep.
Context (emit : string → M W exn unit).
Hypothesis keep_emit : ∀ c, preserves I (emit c).

Lemma move_preserves f r : preserves I (move monotonic f r).
Proof. apply preserves_bind; [apply others|]. intros; apply preserves_lift. Qed.
Lemma put_failed_preserves text r : preserves I (put_failed monotonic text r).
Proof.
  apply preserves_bind; [apply move_preserves|]. intros f.
  apply preserves_bind; [apply others|]. intros; apply preserves_ret.
Qed.
Lemma relay_chunks_preserves id chunks scan : preserves I (relay_chunks log emit id chunks scan).
Proof.
  revert scan. induction chunks as [|c chunks IH]; intros scan; [apply preserves_ret|].
  cbn [relay_chunks]. apply preserves_bind; [apply preserves_modify, others|]. intros _.
  apply preserves_bind; [apply keep_emit|]. intros _.
  apply preserves_bind; [apply preserves_lift|]. intros s. apply IH.
Qed.
Lemma watch_preserves r upstream : preserves I (watch log monotonic emit close r upstream).
Proof.
  apply preserves_finally.
  - apply preserves_try.
    + apply preserves_bind; [apply relay_chunks_preserves|]. intros s.
      destruct (body_error _); [apply preserves_raise|apply preserves_ret].
    + intros e k. repeat case_match; intros [= <-];
        (apply preserves_bind; [apply put_failed_preserves|intros; apply preserves_raise]).
  - apply preserves_bind; [apply others|]. intros _. apply preserves_modify, others.
Qed.
Lemma conclude_preserves r scan : preserves I (conclude meter monotonic r scan).
Proof.
  unfold conclude. destruct (negb _); [apply put_failed_preserves|].
  apply preserves_bind; [apply move_preserves|]. intros d.
  apply preserves_bind.
  2:{ intros c. apply preserves_bind; [apply others|]. intros; apply preserves_ret. }
  unfold charge_run. destruct meter as [m|] eqn:Hm; [|apply preserves_ret].
  destruct (_ || _); [apply preserves_ret|]. apply preserves_bind.
  - apply preserves_try.
    + apply preserves_bind; [by apply others|]. intros; apply preserves_ret.
    + intros e k. unfold except. case_match; intros [= <-]. apply preserves_ret.
  - intros [[n|]|]; try apply preserves_ret.
    apply preserves_bind; [apply others|]. intros; apply preserves_ret.
Qed.
Lemma generate_preserves id : preserves I (generate proxy settings log meter monotonic emit close id).
Proof.
  apply preserves_bind; [apply others|]. intros stored.
  apply preserves_bind; [apply move_preserves|]. intros r.
  apply preserves_bind; [apply others|]. intros _. cbv zeta.
  apply preserves_bind; [apply others|]. intros upstream.
  apply preserves_bind; [apply preserves_modify, others|]. intros _.
  apply preserves_bind; [apply watch_preserves|]. intros scan. apply conclude_preserves.
Qed.
End keeps.

(** ** What the caller sees *)

Inductive Sent : Type :=
  | SHead (h : StreamHead)
  | SChunk (c : string).

Section answers.
Context {W : Type} `{!Field W Begun} `{!RunStore W}.
Context (begin_response : StreamHead → M W exn unit) (send : string → M W exn unit).
Context (proxy : ProxyService W) (settings : OrchestrationSettings) (log : RunLogPort W)
        (meter : option (RunMeter W)) (monotonic : M W exn Z) (close : nat → M W exn unit).
(** What this request has been sent; with whether it has begun, all that is its own. *)
Context (sent : W → list Sent).
Definition request_view (w : W) : bool * list Sent := (begun (getf w), sent w).

(** The server sends what it is given, or fails; a client that left takes no chunk.
    Nobody else touches this request's response. *)
Record serves : Prop := mkServes {
  head_sent h w : request_view (begin_response h w).2 = (begun (getf w), sent w ++ [SHead h]);
  chunk_sent c w : ∃ l, l `prefix_of` [SChunk c] ∧ request_view (send c w).2 = (begun (getf w), sent w ++ l);
  begun_apart b w : sent (setf b w) = sent w;
  others_apart v : collaborators_keep proxy log meter monotonic close (λ w, request_view w = v)
}.
Hypothesis server : serves.
#[local] Set Default Proof Using "Type*".

(** Nothing yet, or the head and some chunks after it. *)
Definition response_shape (before : list Sent) (v : bool * list Sent) : Prop :=
  (v.1 = false ∧ v.2 = before)
  ∨ (v.1 = true ∧ ∃ chunks, v.2 = before ++ SHead event_stream :: (SChunk <$> chunks)).

Lemma view_preserves {A} (P : bool * list Sent → Prop) (m : M W exn A) :
  (∀ v, preserves (λ w, request_view w = v) m) → preserves (λ w, P (request_view w)) m.
Proof. intros H w Hw. specialize (H (request_view w) w eq_refl). by rewrite H. Qed.
Lemma view_function (P : bool * list Sent → Prop) (f : W → W) w :
  (∀ v, request_view w = v → request_view (f w) = v) → P (request_view w) → P (request_view (f w)).
Proof. intros H Hw. by rewrite (H _ eq_refl). Qed.

Lemma collaborators_shape before :
  collaborators_keep proxy log meter monotonic close (λ w, response_shape before (request_view w)).
Proof.
  pose proof (others_apart server) as H.
  constructor; intros; try (apply view_preserves; intros v; destruct (H v); eauto);
    (eapply view_function; [|eassumption]); intros v; destruct (H v); eauto.
Qed.

Lemma begin_shape before w :
  sent w = before →
  ∀ o w1, (modify (setf (mkBegun true)) ;; begin_response event_stream : M W exn unit) w = (o, w1) →
  response_shape before (request_view w1) ∧ begun (getf w1) = true.
Proof.
  intros Hs o w1. rewrite run_bind, run_modify. intros Hw.
  pose proof (head_sent server event_stream (setf (mkBegun true) w)) as Hh. rewrite Hw in Hh. cbn [snd] in Hh.
  rewrite getf_setf, (begun_apart server), Hs in Hh. unfold request_view in *. injection Hh as Hb Hsent.
  split; [|done]. right. split; [done|]. by exists [].
Qed.

Lemma send_shape before c w :
  response_shape before (request_view w) → begun (getf w) = true →
  response_shape before (request_view (send c w).2).
Proof.
  intros [[Hb _]|(_ & chunks & Hs)] Hbegun; [cbn in Hb; congruence|].
  destruct (chunk_sent server c w) as (l & Hl & ->). cbn in Hs. right. split; [done|]. cbn.
  destruct l as [|x l]; [exists chunks; by rewrite app_nil_r|].
  apply prefix_cons_inv_1 in Hl as Hx. apply prefix_cons_inv_2, prefix_nil_inv in Hl as ->. subst x.
  exists (chunks ++ [c]). rewrite Hs, fmap_app, <- app_assoc. done.
Qed.

Lemma yield_shape before c :
  preserves (λ w, response_shape before (request_view w)) (yield_chunk begin_response send event_stream c).
Proof.
  intros w Hw. unfold yield_chunk. rewrite run_bind, run_gets. cbn iota beta.
  destruct (begun (getf w)) eqn:Hb.
  - pose proof (send_shape before c w Hw Hb) as H. by destruct (send c w).
  - destruct Hw as [[_ Hs]|[Ht _]]; [|cbn in Ht; congruence]. cbn in Hs.
    change (modify (setf (mkBegun true)) ;; begin_response event_stream ;; ?k)
      with (modify (setf (mkBegun true)) ;; (begin_response event_stream ;; k)).
    rewrite run_bind, run_modify, run_bind.
    pose proof (begin_shape before w Hs) as H. rewrite run_bind, run_modify in H.
    destruct (begin_response event_stream (setf (mkBegun true) w)) as [[[]|e] w1];
      destruct (H _ _ eq_refl) as [Hsh Hb1]; [|done].
    destruct (str_truthy c); [|done]. pose proof (send_shape before c w1 Hsh Hb1) as Hc. by destruct (send c w1).
Qed.

Abbreviation served := (generate_route begin_response send proxy settings log meter monotonic close).

(** The shape of what was sent when the route is over; a route that returns has begun. *)
Lemma route_shape id w :
  response_shape (sent w) (request_view (served id w).2)
  ∧ ((served id w).1 = Ok tt → begun (getf (served id w).2) = true).
Proof.
  unfold generate_route, chain_response. rewrite run_bind, run_modify, run_bind.
  set (w0 := setf (mkBegun false) w).
  assert (response_shape (sent w) (request_view w0)) as H0.
  { left. unfold request_view, w0. rewrite getf_setf, (begun_apart server). by split. }
  pose proof (generate_preserves proxy settings log meter monotonic close _ (collaborators_shape (sent w)) _
    (yield_shape (sent w)) id w0 H0) as H1.
  destruct (generate proxy settings log meter monotonic _ close id w0) as [[[]|e] w1]; [|done].
  rewrite run_bind, run_gets. cbn iota beta. destruct (begun (getf w1)) eqn:Hb; [done|].
  destruct H1 as [[_ Hs]|[Ht _]]; [|cbn in Ht; congruence].
  pose proof (begin_shape (sent w) w1 Hs) as H.
  destruct ((modify (setf (mkBegun true)) ;; begin_response event_stream : M W exn unit) w1) as [o w2].
  destruct (H _ _ eq_refl). by split.
Qed.

(** C38. A generation is answered by an error only as long as nothing of it was sent, and by
    the error it raised: once there was a chunk the head has gone out, chunks have
    followed it and a failure only breaks them off.  A run that is in any state but
    approved is refused with 409 and nothing is sent. *)
Theorem generation_refused_before_it_begins request_id id w :
  let run := respond_stream request_id (served id) w in
  match run.1 with
  | Some a => sent run.2 = sent w ∧ ∃ e, (served id w).1 = Raise e ∧ answer_for request_id e = Some a
  | None => (∃ chunks, sent run.2 = sent w ++ SHead event_stream :: (SChunk <$> chunks))
            ∨ sent run.2 = sent w ∧ ∃ e, (served id w).1 = Raise e ∧ answer_for request_id e = None
  end
  ∧ ∀ r w1 now w2,
      runs_get id (setf (mkBegun false) w) = (Ok r, w1) → state r ≠ PLAN_APPROVED → monotonic w1 = (Ok now, w2) →
      sent run.2 = sent w ∧ ∃ a, run.1 = Some a ∧ answer_status a = 409.
Proof.
  intros run. assert (run.2 = (served id w).2) as Hrun.
  { unfold run, respond_stream. by destruct (served id w) as [[] ?]. }
  destruct (route_shape id w) as [Hshape Hreturned].
  assert (match run.1 with
    | Some a => sent run.2 = sent w ∧ ∃ e, (served id w).1 = Raise e ∧ answer_for request_id e = Some a
    | None => (∃ chunks, sent run.2 = sent w ++ SHead event_stream :: (SChunk <$> chunks))
            ∨ sent run.2 = sent w ∧ ∃ e, (served id w).1 = Raise e ∧ answer_for request_id e = None
    end) as Hmain.
  { rewrite Hrun. clear Hrun. unfold run, respond_stream.
    destruct (served id w) as [[[]|e] w']; cbn [fst snd] in *.
    - specialize (Hreturned eq_refl). destruct Hshape as [[Hb _]|[_ Hs]]; [cbn in Hb; congruence|by left].
    - destruct Hshape as [[Hb Hs]|[Hb Hs]]; cbn in Hb, Hs; rewrite Hb; [|by left].
      destruct (answer_for request_id e) as [a|] eqn:Ha; eauto. }
  split; [exact Hmain|]. intros r w1 now w2 Hget Hstate Hnow.
  assert (served id w = (Raise (IllegalTransitionError (state_str (state r)) "GENERATE"), w2)) as Hserved.
  { unfold generate_route, chain_response. rewrite run_bind, run_modify. apply run_bind_raise.
    unfold generate. rewrite (run_bind_ok _ _ _ _ _ Hget). apply run_bind_raise.
    unfold move. rewrite (run_bind_ok _ _ _ _ _ Hnow). unfold generating.
    rewrite run_lift, moved_spec. by destruct (state r). }
  assert (begun (getf w2) = false ∧ sent w2 = sent w) as [Hb2 Hs2].
  { pose proof (others_apart server (false, sent w)) as [Hg _ _ _ Hc _ _ _ _].
    assert (request_view (setf (mkBegun false) w) = (false, sent w)) as H0
      by (unfold request_view; by rewrite getf_setf, (begun_apart server)).
    pose proof (Hg id _ H0) as H1. rewrite Hget in H1. pose proof (Hc w1 H1) as H2. rewrite Hnow in H2.
    unfold request_view in H2. by injection H2. }
  rewrite Hrun, Hserved. split; [exact Hs2|]. unfold run, respond_stream. rewrite Hserved. cbn [fst].
  rewrite Hb2. by eexists.
Qed.
End answers.

(** ** A server that keeps what it is given *)

Definition ServedWorld : Type := RunTable * (Begun * list Sent).
Global Program Instance served_begun : Field ServedWorld Begun :=
  {| getf w := w.2.1; setf b w := (w.1, (b, w.2.2)) |}.
Solve Obligations with intros; repeat match goal with w : ServedWorld |- _ => destruct w as [? []] end; reflexivity.
#[local] Instance served_store : RunStore ServedWorld := InMemoryRunStore default_run_store (mret 5).
Definition keep_sent (s : Sent) : M ServedWorld exn unit := modify (λ w, (w.1, (w.2.1, w.2.2 ++ [s]))).
Definition served_agents : ProxyService ServedWorld :=
  {| ps_forward _ _ := mret (mkResponse 200 [] demo_analysis None None);
     ps_stream _ _ := mret (mkStream 200 [] (mkBody ["data: {}"%string] None 7) None) |}.
Definition no_log : RunLogPort ServedWorld := mkRunLogPort (λ _ w, w) (λ _ _ w, w) (λ _ w, w).

Lemma store_view {A} (m : M ServedWorld exn A) v :
  (∀ w, (m w).2.2 = w.2) → preserves (λ w, request_view (λ w, w.2.2) w = v) m.
Proof.
  intros Hm w Hw. specialize (Hm w). destruct (m w) as [o w']. cbn in Hm.
  rewrite <- Hw. unfold request_view. cbn. by rewrite Hm.
Qed.

Lemma kept_serves :
  serves (λ h, keep_sent (SHead h)) (λ c, keep_sent (SChunk c)) served_agents no_log None (mret 5)
    (λ _, mret tt) (λ w, w.2.2).
Proof.
  constructor; [done|intros c w; exists [SChunk c]; by split|done|]. intros v. constructor.
  - intros id. apply store_view. intros w. cbn. unfold memory_get.
    autorewrite with gw_run. cbn. by case_match.
  - intros r. apply store_view. intros w. cbn. unfold memory_put.
    autorewrite with gw_run. cbn. by case_match.
  - intros; apply preserves_ret.
  - done.
  - apply preserves_ret.
  - intros; apply preserves_ret.
  - done.
  - done.
  - done.
Qed.

(** A run that has just been started, and the answer to a request to generate it. *)
Definition just_started : Run :=
  mkRun "00" "a shop" IDEA 0 [] None EmptyString None EmptyString EmptyString EmptyString 0 5 5.
Definition serving : ServedWorld := ([("00"%string, just_started)], (mkBegun false, [])).
Definition asked_too_early : option error_answer * ServedWorld :=
  respond_stream None (generate_route (λ h, keep_sent (SHead h)) (λ c, keep_sent (SChunk c)) served_agents
    default_orchestration no_log None (mret 5) (λ _, mret tt) "00") serving.

Lemma generation_refused_before_it_begins_witness :
  asked_too_early.2.2.2 = [] ∧ answer_status <$> asked_too_early.1 = Some 409.
Proof.
  destruct (generation_refused_before_it_begins (λ h, keep_sent (SHead h)) (λ c, keep_sent (SChunk c))
    served_agents default_orchestration no_log None (mret 5) (λ _, mret tt) (λ w, w.2.2) kept_serves None
    "00" serving) as [_ H].
  destruct (H just_started serving 5 serving eq_refl ltac:(discriminate) eq_refl) as (Hs & a & Ha & H409).
  split; [exact Hs|]. unfold asked_too_early. rewrite Ha. cbn. by rewrite H409.
Defined.
