(* ===== verification/Mirag.v ===== *)
(** * The agent's contract *)
(** [api/contracts/mirag.py]: what the document says about the agent reached as [mirag], and
    the operations of the catch-all route beside it.  A model is its fields: the schema it
    has is the validation library's. *)
From S2P Require Export OpenApi Middleware.
From Stdlib Require Import Ascii.
From stdpp Require Import options.
Local Open Scope Z_scope.

(** A text with double quotes, written with single ones. *)
Definition dq (s : string) : string := str_map (λ c, if Ascii.eqb c squote then dquote else c) s.

#[local] Open Scope string_scope.
Definition TAG : string := "mirag".

Definition UPSTREAM_FAILURES : dict json :=
  gateway_error_responses [502; 503; 504].

Definition MiragErrorDetail : PyModel :=
  mkModel "MiragErrorDetail" None false
    [mkField "code" AStr None [];
     mkField "message" AStr None []].

Definition MiragError : PyModel :=
  mkModel "MiragError" (Some "An error answered by the agent itself and relayed by the gateway. No request id.") false
    [mkField "error" (AModel MiragErrorDetail) None []].

Definition MiragHealth : PyModel :=
  mkModel "MiragHealth" None true
    [mkField "status" (ALiteral ["ok"]) None [];
     mkField "version" AStr None [("examples", JList [JStr "2.0.0"])];
     mkField "offline" ABool None
       [("description", JStr "Scripted demos only: no model is called, nothing is spent.")];
     mkField "execution" ABool None [("description", JStr "Whether the agent runs the code it generates.")];
     mkField "token_required" ABool None [("description", JStr "Whether chat and download require the token.")];
     mkField "model" (AOptional AStr) None [("examples", JList [JStr "anthropic/claude-haiku-4.5"])];
     mkField "locales" (AList AStr) None [("examples", JList [JList [JStr "en"; JStr "es"]])];
     mkField "default_locale" AStr None [("examples", JList [JStr "en"])];
     mkField "interpreters" (AList AStr) None
       [("examples", JList [JList [JStr "node"; JStr "python"; JStr "python3"]])];
     mkField "features" (ADict ABool) None []].

Definition MiragLocales : PyModel :=
  mkModel "MiragLocales" None false
    [mkField "default" AStr None
       [("description", JStr "The locale resolved for this client: `Accept-Language`, then `MIRAG_LOCALE`.");
        ("examples", JList [JStr "es"])];
     mkField "supported" (AList AStr) None [("examples", JList [JList [JStr "en"; JStr "es"]])]].

Definition MiragUiStrings : PyModel :=
  mkModel "MiragUiStrings" None false
    [mkField "locale" AStr None [("examples", JList [JStr "es"])];
     mkField "messages" (ADict AAny) None [("description", JStr "The nested UI strings of the locale.")]].

Definition MiragDemo : PyModel :=
  mkModel "MiragDemo" None false
    [mkField "key" (ALiteral ["knowledge"; "construction"; "abstention"; "project"]) None [];
     mkField "title" AStr None [];
     mkField "question" AStr None [("description", JStr "Send it as the chat `question` to run the demo.")];
     mkField "demonstrates" AStr None [];
     mkField "script" (AOptional AStr) None []].

Definition MiragDemos : PyModel :=
  mkModel "MiragDemos" None false
    [mkField "locale" AStr None [];
     mkField "offline" ABool None [];
     mkField "demos" (AList (AModel MiragDemo)) None []].

Definition MiragBlockchainAgent : PyModel :=
  mkModel "MiragBlockchainAgent" None false
    [mkField "available" ABool None [];
     mkField "reason" (AOptional AStr) (Some JNull)
       [("examples", JList [JStr "MIRAG_BLOCKCHAIN is off: Stellar is not contacted"])];
     mkField "identity" (AOptional (ADict AAny)) None [];
     mkField "wallet" (AOptional (ADict AAny)) None [];
     mkField "last_payment" (AOptional (ADict AAny)) None [];
     mkField "links" (ADict AStr) None [("description", JStr "Explorer URLs: `account`, `registry`, `tx`.")]].

Definition MiragChatRequest : PyModel :=
  mkModel "MiragChatRequest" None false
    [mkField "question" AStr None
       [("min_length", JInt 1); ("max_length", JInt 8000);
        ("examples", JList [JStr "What is a PostgreSQL index?"])];
     mkField "mode" (ALiteral ["pipeline"; "architect"]) (Some (JStr "pipeline"))
       [("description", JStr "`pipeline` (production) or `architect` (experimental).")];
     mkField "locale" (AOptional (ALiteral ["en"; "es"])) (Some JNull)
       [("description", JStr "When absent: `Accept-Language`, then `MIRAG_LOCALE`.")]].

Definition MiragStepEvent : PyModel :=
  mkModel "MiragStepEvent" (Some "One `step` event of the chat stream: a stage of the pipeline.") false
    [mkField "type" (ALiteral ["step"]) None [];
     mkField "name" AStr None [("description", JStr "Stable stage identifier, e.g. `retrieval` or `model`.")];
     mkField "status" (ALiteral ["executed"; "skipped"; "fallback"; "error"; "warning"; "simulated"; "no_model"]) None [];
     mkField "summary" AStr None [("description", JStr "Already localised.")];
     mkField "ms" AFloat None [];
     mkField "source" (ALiteral ["execution"; "model"; "corpus"; EmptyString]) None [];
     mkField "detail" AAny (Some JNull) []].

Definition MiragDoneEvent : PyModel :=
  mkModel "MiragDoneEvent" (Some ("The last event of every chat stream. A stream that ends without it was "
      ++s "interrupted.")) true
    [mkField "type" (ALiteral ["done"]) None [];
     mkField "answer" AStr None [("description", JStr "Markdown, already localised.")];
     mkField "mode" AStr None [("description", JStr "`pipeline`, `architect`, or `state` (self-knowledge).")];
     mkField "locale" AStr None [];
     mkField "cost_summary" AStr None [];
     mkField "claim_status" (AOptional (ALiteral ["supported"; "unsupported"; "refuted"; "not_executed"; "no_claim"])) (Some JNull) [];
     mkField "evidence" (AOptional (ADict AAny)) (Some JNull) [];
     mkField "timeline" (AOptional (AList (ADict AAny))) (Some JNull) [];
     mkField "cost" (AOptional (ADict AAny)) (Some JNull) [];
     mkField "project" (AOptional (ADict AAny)) (Some JNull)
       [("description", JStr ("The generated project. Its `download_url` is relative to the agent: prefix it "
      ++s "with `/api/mirag`."))];
     mkField "deliverable" (AOptional (ADict AAny)) (Some JNull) []].
(** [_ok] *)
Definition ok (model : PyModel) (description : string) : json :=
  JObj [("description", JStr description);
        ("content", JObj [("application/json", JObj [("schema", schema_ref model)])])].
(** [_agent_error] *)
Definition agent_error (description code message : string) : json :=
  let example := JObj [("error", JObj [("code", JStr code); ("message", JStr message)])] in
  JObj [("description", JStr description);
        ("content", JObj [("application/json", JObj [("schema", schema_ref MiragError); ("example", example)])])].

Definition UNAUTHORIZED : json :=
  agent_error ("`unauthorized`: the token the gateway injects does not match the agent's "
      ++s "`MIRAG_TOKEN`. A deployment error, not a client one.") "unauthorized" "unauthorized".

Definition LOCALE_QUERY : json :=
  JObj [("name", JStr "locale");
   ("in", JStr "query");
   ("required", JBool false);
   ("description", JStr "When absent: `Accept-Language`, then `MIRAG_LOCALE`.");
   ("schema", JObj [("type", JStr "string"); ("enum", JList [JStr "en"; JStr "es"])])].

Definition CHAT_DESCRIPTION : string := "Asks the agent a question. The answer is a **Server-Sent Events** stream: every event is one
`data: <json>` line followed by a blank line, and the gateway relays each one as it arrives.

| `type` | When |
|---|---|
| `step` | Each pipeline stage (`MiragStepEvent`) |
| `phase`, `thought`, `tool`, `cost` | Progress of the `architect` mode |
| `done` | Always the last event (`MiragDoneEvent`) |

A stream that ends without `done` was interrupted. The gateway never retries this `POST`.
Browsers cannot send a `POST` with `EventSource`: read the body with `fetch` instead.
".

Definition SSE_EXAMPLE : string := (dq "data: {'type': 'step', 'name': 'retrieval', 'status': 'executed', 'summary': '...', 'ms': 48.2, 'source': 'corpus', 'detail': {'ids': ['...'], 'methods': ['...']}}

data: {'type': 'done', 'answer': 'An index is...', 'mode': 'pipeline', 'locale': 'en', 'cost_summary': '1 calls · 0 tokens · $0.0000 of $0.50', 'claim_status': 'no_claim', 'evidence': null, 'timeline': null, 'cost': null, 'project': null, 'deliverable': null}

").

Definition DOWNLOAD_DESCRIPTION : string := "The verified ZIP of a generated project. Take the path from `project.download_url` in the
`done` event; never build it. Artifacts live in the memory of the agent instance that made
them and expire (one hour, a cap of 20, every restart): download as soon as `done` arrives.

**With several agent instances only the one that ran the chat has the ZIP**, so pin the
download to it: `/api/mirag@{instance}` + `download_url`, where `instance` is the
`X-Gateway-Instance` header of the chat response. That form works with a single instance
too. Without the pin, the download lands on any instance and may get `410 gone`.
".

(** [/api/v1/health] *)
Definition health_path : json :=
  JObj [("get", JObj [("tags", JList [JStr TAG]);
    ("operationId", JStr "mirag_health");
    ("summary", JStr "Agent liveness and configuration");
    ("description", JStr "Also what `/health/services` calls to report on the agent.");
    ("responses", JObj (dupdate UPSTREAM_FAILURES
     [("200", ok MiragHealth "The agent is up.")]))])].

(** [/api/v1/locales] *)
Definition locales_path : json :=
  JObj [("get", JObj [("tags", JList [JStr TAG]);
    ("operationId", JStr "mirag_locales");
    ("summary", JStr "Supported locales and this client's default");
    ("responses", JObj (dupdate UPSTREAM_FAILURES
     [("200", ok MiragLocales "The locales.")]))])].

(** [/api/v1/i18n/{locale}] *)
Definition i18n_path : json :=
  JObj [("get", JObj [("tags", JList [JStr TAG]);
    ("operationId", JStr "mirag_ui_strings");
    ("summary", JStr "The UI strings of a locale");
    ("parameters", JList [JObj [("name", JStr "locale");
     ("in", JStr "path");
     ("required", JBool true);
     ("schema", JObj [("type", JStr "string"); ("enum", JList [JStr "en"; JStr "es"])])]]);
    ("responses", JObj (dupdate UPSTREAM_FAILURES
     [("200", ok MiragUiStrings "The strings.");
     ("404", agent_error "`unknown_locale`: not a supported locale." "unknown_locale" "supported: en, es")]))])].

(** [/api/v1/demos] *)
Definition demos_path : json :=
  JObj [("get", JObj [("tags", JList [JStr TAG]);
    ("operationId", JStr "mirag_demos");
    ("summary", JStr "The prepared demos, localised");
    ("parameters", JList [LOCALE_QUERY]);
    ("responses", JObj (dupdate UPSTREAM_FAILURES
     [("200", ok MiragDemos "The demos.")]))])].

(** [/api/v1/chat] *)
Definition chat_path : json :=
  JObj [("post", JObj [("tags", JList [JStr TAG]);
    ("operationId", JStr "mirag_chat");
    ("summary", JStr "Ask a question (Server-Sent Events)");
    ("description", JStr CHAT_DESCRIPTION);
    ("requestBody", JObj [("required", JBool true);
     ("description", JStr "At most 64 KiB.");
     ("content", JObj [("application/json", JObj [("schema", schema_ref MiragChatRequest)])])]);
    ("responses", JObj (dupdate UPSTREAM_FAILURES
     [("200", JObj [("description", JStr "The event stream.");
      ("headers", JObj [("X-Gateway-Instance", JObj [("description", JStr ("The agent instance answering. Keep it to download the project from that same "
      ++s "instance."));
        ("schema", JObj [("type", JStr "string"); ("example", JStr "3fa1c2d0")])])]);
      ("content", JObj [("text/event-stream", JObj [("schema", JObj [("type", JStr "string")]); ("example", JStr SSE_EXAMPLE)])])]);
     ("400", agent_error ("The body is invalid: `invalid_json`, `invalid_body`, `missing_question`, "
      ++s "`question_too_long`, `invalid_mode`, `invalid_locale` or `bad_length`. Always "
      ++s "before the stream starts.") "missing_question" "'question' is required and must be a non-empty string");
     ("401", UNAUTHORIZED);
     ("413", agent_error "`bad_length`: the body exceeds 64 KiB." "bad_length" "Content-Length must be between 1 and 65536")]))])].

(** [/api/v1/artifacts/{artifact_id}/download] *)
Definition download_path : json :=
  JObj [("get", JObj [("tags", JList [JStr TAG]);
    ("operationId", JStr "mirag_download_artifact");
    ("summary", JStr "Download a generated project");
    ("description", JStr DOWNLOAD_DESCRIPTION);
    ("parameters", JList [JObj [("name", JStr "artifact_id");
     ("in", JStr "path");
     ("required", JBool true);
     ("schema", JObj [("type", JStr "string"); ("pattern", JStr "^[0-9a-f]{24}$")])]]);
    ("responses", JObj (dupdate UPSTREAM_FAILURES
     [("200", JObj [("description", JStr "The ZIP. Compare `X-Mirag-Sha256` with `project.zip.sha256`.");
      ("headers", JObj [("Content-Disposition", JObj [("schema", JObj [("type", JStr "string")]);
        ("example", JStr (dq "attachment; filename='books-api.zip'"))]);
       ("X-Mirag-Sha256", JObj [("schema", JObj [("type", JStr "string")])])]);
      ("content", JObj [("application/zip", JObj [("schema", JObj [("type", JStr "string"); ("format", JStr "binary")])])])]);
     ("400", agent_error "`malformed_id`: not 24 hex characters." "malformed_id" "malformed artifact id");
     ("401", UNAUTHORIZED);
     ("409", agent_error "`integrity_error`: the package did not pass inspection." "integrity_error" "ARTIFACT INTEGRITY ERROR: the package did not pass inspection");
     ("410", agent_error "`gone`: expired or unknown." "gone" "that artifact no longer exists");
     ("500", agent_error "`integrity_error`: the bytes changed between inspection and delivery." "integrity_error" "ARTIFACT INTEGRITY ERROR at delivery")]))])].

(** [/api/v1/blockchain/agent] *)
Definition blockchain_path : json :=
  JObj [("get", JObj [("tags", JList [JStr TAG]);
    ("operationId", JStr "mirag_blockchain_agent");
    ("summary", JStr "The optional Stellar identity panel");
    ("responses", JObj (dupdate UPSTREAM_FAILURES
     [("200", ok MiragBlockchainAgent "The panel. Never contains a secret.")]))])].

(** [MIRAG] *)
Definition MIRAG : DownstreamContract :=
  mkContract
    (JObj [("name", JStr TAG);
       ("description", JStr ("The backend agent, through the gateway. The gateway adds the `X-Mirag-Token` "
      ++s "header itself: clients neither send nor see it."))])
    [("/api/v1/health", health_path);
     ("/api/v1/locales", locales_path);
     ("/api/v1/i18n/{locale}", i18n_path);
     ("/api/v1/demos", demos_path);
     ("/api/v1/chat", chat_path);
     ("/api/v1/artifacts/{artifact_id}/download", download_path);
     ("/api/v1/blockchain/agent", blockchain_path)]
    [MiragError; MiragHealth; MiragLocales; MiragUiStrings; MiragDemos; MiragBlockchainAgent; MiragChatRequest; MiragStepEvent; MiragDoneEvent].


(** [CONTRACTS] of [api/contracts/__init__.py]. *)
Definition CONTRACTS : dict DownstreamContract := [("mirag", MIRAG)].

(** *** The operations of the catch-all route *)

Definition UNDOCUMENTED_METHODS : list string := ["HEAD"; "OPTIONS"].
Definition METHODS_WITH_BODY : list string := ["POST"; "PUT"; "PATCH"].

(** [_DESCRIPTION] *)
Definition DESCRIPTION : string := "Forwards the request to `{base_url of service_name}/{path}`: same method, query string, body" ++s str1 nl
  ++s "and headers, minus the hop-by-hop ones. The gateway adds `X-Forwarded-For`, `X-Forwarded-Proto`," ++s str1 nl
  ++s "`X-Forwarded-Host`, `X-Request-ID` and the headers configured for the service, which replace" ++s str1 nl
  ++s "any client header of the same name." ++s str1 nl
  ++s "" ++s str1 nl
  ++s "`/api/{service_name}` alone (no trailing path) reaches the root of the service." ++s str1 nl
  ++s "" ++s str1 nl
  ++s "A service with several instances gets its requests spread among them, and a request moves on" ++s str1 nl
  ++s "to the next instance when the current one cannot take it. The `X-Gateway-Instance` response" ++s str1 nl
  ++s "header names the instance that answered; `{service_name}@{instance}` sends a request to that" ++s str1 nl
  ++s "instance and no other, e.g. to download something it keeps in memory." ++s str1 nl.
(** [_ANY_BODY] *)
Definition ANY_BODY : json :=
  JObj [("requestBody",
    JObj [("required", JBool false);
          ("description", JStr "Forwarded byte for byte, whatever its content type.");
          ("content", JObj [("application/json",
             JObj [("schema", JObj []); ("example", JObj [("name", JStr "Ada")])])])])].

(** One route the loop of [api/routes/proxy.py] adds: its method, its [operation_id], what
    it says it does, what is documented of its body and whether it is in the document. *)
Record Operation : Type := mkOperation {
  op_method : string;
  op_id : string;
  op_summary : string;
  op_description : string;
  op_extra : option json;
  op_documented : bool
}.
Definition proxy_operation (method : string) : Operation :=
  mkOperation method ("proxy_" ++s str_lower method)
    ("Forward a " ++s method ++s " request to a service") DESCRIPTION
    (if bool_decide (method ∈ METHODS_WITH_BODY) then Some ANY_BODY else None)
    (negb (bool_decide (method ∈ UNDOCUMENTED_METHODS))).
Definition proxy_operations : list Operation := proxy_operation <$> PROXIED_METHODS.

(** [_RESPONSES]: what each of them documents as answered. *)
Definition RESPONSES : dict json :=
  dset "default" (JObj [("description", JStr "Any other status the service answers, relayed unchanged.")])
    (dupdate (gateway_error_responses [404; 502; 503; 504]%Z)
       [("200", JObj [("description", JStr "The service's response, relayed unchanged.");
          ("headers", JObj [("X-Gateway-Instance",
             JObj [("description", JStr "The instance that answered.");
                   ("schema", JObj [("type", JStr "string"); ("example", JStr "3fa1c2d0")])])])])]).

(** ** The document closes *)

(** Every reference in a piece of a document. *)
Fixpoint refs (j : json) : list string :=
  match j with
  | JList l => concat (map refs l)
  | JObj fields =>
      concat (map (λ kv, (if String.eqb kv.1 "$ref" then match kv.2 with JStr r => [r] | _ => [] end else [])
                         ++ refs kv.2) fields)
  | _ => []
  end%list.

(** The operations of a path item, by method. *)
Definition operations (item : json) : list (string * json) := match item with JObj l => l | _ => [] end.
Definition responses (op : json) : dict json := match jget "responses" op with JObj l => l | _ => [] end.

Lemma documented_one names k c :
  documented names [(k, c)] = if bool_decide (k ∈ names) then [(k, c)] else [].
Proof.
  unfold documented. assert (∀ d, d = [] ∨ d = [(k, c)] →
    foldl (λ d n, match assoc_get n [(k, c)] with Some c => dset n c d | None => d end) d names
    = if bool_decide (k ∈ names) then [(k, c)] else d) as H; [|by rewrite H; [|left]].
  induction names as [|n names IH]; intros d Hd; [done|]. cbn [foldl assoc_get].
  destruct (String.eqb_spec n k) as [->|Hn].
  - rewrite (bool_decide_true (k ∈ k :: names)) by set_solver. rewrite IH.
    + by destruct (bool_decide (k ∈ names)), Hd as [-> | ->]; cbn; rewrite ?String.eqb_refl.
    + right. by destruct Hd as [-> | ->]; cbn; rewrite ?String.eqb_refl.
  - rewrite IH by done. by rewrite (bool_decide_ext (k ∈ n :: names) (k ∈ names)) by set_solver.
Qed.

Lemma dupdate_get {A} (items d : dict A) k :
  assoc_get k (dupdate items d) = match assoc_get k (reverse items) with Some v => Some v | None => assoc_get k d end.
Proof.
  unfold dupdate. revert d. induction items as [|[k' v] items IH]; intros d; [done|]. cbn [foldl].
  rewrite IH, reverse_cons, assoc_get_app, assoc_get_dset. cbn [assoc_get fst snd].
  destruct (assoc_get k (reverse items)); [done|]. by destruct (String.eqb k k').
Qed.

(** A reference that names one of these models. *)
Definition resolves (models : list PyModel) (r : string) : bool :=
  existsb (λ m, String.eqb r (REF_TEMPLATE (model_name m))) models.

Lemma mirag_refs_named :
  forallb (λ kv, forallb (resolves (ErrorResponse :: contract_models MIRAG)) (refs kv.2)) (contract_paths MIRAG) = true.
Proof. vm_compute. reflexivity. Qed.
Lemma mirag_models_distinct :
  NoDup ((ErrorResponse :: contract_models MIRAG) ≫= model_closure).
Proof. apply (bool_decide_unpack _). vm_compute. exact I. Qed.

(** With the agent registered, the document has every path of its contract where clients
    reach it, as the contract writes it and whatever the application's own routes are; and
    no reference in them dangles.  This leans on the library keying a model's schema by the
    model's name, which it does while no two models of one document share theirs. *)
Theorem contract_is_documented own models_json_schema names path item :
  (∀ models, NoDup (models ≫= model_closure) →
     ∀ m, m ∈ models → is_Some (assoc_get (model_name m) (models_json_schema models))) →
  "mirag" ∈ names → (path, item) ∈ contract_paths MIRAG →
  let doc := build_document own models_json_schema names CONTRACTS in
  assoc_get ("/api/mirag" ++s path) (doc_paths doc) = Some item
  ∧ doc_tags doc = (doc_tags own ++ [contract_tag MIRAG])%list
  ∧ ∀ r, r ∈ refs item → ∃ m, r = REF_TEMPLATE m ∧ is_Some (assoc_get m (doc_schemas doc)).
Proof.
  intros Hschema Hin Hpath. unfold build_document, CONTRACTS. rewrite documented_one, bool_decide_true by done.
  unfold add_models, add_contract. cbn [foldl fst snd doc_paths doc_tags doc_schemas].
  change ([("mirag", MIRAG)] ≫= λ nc, contract_models nc.2) with (contract_models MIRAG ++ [])%list.
  rewrite app_nil_r. split; [|split; [done|]].
  - rewrite dupdate_get. unfold MIRAG, contract_paths in Hpath.
    repeat (apply elem_of_cons in Hpath as [[= -> ->]|Hpath]; [by vm_compute|]). by apply not_elem_of_nil in Hpath.
  - intros r Hr. pose proof mirag_refs_named as Hrefs. rewrite forallb_forall in Hrefs.
    apply list_elem_of_In in Hpath. specialize (Hrefs _ Hpath). rewrite forallb_forall in Hrefs.
    apply list_elem_of_In in Hr. specialize (Hrefs _ Hr). apply existsb_exists in Hrefs as (m & Hm & Heq).
    apply String.eqb_eq in Heq as ->. apply list_elem_of_In in Hm. exists (model_name m). split; [done|].
    rewrite dupdate_get. destruct (assoc_get _ (reverse _)) as [v|] eqn:Hv; [by eauto|].
    pose proof (Hschema _ mirag_models_distinct m Hm) as [v Hget].
    apply assoc_get_None in Hv. destruct Hv. rewrite fmap_reverse, elem_of_reverse.
    apply assoc_get_Some_elem in Hget. by apply (list_elem_of_fmap_2 fst) in Hget.
Qed.

Lemma contract_is_documented_witness :
  let keyed models := ((λ m, (model_name m, JNull)) <$> models : dict json) in
  assoc_get "/api/mirag/api/v1/chat" (doc_paths (build_document (mkDocument [] [] []) keyed ["mirag"] CONTRACTS))
  = Some chat_path.
Proof.
  cbv zeta. refine (proj1 (contract_is_documented (mkDocument [] [] []) _ ["mirag"] "/api/v1/chat" chat_path _ _ _)).
  - intros models _ m Hm. destruct (assoc_get _ _) eqn:Hg; [eexists; reflexivity|].
    apply assoc_get_None in Hg. destruct Hg. rewrite <- list_fmap_compose. apply list_elem_of_fmap. exists m. by split.
  - apply list_elem_of_here.
  - vm_compute. do 4 apply list_elem_of_further. apply list_elem_of_here.
Defined.

Lemma each_operation (P : string → json → Prop) (paths : dict json) path item method op :
  Forall (λ kv, Forall (λ mo, P mo.1 mo.2) (operations kv.2)) paths →
  (path, item) ∈ paths → (method, op) ∈ operations item → P method op.
Proof. intros HP Hpath Hop. rewrite Forall_forall in HP. specialize (HP _ Hpath). rewrite Forall_forall in HP. apply (HP _ Hop). Qed.
Lemma each_response (l d : dict json) :
  Forall (λ kv, assoc_get kv.1 d = Some kv.2) l → ∀ status r, (status, r) ∈ l → assoc_get status d = Some r.
Proof. intros H status r Hin. rewrite Forall_forall in H. apply (H _ Hin). Qed.

(** What the document offers works: every operation of the contract has a method the
    catch-all route takes, answers for each of the gateway's own failures as the error
    handler does, and has an id that no other operation has. *)
Theorem documented_operations :
  NoDup ((op_id <$> proxy_operations)
         ++ (contract_paths MIRAG ≫= λ kv, (λ op, py_str (jget "operationId" op.2)) <$> operations kv.2))%list
  ∧ ∀ path item method op, (path, item) ∈ contract_paths MIRAG → (method, op) ∈ operations item →
      str_upper method ∈ PROXIED_METHODS
      ∧ ∀ status r, (status, r) ∈ gateway_error_responses [502; 503; 504]%Z → assoc_get status (responses op) = Some r.
Proof.
  split; [apply (bool_decide_unpack _); vm_compute; exact I|]. intros path item method op Hpath Hop.
  apply (each_operation (λ method op, str_upper method ∈ PROXIED_METHODS
    ∧ ∀ status r, (status, r) ∈ gateway_error_responses [502; 503; 504]%Z → assoc_get status (responses op) = Some r)
    (contract_paths MIRAG)) with path item; [|done|done].
  repeat (constructor; [constructor; [|constructor]; (split; [apply (bool_decide_unpack _); vm_compute; exact I|]);
    apply each_response; repeat (constructor; [vm_compute; reflexivity|]); constructor|]). constructor.
Qed.
