(* ===== verification/App.v ===== *)
(** * The application *)
(** [api/app.py], [logging_config.py] and [main.py]: what the application is made of, what it
    warns of, what a process opens and lets go of, from its first request to its last, and the
    configuration of its logger. *)
From S2P Require Import Mirag.
From S2P Require Export Routes.
From S2P Require Import RunLog.
From Stdlib Require Import Ascii.
From stdpp Require Import options.
Local Open Scope Z_scope.

(** ** The logger *)

(** The [gateway] logger: a handler is its filters. *)
Inductive LogFilter : Type := RequestIdFilter | OtherFilter (name : string).
Global Instance LogFilter_eq_dec : EqDecision LogFilter.
Proof. solve_decision. Defined.
Record Logger : Type := mkLogger {
  logger_level : string;
  logger_handlers : list (list LogFilter);
  logger_propagate : bool
}.

(** [configure_logging]; [setLevel] accepts the names of levels. *)
Definition LEVELS : list string :=
  ["CRITICAL"; "FATAL"; "ERROR"; "WARN"; "WARNING"; "INFO"; "DEBUG"; "NOTSET"]%string.
Definition configure_logging (level : string) (l : Logger) : result exn Logger :=
  if negb (mem_str level LEVELS) then Raise (ValueError ("Unknown level: " ++s str_repr level))
  else
    let configured := existsb (λ fs, bool_decide (RequestIdFilter ∈ fs)) (logger_handlers l) in
    Ok (mkLogger level (if configured then logger_handlers l else logger_handlers l ++ [[RequestIdFilter]]) false).

(** Handlers that put the request's id on a line. *)
Definition id_handlers (l : Logger) : list (list LogFilter) :=
  filter (λ fs, RequestIdFilter ∈ fs) (logger_handlers l).

(** A line as [_LOG_FORMAT] writes it; the filter gives it the request's id. *)
Definition format_line (asctime level name message request_id : string) : string :=
  asctime ++s " " ++s level ++s str_repeat (Z.to_nat (8 - py_len level)) " " ++s " ["
  ++s request_id ++s "] " ++s name ++s ": " ++s message.

(** ** The application *)

Definition version : string := "0.1.0".

(** The description, line by line. *)
Definition API_DESCRIPTION : string := str_join (str1 nl)
  ["Intermediary between clients and microservices: a request to `/api/{service}/{path}` is";
   "forwarded to `{service base_url}/{path}`, and the service's answer comes back unchanged.";
   "";
   "- **Request id**: send `X-Request-ID` (letters, digits, `.`, `_` and `-`, up to 128) or let the";
   "  gateway generate one. The service receives it and the response carries it back.";
   "- **Errors**: the ones produced by the gateway always have the `ErrorResponse` shape. The ones";
   "  produced by a service are relayed exactly as the service wrote them.";
   "- **Resilience**: `GET`, `HEAD`, `OPTIONS`, `PUT` and `DELETE` are retried on connection errors,";
   "  timeouts and `502`/`503`/`504`; `POST` and `PATCH` never are. A server that keeps failing";
   "  gets its circuit opened, and the gateway stops calling it for a while.";
   "- **Several instances**: a service can run on several servers. Requests are spread among them,";
   "  one that cannot take a request hands it to the next, and `X-Gateway-Instance` names the one";
   "  that answered. `/api/{service}@{instance}/...` goes back to that same server.";
   "- **Server-Sent Events** (`text/event-stream`) are relayed event by event. Swagger UI shows";
   "  them only when the stream ends: use `curl -N` to watch them arrive.";
   ""]%string.
Definition TAGS : list json :=
  [JObj [("name", JStr "health");
         ("description", JStr "The state of the gateway and of every registered service.")];
   JObj [("name", JStr "proxy");
         ("description", JStr "The generic route every registered service is reached through.")]]%string.

(** What [FastAPI] is given: the application, its middleware, its exception handlers, its
    routers in the order they are matched, and the contracts its document adds. *)
Inductive AppMiddleware : Type := RequestContext.
Record Application : Type := mkApplication {
  app_title : string;
  app_version : string;
  app_description : string;
  app_openapi_tags : list json;
  app_middleware : list AppMiddleware;
  app_handlers : exn_class → option handler;
  app_routers : list Router;
  app_documented : dict DownstreamContract
}.

(** The process: its logger and the lines logged. *)
Inductive Level : Type := INFO | WARNING.
Record Process : Type := mkProcess {
  proc_logger : Logger;
  proc_lines : list (Level * string)
}.
Definition log_warning (line : string) : M Process exn unit :=
  modify (λ p, mkProcess (proc_logger p) (proc_lines p ++ [(WARNING, line)])).

Definition tokens_warning : string :=
  "Orchestration is on and at least one agent token is empty: "
  ++s "the agents behind this gateway are open to whoever reaches them.".
Definition mainnet_warning : string :=
  "Billing is pointed at Stellar MAINNET: payments move real money.".

(** [create_app], given its settings or the environment's ([get_settings]). *)
Definition create_app (settings : option Settings) (get_settings : result exn Settings) : M Process exn Application :=
  s ← lift (match settings with Some s => Ok s | None => get_settings end);
  p ← get_state;
  l ← lift (configure_logging (log_level s) (proc_logger p));
  put_state (mkProcess l (proc_lines p)) ;;
  (if enabled (set_orchestration s)
   then if negb (str_truthy (pm_token (set_orchestration s)) && str_truthy (backend_token (set_orchestration s)))
        then log_warning tokens_warning else mret tt
   else mret tt) ;;
  (if bil_enabled (set_billing s)
   then if String.eqb (bil_network (set_billing s)) "public" then log_warning mainnet_warning else mret tt
   else mret tt) ;;
  mret (mkApplication (app_name s) version API_DESCRIPTION TAGS [RequestContext] registered_handler (routers s)
          (documented (svc_name <$> set_services s) CONTRACTS)).

(** What [uvicorn.run] is told by [main.run]. *)
Record Server : Type := mkServer {
  srv_app : string;
  srv_factory : bool;
  srv_host : string;
  srv_port : Z;
  srv_log_level : string
}.
(** [run] of [main.py] *)
Definition run_server (get_settings : result exn Settings) : result exn Server :=
  s ← get_settings;
  mret (mkServer "gateway.api.app:create_app" true (set_host s) (port s) (str_lower (log_level s))).

(** ** The process *)

(** [default_http_client] *)
Record HttpClientConfig : Type := mkHttpClientConfig {
  hc_max_connections : Z;
  hc_follow_redirects : bool
}.
Definition default_http_client (s : Settings) : HttpClientConfig := mkHttpClientConfig (max_connections s) false.

(** The lines a process that serves begins with. *)
Definition billing_line (b : BillingSettings) : string :=
  "Billing is on: " ++s bil_network b ++s ", ledger at " ++s bil_database b ++s ", paying to "
  ++s (if str_truthy (bil_destination b) then py_take 8 (bil_destination b) ++s "…"
       else "nowhere yet (free plan only; set GATEWAY_BILLING__DESTINATION to sell)").
Definition ready_lines {W} (s : Settings) (g : Gateway W) : result exn (list string) :=
  ds ← service_definitions (set_services s);
  mret (("Gateway ready. Registered services: " ++s describe_services ds)
        :: match gw_billing g with Some _ => [billing_line (set_billing s)] | None => [] end).

Section lifespan.
Context {W D Client Account Tx : Type} `{!Field W D} `{!BillingStore D}
        `{!Field W Turns} `{!Field W (gmap string CircuitBreaker)} `{!Field W Log.State}
        `{!Field W (ContractState Client)}.
Context (now_utc : M W exn Z) (new_entry_id : M W exn string) (clock : M W exn Z)
        (sleep : Z → M W exn unit) (close : nat → M W exn unit) (transport : UpstreamClient W).
Context (http_get http_post : string → list (string * string) → M W exn http_reply)
        (stellar_sdk : option StellarSdk) (soroban : SorobanSdk W Client Account Tx)
        (fromisoformat : string → option (Z * option Z)) (open_store : string → M W exn unit).
(** The HTTP client's context manager, [SqliteBillingStore.close], and [logger.info]. *)
Context (open_client : HttpClientConfig → M W exn unit) (close_client close_store : M W exn unit)
        (info : string → M W exn unit).

(** What it says once there is a container. *)
Definition announce (s : Settings) (g : Gateway W) : M W exn unit :=
  lines ← lift (ready_lines s g);
  foldr (λ line rest, info line ;; rest) (mret tt) lines.

(** [lifespan]: [serve] is what happens between startup and shutdown. *)
Definition lifespan (s : Settings) (serve : Gateway W → M W exn unit) : M W exn unit :=
  open_client (default_http_client s) ;;
  try_finally
    (g ← build_container now_utc new_entry_id clock sleep close transport http_get http_post stellar_sdk
           soroban fromisoformat open_store s;
     announce s g ;;
     try_finally (serve g) (match gw_billing g with Some _ => close_store | None => mret tt end))
    close_client.
End lifespan.

(** ** Logging is configured once *)

Lemma configured_handler l l' level :
  configure_logging level l = Ok l' → existsb (λ fs, bool_decide (RequestIdFilter ∈ fs)) (logger_handlers l') = true.
Proof.
  unfold configure_logging. destruct (negb _); [done|]. intros [= <-]. cbn [logger_handlers].
  destruct (existsb _ (logger_handlers l)) eqn:Hc; [done|]. by rewrite existsb_app, Hc.
Qed.

(** However often logging is configured, and with whatever levels, the last level holds
    and no handler is there twice: a logger without a handler that knows request ids gets
    one, and one that has them keeps those it has. *)
Theorem logging_configured_once level level' l l1 l2 :
  configure_logging level l = Ok l1 → configure_logging level' l1 = Ok l2 →
  l2 = mkLogger level' (logger_handlers l1) false
  ∧ logger_level l2 = level'
  ∧ id_handlers l2 = match id_handlers l with [] => [[RequestIdFilter]] | hs => hs end.
Proof.
  intros H1 H2. pose proof (configured_handler _ _ _ H1) as Hc.
  unfold configure_logging in H2. rewrite Hc in H2. destruct (negb _); [done|]. injection H2 as <-.
  split; [done|]. split; [done|]. unfold id_handlers. cbn [logger_handlers].
  unfold configure_logging in H1. destruct (negb _); [done|]. injection H1 as <-. cbn [logger_handlers].
  destruct (existsb _ (logger_handlers l)) eqn:He.
  - apply existsb_exists in He as (fs & Hin & Hf). apply bool_decide_eq_true in Hf. apply list_elem_of_In in Hin.
    destruct (filter _ (logger_handlers l)) as [|x hs] eqn:Hfl; [|done].
    exfalso. apply (not_elem_of_nil fs). rewrite <- Hfl. by apply list_elem_of_filter.
  - rewrite filter_app. rewrite (filter_none _ (logger_handlers l)); [by vm_compute|].
    apply Forall_forall. intros fs Hin Hf.
    assert (existsb (λ fs, bool_decide (RequestIdFilter ∈ fs)) (logger_handlers l) = true); [|congruence].
    apply existsb_exists. exists fs. split; [by apply list_elem_of_In|by apply bool_decide_eq_true].
Qed.

Lemma logging_configured_once_witness :
  let configured := mkLogger "DEBUG" [[RequestIdFilter]] false in
  (l1 ← configure_logging "INFO" (mkLogger "NOTSET" [] true); configure_logging "DEBUG" l1) = Ok configured
  ∧ id_handlers configured = [[RequestIdFilter]].
Proof.
  split; [reflexivity|].
  exact (proj2 (proj2 (logging_configured_once "INFO" "DEBUG" (mkLogger "NOTSET" [] true)
    (mkLogger "INFO" [[RequestIdFilter]] false) (mkLogger "DEBUG" [[RequestIdFilter]] false) eq_refl eq_refl))).
Defined.

(** ** The application is the one configured *)

Lemma level_accepted s : accepted s → mem_str (log_level s) LEVELS = true.
Proof.
  unfold accepted, settings_errors. autorewrite with gw_settings. intros (_ & Hl & _).
  apply mem_str_spec in Hl. apply mem_str_spec. set_solver.
Qed.

(** Accepted settings always make an application, and it is the one they describe: the
    routers and the title are the settings', the agent's contract is documented when the agent
    is one of the services and no other is, the logger is at the level named; and it
    is said aloud when agents stand open, with orchestration on and a token missing, and when
    payments move real money -- which the operator has then confirmed. *)
Theorem application_as_configured s env p :
  accepted s →
  ∃ app l lines, create_app (Some s) env p = (Ok app, mkProcess l (proc_lines p ++ lines))
    ∧ logger_level l = log_level s
    ∧ app_title app = app_name s ∧ app_routers app = routers s
    ∧ app_documented app = (if bool_decide ("mirag"%string ∈ svc_name <$> set_services s) then CONTRACTS else [])
    ∧ ((WARNING, tokens_warning) ∈ lines ↔
        enabled (set_orchestration s) = true
        ∧ (pm_token (set_orchestration s) = EmptyString ∨ backend_token (set_orchestration s) = EmptyString))
    ∧ ((WARNING, mainnet_warning) ∈ lines ↔
        bil_enabled (set_billing s) = true ∧ bil_network (set_billing s) = "public"%string)
    ∧ ((WARNING, mainnet_warning) ∈ lines → bil_allow_mainnet (set_billing s) = true).
Proof.
  intros Hacc. unfold create_app. rewrite run_bind, run_lift. unfold get_state, put_state.
  rewrite run_bind. cbn beta iota. rewrite run_bind, run_lift.
  unfold configure_logging. rewrite (level_accepted s Hacc). cbn [negb]. rewrite run_bind. cbn beta iota.
  set (l := mkLogger _ _ _). pose proof (ok_mainnet s (settings_accepted s Hacc)) as Hmain.
  remember (mkApplication (app_name s) version API_DESCRIPTION TAGS [RequestContext] registered_handler (routers s)
          (documented (svc_name <$> set_services s) CONTRACTS)) as app eqn:Happ.
  exists app, l.
  exists ((if enabled (set_orchestration s)
             && negb (str_truthy (pm_token (set_orchestration s)) && str_truthy (backend_token (set_orchestration s)))
           then [(WARNING, tokens_warning)] else [])
          ++ (if bil_enabled (set_billing s) && String.eqb (bil_network (set_billing s)) "public"
              then [(WARNING, mainnet_warning)] else [])).
  assert (tokens_warning ≠ mainnet_warning) as Hne by done.
  split.
  { destruct (enabled _), (str_truthy (pm_token _)), (str_truthy (backend_token _)), (bil_enabled _),
      (String.eqb _ _); cbn [andb negb]; unfold log_warning; autorewrite with gw_run;
      cbn [proc_logger proc_lines]; by rewrite ?app_nil_r, <- ?app_assoc. }
  subst app. cbn [app_title app_routers app_documented]. split; [done|]. split; [done|]. split; [done|].
  split; [by unfold CONTRACTS; rewrite documented_one|].
  rewrite !elem_of_app. clear -Hne Hmain.
  destruct (enabled _), (str_truthy (pm_token _)) eqn:H1, (str_truthy (backend_token _)) eqn:H2, (bil_enabled _),
    (String.eqb_spec (bil_network (set_billing s)) "public"); cbn [andb negb];
    rewrite ?str_truthy_spec, ?str_truthy_false in *; set_solver.
Qed.

(** A deployment that sells on the main network. *)
Definition open_settings : Settings :=
  mkSettings "Shop" "0.0.0.0" 8000 "INFO" 100 [] default_orchestration
    (mkBillingSettings true "public" true None "" "XLM" "" "" "s3cret" "var/billing.sqlite3" 50000 true
       "0.50" "" None false)
    default_retry default_circuit_breaker.
Lemma application_as_configured_witness :
  ∃ app l lines,
    create_app (Some open_settings) (Raise GeneratorExit) (mkProcess (mkLogger "NOTSET" [] true) [])
      = (Ok app, mkProcess l lines)
    ∧ app_routers app = [HealthRouter; BillingRouter; X402Router; ProxyRouter]
    ∧ app_documented app = [] ∧ (WARNING, mainnet_warning) ∈ lines.
Proof.
  destruct (application_as_configured open_settings (Raise GeneratorExit) (mkProcess (mkLogger "NOTSET" [] true) [])
    ltac:(reflexivity)) as (app & l & lines & Hrun & _ & _ & Hrouters & Hdoc & _ & [_ Hmain] & _).
  exists app, l, lines. split; [exact Hrun|]. split; [exact Hrouters|]. split; [exact Hdoc|]. by apply Hmain.
Defined.

(** ** What is opened is closed *)

Inductive Resource : Type := HttpClient | Ledger.
Inductive LifeEvent : Type := Opened (r : Resource) | Closed (r : Resource).

Section life.
#[local] Set Default Proof Using "Type*".
Context {W D Client Account Tx : Type} `{!Field W D} `{!BillingStore D}
        `{!Field W Turns} `{!Field W (gmap string CircuitBreaker)} `{!Field W Log.State}
        `{!Field W (ContractState Client)}.
Context (now_utc : M W exn Z) (new_entry_id : M W exn string) (clock : M W exn Z)
        (sleep : Z → M W exn unit) (close : nat → M W exn unit) (transport : UpstreamClient W).
Context (http_get http_post : string → list (string * string) → M W exn http_reply)
        (stellar_sdk : option StellarSdk) (soroban : SorobanSdk W Client Account Tx)
        (fromisoformat : string → option (Z * option Z)) (open_store : string → M W exn unit).
Context (open_client : HttpClientConfig → M W exn unit) (close_client close_store : M W exn unit)
        (info : string → M W exn unit) (trace : W → list LifeEvent).

Abbreviation build := (build_container now_utc new_entry_id clock sleep close transport http_get http_post
  stellar_sdk soroban fromisoformat open_store).
Abbreviation live := (lifespan now_utc new_entry_id clock sleep close transport http_get http_post
  stellar_sdk soroban fromisoformat open_store open_client close_client close_store info).

(** Opening leaves its mark when it succeeds; closing succeeds and leaves its own. *)
Definition opens (r : Resource) (m : M W exn unit) : Prop :=
  ∀ w, trace (m w).2 = trace w ++ (if is_ok (m w).1 then [Opened r] else []).
Definition closes (r : Resource) (m : M W exn unit) : Prop :=
  ∀ w, (m w).1 = Ok tt ∧ trace (m w).2 = trace w ++ [Closed r].
Hypothesis store_opens : ∀ path, opens Ledger (open_store path).
Hypothesis store_closes : closes Ledger close_store.
Hypothesis client_opens : ∀ c, opens HttpClient (open_client c).
Hypothesis client_closes : closes HttpClient close_client.
(** A line logged raises nothing. *)
Hypothesis info_quiet : ∀ line w, (info line w).1 = Ok tt ∧ trace (info line w).2 = trace w.

(** What the ledger's opening has to do with what is built. *)
Lemma build_trace s w :
  accepted s →
  match build s w with
  | (Ok g, w') => is_Some (gw_billing g) ↔ bil_enabled (set_billing s) = true
  | (Raise e, w') => True
  end
  ∧ (trace (build s w).2 = trace w ∧ (is_ok (build s w).1 = true → bil_enabled (set_billing s) = false)
     ∨ bil_enabled (set_billing s) = true ∧ trace (build s w).2 = trace w ++ [Opened Ledger]
       ∧ (is_ok (build s w).1 = false →
          text (bil_secret (set_billing s)) = false
          ∨ is_ok (money_parse (JStr (bil_x402_price_usd (set_billing s)))) = false)).
Proof.
  intros Hacc. pose proof (build_container_spec now_utc new_entry_id clock sleep close transport http_get
    http_post stellar_sdk soroban fromisoformat open_store s w Hacc) as Hspec.
  assert (match build s w with
    | (Ok g, w') => is_Some (gw_billing g) ↔ bil_enabled (set_billing s) = true
    | (Raise e, w') => True end) as Hbill.
  { destruct (build s w) as [[g|e] w1]; [|done]. destruct Hspec as [_ _ _ _ _ _ Hb].
    destruct (gw_billing g); [by destruct Hb as [-> _]|]. rewrite Hb. split; [by intros []|done]. }
  split; [exact Hbill|]. clear Hspec Hbill.
  apply settings_accepted in Hacc as [_ _ _ Hsecret _ _ _ _ _].
  unfold build_container. rewrite run_bind, run_lift.
  destruct (service_definitions (set_services s)) as [ds|e]; [|by left].
  rewrite run_bind, run_lift. destruct (InMemoryServiceRegistry ds) as [reg|e]; [|by left].
  rewrite run_bind, run_lift. destruct (policy_of (set_retry s)) as [p|e]; [|by left].
  cbv zeta. rewrite run_bind. unfold build_billing.
  destruct (bil_enabled (set_billing s)) eqn:Hen; cbn [negb]; [|by left].
  rewrite run_bind. pose proof (store_opens (bil_database (set_billing s)) w) as Hopen.
  destruct (open_store _ w) as [[[]|e] w1]; cbn [fst snd is_ok] in Hopen;
    [right|left; rewrite app_nil_r in Hopen; by split].
  split; [done|]. destruct shipped_catalog_ok as [c Hc]. rewrite run_bind, run_lift, Hc. clear Hc. cbn iota beta.
  rewrite run_bind, run_lift. unfold identity_service, encode_utf8.
  rewrite (proj2 (str_truthy_spec _) (Hsecret eq_refl)). cbn [negb].
  destruct (text (bil_secret (set_billing s))); cbn [mbind result_bind mret result_ret]; [|by split; [|left]].
  destruct (bil_x402 (set_billing s)); autorewrite with gw_run; [|by split].
  destruct (money_parse _); cbn; (split; [done|]); by (left + right).
Qed.

(** A container was built of services that read back the same. *)
Lemma build_services s w g w1 : build s w = (Ok g, w1) → is_ok (service_definitions (set_services s)) = true.
Proof. unfold build_container. rewrite run_bind, run_lift. by destruct (service_definitions _). Qed.
Lemma announce_quiet s g w :
  is_ok (service_definitions (set_services s)) = true →
  ∃ w', announce info s g w = (Ok tt, w') ∧ trace w' = trace w.
Proof.
  intros Hs. unfold announce, ready_lines. rewrite run_bind, run_lift.
  destruct (service_definitions _) as [ds|]; [|done]. cbn [mbind result_bind mret result_ret].
  generalize (("Gateway ready. Registered services: " ++s describe_services ds)
    :: match gw_billing g with Some _ => [billing_line (set_billing s)] | None => [] end). intros lines. clear Hs.
  revert w. induction lines as [|line lines IH]; intros w; cbn [foldr]; [by exists w|].
  rewrite run_bind. pose proof (info_quiet line w) as [H1 H2]. destruct (info line w) as [o w1]. cbn in *. subst o.
  destruct (IH w1) as (w2 & -> & Ht). exists w2. by rewrite Ht.
Qed.

Lemma finally_closes {A} (m : M W exn A) f r w :
  closes r f → (try_finally m f w).1 = (m w).1 ∧ trace (try_finally m f w).2 = trace (m w).2 ++ [Closed r].
Proof.
  intros Hf. unfold try_finally. destruct (m w) as [o w1]. destruct (Hf w1) as [Ho Ht].
  destruct (f w1) as [[[]|e] w2]; cbn in *; [done|congruence].
Qed.

(** C37. However a process ends -- its server stops, or fails, or the gateway does not start
    -- the HTTP client it opened is closed, once and last, and a ledger it served with is
    closed before it.  Only a ledger opened by a start that then fails is left open: the
    start of accepted settings whose secret does not encode or whose price for a call is
    no amount, which are read after the file was opened. *)
Theorem process_closes_what_it_opened s serve w :
  accepted s → (∀ g w, trace (serve g w).2 = trace w) → is_ok (open_client (default_http_client s) w).1 = true →
  let run := live s serve w in
  let started := build s (open_client (default_http_client s) w).2 in
  ∃ ledger, trace run.2 = trace w ++ [Opened HttpClient] ++ ledger ++ [Closed HttpClient]
    ∧ match started with
      | (Ok g, w1) => run.1 = (serve g (announce info s g w1).2).1
          ∧ ledger = (if bil_enabled (set_billing s) then [Opened Ledger; Closed Ledger] else [])
      | (Raise e, w1) => run.1 = Raise e
          ∧ (ledger = [] ∨ ledger = [Opened Ledger] ∧ bil_enabled (set_billing s) = true
               ∧ (text (bil_secret (set_billing s)) = false
                  ∨ is_ok (money_parse (JStr (bil_x402_price_usd (set_billing s)))) = false))
      end.
Proof.
  intros Hacc Hserve Hopen run started. unfold run, started, lifespan. clear run started.
  rewrite run_bind. pose proof (client_opens (default_http_client s) w) as Ht. destruct (open_client _ w) as [[[]|e] w0]; [|done].
  cbn [fst snd is_ok] in *.
  match goal with |- context [try_finally ?m close_client w0] =>
    destruct (finally_closes m close_client HttpClient w0 client_closes) as [Hr Htr] end.
  rewrite Hr, Htr. clear Hr Htr. rewrite run_bind.
  destruct (build_trace s w0 Hacc) as [Hbill Hb]. destruct (build s w0) as [[g|e] w1] eqn:Hbuild; cbn [fst snd is_ok] in *.
  - destruct (announce_quiet s g w1 (build_services _ _ _ _ Hbuild)) as (w2 & Hann & Hquiet).
    rewrite run_bind, Hann. cbn [snd]. rewrite <- Hquiet in Hb. destruct (gw_billing g) as [parts|].
    + destruct (finally_closes (serve g) close_store Ledger w2 store_closes) as [-> ->]. rewrite Hserve.
      rewrite (proj1 Hbill) in * by eauto.
      destruct Hb as [[_ Hb]|(_ & -> & _)]; [by specialize (Hb eq_refl)|]. rewrite Ht.
      exists [Opened Ledger; Closed Ledger]. by rewrite <- !app_assoc.
    + unfold try_finally. specialize (Hserve g w2). destruct (serve g w2) as [o w3]. cbn in *.
      destruct Hb as [[Hb Hoff]|(Hon & _)]; [|by apply Hbill in Hon as []].
      rewrite Hoff by done. exists []. rewrite Hserve, Hb, Ht, <- app_assoc. by destruct o.
  - destruct Hb as [[-> _]|(Hon & -> & Hwhy)]; rewrite Ht.
    + exists []. rewrite <- app_assoc. split; [done|]. split; [done|by left].
    + exists [Opened Ledger]. rewrite <- !app_assoc. split; [done|]. split; [done|]. right. auto.
Qed.
End life.

(** A process whose world keeps what was opened and closed beside the gateway's own. *)
Definition AppWorld : Type := BootWorld * list LifeEvent.
#[local] Program Instance app_field {S} `{!Field BootWorld S} : Field AppWorld S :=
  {| getf w := getf w.1; setf s w := (setf s w.1, w.2) |}.
Next Obligation. intros. apply getf_setf. Qed.
Next Obligation. intros S F s s' [w l]. cbn. by rewrite setf_setf. Qed.
Next Obligation. intros S F [w l]. cbn. by rewrite setf_getf. Qed.
Definition mark (e : LifeEvent) : M AppWorld exn unit := modify (λ w, (w.1, w.2 ++ [e])).
Definition app_transport : UpstreamClient AppWorld :=
  mkClient (λ r, raise (UpstreamConnectionError (service_name (out_service r)) false))
           (λ r, raise (UpstreamConnectionError (service_name (out_service r)) false)).
(** A price that is no amount, which no validator reads. *)
Definition unpriced_settings : Settings :=
  mkSettings "API Gateway" "0.0.0.0" 8000 "INFO" 100 [] default_orchestration
    (mkBillingSettings true "testnet" false None "" "XLM" "" "" "s3cret" "var/billing.sqlite3" 50000 true
       "half a dollar" "" None false)
    default_retry default_circuit_breaker.

Definition idle : Gateway AppWorld → M AppWorld exn unit := λ _, mret tt.
Abbreviation unpriced_process := (lifespan (mret 5) (mret "id"%string) (mret 5) (λ _, mret tt) (λ _, mret tt)
  app_transport (λ _ _, mret (HttpFailed "closed")) (λ _ _, mret (HttpFailed "closed")) None demo_soroban
  (λ _, None) (λ _, mark (Opened Ledger)) (λ _, mark (Opened HttpClient)) (mark (Closed HttpClient))
  (mark (Closed Ledger)) (λ _, mret tt) unpriced_settings idle (boot_start, [])).
Lemma unpriced_accepted : accepted unpriced_settings.
Proof. vm_compute. reflexivity. Qed.

Lemma process_closes_what_it_opened_witness :
  ∃ ledger, unpriced_process.2.2 = [Opened HttpClient] ++ ledger ++ [Closed HttpClient].
Proof.
  destruct (process_closes_what_it_opened (mret 5) (mret "id"%string) (mret 5) (λ _, mret tt) (λ _, mret tt)
      app_transport (λ _ _, mret (HttpFailed "closed")) (λ _ _, mret (HttpFailed "closed")) None demo_soroban
      (λ _, None) (λ _, mark (Opened Ledger)) (λ _, mark (Opened HttpClient)) (mark (Closed HttpClient))
      (mark (Closed Ledger)) (λ _, mret tt) snd ltac:(intros path w; reflexivity) ltac:(intros w; by split)
      ltac:(intros c w; reflexivity) ltac:(intros w; by split) ltac:(intros line w; by split) unpriced_settings idle
      (boot_start, []) unpriced_accepted ltac:(intros g w; reflexivity) eq_refl) as (ledger & Htrace & _).
  exists ledger. exact Htrace.
Defined.

(** The ledger of a start that failed stays open. *)
Example unpriced_leaves_ledger_open :
  is_ok unpriced_process.1 = false ∧ unpriced_process.2.2 = [Opened HttpClient; Opened Ledger; Closed HttpClient].
Proof. split; vm_compute; reflexivity. Qed.
