(* ===== verification/Smoke.v ===== *)
(** * The smoke test *)
(** [scripts/smoke_flow.py]: the client that drives a running gateway from an idea to a ZIP
    and says whether that passed.  The network ([urlopen]), the clock and the reading of a ZIP
    are parameters; what they answer is text or JSON of any shape, and what the script does
    with a shape it did not expect is its exception. *)
From S2P Require Export Orchestration.
From Stdlib Require Import Ascii.
From stdpp Require Import options.
Local Open Scope Z_scope.

(** ** Python, on values of any shape *)

Definition ends_with (e s : string) : bool :=
  (byte_len e <=? byte_len s) && String.eqb (str_last (String.length e) s) e.
(** [p in s] *)
Fixpoint is_in (p s : string) : bool :=
  starts_with p s || match s with EmptyString => false | String _ s' => is_in p s' end.
(** The lines [for line in response] goes through, without their ends. *)
Definition byte_lines (s : string) : list string := str_split nl s.
Definition count_char (c : ascii) (s : string) : Z := Z.of_nat (length (str_split c s)) - 1.

(** [v[k]] of a parsed value, for a [str] key. *)
Definition item (k : string) (v : json) : result exn json :=
  match v with
  | JObj fields =>
      match assoc_get k fields with
      | Some x => Ok x
      | None => Raise (ForeignError "KeyError" (str_repr k))
      end
  | _ => Raise (TypeError "indices must be integers, or the object is not subscriptable")
  end.
(** [v[:n]], printed. *)
Definition sliced (n : nat) (v : json) : result exn string :=
  match v with
  | JStr s => Ok (py_take n s)
  | JList l => Ok (py_repr (JList (take n l)))
  | _ => Raise (TypeError "the object is not subscriptable")
  end.
(** The values [for x in v] goes through. *)
Definition iterate (v : json) : result exn (list json) :=
  match v with
  | JList l => Ok l
  | JObj fields => Ok ((λ kv, JStr kv.1) <$> fields)
  | JStr s => Ok ((λ c, JStr (utf8_encode c)) <$> default [] (utf8_decode s))
  | _ => Raise (TypeError "the object is not iterable")
  end.
Definition str_item (v : json) : result exn string :=
  match v with
  | JStr s => Ok s
  | _ => Raise (TypeError ("sequence item: expected str instance, " ++s json_type v ++s " found"))
  end.
Definition pad (n : Z) (s : string) : string := s ++s str_repeat (Z.to_nat (n - py_len s)) " ".
(** [format(v, "<n")] *)
Definition format_left (n : Z) (v : json) : result exn string :=
  match v with
  | JStr s => Ok (pad n s)
  | JInt i => Ok (pad n (int_str i))
  | JBool b => Ok (pad n (if b then "1" else "0"))
  | JFloat f => Ok (pad n (float_repr f))
  | JNull | JList _ | JObj _ =>
      Raise (TypeError ("unsupported format string passed to " ++s json_type v ++s ".__format__"))
  end.
Definition map_result {A B} (f : A → result exn B) : list A → result exn (list B) :=
  foldr (λ x r, y ← f x; ys ← r; mret (y :: ys)) (mret []).
(** [json.loads] *)
Definition parse (data : string) : result exn json :=
  match loads data with Some v => Ok v | None => Raise (ValueError "not JSON") end.

(** [sorted] of a set of texts. *)
Fixpoint insert_str (s : string) (l : list string) : list string :=
  match l with
  | [] => [s]
  | x :: l' => if String.leb s x then s :: l else x :: insert_str s l'
  end.
Definition sorted_set (l : list string) : list string := foldr insert_str [] (remove_dups l).
(** A list of texts as [str] prints it. *)
Definition list_str (l : list string) : string := py_repr (JList (JStr <$> l)).

(** ** The data *)

Definition ANSWERS : list string :=
  ["Una recepcionista, nadie más."; "Unas 50 reservas por semana, una sola sede.";
   "Se anotan en papel y se pisan."; "Ver las reservas del día y que no se dupliquen."]%string.
Definition IDEA : string :=
  "Una API REST para gestionar reservas de salas de reunión, con CRUD completo. "
  ++s "Cada reserva tiene: sala, persona, fecha y hora de inicio. Solo biblioteca "
  ++s "estándar de Python, datos en SQLite, arquitectura por dominio.".
Definition REJECTED : list string := ["FAILED"; "INCOMPLETE"]%string.

(** What is said, and where. *)
Inductive Said : Type := Out (line : string) | Err (line : string).

(** [Flow], beside what was printed. *)
Record Flow : Type := mkFlow {
  failures : list string;
  said : list Said
}.
Definition new_flow : Flow := mkFlow [] [].

(** [urllib.request.Request], with the timeout it is opened with. *)
Record Request : Type := mkRequest {
  req_url : string;
  req_method : string;
  req_data : option string;
  req_headers : list (string * string);
  req_timeout : Z
}.
(** [urllib.error.HTTPError] *)
Record HTTPError : Type := mkHTTPError {
  err_code : Z;
  err_reason : string;
  err_body : string
}.
Definition http_error (e : HTTPError) : exn :=
  ForeignError "HTTPError" ("HTTP Error " ++s int_str (err_code e) ++s ": " ++s err_reason e).
(** [isinstance(e, URLError)], of which [HTTPError] is one. *)
Definition is_url_error (e : exn) : bool := mem_str (type_name e) ["URLError"; "HTTPError"]%string.

(** ** What a run of events says *)

Definition PREFIXES : list string :=
  ["specification"; "generation"; "project"; "plan"; "structure"; "syntax"; "imports"; "tests";
   "crud"; "repair"; "packaging"; "artifact"]%string.
(** [_interesting] *)
Definition interesting (name : json) : result exn bool :=
  match name with
  | JStr s => Ok (existsb (λ p, starts_with p s) PREFIXES)
  | _ => Raise (ForeignError "AttributeError"
                  ("'" ++s json_type name ++s "' object has no attribute 'startswith'"))
  end.

(** The loop of [_verdict], over the events reversed. *)
Fixpoint last_verdict (events : list json) : result exn string :=
  match events with
  | [] => Ok EmptyString
  | event :: before =>
      project ← attr_get "project" event;
      if jis (jget "type" event) "done" && is_dict project
      then mret (str_or_empty (jget "status" project)) else last_verdict before
  end.
(** [_verdict] *)
Definition verdict_of (events : list json) : result exn string := last_verdict (rev events).

(** [_planned] *)
Fixpoint planned (events : list json) : result exn (list string) :=
  match events with
  | [] => Ok []
  | event :: after =>
      detail ← attr_get "detail" event;
      if jis (jget "name" event) "specification" && is_dict detail
      then ps ← iterate (jor (jget "plan" detail) (JList [])); mret (map py_str ps)
      else planned after
  end.

(** The line printed for a step of the generation, or none. *)
Definition step_line (event : json) : result exn (list string) :=
  kind ← attr_get "type" event;
  if negb (jis kind "step") then mret []
  else
    name ← item "name" event;
    told ← interesting name;
    if negb told then mret []
    else
      n ← format_left 24 name;
      status ← item "status" event;
      s ← format_left 9 status;
      mret ["      " ++s n ++s " " ++s s ++s " " ++s py_take 90 (py_str (jget "summary" event))].

(** The value given to the [i]th question, and the answers of a round. *)
Definition given (i : nat) (q : json) : result exn json :=
  id ← item "id" q;
  mret (JObj [("questionId", id); ("value", JStr (default "No tengo preferencia." (ANSWERS !! i)))])%string.
Definition asked (run : json) : result exn (list json) :=
  questionnaire ← attr_get "questionnaire" run;
  qs ← attr_get "questions" (jor questionnaire (JObj []));
  iterate (jor qs (JList [])).
Definition all_given (qs : list json) : result exn (list json) :=
  map_result (λ '(i, q), given i q) (imap pair qs).

Section flow.
Context {W T Archive : Type} `{!Field W Flow}.
(** [urlopen] and what reading its answer gives: an [HTTPError], or a status and a body. *)
Context (urlopen : Request → M W exn (HTTPError + (Z * string))).
(** [time.monotonic], and the seconds from one reading to another, to no decimals. *)
Context (monotonic : M W exn T) (seconds : T → T → string).
(** [zipfile.ZipFile], [namelist] and [read]. *)
Context (open_zip : string → result exn Archive) (namelist : Archive → list string)
        (read_file : Archive → string → result exn string).
(** [Flow.gateway] *)
Context (gateway : string).

Definition print_ (s : Said) : M W exn unit := modify (updf (λ f, mkFlow (failures f) (said f ++ [s]))).
Definition print_line (line : string) : M W exn unit := print_ (Out line).

(** [check] *)
Definition check (name : string) (ok : bool) (detail : string) : M W exn bool :=
  print_line ("    " ++s (if ok then "PASS" else "FAIL") ++s "  " ++s name
              ++s (if str_truthy detail then " — " ++s detail else EmptyString)) ;;
  (if ok then mret tt else modify (updf (λ f, mkFlow (failures f ++ [name]) (said f)))) ;;
  mret ok.

(** [__init__] *)
Definition base : string := rstrip_char "/" gateway.
Definition JSON_HEADERS : list (string * string) := [("Content-Type", "application/json")]%string.

(** [urlopen] where no [HTTPError] is caught. *)
Definition opened (r : Request) : M W exn (Z * string) :=
  reply ← urlopen r;
  match reply with inl e => raise (http_error e) | inr a => mret a end.

(** [call] *)
Definition call (path method : string) (body : option json) : M W exn (Z * json) :=
  started ← monotonic;
  reply ← urlopen (mkRequest (base ++s "/runs" ++s path) method (dumps <$> body) JSON_HEADERS 1800);
  let '(status, text) := match reply with
    | inl e => (err_code e, if str_truthy (err_body e) then err_body e else "{}"%string)
    | inr a => a
    end in
  payload ← lift (parse text);
  now ← monotonic;
  print_line ("  " ++s method ++s " /runs" ++s path ++s " → " ++s int_str status ++s " in "
              ++s seconds started now ++s "s") ;;
  mret (status, payload).

(** The lines of a stream that carry an event. *)
Definition data_lines (body : string) : list string :=
  filter (λ l, starts_with "data: " l = true) (byte_lines body).

(** [stream] *)
Definition stream (path : string) : M W exn (list json) :=
  started ← monotonic;
  '(_, body) ← opened (mkRequest (base ++s "/runs" ++s path) "POST" None JSON_HEADERS 1800);
  events ← lift (map_result (λ l, parse (str_drop 6 l)) (data_lines body));
  now ← monotonic;
  print_line ("  POST /runs" ++s path ++s " → " ++s int_str (Z.of_nat (length events)) ++s " events in "
              ++s seconds started now ++s "s") ;;
  mret events.

(** [download] *)
Definition download_zip (artifact token : string) : M W exn string :=
  '(_, body) ← opened (mkRequest (base ++s "/api/backend/api/v1/artifacts/" ++s artifact ++s "/download")
                         "GET" None (if str_truthy token then [("X-Mirag-Token"%string, token)] else []) 120);
  mret body.

(** [_replay] *)
Definition replay (run_id : string) : M W exn Z :=
  '(_, body) ← opened (mkRequest (base ++s "/runs/" ++s run_id ++s "/events") "GET" None [] 60);
  mret (Z.of_nat (length (data_lines body))).

(** What [_inspect] asks of an archive. *)
Definition has_readme (names : list string) : bool := existsb (λ n, ends_with "README.MD" (str_upper n)) names.
Definition has_tests (names : list string) : bool :=
  existsb (λ n, is_in "/tests/" n || starts_with "tests/" n) names.
Definition lost_breaks (contents : dict string) : bool :=
  existsb (λ '(n, body), ends_with ".py" n && (200 <? byte_len body) && negb (has_char nl body)) contents.
Definition relative (n : string) : string :=
  let '(h, found, t) := str_partition "/" n in if found then t else h.
Definition missing (plan names : list string) : list string :=
  sorted_set (filter (λ p, mem_str p (relative <$> names) = false) plan).

Definition read_all (archive : Archive) (names : list string) : result exn (dict string) :=
  foldl (λ r n, d ← r; body ← read_file archive n; mret (dset n body d)) (mret []) names.

(** [_inspect] *)
Definition inspect (data : string) (events : list json) (verdict : string) : M W exn Z :=
  archive ← lift (open_zip data);
  let names := filter (λ n, ends_with "/" n = false) (namelist archive) in
  contents ← lift (read_all archive names);
  let lines := foldr (λ '(_, body) n, count_char nl body + n) 0 contents in
  print_line ("    " ++s comma_str (byte_len data) ++s " bytes · " ++s int_str (Z.of_nat (length names))
              ++s " files · " ++s int_str lines ++s " lines") ;;
  check "there is a README" (has_readme names) EmptyString ;;
  check "there are tests" (has_tests names) EmptyString ;;
  check "no file lost its line breaks" (negb (lost_breaks contents)) EmptyString ;;
  check "the verdict does not reject it" (negb (mem_str verdict REJECTED)) verdict ;;
  plan ← lift (planned events);
  let lacking := missing plan names in
  check "every planned file is in the ZIP" (bool_decide (lacking = [])) (list_str (take 4 lacking)) ;;
  failed ← gets (λ w, failures (getf w));
  mret (if bool_decide (failed = []) then 0 else 1).

(** The loop over the questionnaires, [left] of which may still be answered: the code to
    end with, or the run as it is by then. *)
Fixpoint answer_rounds (left : nat) (run_id : string) (run : json) : M W exn (Z + json) :=
  state ← lift (attr_get "state" run);
  match left with
  | S left' =>
      if jis state "QUESTIONNAIRE" then
        qs ← lift (asked run);
        answers ← lift (all_given qs);
        '(status, run) ← call ("/" ++s run_id ++s "/answers") "POST"
                           (Some (JObj [("answers"%string, JList answers)]));
        if status =? 200 then answer_rounds left' run_id run
        else
          check "the plan came back" false (str_take 140 (dumps run)) ;;
          mret (inl 1)
      else mret (inr run)
  | O => mret (inr run)
  end.

Definition heading (title : string) : M W exn unit := print_line (str1 nl ++s "=== " ++s title ++s " ===").

(** [run], its end: the ZIP there is, if there is one. *)
Definition fetch_zip (run : json) (token : string) (events : list json) (verdict : string) : M W exn Z :=
  if negb (jtruthy (jget "artifactId" run)) then
    check "there is an artifact" false "none" ;; mret 1
  else
    heading "9. the ZIP" ;;
    data ← download_zip (py_str (jget "artifactId" run)) token;
    inspect data events verdict.

(** [run], from a plan on: the approval, the generation and what is left of them. *)
Definition after_plan (run_id token : string) : M W exn Z :=
  heading "4. the gate, with a plan that is not approved" ;;
  '(status, _) ← call ("/" ++s run_id ++s "/generation") "POST" None;
  check "generation before approval is refused" (status =? 409) ("got " ++s int_str status) ;;
  heading "5. approval" ;;
  '(_, run) ← call ("/" ++s run_id ++s "/approval") "POST" (Some (JObj []));
  state ← lift (attr_get "state" run);
  check "approval moves the run" (jis state "PLAN_APPROVED") (py_str state) ;;
  heading "6. generation" ;;
  events ← stream ("/" ++s run_id ++s "/generation");
  foldr (λ event rest, (lines ← lift (step_line event); foldr (λ l k, print_line l ;; k) rest lines))
        (mret tt) events ;;
  heading "7. what the server kept" ;;
  '(_, run) ← call ("/" ++s run_id) "GET" None;
  verdict ← lift (verdict_of events);
  state ← lift (attr_get "state" run);
  check "the run reached ZIP_READY" (jis state "ZIP_READY")
    (py_str state ++s " " ++s py_take 60 (py_str (jget "error" run))) ;;
  print_line ("    verdict: " ++s (if str_truthy verdict then verdict else "(none)")) ;;
  heading "8. a reconnecting tab can replay it" ;;
  replayed ← replay run_id;
  check "the stream was kept" (0 <? replayed) (int_str replayed ++s " events") ;;
  fetch_zip run token events verdict.

(** [run] *)
Definition run_flow (idea token : string) : M W exn Z :=
  heading "1. an idea becomes a run" ;;
  '(status, run) ← call EmptyString "POST" (Some (JObj [("idea"%string, JStr idea)]));
  started ← check "the run started" (status =? 200) (str_take 120 (dumps run));
  if negb started then mret 1
  else
    id ← lift (item "runId" run);
    let run_id := py_str id in
    summary ← lift (item "summary" run);
    shown ← lift (sliced 100 summary);
    print_line ("    " ++s shown) ;;
    heading "2. the gate, before there is a plan" ;;
    '(status, _) ← call ("/" ++s run_id ++s "/generation") "POST" None;
    check "generation without a plan is refused" (status =? 409) ("got " ++s int_str status) ;;
    heading "3. the answers become a plan" ;;
    rounds ← answer_rounds 3 run_id run;
    match rounds with
    | inl code => mret code
    | inr run =>
        plan ← lift (attr_get "plan" run);
        let plan := jor plan (JObj []) in
        purpose ← lift (attr_get "purpose" plan);
        let entities := jget "entities" plan in
        check "a real plan came back" (jtruthy purpose && jtruthy entities) EmptyString ;;
        named ← lift (es ← iterate (jor entities (JList []));
                      map_result (λ e, n ← item "name" e; str_item n) es);
        print_line ("    entidades: " ++s str_join ", " named) ;;
        after_plan run_id token
    end.

(** [main], over the arguments [argparse] read, on a new [Flow]. *)
Definition main (idea token : string) : M W exn Z :=
  modify (setf new_flow) ;;
  ran ← try_except (code ← run_flow idea token; mret (Some code))
    (λ e, if is_url_error e
          then Some (print_ (Err (str1 nl ++s "the gateway at " ++s gateway ++s " did not answer: "
                                  ++s exn_message e)) ;; mret None)
          else None);
  match ran with
  | None => mret 2
  | Some code =>
      failed ← gets (λ w, failures (getf w));
      print_line (str1 nl ++s (if bool_decide (failed = []) then "ALL PASS"
        else int_str (Z.of_nat (length failed)) ++s " FAILED: " ++s list_str failed)) ;;
      mret code
  end.
End flow.

(** [parser]'s defaults: the gateway, the idea and the token. *)
Definition DEFAULTS : string * string * string := ("http://127.0.0.1:8090"%string, IDEA, EmptyString).

(** ** What passing means *)

Lemma elem_of_insert_str x s l : x ∈ insert_str s l ↔ x = s ∨ x ∈ l.
Proof.
  induction l as [|y l IH]; cbn; [set_solver|]. destruct (String.leb s y); set_solver.
Qed.
Lemma elem_of_sorted_set x l : x ∈ sorted_set l ↔ x ∈ l.
Proof.
  unfold sorted_set. rewrite <- (elem_of_remove_dups l). induction (remove_dups l) as [|y l' IH]; cbn; [set_solver|].
  rewrite elem_of_insert_str, IH. set_solver.
Qed.

Lemma existsb_elem {A} (f : A → bool) (l : list A) : existsb f l = true ↔ ∃ x, x ∈ l ∧ f x = true.
Proof. rewrite existsb_exists. split; intros (x & Hx & ?); exists x; by rewrite list_elem_of_In in *. Qed.

(** A request and what it was answered. *)
Definition Exchange : Type := Request * (HTTPError + (Z * string)).

Section passing.
#[local] Set Default Proof Using "Type*".
Context {W T Archive : Type} `{!Field W Flow}.
Context (urlopen : Request → M W exn (HTTPError + (Z * string))).
Context (monotonic : M W exn T) (seconds : T → T → string).
Context (open_zip : string → result exn Archive) (namelist : Archive → list string)
        (read_file : Archive → string → result exn string) (gateway : string).
(** Every exchange there was, in order; the network and the clock leave the flow alone. *)
Context (exchanged : W → list Exchange).
Hypothesis network_answers : ∀ r w,
  getf (urlopen r w).2 = getf (S:=Flow) w
  ∧ exchanged (urlopen r w).2 = exchanged w ++ match (urlopen r w).1 with Ok a => [(r, a)] | Raise _ => [] end.
Hypothesis clock_ticks : ∀ w, getf (monotonic w).2 = getf (S:=Flow) w ∧ exchanged (monotonic w).2 = exchanged w.
Hypothesis flow_apart : ∀ f w, exchanged (setf (S:=Flow) f w) = exchanged w.

Abbreviation call_ := (call urlopen monotonic seconds gateway).
Abbreviation stream_ := (stream urlopen monotonic seconds gateway).
Abbreviation run_ := (run_flow urlopen monotonic seconds open_zip namelist read_file gateway).
Abbreviation main_ := (main urlopen monotonic seconds open_zip namelist read_file gateway).

(** From [w] to [w'] these requests were answered, and these checks failed. *)
Definition moved (w w' : W) (l : list Exchange) (fs : list string) : Prop :=
  exchanged w' = exchanged w ++ l ∧ failures (getf w') = failures (getf w) ++ fs.

Lemma moved_nil w : moved w w [] [].
Proof. split; by rewrite app_nil_r. Qed.
Lemma moved_trans w1 w2 w3 l l' fs fs' :
  moved w1 w2 l fs → moved w2 w3 l' fs' → moved w1 w3 (l ++ l') (fs ++ fs').
Proof. intros [H1 H2] [H3 H4]. split; [rewrite H3, H1|rewrite H4, H2]; by rewrite app_assoc. Qed.

Lemma print_moved s w : moved w (print_ s w).2 [] [].
Proof.
  unfold print_, updf. cbn. split; [by rewrite flow_apart, app_nil_r|]. by rewrite getf_setf, app_nil_r.
Qed.
Lemma print_ok s w u w' : print_ s w = (Ok u, w') → moved w w' [] [].
Proof. pose proof (print_moved s w) as H. intros Hp. by rewrite Hp in H. Qed.
Lemma check_ok name (ok : bool) detail w b w' :
  check name ok detail w = (Ok b, w') → b = ok ∧ moved w w' [] (if ok then [] else [name]).
Proof.
  unfold check. intros (u & w1 & Hp%print_ok & H)%bind_ok_inv.
  destruct ok; cbn in H; injection H as <- <-; (split; [done|]); [done|].
  eapply (moved_trans _ _ _ [] [] [] [name]); [exact Hp|]. split; unfold updf; [by rewrite flow_apart, app_nil_r|].
  by rewrite getf_setf.
Qed.
Lemma clock_ok w t w' : monotonic w = (Ok t, w') → moved w w' [] [].
Proof. pose proof (clock_ticks w) as [H1 H2]. intros H. rewrite H in *. cbn in *. split; rewrite ?H1, ?H2; by rewrite app_nil_r. Qed.
Lemma network_ok r w a w' : urlopen r w = (Ok a, w') → moved w w' [(r, a)] [].
Proof. pose proof (network_answers r w) as [H1 H2]. intros H. rewrite H in *. cbn in *. split; [done|]. by rewrite H1, app_nil_r. Qed.

(** The requests the flow makes of [/runs]. *)
Definition runs_request (path method : string) (body : option json) : Request :=
  mkRequest (base gateway ++s "/runs" ++s path) method (dumps <$> body) JSON_HEADERS 1800.
(** What an answer says, an error's own body included. *)
Definition says (reply : HTTPError + (Z * string)) (status : Z) (payload : json) : Prop :=
  match reply with
  | inl e => status = err_code e
      ∧ loads (if str_truthy (err_body e) then err_body e else "{}"%string) = Some payload
  | inr (s, text) => status = s ∧ loads text = Some payload
  end.
Lemma parse_ok text v : parse text = Ok v → loads text = Some v.
Proof. unfold parse. by destruct (loads text) as [x|]; [intros [= ->]|]. Qed.

Lemma call_answered path method body w status payload w' :
  call_ path method body w = (Ok (status, payload), w') →
  ∃ reply, moved w w' [(runs_request path method body, reply)] [] ∧ says reply status payload.
Proof.
  unfold call. intros (t & w1 & H1%clock_ok & (reply & w2 & H2%network_ok & H)%bind_ok_inv)%bind_ok_inv.
  exists reply. destruct reply as [e|[s text]]; cbn beta iota in H.
  all: apply bind_ok_inv in H as (v & w3 & Hparse & (t' & w4 & H4%clock_ok & (u & w5 & H5%print_ok & H)%bind_ok_inv)%bind_ok_inv).
  all: injection Hparse as Hparse <-; apply parse_ok in Hparse; injection H as <- <- <-; (split; [|by split]).
  all: exact (moved_trans _ _ _ _ _ _ _ H1 (moved_trans _ _ _ _ _ _ _ H2 (moved_trans _ _ _ _ _ _ _ H4 H5))).
Qed.

Lemma opened_ok r w a w' :
  opened urlopen r w = (Ok a, w') → moved w w' [(r, inr a)] [].
Proof.
  unfold opened. intros (reply & w1 & H1%network_ok & H)%bind_ok_inv. destruct reply; [done|]. by injection H as -> ->.
Qed.
Lemma stream_ok path w events w' :
  stream_ path w = (Ok events, w') →
  ∃ status body, moved w w' [(runs_request path "POST" None, inr (status, body))] []
    ∧ map_result (λ l, parse (str_drop 6 l)) (data_lines body) = Ok events.
Proof.
  unfold stream. intros (t & w1 & H1%clock_ok & ([status body] & w2 & H2%opened_ok & H)%bind_ok_inv)%bind_ok_inv.
  apply bind_ok_inv in H as (es & w3 & He & (t' & w4 & H4%clock_ok & (u & w5 & H5%print_ok & H)%bind_ok_inv)%bind_ok_inv).
  injection He as He <-. injection H as <- <-. exists status, body. split; [|done].
  exact (moved_trans _ _ _ _ _ _ _ H1 (moved_trans _ _ _ _ _ _ _ H2 (moved_trans _ _ _ _ _ _ _ H4 H5))).
Qed.
Lemma lift_ok {A} (r : result exn A) (w : W) a w' : lift r w = (Ok a, w') → r = Ok a ∧ w' = w.
Proof. by intros [= -> ->]. Qed.

(** *** The ZIP *)

Definition files (archive : Archive) : list string := filter (λ n, ends_with "/" n = false) (namelist archive).

(** A project worth delivering: what [_inspect] looks for. *)
Record delivers (archive : Archive) (events : list json) (verdict : string) : Prop := mkDelivers {
  with_readme : ∃ n, n ∈ files archive ∧ ends_with "README.MD" (str_upper n) = true;
  with_tests : ∃ n, n ∈ files archive ∧ (is_in "/tests/" n = true ∨ starts_with "tests/" n = true);
  with_breaks : ∃ contents, read_all read_file archive (files archive) = Ok contents
    ∧ ∀ n body, (n, body) ∈ contents → ends_with ".py" n = true → 200 < byte_len body → has_char nl body = true;
  with_verdict : verdict ∉ REJECTED;
  with_plan : ∃ plan, planned events = Ok plan ∧ ∀ p, p ∈ plan → p ∈ relative <$> files archive
}.

Lemma inspect_ok data events verdict w code w' :
  inspect open_zip namelist read_file data events verdict w = (Ok code, w') →
  ∃ fs, moved w w' [] fs ∧ code = (if bool_decide (failures (getf w') = []) then 0 else 1)
    ∧ (fs = [] → ∃ archive, open_zip data = Ok archive ∧ delivers archive events verdict).
Proof.
  unfold inspect. intros (archive & w0 & [Hzip ->]%lift_ok & H)%bind_ok_inv.
  apply bind_ok_inv in H as (contents & w0 & [Hread ->]%lift_ok & H).
  apply bind_ok_inv in H as (u & w1 & H1%print_ok & H).
  apply bind_ok_inv in H as (b2 & w2 & [_ H2]%check_ok & H).
  apply bind_ok_inv in H as (b3 & w3 & [_ H3]%check_ok & H).
  apply bind_ok_inv in H as (b4 & w4 & [_ H4]%check_ok & H).
  apply bind_ok_inv in H as (b5 & w5 & [_ H5]%check_ok & H).
  apply bind_ok_inv in H as (plan & w0 & [Hplan ->]%lift_ok & H).
  apply bind_ok_inv in H as (b6 & w6 & [_ H6]%check_ok & H). injection H as <- <-.
  eexists. split; [|split; [reflexivity|]].
  - exact (moved_trans _ _ _ _ _ _ _ H1 (moved_trans _ _ _ _ _ _ _ H2 (moved_trans _ _ _ _ _ _ _ H3
      (moved_trans _ _ _ _ _ _ _ H4 (moved_trans _ _ _ _ _ _ _ H5 H6))))).
  - clear -Hzip Hread Hplan. cbn [app]. intros Hfs.
    destruct (has_readme _) eqn:Hr; [|done]. destruct (has_tests _) eqn:Ht; [|done].
    destruct (lost_breaks _) eqn:Hb; [done|]. destruct (mem_str verdict REJECTED) eqn:Hv; [done|].
    cbn in Hfs. case_bool_decide as Hm; [|done]. exists archive. split; [done|]. split.
    + by apply existsb_elem.
    + apply existsb_elem in Ht as (n & ? & ?%orb_true_iff). by exists n.
    + exists contents. split; [done|]. intros n body Hin Hpy Hlen. apply not_false_iff_true. intros Hnl.
      assert (lost_breaks contents = true) as Htrue; [|congruence]. apply existsb_elem. exists (n, body).
      split; [done|]. by rewrite Hpy, (proj2 (Z.ltb_lt _ _) Hlen), Hnl.
    + by apply mem_str_false.
    + exists plan. split; [done|]. intros p Hp. destruct (mem_str p (relative <$> files archive)) eqn:He.
      * by apply mem_str_spec.
      * exfalso. apply (not_elem_of_nil p). rewrite <- Hm. unfold missing. rewrite elem_of_sorted_set, list_elem_of_filter.
        done.
Qed.

(** *** The exchanges *)

Definition path_of (run_id tail : string) : string := "/" ++s run_id ++s tail.
(** A questionnaire answered, and the gateway's reply. *)
Definition round_exchange (run_id : string) (x : Exchange) : Prop :=
  ∃ answers payload, x.1 = runs_request (path_of run_id "/answers") "POST" (Some (JObj [("answers"%string, JList answers)]))
    ∧ says x.2 200 payload.

(** The run as the last of these replies says it is, or as it was. *)
Definition run_after (run : json) (l : list Exchange) (run' : json) : Prop :=
  match last l with None => run' = run | Some x => says x.2 200 run' end.

Lemma answer_rounds_ok left run_id run w r w' :
  answer_rounds urlopen monotonic seconds gateway left run_id run w = (Ok r, w') →
  ∃ l fs, moved w w' l fs
    ∧ match r with
      | inl code => code = 1 ∧ fs ≠ []
      | inr run' => fs = [] ∧ (length l <= left)%nat ∧ Forall (round_exchange run_id) l ∧ run_after run l run'
      end.
Proof.
  revert run w. induction left as [|left IH]; intros run w; cbn [answer_rounds].
  - intros (state & w1 & [_ ->]%lift_ok & [= <- <-])%bind_ok_inv. exists [], []. split; [apply moved_nil|].
    by split_and!.
  - intros (state & w1 & [_ ->]%lift_ok & H)%bind_ok_inv. destruct (jis state _).
    2:{ injection H as <- <-. exists [], []. split; [apply moved_nil|]. split_and!; [done|cbn; lia|done..]. }
    apply bind_ok_inv in H as (qs & w1 & [_ ->]%lift_ok & H).
    apply bind_ok_inv in H as (answers & w1 & [_ ->]%lift_ok & H).
    apply bind_ok_inv in H as ([status run'] & w1 & (reply & Hmv & Hsays)%call_answered & H).
    destruct (Z.eqb_spec status 200) as [-> |].
    + apply IH in H as (l & fs & Hmv' & Hr). eexists _, _. split; [exact (moved_trans _ _ _ _ _ _ _ Hmv Hmv')|]. destruct r as [code|run2]; [done|]. destruct Hr as (-> & Hlen & Hall & Hrun).
      split_and!; [done|cbn; lia| |]; [constructor; [|done]; by exists answers, run'|].
      unfold run_after in *. cbn [app]. rewrite last_cons. destruct (last l); [done|by subst].
    + apply bind_ok_inv in H as (b & w2 & [_ Hc]%check_ok & [= <- <-]).
      eexists _, _. split; [exact (moved_trans _ _ _ _ _ _ _ Hmv Hc)|done].
Qed.

Lemma print_lines_ok (lines : list string) (k : M W exn unit) w u w' :
  (∀ w1 u w2, k w1 = (Ok u, w2) → moved w1 w2 [] []) →
  foldr (λ l k, print_line l ;; k) k lines w = (Ok u, w') → moved w w' [] [].
Proof.
  intros Hk. revert w. induction lines as [|l lines IH]; intros w; [apply Hk|].
  intros (v & w1 & H1%print_ok & H%IH)%bind_ok_inv. exact (moved_trans _ _ _ _ _ _ _ H1 H).
Qed.
Lemma show_steps_ok events w u w' :
  foldr (λ event rest, (lines ← lift (step_line event); foldr (λ l k, print_line l ;; k) rest lines))
        (mret tt) events w = (Ok u, w') → moved w w' [] [].
Proof.
  revert w u w'. induction events as [|event events IH]; intros w u w'; cbn [foldr].
  - intros [= _ <-]. apply moved_nil.
  - intros (lines & w1 & [_ ->]%lift_ok & H)%bind_ok_inv. by eapply print_lines_ok.
Qed.

(** The second half of the flow, when nothing of it failed. *)
Definition approved_exchanges (run_id token : string) (l : list Exchange) : Prop :=
  ∃ refused refusal approved plan_run streamed kept zip_run replayed zip status data events verdict archive,
    l = [(runs_request (path_of run_id "/generation") "POST" None, refused);
         (runs_request (path_of run_id "/approval") "POST" (Some (JObj [])), approved);
         (runs_request (path_of run_id "/generation") "POST" None, inr streamed);
         (runs_request ("/" ++s run_id) "GET" None, kept);
         (mkRequest (base gateway ++s "/runs/" ++s run_id ++s "/events") "GET" None [] 60, inr replayed);
         (zip, inr (status, data))]
    ∧ says refused 409 refusal
    ∧ (∃ s, says approved s plan_run) ∧ jget "state" plan_run = JStr "PLAN_APPROVED"
    ∧ map_result (λ l, parse (str_drop 6 l)) (data_lines streamed.2) = Ok events
    ∧ (∃ s, says kept s zip_run) ∧ jget "state" zip_run = JStr "ZIP_READY"
    ∧ data_lines replayed.2 ≠ []
    ∧ req_url zip = base gateway ++s "/api/backend/api/v1/artifacts/" ++s py_str (jget "artifactId" zip_run)
                    ++s "/download"
    ∧ verdict_of events = Ok verdict ∧ open_zip data = Ok archive ∧ delivers archive events verdict.

Lemma attr_get_ok k v x : attr_get k v = Ok x → x = jget k v.
Proof. unfold attr_get. destruct (is_dict v); by intros [= ->]. Qed.
Lemma jis_spec v s : jis v s = true → v = JStr s.
Proof. destruct v; try done. cbn. by intros ->%String.eqb_eq. Qed.

(** What a code says of the checks: nought when none failed, one when some did. *)
Definition honest (code : Z) (w : W) : Prop :=
  code = (if bool_decide (failures (getf w) = []) then 0 else 1).
Lemma honest_failed w w' l fs : moved w w' l fs → fs ≠ [] → honest 1 w'.
Proof.
  intros [_ Hf] Hne. unfold honest. rewrite Hf, bool_decide_false; [done|]. by intros [_ ?]%app_nil.
Qed.
Lemma honest_last name detail w b w' : check name false detail w = (Ok b, w') → honest 1 w'.
Proof. intros [_ H]%check_ok. by eapply honest_failed. Qed.

Lemma fetch_zip_ok run token events verdict w code w' :
  fetch_zip urlopen open_zip namelist read_file gateway run token events verdict w = (Ok code, w') →
  honest code w' ∧ ∃ l fs, moved w w' l fs
    ∧ (fs = [] → ∃ zip status data archive, l = [(zip, inr (status, data))]
         ∧ req_url zip = base gateway ++s "/api/backend/api/v1/artifacts/" ++s py_str (jget "artifactId" run)
                         ++s "/download"
         ∧ open_zip data = Ok archive ∧ delivers archive events verdict).
Proof.
  unfold fetch_zip, heading, print_line. destruct (jtruthy _); cbn [negb]; intros H.
  - apply bind_ok_inv in H as (? & w1 & H1%print_ok & H). apply bind_ok_inv in H as (data & w2 & H2 & H).
    unfold download_zip in H2. apply bind_ok_inv in H2 as ([zs zb] & w2' & H2%opened_ok & Hzip). injection Hzip as -> ->.
    apply inspect_ok in H as (fs & H3 & Hcode & Hdel). split; [exact Hcode|]. eexists _, _.
    split; [exact (moved_trans _ _ _ _ _ _ _ H1 (moved_trans _ _ _ _ _ _ _ H2 H3))|]. cbn [app]. intros Hfs.
    destruct (Hdel Hfs) as (archive & ? & ?). eexists _, zs, data, archive. split; [reflexivity|]. by split_and!.
  - apply bind_ok_inv in H as (b & w1 & Hc & [= <- <-]). split; [by eapply honest_last|].
    apply check_ok in Hc as [_ Hc]. eexists _, _. split; [exact Hc|done].
Qed.

Lemma after_plan_ok run_id token w code w' :
  after_plan urlopen monotonic seconds open_zip namelist read_file gateway run_id token w = (Ok code, w') →
  honest code w' ∧ ∃ l fs, moved w w' l fs ∧ (fs = [] → approved_exchanges run_id token l).
Proof.
  unfold after_plan, heading, print_line. intros (? & w1 & H1%print_ok & H)%bind_ok_inv.
  apply bind_ok_inv in H as ([status refusal] & w2 & (refused & H2 & Hrefused)%call_answered & H).
  apply bind_ok_inv in H as (b3 & w3 & [_ H3]%check_ok & H).
  apply bind_ok_inv in H as (? & w4 & H4%print_ok & H).
  apply bind_ok_inv in H as ([status' plan_run] & w5 & (approved & H5 & Happroved)%call_answered & H).
  apply bind_ok_inv in H as (state & w0 & [Hstate%attr_get_ok ->]%lift_ok & H).
  apply bind_ok_inv in H as (b6 & w6 & [_ H6]%check_ok & H).
  apply bind_ok_inv in H as (? & w7 & H7%print_ok & H).
  apply bind_ok_inv in H as (events & w8 & (ss & sb & H8 & Hevents)%stream_ok & H).
  apply bind_ok_inv in H as (? & w9 & H9%show_steps_ok & H).
  apply bind_ok_inv in H as (? & w10 & H10%print_ok & H).
  apply bind_ok_inv in H as ([status2 zip_run] & w11 & (kept & H11 & Hkept)%call_answered & H).
  apply bind_ok_inv in H as (verdict & w0 & [Hverdict ->]%lift_ok & H).
  apply bind_ok_inv in H as (state2 & w0 & [Hstate2%attr_get_ok ->]%lift_ok & H).
  apply bind_ok_inv in H as (b12 & w12 & [_ H12]%check_ok & H).
  apply bind_ok_inv in H as (? & w13 & H13%print_ok & H).
  apply bind_ok_inv in H as (? & w14 & H14%print_ok & H).
  apply bind_ok_inv in H as (replayed & w15 & H15 & H).
  unfold replay in H15. apply bind_ok_inv in H15 as ([rs rb] & w15' & H15%opened_ok & Hrep). injection Hrep as Hrep ->.
  apply bind_ok_inv in H as (b16 & w16 & [_ H16]%check_ok & H).
  pose proof (moved_trans _ _ _ _ _ _ _ H1 (moved_trans _ _ _ _ _ _ _ H2 (moved_trans _ _ _ _ _ _ _ H3
    (moved_trans _ _ _ _ _ _ _ H4 (moved_trans _ _ _ _ _ _ _ H5 (moved_trans _ _ _ _ _ _ _ H6
    (moved_trans _ _ _ _ _ _ _ H7 (moved_trans _ _ _ _ _ _ _ H8 (moved_trans _ _ _ _ _ _ _ H9
    (moved_trans _ _ _ _ _ _ _ H10 (moved_trans _ _ _ _ _ _ _ H11 (moved_trans _ _ _ _ _ _ _ H12
    (moved_trans _ _ _ _ _ _ _ H13 (moved_trans _ _ _ _ _ _ _ H14 (moved_trans _ _ _ _ _ _ _ H15 H16))))))))))))))) as Hmv.
  apply fetch_zip_ok in H as (Hcode & lz & fz & Hz & Hdel). split; [exact Hcode|].
  eexists _, _. split; [exact (moved_trans _ _ _ _ _ _ _ Hmv Hz)|]. clear -Hrefused Happroved Hkept Hstate Hstate2
    Hevents Hverdict Hrep Hdel. cbn [app].
  destruct (Z.eqb_spec status 409) as [-> |], (jis state "PLAN_APPROVED") eqn:Hs1, (jis state2 "ZIP_READY") eqn:Hs2,
    (Z.ltb_spec 0 replayed); cbn [app]; try done. intros ->.
  specialize (Hdel eq_refl) as (zip & zs & data & archive & -> & Hurl & Hopen & Hdel).
  apply jis_spec in Hs1, Hs2. subst state state2.
  exists refused, refusal, approved, plan_run, (ss, sb), kept, zip_run, (rs, rb), zip, zs, data, events, verdict, archive.
  split; [reflexivity|]. split_and!; try done; [by eexists|by eexists|].
  cbn [snd]. intros Hnil. rewrite Hnil in Hrep. cbn in Hrep. lia.
Qed.

(** The first half: the run that was started, and the plan it came to. *)
Definition planned_exchanges (idea run_id : string) (l : list Exchange) : Prop :=
  ∃ started run probe refusal rounds run',
    l = [(runs_request EmptyString "POST" (Some (JObj [("idea"%string, JStr idea)])), started);
         (runs_request (path_of run_id "/generation") "POST" None, probe)] ++ rounds
    ∧ says started 200 run ∧ run_id = py_str (jget "runId" run)
    ∧ says probe 409 refusal
    ∧ (length rounds <= 3)%nat ∧ Forall (round_exchange run_id) rounds ∧ run_after run rounds run'
    ∧ jtruthy (jget "purpose" (jget "plan" run')) = true
    ∧ jtruthy (jget "entities" (jget "plan" run')) = true.

Lemma item_ok k v x : item k v = Ok x → x = jget k v.
Proof. unfold item, jget. destruct v; try done. destruct (assoc_get k fields); [by intros [= ->]|done]. Qed.
Lemma jor_plan k plan : jtruthy (jget k (jor plan (JObj []))) = true → jtruthy (jget k plan) = true.
Proof. unfold jor. destruct (jtruthy plan); [done|]. done. Qed.

Lemma run_flow_ok idea token w code w' :
  run_ idea token w = (Ok code, w') →
  honest code w' ∧ ∃ l fs, moved w w' l fs
    ∧ (fs = [] → ∃ run_id l1 l2, l = l1 ++ l2 ∧ planned_exchanges idea run_id l1 ∧ approved_exchanges run_id token l2).
Proof.
  unfold run_flow, heading, print_line. intros (? & w1 & H1%print_ok & H)%bind_ok_inv.
  apply bind_ok_inv in H as ([status run] & w2 & (started & H2 & Hstarted)%call_answered & H).
  apply bind_ok_inv in H as (b3 & w3 & H3 & H). destruct b3; cbn [negb] in H.
  2:{ injection H as <- <-. apply check_ok in H3 as [Hs H3]. rewrite <- Hs in H3.
      split; [by eapply honest_failed|]. eexists _, _.
      split; [exact (moved_trans _ _ _ _ _ _ _ H1 (moved_trans _ _ _ _ _ _ _ H2 H3))|done]. }
  apply check_ok in H3 as [Hs%eq_sym H3]. apply Z.eqb_eq in Hs as ->. cbn [Z.eqb] in H3.
  apply bind_ok_inv in H as (id & w0 & [Hid%item_ok ->]%lift_ok & H).
  apply bind_ok_inv in H as (summary & w0 & [_ ->]%lift_ok & H).
  apply bind_ok_inv in H as (shown & w0 & [_ ->]%lift_ok & H).
  apply bind_ok_inv in H as (? & w4 & H4%print_ok & H).
  apply bind_ok_inv in H as (? & w5 & H5%print_ok & H).
  apply bind_ok_inv in H as ([status refusal] & w6 & (probe & H6 & Hprobe)%call_answered & H).
  apply bind_ok_inv in H as (b7 & w7 & [_ H7]%check_ok & H).
  apply bind_ok_inv in H as (? & w8 & H8%print_ok & H).
  apply bind_ok_inv in H as (r & w9 & (rounds & fr & H9 & Hr)%answer_rounds_ok & H).
  pose proof (moved_trans _ _ _ _ _ _ _ H1 (moved_trans _ _ _ _ _ _ _ H2 (moved_trans _ _ _ _ _ _ _ H3
    (moved_trans _ _ _ _ _ _ _ H4 (moved_trans _ _ _ _ _ _ _ H5 (moved_trans _ _ _ _ _ _ _ H6
    (moved_trans _ _ _ _ _ _ _ H7 (moved_trans _ _ _ _ _ _ _ H8 H9)))))))) as Hmv.
  destruct r as [code'|run'].
  { injection H as <- <-. destruct Hr as [-> Hne]. split; [by eapply (honest_failed _ _ _ _ H9)|].
    eexists _, _. split; [exact Hmv|]. cbn [app]. by intros [_ ?]%app_nil. }
  destruct Hr as (-> & Hlen & Hall & Hafter).
  apply bind_ok_inv in H as (plan & w0 & [Hplan%attr_get_ok ->]%lift_ok & H).
  apply bind_ok_inv in H as (purpose & w0 & [Hpurpose%attr_get_ok ->]%lift_ok & H).
  apply bind_ok_inv in H as (b10 & w10 & [_ H10]%check_ok & H).
  apply bind_ok_inv in H as (named & w0 & [_ ->]%lift_ok & H).
  apply bind_ok_inv in H as (? & w11 & H11%print_ok & H).
  apply after_plan_ok in H as (Hcode & l2 & f2 & H12 & Hrest). split; [exact Hcode|]. eexists _, _.
  split; [exact (moved_trans _ _ _ _ _ _ _ Hmv (moved_trans _ _ _ _ _ _ _ H10 (moved_trans _ _ _ _ _ _ _ H11 H12)))|].
  clear -Hstarted Hid Hprobe Hlen Hall Hafter Hplan Hpurpose Hrest. cbn [app].
  destruct (Z.eqb_spec status 409) as [-> |], (jtruthy purpose) eqn:Hp, (jtruthy (jget "entities" _)) eqn:He;
    cbn [app andb]; try done. intros ->.
  eexists (py_str id), (_ :: _ :: rounds), l2. split; [reflexivity|]. split; [|by apply Hrest].
  exists started, run, probe, refusal, rounds, run'. subst. split_and!; try done; by apply jor_plan.
Qed.

(** C27. What passing means.  When the script says all is well and ends with nought, this is
    what happened between it and the gateway, and nothing else: the idea became a run; a
    generation was asked for at once and again under the unapproved plan, and refused with 409
    both times; at most three questionnaires were answered, and came to a plan with a purpose
    and entities; the approval approved it; the generation streamed, the run is ZIP_READY, its
    stream could be replayed; and the ZIP that was downloaded holds a README, tests, every
    file the specification planned and no long Python file on one line, under a verdict that
    does not reject it. *)
Theorem smoke_passes_only_if idea token w w' :
  main_ idea token w = (Ok 0, w') →
  failures (getf w') = []
  ∧ (∃ before, said (getf w') = before ++ [Out (str1 nl ++s "ALL PASS")])
  ∧ ∃ run_id l1 l2, exchanged w' = exchanged w ++ l1 ++ l2
      ∧ planned_exchanges idea run_id l1 ∧ approved_exchanges run_id token l2.
Proof.
  unfold main. rewrite run_bind, run_modify. intros (ran & w1 & Htry & H)%bind_ok_inv.
  assert (∃ code, ran = Some code) as [code ->] by (destruct ran as [c|]; [by exists c|done]).
  rewrite run_bind, run_gets in H. cbn beta iota in H.
  apply bind_ok_inv in H as (u & w2 & Hp & [= -> ->]). pose proof (print_ok _ _ _ _ Hp) as [He Hf].
  unfold try_except in Htry.
  match type of Htry with context [match ?x with _ => _ end] => destruct x as [[o|e] w3] eqn:Hm end;
    [injection Htry as -> ->|by destruct (is_url_error e)].
  apply bind_ok_inv in Hm as (code & w4 & Hrun & [= -> ->]).
  apply run_flow_ok in Hrun as (Hcode & l & fs & [Hl Hfs] & Hpass). unfold honest in Hcode.
  case_bool_decide as Hnone; [|done]. rewrite Hnone in Hfs. apply eq_sym, app_nil in Hfs as [_ ->].
  destruct (Hpass eq_refl) as (run_id & l1 & l2 & -> & ? & ?). split; [by rewrite Hf, app_nil_r|]. split.
  - injection Hp as _ <-. unfold updf. rewrite getf_setf. cbn [said]. by eexists.
  - exists run_id, l1, l2. by rewrite He, app_nil_r, Hl, flow_apart.
Qed.
End passing.

(** ** A gateway that passes *)

(** The flow, and every exchange. *)
Definition SmokeWorld : Type := Flow * list Exchange.
#[export] Program Instance SmokeWorld_flow : Field SmokeWorld Flow := {| getf := fst; setf f w := (f, w.2) |}.
Solve All Obligations with by intros [].

Definition text (s : string) : json := JStr s.
Definition sample_run (state : string) (more : list (string * json)) : json :=
  JObj (("runId", text "r1") :: ("state", text state) :: ("summary", text "an idea") :: more)%string.
Definition sample_plan : json := JObj [("purpose", text "rooms"); ("entities", JList [JObj [("name", text "Room")]])]%string.
Definition sample_events : list json :=
  [JObj [("type", text "step"); ("name", text "specification"); ("status", text "ok");
         ("detail", JObj [("plan", JList [text "README.md"; text "tests/test_rooms.py"])])];
   JObj [("type", text "done"); ("project", JObj [("status", text "simulated")])]]%string.
Definition event_text (events : list json) : string :=
  str_join EmptyString ((λ e, "data: " ++s dumps e ++s str1 nl) <$> events).

(** Which request of the flow it is decides what it is answered: a generation is refused
    until the second one, counted by the requests there were. *)
Definition sample_reply (asked : nat) (r : Request) : HTTPError + (Z * string) :=
  let refused := inl (mkHTTPError 409 "Conflict" EmptyString) in
  let ok v := inr (200, dumps v) in
  match asked with
  | 0 => ok (sample_run "QUESTIONNAIRE"
           [("questionnaire"%string, JObj [("questions"%string, JList [JObj [("id"%string, text "q1")]])])])
  | 1 | 3 => refused
  | 2 => ok (sample_run "PLAN_REVIEW" [("plan"%string, sample_plan)])
  | 4 => ok (sample_run "PLAN_APPROVED" [])
  | 5 | 7 => inr (200%Z, event_text sample_events)
  | 6 => ok (sample_run "ZIP_READY" [("artifactId"%string, text "a1")])
  | _ => inr (200%Z, "PK"%string)
  end%nat.
Definition sample_network : Request → M SmokeWorld exn (HTTPError + (Z * string)) := λ r w,
  let a := sample_reply (length w.2) r in (Ok a, (w.1, w.2 ++ [(r, a)])).
Definition sample_files : list (string * string) :=
  [("rooms/README.md", "Rooms"); ("rooms/tests/test_rooms.py", "pass"); ("rooms/tests/", EmptyString)]%string.
Definition sample_read (a : list (string * string)) (n : string) : result exn string :=
  match assoc_get n a with Some b => Ok b | None => Raise (ForeignError "KeyError" n) end.
Abbreviation sample_main := (main sample_network (mret tt) (λ _ _, "0"%string) (λ _, Ok sample_files) (map fst)
  sample_read "http://127.0.0.1:8090" "rooms" "").
Lemma sample_passes : (sample_main (new_flow, [])).1 = Ok 0.
Proof. vm_compute. reflexivity. Qed.

Lemma smoke_passes_only_if_witness :
  failures (getf (sample_main (new_flow, [])).2) = [] ∧ length (snd (sample_main (new_flow, [])).2) = 9%nat.
Proof.
  split; [|vm_compute; reflexivity].
  exact (proj1 (smoke_passes_only_if sample_network (mret tt) (λ _ _, "0"%string) (λ _, Ok sample_files) (map fst)
    sample_read "http://127.0.0.1:8090" snd ltac:(intros r w; by split) ltac:(intros w; by split)
    ltac:(intros f w; done) "rooms" "" (new_flow, []) (sample_main (new_flow, [])).2
    (outcome_ok sample_main (new_flow, []) 0 sample_passes))).
Defined.
