(* ===== verification/Conversation.v ===== *)
(** * The smoke test and the gateway *)
(** [scripts/smoke_flow.py] against the run routes of [api/routes/runs.py]: the client of
    [Smoke] and a gateway in one world, each with its own state, what they exchange kept
    between them; the network loses requests and answers as it likes, and does not make them
    up.  What the web framework does (finding the route of a request, writing a
    document as a body, refusing a body that is not of its model) is a parameter, with
    what the two sides rely on. *)
From S2P Require Export Streams Bodies Smoke.
From S2P Require Import RunLog PyJsonFacts.
From Stdlib Require Import Ascii.
From stdpp Require Import options.
Local Open Scope Z_scope.

(** ** The gateway as a server *)

(** The routes of the runs, and everything else there is. *)
Inductive Endpoint : Type :=
  | EStart
  | ERead (run_id : string)
  | EAnswers (run_id : string)
  | ERejection (run_id : string)
  | EApproval (run_id : string)
  | EGeneration (run_id : string)
  | EEvents (run_id : string)
  | EElsewhere.

(** The bodies, of the types [StartBody], [AnswersBody], [RejectBody] and [approve]
    declare; [None] is refused before the handler. *)
Definition read_object (data : option string) : option (dict json) :=
  text ← data; j ← loads text; match j with JObj fields => Some fields | _ => None end.
Definition checked (k : string) (check : string → list setting_error) (data : option string) : option string :=
  fields ← read_object data; s ← str_field k fields;
  if bool_decide (check s = []) then Some s else None.
Definition read_answer (j : json) : option (string * string) :=
  match j with
  | JObj fields =>
      match assoc_get "questionId" fields, assoc_get "value" fields with
      | Some (JStr q), Some (JStr v) => Some (q, v)
      | _, _ => None
      end
  | _ => None
  end.
Definition read_answers (data : option string) : option (list (string * string)) :=
  fields ← read_object data;
  match assoc_get "answers" fields with
  | None => Some []
  | Some (JList l) => mapM read_answer l
  | Some _ => None
  end.
Definition optional_object (data : option string) : option unit :=
  match data with
  | None => Some tt
  | Some text =>
      match loads text with Some JNull | Some (JObj _) => Some tt | _ => None end
  end.

Section server.
Context {G : Type} `{!Field G Begun} `{!RunStore G}.
(** The orchestrator's collaborators, as in [Orchestration]. *)
Context (proxy : ProxyService G) (settings : OrchestrationSettings) (log : RunLogPort G)
        (meter : option (RunMeter G)) (monotonic : M G exn Z) (token_hex : M G exn string)
        (close : nat → M G exn unit) (json_error : string → string).
(** The dependency that decides who pays: [payer_of], of which a run is told the payer. *)
Context (payer : M G exn string).
(** The response being sent, and all of it there is; what a reader of a run's log is sent. *)
Context (begin_response : StreamHead → M G exn unit) (send : string → M G exn unit)
        (sent : G → list Sent) (replayed : string → M G exn string).
(** The framework: the route of a request, a document as a body, the refusal of a body, the
    name of a status, and the rest of the application. *)
Context (endpoint : string → string → Endpoint) (render : json → string) (invalid : json)
        (reason : Z → string) (request_id : option string)
        (elsewhere : Request → M G exn (HTTPError + (Z * string))).

(** What [urlopen] makes of a response: an [HTTPError] unless its status says success. *)
Definition reply_of (status : Z) (body : string) : HTTPError + (Z * string) :=
  if (200 <=? status) && (status <? 300) then inr (status, body)
  else inl (mkHTTPError status (reason status) body).
(** A connection closed before an answer, or in the middle of one. *)
Definition dropped : exn := ForeignError "RemoteDisconnected" "Remote end closed connection without response".
Definition cut_off : exn := ForeignError "IncompleteRead" EmptyString.

Definition error_reply (a : option error_answer) : result exn (HTTPError + (Z * string)) :=
  match a with
  | Some a => Ok (reply_of (answer_status a) (render (answer_body a)))
  | None => Raise dropped
  end.
(** A handler that answers a document. *)
Definition answered (handler : M G exn json) : M G exn (HTTPError + (Z * string)) := λ g,
  let '(a, g') := respond request_id 200 handler g in (error_reply a, g').
(** A handler behind a body of its model. *)
Definition with_body {A} (body : option A) (handler : A → M G exn (HTTPError + (Z * string)))
    : M G exn (HTTPError + (Z * string)) :=
  match body with
  | Some a => handler a
  | None => mret (reply_of 422 (render invalid))
  end.
(** The body of the response that was sent. *)
Definition sent_text (g : G) : string :=
  str_concat (omap (λ s, match s with SChunk c => Some c | SHead _ => None end) (sent g)).
(** A generation: an error before its response begins, its stream to the end, or a piece of it. *)
Definition streamed (route : M G exn unit) : M G exn (HTTPError + (Z * string)) := λ g,
  match route g, respond_stream request_id route g with
  | (Ok _, g'), _ => (Ok (inr (200, sent_text g')), g')
  | (Raise _, g'), (Some a, _) => (error_reply (Some a), g')
  | (Raise _, g'), (None, _) => (Raise (if begun (getf g') then cut_off else dropped), g')
  end.

Definition serve (r : Request) : M G exn (HTTPError + (Z * string)) :=
  match endpoint (req_method r) (req_url r) with
  | EStart =>
      with_body (checked "idea" start_body (req_data r)) (λ idea, answered (
        who ← payer;
        run ← start proxy settings meter monotonic token_hex json_error idea who;
        mret (run_as_json run)))
  | ERead id => answered (read_route id)
  | EAnswers id =>
      with_body (read_answers (req_data r)) (λ given,
        answered (answer_route proxy settings monotonic json_error id given))
  | ERejection id =>
      with_body (checked "feedback" reject_body (req_data r)) (λ feedback,
        answered (reject_route proxy settings monotonic json_error id feedback))
  | EApproval id => with_body (optional_object (req_data r)) (λ _, answered (approve_route monotonic id))
  | EGeneration id =>
      streamed (generate_route begin_response send proxy settings log meter monotonic close id)
  | EEvents id => λ g,
      match respond request_id 200 (events_route id ;; mret JNull) g with
      | (Some a, g') =>
          if answer_status a =? 200 then (body ← replayed id; mret (inr (200, body))) g'
          else (error_reply (Some a), g')
      | (None, g') => (Raise dropped, g')
      end
  | EElsewhere => elsewhere r
  end.

End server.

(** *** The two sides *)

Record Together (G : Type) : Type := mkTogether { flow : Flow; exchanges : list Exchange; gateway_side : G }.
Arguments mkTogether {_} _ _ _.
Arguments flow {_} _.
Arguments exchanges {_} _.
Arguments gateway_side {_} _.
#[export] Program Instance Together_flow {G} : Field (Together G) Flow :=
  {| getf := flow; setf f w := mkTogether f (exchanges w) (gateway_side w) |}.
Solve All Obligations with by intros ? [].

(** What becomes of a request between the script and the gateway: it is delivered and its
    answer comes back; it never arrives; or the gateway serves it and its answer never
    arrives.  Either loss is an exception of [urlopen]. *)
Inductive Passage : Type := Delivered | RequestLost (e : exn) | AnswerLost (e : exn).

(** A request of the script's, as the gateway answers it over the network, which may treat
    it as it likes after what was exchanged before. *)
Definition talk {G} (network : Request → list Exchange → Passage)
    (answers : Request → M G exn (HTTPError + (Z * string))) (r : Request)
    : M (Together G) exn (HTTPError + (Z * string)) := λ w,
  let '(o, g) := answers r (gateway_side w) in
  match network r (exchanges w) with
  | Delivered =>
      (o, mkTogether (flow w) (exchanges w ++ match o with Ok a => [(r, a)] | Raise _ => [] end) g)
  | RequestLost e => (Raise e, w)
  | AnswerLost e => (Raise e, mkTogether (flow w) (exchanges w) g)
  end.

(** ** What a request leaves of the runs *)

Section fading.
Context {G : Type} `{!RunStore G} {laws : RunStoreLaws G}.

(** Every run is as it was, or forgotten. *)
Definition fades (g g' : G) : Prop :=
  (store_ok g → store_ok g') ∧ ∀ k, held g' k = held g k ∨ held g' k = None.
(** Nothing but that, from any state. *)
Definition only_fades {A} (m : M G exn A) : Prop := ∀ g, fades g (m g).2.

Lemma fades_refl g : fades g g.
Proof. split; auto. Qed.
Lemma fades_trans g1 g2 g3 : fades g1 g2 → fades g2 g3 → fades g1 g3.
Proof.
  intros [H1 H2] [H3 H4]. split; [auto|]. intros k.
  destruct (H4 k) as [->|]; [apply H2|by right].
Qed.

(** The run that is stored under an id, if it is not forgotten. *)
Definition mine (r : Run) (g : G) : Prop :=
  store_ok g ∧ (held g (run_id r) = Some r ∨ held g (run_id r) = None).
Lemma mine_fades r g g' : fades g g' → mine r g → mine r g'.
Proof.
  intros [H1 H2] [Hok Hh]. split; [auto|]. destruct (H2 (run_id r)) as [->|]; [done|by right].
Qed.

Lemma only_fades_ret {A} (a : A) : only_fades (mret a).
Proof. intros g. apply fades_refl. Qed.
Lemma only_fades_raise {A} e : only_fades (raise e : M G exn A).
Proof. intros g. apply fades_refl. Qed.
Lemma only_fades_lift {A} (r : result exn A) : only_fades (lift r : M G exn A).
Proof. intros g. apply fades_refl. Qed.
Lemma only_fades_bind {A B} (m : M G exn A) (f : A → M G exn B) :
  only_fades m → (∀ a, only_fades (f a)) → only_fades (m ≫= f).
Proof.
  intros Hm Hf g. rewrite run_bind. specialize (Hm g). destruct (m g) as [[a|e] g1]; [|done].
  eapply fades_trans; [exact Hm|apply Hf].
Qed.
Lemma only_fades_ok {A} (m : M G exn A) g o g' : only_fades m → m g = (o, g') → fades g g'.
Proof. intros H Hm. specialize (H g). by rewrite Hm in H. Qed.

(** What the store answers for a run of ours. *)
Lemma get_mine r g o g' :
  mine r g → runs_get (run_id r) g = (o, g') →
  mine r g' ∧ (o = Ok r ∨ o = Raise (RunNotFoundError (run_id r))).
Proof using laws.
  intros [Hok Hh] Hg. destruct (get_law _ _ _ _ Hok Hg) as (Hok' & Ho & Hk). split.
  - split; [done|]. destruct (Hk (run_id r)) as [->|]; [done|by right].
  - destruct o as [r'|e]; [|right; by destruct Ho as [-> _]]. left.
    destruct Ho as (Hh' & _). destruct Hh; congruence.
Qed.
Lemma put_mine r g o g' : store_ok g → runs_put r g = (o, g') → o = Ok r ∧ mine r g'.
Proof using laws. intros Hok Hp. destruct (put_law _ _ _ _ Hok Hp) as (? & -> & ? & _). split; [done|]. by split; [|left]. Qed.
End fading.

(** ** The handlers, seen from the script *)

Definition hex_id (id : string) : Prop := str_all hex_char id = true.

(** No error is answered as a success. *)
Lemma error_is_no_success request_id e a : answer_for request_id e = Some a → 400 <= answer_status a.
Proof.
  assert (∀ cs, 400 <= (classify_in cs).1) as Hc.
  { induction cs as [|c cs IH]; cbn [classify_in]; [cbn; lia|]. destruct c; first [exact IH|cbn; lia]. }
  unfold answer_for. destruct (first_handler _) as [[]|]; intros [= <-]; cbn [run_handler]; try (cbn; lia).
  - destruct e; cbn; lia.
  - specialize (Hc (mro (class_of e))). change (classify_in (mro (class_of e))) with (classify e) in Hc.
    destruct (classify e) as [status code]. exact Hc.
Qed.

Section handlers.
Context {G : Type} `{!Field G Begun} `{!RunStore G} `{!RunStoreLaws G}.
Context (proxy : ProxyService G) (settings : OrchestrationSettings) (meter : option (RunMeter G))
        (monotonic : M G exn Z) (token_hex : M G exn string) (json_error : string → string)
        (payer : M G exn string).

(** While the gateway serves this script nobody else touches its runs, though they may be
    forgotten; ids are hexadecimal; the clock does not fail; and what is not this request's
    does not begin its response. *)
Record quiet : Prop := mkQuiet {
  quiet_forward name req : only_fades (ps_forward proxy name req);
  quiet_authorize m a : meter = Some m → only_fades (meter_authorize m a);
  quiet_payer : only_fades payer;
  quiet_token : only_fades token_hex;
  quiet_hex g id g' : token_hex g = (Ok id, g') → hex_id id;
  quiet_clock : only_fades monotonic;
  quiet_ticks g : ∃ now, (monotonic g).1 = Ok now;
  quiet_begun b g : fades g (setf b g);
  quiet_clock_begun g : getf (S:=Begun) (monotonic g).2 = getf g;
  quiet_get_begun id g : getf (S:=Begun) (runs_get id g).2 = getf g
}.
Hypothesis others : quiet.
#[local] Set Default Proof Using "Type*".

Lemma move_fades f r : only_fades (move monotonic f r).
Proof. apply only_fades_bind; [apply others|]. intros; apply only_fades_lift. Qed.
Lemma ask_pm_fades op payload : only_fades (ask_pm proxy settings json_error op payload).
Proof.
  apply only_fades_bind; [apply others|]. intros response. cbv zeta.
  destruct (loads _); [|apply only_fades_raise]. destruct (_ || _); [|apply only_fades_ret].
  apply only_fades_bind; [|intros; apply only_fades_raise].
  destruct (is_dict _); [apply only_fades_lift|apply only_fades_ret].
Qed.
Lemma plan_turn_fades r : only_fades (plan_turn proxy settings monotonic json_error r).
Proof.
  apply only_fades_bind; [apply ask_pm_fades|]. intros a. destruct (questions a).
  - destruct (negb _); [apply only_fades_raise|apply move_fades].
  - destruct (_ <=? _); [apply only_fades_raise|apply move_fades].
Qed.

Lemma move_inv f r g r' g' : move monotonic f r g = (Ok r', g') → ∃ now, f now r = Ok r'.
Proof. intros (now & g1 & _ & [= H _])%bind_ok_inv. eauto. Qed.

(** A questionnaire in its turn, or a plan under review. *)
Definition waiting (r : Run) : Prop :=
  hex_id (run_id r)
  ∧ (state r = QUESTIONNAIRE ∧ 1 <= rounds r <= MAX_ROUNDS ∨ state r = PLAN_REVIEW).

Lemma asked_inv text q now r r' :
  Runs.asked text q now r = Ok r' →
  run_id r' = run_id r ∧ state r' = QUESTIONNAIRE ∧ rounds r' = rounds r + 1.
Proof.
  unfold Runs.asked. rewrite moved_spec. destruct (next_state _ _) as [s|] eqn:Hs; [|done].
  intros [= <-]. split_and!; try done. cbn. destruct (state r); simplify_eq/=; done.
Qed.
Lemma proposed_inv p now r r' :
  proposed p now r = Ok r' → run_id r' = run_id r ∧ state r' = PLAN_REVIEW.
Proof.
  unfold proposed. rewrite moved_spec. destruct (next_state _ _) as [s|] eqn:Hs; [|done].
  intros [= <-]. split_and!; try done. cbn. destruct (state r); simplify_eq/=; done.
Qed.

(** A turn of the PM: another questionnaire only while there is a round left. *)
Lemma plan_turn_inv r g r' g' :
  plan_turn proxy settings monotonic json_error r g = (Ok r', g') →
  run_id r' = run_id r
  ∧ (state r' = QUESTIONNAIRE ∧ rounds r < MAX_ROUNDS ∧ rounds r' = rounds r + 1 ∨ state r' = PLAN_REVIEW).
Proof.
  intros (a & g1 & _ & H)%bind_ok_inv. destruct (questions a) as [|q qs].
  - destruct (negb _); [done|]. apply move_inv in H as [now H]. apply proposed_inv in H as [-> ->]. auto.
  - destruct (rounds_left r <=? 0) eqn:Hl; [done|]. apply move_inv in H as [now H].
    apply asked_inv in H as (-> & -> & ->). bool_to_Z. unfold rounds_left in Hl.
    split; [done|]. left. split_and!; [done|lia|done].
Qed.

Lemma answer_mine r given g r' g' :
  mine r g → answer proxy settings monotonic json_error (run_id r) given g = (Ok r', g') →
  mine r' g' ∧ run_id r' = run_id r
  ∧ (state r' = QUESTIONNAIRE ∧ rounds r < MAX_ROUNDS ∧ rounds r' = rounds r + 1 ∨ state r' = PLAN_REVIEW).
Proof.
  intros Hm (r0 & g1 & Hget & H)%bind_ok_inv. apply get_mine in Hget as [Hm1 [[= ->]|?]]; [|done|done].
  apply bind_ok_inv in H as (r1 & g2 & Ht & H). apply bind_ok_inv in Ht as (now & g2' & Hc & [= <- <-]).
  apply bind_ok_inv in H as (r2 & g3 & Hp & H). pose proof (only_fades_ok _ _ _ _ (plan_turn_fades _) Hp) as Hf.
  pose proof (only_fades_ok _ _ _ _ (quiet_clock others) Hc) as Hfc.
  apply plan_turn_inv in Hp as [Hid Hs].
  apply put_mine in H as [[= ->] Hm']; [|by apply Hf, Hfc, Hm1]. by split_and!.
Qed.

Lemma approve_mine r g o g' :
  mine r g → state r = PLAN_REVIEW → approve monotonic (run_id r) g = (o, g') →
  (∃ r', o = Ok r' ∧ state r' = PLAN_APPROVED ∧ run_id r' = run_id r) ∨ o = Raise (RunNotFoundError (run_id r)).
Proof.
  intros Hm Hs Ha. unfold approve in Ha. rewrite run_bind in Ha.
  destruct (runs_get (run_id r) g) as [o1 g1] eqn:Hget. apply get_mine in Hget as [Hm1 [->| ->]]; [|by injection Ha as <- <-; right|done].
  unfold move in Ha. rewrite !run_bind in Ha. destruct (quiet_ticks others g1) as [now Hn].
  pose proof (quiet_clock others g1) as Hf. destruct (monotonic g1) as [o2 g2]. cbn in Hn, Hf. subst o2.
  rewrite run_lift in Ha. unfold approved in Ha. rewrite moved_spec, Hs in Ha. cbn [next_state] in Ha.
  cbn iota beta in Ha. apply put_mine in Ha as [-> _]; [|by apply Hf, Hm1]. left. by eexists.
Qed.

(** What a new run is, and that it is stored. *)
Lemma start_mine text owner g r g' :
  store_ok g → start proxy settings meter monotonic token_hex json_error text owner g = (Ok r, g') →
  mine r g' ∧ waiting r.
Proof.
  intros Hok H. unfold start in H.
  apply bind_ok_inv in H as (u & g1 & H1 & H). assert (fades g g1) as F1.
  { revert H1. destruct meter as [m|] eqn:Hm; [|intros [= <- <-]; apply fades_refl].
    destruct (str_truthy owner); [|intros [= <- <-]; apply fades_refl].
    apply only_fades_ok. by apply (quiet_authorize others). }
  apply bind_ok_inv in H as (token & g2 & H2 & H). pose proof (quiet_hex others _ _ _ H2) as Hhex.
  apply (only_fades_ok _ _ _ _ (quiet_token others)) in H2.
  apply bind_ok_inv in H as (created & g3 & H3%(only_fades_ok _ _ _ _ (quiet_clock others)) & H).
  apply bind_ok_inv in H as (updated & g4 & H4%(only_fades_ok _ _ _ _ (quiet_clock others)) & H).
  apply bind_ok_inv in H as (fresh & g4' & Hf & H). injection Hf as Hf <-.
  assert (run_id fresh = token ∧ rounds fresh = 0) as [Hid0 Hr0].
  { revert Hf. unfold run_start. cbv zeta. destruct (negb _); [done|]. destruct (_ <? _); [done|].
    by intros [= <-]. }
  apply bind_ok_inv in H as (r1 & g5 & H5 & H). pose proof H5 as F5.
  apply (only_fades_ok _ _ _ _ (move_fades _ _)) in F5. apply move_inv in H5 as [now H5].
  unfold describing in H5. rewrite moved_spec in H5. destruct (next_state _ _) as [s|]; [|done].
  injection H5 as <-.
  apply bind_ok_inv in H as (a & g6 & H6%(only_fades_ok _ _ _ _ (ask_pm_fades _ _)) & H). cbv zeta in H.
  apply bind_ok_inv in H as (r2 & g7 & H7 & H).
  assert (fades g6 g7 ∧ run_id r2 = token
    ∧ (state r2 = QUESTIONNAIRE ∧ 1 <= rounds r2 <= MAX_ROUNDS ∨ state r2 = PLAN_REVIEW)) as (F7 & Hid & Hs).
  { destruct (questions _) as [|q qs].
    - apply bind_ok_inv in H7 as (r3 & g8 & H8 & H7). pose proof H8 as F8.
      apply (only_fades_ok _ _ _ _ (move_fades _ _)) in F8. apply move_inv in H8 as [now' H8].
      apply asked_inv in H8 as (Hid8 & _ & Hr8). cbn in Hid8, Hr8.
      split; [eapply fades_trans; [exact F8|exact (only_fades_ok _ _ _ _ (plan_turn_fades _) H7)]|].
      apply plan_turn_inv in H7 as [-> [(? & ? & Hr)|?]]; (split; [congruence|]); [left|by right].
      split; [done|]. unfold MAX_ROUNDS in *. lia.
    - pose proof H7 as F7. apply (only_fades_ok _ _ _ _ (move_fades _ _)) in F7.
      apply move_inv in H7 as [now' H7]. apply asked_inv in H7 as (Hid7 & Hs7 & Hr7). cbn in Hid7, Hr7.
      split; [exact F7|]. split; [congruence|]. left. split; [done|]. unfold MAX_ROUNDS. lia. }
  apply put_mine in H as [[= ->] Hm].
  - split; [exact Hm|]. split; [by rewrite Hid|exact Hs].
  - apply F7, H6, F5, H4, H3, H2, F1, Hok.
Qed.

(** A generation of a run that is not approved is refused before it begins. *)
Lemma generation_mine log close begin_response send r g o g' :
  mine r g → state r ≠ PLAN_APPROVED →
  generate_route begin_response send proxy settings log meter monotonic close (run_id r) g = (o, g') →
  mine r g' ∧ begun (getf g') = false
  ∧ (o = Raise (IllegalTransitionError (state_str (state r)) "GENERATE") ∨ o = Raise (RunNotFoundError (run_id r))).
Proof.
  intros Hm Hs H. unfold generate_route, chain_response in H. rewrite run_bind, run_modify, run_bind in H.
  pose proof (mine_fades r _ _ (quiet_begun others (mkBegun false) g) Hm) as Hm0.
  assert (begun (getf (setf (mkBegun false) g)) = false) as Hb0 by by rewrite getf_setf.
  unfold generate in H. set (g0 := setf (mkBegun false) g) in *. rewrite run_bind in H.
  pose proof (quiet_get_begun others (run_id r) g0) as Hb1.
  destruct (runs_get (run_id r) g0) as [o1 g1] eqn:Hget. cbn [snd] in Hb1.
  apply get_mine in Hget as [Hm1 [->| ->]]; [| |done].
  2:{ injection H as <- <-. split_and!; [done|by rewrite Hb1|by right]. }
  unfold move in H. rewrite !run_bind in H. destruct (quiet_ticks others g1) as [now Hn].
  pose proof (quiet_clock others g1) as Hf. pose proof (quiet_clock_begun others g1) as Hb2.
  destruct (monotonic g1) as [o2 g2]. cbn [fst snd] in Hn, Hf, Hb2. subst o2.
  rewrite run_lift in H. unfold generating in H. rewrite moved_spec in H.
  assert (next_state (state r) GENERATE = None) as Hnone by by destruct (state r).
  rewrite Hnone in H. injection H as <- <-. split_and!.
  - by eapply mine_fades.
  - by rewrite Hb2, Hb1.
  - by left.
Qed.
End handlers.

(** ** The answers the script gets *)

(** The run a document shows, as far as the script looks at it. *)
Definition shows (r : Run) (v : json) : Prop :=
  jget "runId" v = JStr (run_id r) ∧ jget "state" v = JStr (state_str (state r)).

Section answers.
Context {G : Type} `{!Field G Begun} `{!RunStore G} `{!RunStoreLaws G}.
Context (proxy : ProxyService G) (settings : OrchestrationSettings) (log : RunLogPort G)
        (meter : option (RunMeter G)) (monotonic : M G exn Z) (token_hex : M G exn string)
        (close : nat → M G exn unit) (json_error : string → string) (payer : M G exn string)
        (begin_response : StreamHead → M G exn unit) (send : string → M G exn unit)
        (sent : G → list Sent) (replayed : string → M G exn string)
        (endpoint : string → string → Endpoint) (render : json → string) (invalid : json)
        (reason : Z → string) (request_id : option string)
        (elsewhere : Request → M G exn (HTTPError + (Z * string))) (gateway : string).
Hypothesis others : quiet proxy meter monotonic token_hex payer.

(** What the script relies on of the framework: its requests find their routes, and a field of
    plain text in a document is read as it was written. *)
Record framework : Prop := mkFramework {
  finds_start : endpoint "POST" (base gateway ++s "/runs" ++s EmptyString) = EStart;
  finds_answers id : hex_id id →
    endpoint "POST" (base gateway ++s "/runs" ++s ("/" ++s id ++s "/answers")) = EAnswers id;
  finds_approval id : hex_id id →
    endpoint "POST" (base gateway ++s "/runs" ++s ("/" ++s id ++s "/approval")) = EApproval id;
  finds_generation id : hex_id id →
    endpoint "POST" (base gateway ++s "/runs" ++s ("/" ++s id ++s "/generation")) = EGeneration id;
  reads_back fields v k s :
    NoDup fields.*1 → assoc_get k fields = Some (JStr s) → str_all (λ c, ascii_code c <? 128) s = true →
    loads (render (JObj fields)) = Some v → jget k v = JStr s
}.
Hypothesis frame : framework.
#[local] Set Default Proof Using "Type*".

Abbreviation serve_ := (serve proxy settings log meter monotonic token_hex close json_error payer begin_response
  send sent replayed endpoint render invalid reason request_id elsewhere).

Lemma hex_ascii id : hex_id id → str_all (λ c, ascii_code c <? 128) id = true.
Proof using Type.
  unfold hex_id. induction id as [|c id IH]; [done|]. cbn [str_all]. intros [Hc Hid]%andb_true_iff.
  rewrite (IH Hid), andb_true_r. clear -Hc. by destruct c as [[] [] [] [] [] [] [] []].
Qed.
Lemma run_shown r v : hex_id (run_id r) → loads (render (run_as_json r)) = Some v → shows r v.
Proof.
  intros Hid Hv. unfold run_as_json in Hv.
  pose proof (λ k s Hk Hs Hnd, reads_back frame _ v k s Hnd Hk Hs Hv) as Hread.
  split; (apply Hread; [reflexivity| |by apply (bool_decide_unpack _)]); [by apply hex_ascii|by destruct (state r)].
Qed.

(** An answer to the script that is a run, or no success. *)
Definition run_or_error (P : Run → Prop) (o : result exn (HTTPError + (Z * string))) : Prop :=
  match o with
  | Ok (inr (status, body)) => status = 200 ∧ ∃ r, body = render (run_as_json r) ∧ P r
  | Ok (inl e) => err_code e ≠ 200
  | Raise _ => True
  end.

Lemma answered_run (handler : M G exn json) g (P : Run → Prop) (Q : Run → G → Prop) o g' :
  (∀ v g', handler g = (Ok v, g') → ∃ r, v = run_as_json r ∧ Q r g') →
  answered render reason request_id handler g = (o, g') → run_or_error (λ r, Q r g') o.
Proof using Type.
  unfold answered, respond. intros Hh. destruct (handler g) as [[v|e] g1].
  - intros [= <- <-]. destruct (Hh _ _ eq_refl) as (r & -> & Hr). split; [done|]. by exists r.
  - destruct (answer_for request_id e) as [a|] eqn:Ha; intros [= <- <-]; [|done].
    apply error_is_no_success in Ha. cbn. unfold reply_of.
    destruct (Z.ltb_spec (answer_status a) 300); [lia|]. rewrite andb_false_r. cbn. lia.
Qed.

Lemma serve_start req g o g' :
  store_ok g → req_method req = "POST"%string → req_url req = base gateway ++s "/runs" ++s EmptyString →
  serve_ req g = (o, g') → run_or_error (λ r, mine r g' ∧ waiting r) o.
Proof.
  intros Hok Hm Hu. unfold serve. rewrite Hm, Hu, (finds_start frame).
  destruct (checked _ _ _) as [idea|]; cbn [with_body]; [|by intros [= <- <-]].
  apply (answered_run _ _ (λ _, True) (λ r g', mine r g' ∧ waiting r)).
  intros v g1 (who & g2 & H2 & (r & g3 & H3 & [= <- <-])%bind_ok_inv)%bind_ok_inv. exists r. split; [done|].
  eapply start_mine; [exact others| |exact H3]. by apply (only_fades_ok _ _ _ _ (quiet_payer _ _ _ _ _ others) H2).
Qed.

Lemma serve_answers r req g o g' :
  mine r g → hex_id (run_id r) → req_method req = "POST"%string →
  req_url req = base gateway ++s "/runs" ++s ("/" ++s run_id r ++s "/answers") →
  serve_ req g = (o, g') →
  run_or_error (λ r', mine r' g' ∧ run_id r' = run_id r
    ∧ (state r' = QUESTIONNAIRE ∧ rounds r < MAX_ROUNDS ∧ rounds r' = rounds r + 1 ∨ state r' = PLAN_REVIEW)) o.
Proof.
  intros Hmine Hid Hm Hu. unfold serve. rewrite Hm, Hu, (finds_answers frame) by done.
  destruct (read_answers _) as [given|]; cbn [with_body]; [|by intros [= <- <-]].
  apply (answered_run _ _ (λ _, True) (λ r' g', mine r' g' ∧ run_id r' = run_id r
    ∧ (state r' = QUESTIONNAIRE ∧ rounds r < MAX_ROUNDS ∧ rounds r' = rounds r + 1 ∨ state r' = PLAN_REVIEW))).
  intros v g1 (r' & g3 & H3 & [= <- <-])%bind_ok_inv. exists r'. split; [done|].
  by eapply answer_mine.
Qed.

Lemma serve_approval r req g o g' :
  mine r g → hex_id (run_id r) → state r = PLAN_REVIEW → req_method req = "POST"%string →
  req_url req = base gateway ++s "/runs" ++s ("/" ++s run_id r ++s "/approval") →
  optional_object (req_data req) = Some tt → serve_ req g = (o, g') →
  (∃ r', o = Ok (inr (200, render (run_as_json r'))) ∧ state r' = PLAN_APPROVED ∧ run_id r' = run_id r)
  ∨ ∃ e, o = Ok (inl e) ∧ err_code e = 404.
Proof.
  intros Hmine Hid Hs Hm Hu Hb. unfold serve. rewrite Hm, Hu, (finds_approval frame), Hb by done. cbn [with_body].
  unfold answered, respond, approve_route. rewrite run_bind.
  destruct (approve monotonic (run_id r) g) as [o1 g1] eqn:Ha.
  apply (approve_mine _ _ _ _ _ others) in Ha as [(r' & -> & Hs' & Hid')| ->]; [| |done|done].
  - intros [= <- <-]. left. by exists r'.
  - intros [= <- <-]. right. by eexists.
Qed.

Lemma serve_generation r req g o g' :
  mine r g → hex_id (run_id r) → state r ≠ PLAN_APPROVED → req_method req = "POST"%string →
  req_url req = base gateway ++s "/runs" ++s ("/" ++s run_id r ++s "/generation") →
  serve_ req g = (o, g') →
  mine r g' ∧ ∃ e, o = Ok (inl e) ∧ (err_code e = 409 ∨ err_code e = 404).
Proof.
  intros Hmine Hid Hs Hm Hu. unfold serve. rewrite Hm, Hu, (finds_generation frame) by done.
  unfold streamed, respond_stream.
  destruct (generate_route begin_response send proxy settings log meter monotonic close (run_id r) g) as [o1 g1] eqn:Hg.
  eapply generation_mine in Hg as (Hm1 & Hb & [-> | ->]); [| |exact others|done|done].
  - rewrite Hb. intros [= <- <-]. split; [done|]. eexists. split; [done|]. by left.
  - rewrite Hb. intros [= <- <-]. split; [done|]. eexists. split; [done|]. by right.
Qed.
End answers.

(** ** The conversation *)

(** The checks of the script that are about the gateway and nothing its agents may answer. *)
Definition GATES : list string :=
  ["generation without a plan is refused"; "generation before approval is refused";
   "approval moves the run"]%string.
(** The gateway has answered that it no longer has the run. *)
Definition forgotten (l : list Exchange) : Prop := ∃ r e, (r, inl e) ∈ l ∧ err_code e = 404.

Lemma forgotten_prefix l l' : l `prefix_of` l' → forgotten l → forgotten l'.
Proof. intros [k ->] (r & e & Hin & He). exists r, e. split; [|done]. apply elem_of_app. by left. Qed.

Section stages.
Context {G T : Type} `{!RunStore G}.
Context (network : Request → list Exchange → Passage).
Context (served : Request → M G exn (HTTPError + (Z * string))).
(** The script's clock: meanwhile runs may be forgotten. *)
Context (tick : M (Together G) exn T) (seconds : T → T → string) (gateway : string).
Hypothesis ticks : ∀ w, flow (tick w).2 = flow w ∧ exchanges (tick w).2 = exchanges w
                        ∧ fades (gateway_side w) (gateway_side (tick w).2).
#[local] Set Default Proof Using "Type*".

(** No gate has failed, but where the run was forgotten. *)
Definition excused (w : Together G) : Prop :=
  ∀ name, name ∈ GATES → name ∈ failures (flow w) → forgotten (exchanges w).

(** A stage of the script: [Q] of what was exchanged and of the gateway before, [R] after it. *)
Definition stage {A} (Q : list Exchange → G → Prop) (m : M (Together G) exn A)
    (R : A → list Exchange → G → Prop) : Prop :=
  triple (λ w, excused w ∧ Q (exchanges w) (gateway_side w)) m
    (λ o w, excused w ∧ match o with Ok a => R a (exchanges w) (gateway_side w) | Raise _ => True end).
(** What time and forgetting do not undo. *)
Definition stable (Q : list Exchange → G → Prop) : Prop :=
  ∀ l l' g g', l `prefix_of` l' → fades g g' → Q l g → Q l' g'.
Definition nothing : list Exchange → G → Prop := λ _ _, True.

Lemma stage_ret {A} (Q : list Exchange → G → Prop) (a : A) (R : A → list Exchange → G → Prop) :
  (∀ l g, Q l g → R a l g) → stage Q (mret a) R.
Proof using Type. intros H w [He Hq]. split; [exact He|]. by apply H. Qed.
Lemma stage_lift {A} (Q : list Exchange → G → Prop) (r : result exn A) (R : A → list Exchange → G → Prop) :
  (∀ a l g, r = Ok a → Q l g → R a l g) → stage Q (lift r) R.
Proof using Type. intros H w [He Hq]. split; [exact He|]. cbn. destruct r; [by apply H|done]. Qed.
Lemma stage_bind {A B} Q (m : M (Together G) exn A) (f : A → M (Together G) exn B) R S :
  stage Q m R → (∀ a, stage (R a) (f a) S) → stage Q (m ≫= f) S.
Proof using Type.
  intros Hm Hf. unfold stage. eapply (triple_bind _ _ _ (λ a w, excused w ∧ R a (exchanges w) (gateway_side w))); [|exact Hf].
  eapply triple_conseq; [exact Hm|done|]. by intros [a|e] w [He Hr].
Qed.
Lemma stage_weaken {A} (Q Q' : list Exchange → G → Prop) (m : M (Together G) exn A) R R' :
  (∀ l g, Q l g → Q' l g) → (∀ a l g, R' a l g → R a l g) → stage Q' m R' → stage Q m R.
Proof using Type.
  intros HQ HR Hm w [He Hq]. destruct (Hm w (conj He (HQ _ _ Hq))) as [He' Hr]. split; [exact He'|].
  destruct (m w) as [[a|e] w']; [by apply HR|done].
Qed.
Lemma stage_print Q s : stage Q (print_ s) (λ _, Q).
Proof using Type. intros w [He Hq]. split; [exact He|exact Hq]. Qed.
Lemma stage_check Q name (ok : bool) detail :
  (name ∉ GATES ∨ ok = true ∨ ∀ l g, Q l g → forgotten l) →
  stage Q (check name ok detail) (λ b l g, b = ok ∧ Q l g).
Proof using Type.
  intros H w [He Hq]. unfold check. rewrite run_bind. cbn. destruct ok; cbn; [by split|].
  split; [|by split]. intros n Hn Hin. cbn in Hin. apply elem_of_app in Hin as [Hin|Hin]; [by apply (He n)|].
  apply list_elem_of_singleton in Hin as ->. destruct H as [?|[?|H]]; [done|done|]. by apply (H _ _ Hq).
Qed.
Lemma stage_clock Q : stable Q → stage Q tick (λ _, Q).
Proof using ticks.
  intros Hs w [He Hq]. destruct (ticks w) as (Hf & Hx & Hg). unfold excused. rewrite Hf, Hx.
  split; [exact He|]. destruct (tick w).1; [|done]. by eapply Hs.
Qed.
Lemma stage_talk Q r (R : _ → list Exchange → G → Prop) :
  (∀ l g o g', Q l g → served r g = (o, g') →
     match o with Ok reply => R reply (l ++ [(r, reply)]) g' | Raise _ => True end) →
  stage Q (talk network served r) R.
Proof using Type.
  intros H w [He Hq]. specialize (H _ _ (served r (gateway_side w)).1 (served r (gateway_side w)).2 Hq (surjective_pairing _)).
  unfold talk. destruct (served r (gateway_side w)) as [o g']. cbn in *.
  destruct (network r (exchanges w)) as [|e|e]; [|by split|by split]. cbn. split; [|by destruct o].
  intros n Hn Hin. eapply forgotten_prefix; [|by apply (He n)]. by eexists.
Qed.

Lemma stage_call Q path method body (R : Z * json → list Exchange → G → Prop) :
  stable Q → (∀ a, stable (R a)) →
  (∀ l g o g', Q l g → served (runs_request gateway path method body) g = (o, g') →
     match o with
     | Ok reply => ∀ st v, says reply st v → R (st, v) (l ++ [(runs_request gateway path method body, reply)]) g'
     | Raise _ => True
     end) →
  stage Q (call (talk network served) tick seconds gateway path method body) R.
Proof.
  intros HQ HR H. unfold call. eapply stage_bind; [by apply stage_clock|]. intros started.
  eapply stage_bind.
  { apply (stage_talk _ _ (λ reply l g, ∀ st v, says reply st v → R (st, v) l g)).
    intros l g o g' Hq Ho. apply (H l g o g' Hq Ho). }
  intros reply.
  assert (∀ st text, (∀ v, loads text = Some v → says reply st v) →
    stage (λ l g, ∀ st v, says reply st v → R (st, v) l g)
      (payload ← lift (parse text); now ← tick;
       print_line ("  " ++s method ++s " /runs" ++s path ++s " → " ++s int_str st ++s " in "
                   ++s seconds started now ++s "s") ;; mret (st, payload)) R) as Hrest.
  { intros st text Htext. eapply stage_bind.
    { apply (stage_lift _ _ (λ v, R (st, v))). intros v l g Hv Hq. apply Hq, Htext. by apply parse_ok. }
    intros v. eapply stage_bind; [by apply stage_clock|]. intros now.
    eapply stage_bind; [apply stage_print|]. intros u. by apply stage_ret. }
  destruct reply as [e|[st text]]; apply Hrest; cbn; auto.
Qed.
End stages.

Create HintDb gw_stage.
#[local] Ltac no_gate := left; by apply (bool_decide_unpack _).

Section conversation.
Context {G T Archive : Type} `{!Field G Begun} `{!RunStore G} `{!RunStoreLaws G}.
Context (proxy : ProxyService G) (settings : OrchestrationSettings) (log : RunLogPort G)
        (meter : option (RunMeter G)) (monotonic : M G exn Z) (token_hex : M G exn string)
        (close : nat → M G exn unit) (json_error : string → string) (payer : M G exn string)
        (begin_response : StreamHead → M G exn unit) (send : string → M G exn unit)
        (sent : G → list Sent) (replayed : string → M G exn string)
        (endpoint : string → string → Endpoint) (render : json → string) (invalid : json)
        (reason : Z → string) (request_id : option string)
        (elsewhere : Request → M G exn (HTTPError + (Z * string))).
Context (network : Request → list Exchange → Passage).
Context (tick : M (Together G) exn T) (seconds : T → T → string)
        (open_zip : string → result exn Archive) (namelist : Archive → list string)
        (read_file : Archive → string → result exn string) (gateway : string).
Hypothesis others : quiet proxy meter monotonic token_hex payer.
Hypothesis frame : framework endpoint render gateway.
Hypothesis ticks : ∀ w, flow (tick w).2 = flow w ∧ exchanges (tick w).2 = exchanges w
                        ∧ fades (gateway_side w) (gateway_side (tick w).2).
#[local] Set Default Proof Using "Type*".

Abbreviation served := (serve proxy settings log meter monotonic token_hex close json_error payer begin_response
  send sent replayed endpoint render invalid reason request_id elsewhere).
Abbreviation call_ := (call (talk network served) tick seconds gateway).
Abbreviation mine_after r := (λ (_ : list Exchange) g, mine r g).

(** *** Where no gate is asked *)

(** A part of the script that asks no gate. *)
Definition calmly {A} (m : M (Together G) exn A) : Prop := stage nothing m (λ _, nothing).

Lemma stable_nothing : stable (G:=G) nothing.
Proof using Type. by intros l l' g g'. Qed.
Lemma calmly_bind {A B} (m : M (Together G) exn A) (f : A → M (Together G) exn B) :
  calmly m → (∀ a, calmly (f a)) → calmly (m ≫= f).
Proof using Type. intros Hm Hf. by eapply stage_bind. Qed.
Lemma calmly_ret {A} (a : A) : calmly (mret a).
Proof using Type. by apply stage_ret. Qed.
Lemma calmly_lift {A} (r : result exn A) : calmly (lift r).
Proof using Type. by apply stage_lift. Qed.
Lemma calmly_print s : calmly (print_ s).
Proof using Type. apply stage_print. Qed.
Lemma calmly_check name ok detail : name ∉ GATES → calmly (check name ok detail).
Proof using Type. intros H. eapply stage_weaken; [| |apply stage_check; by left]; done. Qed.
Lemma calmly_clock : calmly tick.
Proof using ticks. apply (stage_clock tick ticks), stable_nothing. Qed.
Lemma calmly_talk r : calmly (talk network served r).
Proof using Type. apply stage_talk. by intros l g [reply|e] g'. Qed.
Lemma calmly_raise {A} e : calmly (raise e : M _ exn A).
Proof using Type. by intros w [He _]. Qed.
Lemma calmly_gets {A} (f : Together G → A) : calmly (gets f).
Proof using Type. by intros w [He _]. Qed.
Lemma calmly_call path method body : calmly (call_ path method body).
Proof.
  apply stage_call; [exact ticks|apply stable_nothing|intros; apply stable_nothing|].
  by intros l g [reply|e] g'.
Qed.
#[local] Hint Resolve calmly_ret calmly_lift calmly_print calmly_clock calmly_talk calmly_raise calmly_gets calmly_call
  : gw_stage.
#[local] Hint Extern 1 (calmly (check _ _ _)) =>
  apply calmly_check; by apply (bool_decide_unpack _) : gw_stage.
#[local] Ltac calm := repeat first
  [by auto with gw_stage
  |match goal with |- calmly (let '(_, _) := ?a in _) => destruct a end
  |apply calmly_bind; [by auto with gw_stage|intros ?]].

Lemma calmly_opened r : calmly (opened (talk network served) r).
Proof. apply calmly_bind; [apply calmly_talk|]. intros []; calm. Qed.
#[local] Hint Resolve calmly_opened : gw_stage.
Lemma calmly_stream path : calmly (stream (talk network served) tick seconds gateway path).
Proof. unfold stream, print_line. calm. Qed.
Lemma calmly_replay id : calmly (replay (talk network served) gateway id).
Proof. unfold replay. calm. Qed.
Lemma calmly_download artifact token : calmly (download_zip (talk network served) gateway artifact token).
Proof. unfold download_zip. calm. Qed.
Lemma calmly_inspect data events verdict : calmly (inspect open_zip namelist read_file data events verdict).
Proof. unfold inspect, print_line. calm. Qed.
#[local] Hint Resolve calmly_stream calmly_replay calmly_download calmly_inspect : gw_stage.
Lemma calmly_zip run token events verdict :
  calmly (fetch_zip (talk network served) open_zip namelist read_file gateway run token events verdict).
Proof. unfold fetch_zip, heading, print_line. destruct (negb _); calm. Qed.
Lemma calmly_steps events :
  calmly (foldr (λ event rest, (lines ← lift (step_line event); foldr (λ l k, print_line l ;; k) rest lines))
        (mret tt) events).
Proof.
  induction events as [|event events IH]; cbn [foldr]; [calm|]. apply calmly_bind; [calm|]. intros lines.
  induction lines as [|l lines IHl]; cbn [foldr]; [exact IH|]. apply calmly_bind; [apply calmly_print|].
  intros _. exact IHl.
Qed.
#[local] Hint Resolve calmly_zip calmly_steps : gw_stage.

(** *** Where they are *)

Lemma stable_mine r : stable (mine_after r).
Proof using Type. intros l l' g g' _ Hf Hm. by eapply mine_fades. Qed.
Lemma stage_try {A} Q (m : M (Together G) exn A) (h : exn → option (M (Together G) exn A)) R :
  stage Q m R → (∀ e k, h e = Some k → stage nothing k R) → stage Q (try_except m h) R.
Proof using Type.
  intros Hm Hh w Hw. specialize (Hm w Hw). unfold try_except. destruct (m w) as [[a|e] w1]; [exact Hm|].
  specialize (Hh e). destruct (h e) as [k|]; [|exact Hm]. apply (Hh k eq_refl). by split; [apply Hm|].
Qed.
Lemma stage_pure {A} (P : Prop) Q (m : M (Together G) exn A) R :
  (P → stage Q m R) → stage (λ l g, P ∧ Q l g) m R.
Proof using Type. intros H w (He & HP & Hq). by apply H. Qed.
Lemma stage_exists {A B} (Q : B → list Exchange → G → Prop) (m : M (Together G) exn A) R :
  (∀ b, stage (Q b) m R) → stage (λ l g, ∃ b, Q b l g) m R.
Proof using Type. intros H w (He & b & Hq). by apply (H b). Qed.

(** A generation before the approval is answered by 409, or by 404 when the run is gone. *)
Lemma stage_refused r (rest : M (Together G) exn Z) name :
  hex_id (run_id r) → state r ≠ PLAN_APPROVED → stage (mine_after r) rest (λ _, nothing) →
  stage (mine_after r)
    ('(status, _) ← call_ ("/" ++s run_id r ++s "/generation") "POST" None;
     check name (status =? 409) ("got " ++s int_str status) ;; rest) (λ _, nothing).
Proof.
  intros Hid Hs Hk. eapply stage_bind.
  { apply (stage_call network served tick seconds gateway ticks _ _ _ _
      (λ a l g, mine r g ∧ (a.1 = 409 ∨ forgotten l))); [apply stable_mine| |].
    - intros a l l' g g' Hl Hf [Hm Ha]. split; [by eapply mine_fades|].
      destruct Ha as [?|?]; [by left|right; by eapply forgotten_prefix].
    - intros l g o g' Hm Ho.
      eapply (serve_generation _ _ _ _ _ _ _ _ _ _ _ _ _ _ _ _ _ _ _ _ others frame r) in Ho
        as (Hm' & e & -> & He); [|done..].
      intros st v [-> _]. split; [done|]. destruct He as [He|He]; [by left|right].
      eexists _, e. split; [|exact He]. apply elem_of_app. right. left. }
  intros [status v]. eapply stage_bind.
  { apply stage_check. destruct (Z.eqb_spec status 409) as [|Hne]; [by right; left|right; right].
    intros l g [_ [?|?]]; done. }
  intros b. eapply stage_weaken; [| |exact Hk]; [|done]. by intros l g (_ & H & _).
Qed.

(** The rounds end in a plan: the script may answer one questionnaire more than the gateway
    hands out. *)
Definition in_round (left : nat) (run : json) (r : Run) : Prop :=
  shows r run ∧ waiting r ∧ (state r = QUESTIONNAIRE → MAX_ROUNDS - rounds r < Z.of_nat left).
Definition reviewed (id : string) (res : Z + json) : list Exchange → G → Prop := λ _ g,
  match res with
  | inl _ => True
  | inr _ => ∃ r, (run_id r = id ∧ state r = PLAN_REVIEW) ∧ mine r g
  end.

Lemma shows_state r run x s text :
  shows r run → attr_get "state" run = Ok x → text = state_str s → jis x text = bool_decide (state r = s).
Proof using Type.
  intros [_ Hs] Hx%attr_get_ok ->. rewrite Hs in Hx. subst x. cbn. by destruct (state r), s.
Qed.

Lemma stage_rounds left run r :
  in_round left run r →
  stage (mine_after r) (answer_rounds (talk network served) tick seconds gateway left (run_id r) run) (reviewed (run_id r)).
Proof.
  revert run r. induction left as [|left IH]; intros run r (Hshow & Hwait & Hleft); cbn [answer_rounds].
  - eapply stage_bind; [by apply (stage_lift _ _ (λ _, mine_after r))|]. intros x. apply stage_ret.
    intros l g Hm. exists r. split; [|exact Hm]. split; [done|].
    destruct Hwait as [_ [[Hq Hr]|Hp]]; [|done]. specialize (Hleft Hq). cbn in Hleft. lia.
  - eapply stage_bind.
    { apply (stage_lift _ _ (λ x l g, attr_get "state" run = Ok x ∧ mine r g)). by intros. }
    intros x. apply stage_pure. intros Hx. rewrite (shows_state r run x QUESTIONNAIRE "QUESTIONNAIRE" Hshow Hx eq_refl).
    case_bool_decide as Hq.
    2:{ apply stage_ret. intros l g Hm. exists r. split; [|exact Hm]. split; [done|]. by destruct Hwait as [_ [[? _]|?]]. }
    eapply stage_bind; [by apply (stage_lift _ _ (λ _, mine_after r))|]. intros qs.
    eapply stage_bind; [by apply (stage_lift _ _ (λ _, mine_after r))|]. intros given.
    destruct Hwait as [Hid Hrounds]. specialize (Hleft Hq).
    eapply stage_bind.
    { apply (stage_call network served tick seconds gateway ticks _ _ _ _
        (λ a _ g, a.1 = 200 → ∃ r', (in_round left a.2 r' ∧ run_id r' = run_id r) ∧ mine r' g)); [apply stable_mine| |].
      - intros a l l' g g' _ Hf Ha H200. destruct (Ha H200) as (r' & Hr & Hm). exists r'. split; [exact Hr|].
        by eapply mine_fades.
      - intros l g o g' Hm Ho.
        eapply (serve_answers _ _ _ _ _ _ _ _ _ _ _ _ _ _ _ _ _ _ _ _ others frame r) in Ho; [|done..].
        destruct o as [[e|[status text]]|e]; [| |done].
        + cbn. by intros st v [-> _].
        + cbn in Ho. destruct Ho as (-> & r' & -> & Hm' & Hid' & Hr'). cbn. intros st v [_ Hv] _.
          exists r'. split; [|exact Hm']. assert (hex_id (run_id r')) as Hhex by by rewrite Hid'.
          split; [|done]. split; [by eapply run_shown|]. split.
          * split; [done|]. destruct Hr' as [(? & ? & ->)|?]; [left|by right]. split; [done|].
            destruct Hrounds as [[_ ?]|?]; [unfold MAX_ROUNDS in *; lia|congruence].
          * intros Hq'. destruct Hr' as [(_ & _ & ->)|?]; [lia|congruence]. }
    intros [status v]. cbn [fst snd]. destruct (Z.eqb_spec status 200) as [->|Hne].
    + eapply (stage_weaken _ (λ _ g, ∃ r', (in_round left v r' ∧ run_id r' = run_id r) ∧ mine r' g));
        [intros l g H; by apply H|done|].
      apply stage_exists. intros r'. apply stage_pure. intros [Hr' <-]. by apply IH.
    + eapply stage_bind; [apply stage_check; no_gate|]. intros b. by apply stage_ret.
Qed.

(** From a plan on. *)
Lemma stage_after_plan r token :
  hex_id (run_id r) → state r = PLAN_REVIEW →
  stage (mine_after r)
    (after_plan (talk network served) tick seconds open_zip namelist read_file gateway (run_id r) token) (λ _, nothing).
Proof.
  intros Hid Hs. unfold after_plan. eapply stage_bind; [apply stage_print|]. intros []. cbn beta.
  apply stage_refused; [done|by rewrite Hs|]. eapply stage_bind; [apply stage_print|]. intros []. cbn beta.
  eapply stage_bind.
  { apply (stage_call network served tick seconds gateway ticks _ _ _ _
      (λ a l _, (∃ r', shows r' a.2 ∧ state r' = PLAN_APPROVED) ∨ forgotten l)); [apply stable_mine| |].
    - intros a l l' g g' Hl _ [?|?]; [by left|right; by eapply forgotten_prefix].
    - intros l g o g' Hm Ho.
      eapply (serve_approval _ _ _ _ _ _ _ _ _ _ _ _ _ _ _ _ _ _ _ _ others frame r) in Ho; [|done..].
      destruct Ho as [(r' & -> & Hs' & Hid')|(e & -> & He)]; cbn; intros st v [_ Hv].
      + left. exists r'. split; [|done]. eapply run_shown; [exact frame| |exact Hv]. by rewrite Hid'.
      + right. eexists _, e. split; [|exact He]. apply elem_of_app. right. left. }
  intros [status run]. cbn [fst snd]. eapply stage_bind.
  { apply (stage_lift _ _ (λ x l _, jis x "PLAN_APPROVED" = true ∨ forgotten l)).
    intros x l g Hx [(r' & Hshow & Hs')|?]; [left|by right].
    rewrite (shows_state r' run x PLAN_APPROVED "PLAN_APPROVED" Hshow Hx eq_refl). by apply bool_decide_true. }
  intros x. eapply stage_bind.
  { apply stage_check. destruct (jis x _); [by right; left|right; right]. by intros l g [?|?]. }
  intros b. eapply (stage_weaken _ nothing); [done|done|]. unfold heading, print_line. calm.
Qed.

Lemma stage_flow idea token :
  stage (λ _ g, store_ok g)
    (run_flow (talk network served) tick seconds open_zip namelist read_file gateway idea token) (λ _, nothing).
Proof.
  unfold run_flow. eapply stage_bind; [apply stage_print|]. intros []. cbn beta. eapply stage_bind.
  { apply (stage_call network served tick seconds gateway ticks _ _ _ _
      (λ a _ g, a.1 = 200 → ∃ r, (shows r a.2 ∧ waiting r) ∧ mine r g)).
    - intros l l' g g' _ [Hf _]. exact Hf.
    - intros a l l' g g' _ Hf Ha H200. destruct (Ha H200) as (r & Hr & Hm). exists r. split; [exact Hr|].
      by eapply mine_fades.
    - intros l g o g' Hok Ho.
      eapply (serve_start _ _ _ _ _ _ _ _ _ _ _ _ _ _ _ _ _ _ _ _ others frame) in Ho; [|done..].
      destruct o as [[e|[status text]]|e]; [| |done].
      + cbn. by intros st v [-> _].
      + cbn in Ho. destruct Ho as (-> & r & -> & Hm & Hw). cbn. intros st v [_ Hv] _.
        exists r. split; [|exact Hm]. split; [|exact Hw]. eapply run_shown; [exact frame|by destruct Hw|exact Hv]. }
  intros [status run]. cbn [fst snd]. eapply stage_bind; [apply stage_check; no_gate|]. intros started.
  apply stage_pure. intros ->. destruct (Z.eqb_spec status 200) as [->|Hne]; cbn [negb]; [|by apply stage_ret].
  eapply (stage_weaken _ (λ _ g, ∃ r, (shows r run ∧ waiting r) ∧ mine r g)); [intros l g H; by apply H|done|].
  apply stage_exists. intros r. apply stage_pure. intros [Hshow Hwait].
  eapply stage_bind.
  { apply (stage_lift _ _ (λ x l g, x = JStr (run_id r) ∧ mine r g)). intros x l g Hx Hm. split; [|exact Hm].
    destruct Hshow as [Hid _]. unfold jget in Hid. unfold item in Hx. destruct run; try done.
    destruct (assoc_get "runId" fields) as [y|]; [|done]. cbn in Hid. congruence. }
  intros id. apply stage_pure. intros ->. cbn [py_str].
  eapply stage_bind; [by apply (stage_lift _ _ (λ _, mine_after r))|]. intros summary.
  eapply stage_bind; [by apply (stage_lift _ _ (λ _, mine_after r))|]. intros shown.
  eapply stage_bind; [apply stage_print|]. intros []. cbn beta.
  eapply stage_bind; [apply stage_print|]. intros []. cbn beta.
  apply stage_refused; [by destruct Hwait|by destruct Hwait as [_ [[-> _]| ->]]|].
  eapply stage_bind; [apply stage_print|]. intros []. cbn beta.
  eapply stage_bind.
  { apply stage_rounds. split; [exact Hshow|]. split; [exact Hwait|]. intros Hq.
    destruct Hwait as [_ [[_ ?]|?]]; [unfold MAX_ROUNDS; lia|congruence]. }
  intros [code|run']; [by apply stage_ret|]. unfold reviewed.
  apply stage_exists. intros r'. apply stage_pure. intros [Hid Hs].
  eapply stage_bind; [by apply (stage_lift _ _ (λ _, mine_after r'))|]. intros plan. cbv zeta.
  eapply stage_bind; [by apply (stage_lift _ _ (λ _, mine_after r'))|]. intros purpose.
  eapply stage_bind; [apply stage_check; no_gate|]. intros b. apply stage_pure. intros _.
  eapply stage_bind; [by apply (stage_lift _ _ (λ _, mine_after r'))|]. intros named.
  eapply stage_bind; [apply stage_print|]. intros []. cbn beta. rewrite <- Hid.
  apply stage_after_plan; [rewrite Hid; by destruct Hwait|exact Hs].
Qed.

Abbreviation main_ := (main (talk network served) tick seconds open_zip namelist read_file gateway).

(** C28. The smoke test never finds a gate open.  Whatever idea it is given, whatever the
    agents and the clock do, and whichever of its requests or of their answers the network
    loses, as long as the answers it gets are the gateway's and nobody else works on the
    runs, and however the script ends (with a code or with an exception of its own), a check
    that generation was refused, without a plan or before the approval, or that the approval
    moved the run, has only failed if the gateway had answered it that it no longer has the
    run: the gateway refuses both generations with 409 before
    their responses begin, its questionnaires end within the rounds the script answers, and
    approving the plan there then is moves the run. *)
Theorem smoke_finds_no_gate_open idea token w o w' :
  store_ok (gateway_side w) → exchanges w = [] → main_ idea token w = (o, w') →
  ∀ name, name ∈ GATES → name ∈ failures (flow w') → forgotten (exchanges w').
Proof.
  intros Hok Hnil Hmain. unfold main in Hmain. rewrite run_bind, run_modify in Hmain.
  cbn [setf Together_flow] in Hmain. rewrite Hnil in Hmain.
  match type of Hmain with ?m _ = _ => assert (stage (λ _ g, store_ok g) m (λ _, nothing)) as Hstage end.
  { apply (stage_bind _ _ _ (λ _, nothing)).
    - apply stage_try.
      + eapply stage_bind; [apply stage_flow|]. intros code. by apply stage_ret.
      + intros e k. destruct (is_url_error e); [|done]. intros [= <-].
        apply calmly_bind; [apply calmly_print|]. intros; by apply stage_ret.
    - intros [code|]; [|by apply stage_ret]. unfold print_line.
      apply calmly_bind; [apply calmly_gets|]. intros failed. calm. }
  destruct (Hstage (mkTogether new_flow [] (gateway_side w))) as [He _].
  { split; [by intros name _ ?%not_elem_of_nil|exact Hok]. }
  rewrite Hmain in He. exact He.
Qed.
End conversation.

(** ** The two of them, running *)

(** A gateway with its store, its log and the response it is sending. *)
Definition Site : Type := RunTable * (Begun * list Sent) * Log.State.
#[local] Program Instance site_runs : Field Site RunTable :=
  {| getf w := w.1.1; setf d w := (d, w.1.2, w.2) |}.
Solve Obligations with by intros; repeat match goal with w : Site |- _ => destruct w as [[? ?] ?] end.
#[local] Program Instance site_begun : Field Site Begun :=
  {| getf w := w.1.2.1; setf b w := (w.1.1, (b, w.1.2.2), w.2) |}.
Solve Obligations with by intros; repeat match goal with w : Site |- _ => destruct w as [[? [? ?]] ?] end.
#[local] Program Instance site_log : Field Site Log.State :=
  {| getf w := w.2; setf l w := (w.1, l) |}.
Solve Obligations with by intros; repeat match goal with w : Site |- _ => destruct w as [[? ?] ?] end.
Definition site_clock : M Site exn Z := mret 5.
#[local] Instance site_store : RunStore Site := InMemoryRunStore default_run_store site_clock.
#[local] Instance site_laws : RunStoreLaws Site.
Proof.
  apply (memory_laws_of default_run_store site_clock (λ _, 5)); [|done|by vm_compute].
  intros w. exists w. by split_and!.
Qed.

Definition site_json (l : list (string * json)) : string := dumps (JObj l).
Definition site_question : json := JObj [("id", JStr "q1"); ("text", JStr "Who uses it?")]%string.
Definition site_chunks : list string :=
  (λ e, "data: " ++s dumps e ++s str1 nl) <$>
  [JObj [("type", JStr "step"); ("name", JStr "specification"); ("status", JStr "ok");
         ("detail", JObj [("plan", JList [JStr "README.md"; JStr "tests/test_rooms.py"])])];
   JObj [("type", JStr "done"); ("project", JObj [("id", JStr "a1"); ("status", JStr "VERIFIED")])]]%string.
(** The agents: one questionnaire, a plan once it is answered, and a project. *)
Definition site_agents (plan : list (string * json)) : ProxyService Site :=
  {| ps_forward _ req :=
       mret (mkResponse 200 []
         (if String.eqb (in_path req) "api/v1/analyze"
          then site_json [("summary", JStr "Rooms"); ("questionnaire", JObj [("questions", JList [site_question])])]
          else site_json plan)%string
         None None);
     ps_stream _ _ := mret (mkStream 200 [] (mkBody site_chunks None 7) None) |}.
Definition site_send (s : Sent) : M Site exn unit := modify (λ w, (w.1.1, (w.1.2.1, w.1.2.2 ++ [s]), w.2)).
Definition site_replay (id : string) : M Site exn string :=
  gets (λ w, str_concat (default [] (Log.chunks_of w.2 id))).

Definition site_gateway : string := "http://127.0.0.1:8090".
Definition site_endpoint (method url : string) : Endpoint :=
  if negb (starts_with (site_gateway ++s "/runs") url) then EElsewhere
  else match method, str_split "/" (str_drop 26 url) with
       | "POST", [""] => EStart
       | "GET", [""; id] => ERead id
       | "POST", [""; id; "answers"] => EAnswers id
       | "POST", [""; id; "rejection"] => ERejection id
       | "POST", [""; id; "approval"] => EApproval id
       | "POST", [""; id; "generation"] => EGeneration id
       | "GET", [""; id; "events"] => EEvents id
       | _, _ => EElsewhere
       end%string.
Definition site_render (j : json) : string := if plain_json j then dumps j else EmptyString.

Definition site_plan : list (string * json) :=
  [("purpose", JStr "Book rooms"); ("entities", JList [JObj [("name", JStr "Room")]])]%string.
Abbreviation site_serve plan := (serve (site_agents plan) default_orchestration (RunLogPort_of Log.default_config) None site_clock
  (mret "00"%string) (λ _, mret tt) demo_json_error (mret EmptyString) (λ h, site_send (SHead h))
  (λ c, site_send (SChunk c)) (λ w, w.1.2.2) site_replay site_endpoint site_render JNull (λ _, EmptyString) None
  (λ _, mret (inr (200, "PK"%string)))).
Abbreviation site_main network plan := (main (talk network (site_serve plan)) (mret tt) (λ _ _, "0"%string) (λ _, Ok sample_files) (map fst)
  sample_read site_gateway "rooms" "").
Definition nothing_lost : Request → list Exchange → Passage := λ _ _, Delivered.
Definition site_start : Together Site := mkTogether new_flow [] ([], (mkBegun false, []), Log.InMemoryRunLog).

(** The whole flow, from the idea to the ZIP, passes. *)
Example site_passes :
  (site_main nothing_lost site_plan site_start).1 = Ok 0
  ∧ ((λ x, match x.2 with inl e => err_code e | inr a => a.1 end) <$> exchanges (site_main nothing_lost site_plan site_start).2)
    = [200; 409; 200; 409; 200; 200; 200; 200; 200].
Proof. split; vm_compute; reflexivity. Qed.

(** A network that loses the answer to the approval: the run is approved, the script ends
    with the code of a gateway it cannot reach, and no gate has failed. *)
Definition approval_answer_lost (r : Request) (l : list Exchange) : Passage :=
  if (length l =? 4)%nat then AnswerLost (ForeignError "URLError" "timed out") else Delivered.
Example lost_approval :
  let '(o, w) := site_main approval_answer_lost site_plan site_start in
  (∀ name, name ∈ failures (flow w) → name ∉ GATES)
  ∧ state <$> assoc_get "00" (gateway_side w).1.1 = Some PLAN_APPROVED.
Proof. vm_compute. split; [|done]. intros name H. by apply not_elem_of_nil in H. Qed.

(** A plan that names roles and no entities is one the gateway takes, approves and generates
    from, and one the script does not take for a plan. *)
Example plan_without_entities :
  let w := (site_main nothing_lost [("purpose", JStr "Book rooms"); ("roles", JList [JObj [("name", JStr "guest")]])]%string site_start).2 in
  failures (flow w) = ["a real plan came back"%string]
  ∧ state <$> assoc_get "00" (gateway_side w).1.1 = Some ZIP_READY.
Proof. split; vm_compute; reflexivity. Qed.

Lemma site_quiet : quiet (site_agents site_plan) None site_clock (mret "00"%string) (mret EmptyString).
Proof.
  constructor; try done; try (intros; apply only_fades_ret).
  - by intros g id g' [= <- _].
  - intros g. by exists 5.
  - intros b g. split; [done|by left].
  - intros id g. cbn. unfold memory_get, mbind, M_bind. cbn. by destruct (assoc_get id _).
Qed.

Lemma hex_no_slash id : hex_id id → has_char "/" id = false.
Proof.
  unfold hex_id, has_char, str_any. intros H. apply negb_false_iff. revert H.
  induction id as [|c id IH]; [done|]. cbn [str_all]. intros [Hc Hid]%andb_true_iff.
  rewrite (IH Hid), andb_true_r. clear -Hc. by destruct c as [[] [] [] [] [] [] [] []].
Qed.
Lemma site_path id tail ys :
  hex_id id → str_split "/" tail = EmptyString :: ys →
  str_split "/" (str_drop 26 (base site_gateway ++s "/runs" ++s ("/" ++s id ++s tail))) = EmptyString :: id :: ys.
Proof.
  intros Hid Ht.
  change (EmptyString :: str_split "/" (id ++s tail) = EmptyString :: id :: ys).
  by rewrite (str_split_app_clean _ _ _ _ _ (hex_no_slash id Hid) Ht), app_empty_r.
Qed.
Lemma site_framework : framework site_endpoint site_render site_gateway.
Proof.
  constructor; [by vm_compute|..].
  1: intros id Hid; unfold site_endpoint; rewrite (site_path id "/answers" ["answers"%string] Hid eq_refl).
  2: intros id Hid; unfold site_endpoint; rewrite (site_path id "/approval" ["approval"%string] Hid eq_refl).
  3: intros id Hid; unfold site_endpoint; rewrite (site_path id "/generation" ["generation"%string] Hid eq_refl).
  1-3: reflexivity.
  intros fields v k s _ Hk _. unfold site_render. destruct (plain_json _) eqn:Hp; [|done].
  rewrite loads_dumps by done. intros [= <-]. cbn. by rewrite Hk.
Qed.

Lemma smoke_finds_no_gate_open_witness :
  exchanges (site_main nothing_lost site_plan site_start).2 ≠ []
  ∧ ∀ name, name ∈ GATES → name ∈ failures (flow (site_main nothing_lost site_plan site_start).2) →
      forgotten (exchanges (site_main nothing_lost site_plan site_start).2).
Proof.
  split; [by vm_compute|].
  apply (smoke_finds_no_gate_open (site_agents site_plan) default_orchestration (RunLogPort_of Log.default_config) None
    site_clock (mret "00"%string) (λ _, mret tt) demo_json_error (mret EmptyString) (λ h, site_send (SHead h))
    (λ c, site_send (SChunk c)) (λ w, w.1.2.2) site_replay site_endpoint site_render JNull (λ _, EmptyString) None
    (λ _, mret (inr (200, "PK"%string))) nothing_lost (mret tt) (λ _ _, "0"%string) (λ _, Ok sample_files) (map fst) sample_read
    site_gateway site_quiet site_framework) with "rooms"%string EmptyString site_start (Ok 0).
  - intros w. split_and!; [done|done|apply fades_refl].
  - split; [split; constructor|by vm_compute].
  - reflexivity.
  - vm_compute. reflexivity.
Defined.
