(* ===== verification/EndToEnd.v ===== *)
(** * From the ledger to the outside *)
(** What two components promise together, as [bootstrap.py] puts them together: the
    billing service over Horizon, and the orchestrator over the billing service. *)
From S2P Require Export Bootstrap.
From S2P Require Import RunLog.
From stdpp Require Import options.
Local Open Scope Z_scope.

(** ** Tokens and payments *)

(** What [settles] answers of, its arithmetic aside. *)
Lemma settles_agrees p i tolerance :
  settles p i tolerance = Ok true →
  payment_memo p = invoice_memo i ∧ payment_destination p = destination i
  ∧ str_upper (payment_asset p) = str_upper (asset i).
Proof.
  unfold settles. destruct (String.eqb_spec (payment_memo p) (invoice_memo i)); cbn [negb orb]; [|done].
  destruct (String.eqb_spec (payment_destination p) (destination i)); cbn [negb orb]; [|done].
  destruct (String.eqb_spec (str_upper (payment_asset p)) (str_upper (asset i))); cbn [negb]; [|done].
  done.
Qed.

(** At least 99% of what an invoice asks, for texts that are amounts. *)
Definition amount_covers (sent owed : string) : Prop :=
  ∀ sn sc se on oc oe,
    dec_parse sent = Some (DFin sn sc se) → dec_parse owed = Some (DFin on oc oe) →
    0 <= oc < 10 ^ 26 → -1000 <= oe <= 1000 →
    let k := - Z.min se (oe - 2) in
    99 * scaled_value (k - 2) (DFin on oc oe) <= scaled_value k (DFin sn sc se).

(** Horizon's record of a payment of an invoice. *)
Record pays_invoice (i : Invoice) (r : json) : Prop := mkPaysInvoice {
  pays_type : json_is "payment" (jget "type" r) = true ∨ json_is "create_account" (jget "type" r) = true;
  pays_memo : (json_is "text" (jget "memo_type" (jget "transaction" r)) = true
               ∧ str_or_empty (jget "memo" (jget "transaction" r)) = invoice_id i)
              ∨ invoice_id i = EmptyString;
  pays_to : str_or_empty (jor (jget "to" r) (jget "account" r)) = destination i;
  pays_asset : str_upper (asset i)
    = (if json_is "native" (jget_default "asset_type" (JStr "native") r) then "XLM"
       else str_upper (str_upper (py_str (jor (jget "asset_code" r) (JStr "?")))))%string;
  pays_amount : amount_covers (py_str (jor (jor (jget "amount" r) (jget "starting_balance" r)) (JStr "0")))
                  (settlement_amount i)
}.

Section payments.
#[local] Set Default Proof Using "Type*".
Context {W D : Type} `{!Field W D} `{!BillingStore D} `{!BillingStoreLaws D}.
Context (now_utc : M W exn Z) (new_entry_id : M W exn string).
Context (http_get http_post : string → list (string * string) → M W exn http_reply)
        (sdk : option StellarSdk) (fromisoformat : string → option (Z * option Z)).
Hypothesis now_draws : draws now_utc.
Hypothesis id_draws : draws new_entry_id.
(** Nobody else writes the ledger while Horizon answers. *)
Hypothesis http_keeps : ∀ url params w, store (http_get url params w).2 = store w.

Lemma record_payment r w :
  ∃ p w', payment_of_record now_utc fromisoformat r w = (Ok p, w') ∧ store w' = store w
    ∧ ∀ q, p = Some q → ∀ i, settles q i 100 = Ok true → pays_invoice i r.
Proof.
  unfold payment_of_record. destruct (_ || _) eqn:Htype; cbn [negb]; [|by exists None, w].
  apply orb_true_iff in Htype. rewrite run_bind.
  assert (∃ t w1, horizon_time now_utc fromisoformat (jget "created_at" r) w = (Ok t, w1)
                  ∧ store w1 = store w) as (t & w1 & -> & Hs).
  { unfold horizon_time. destruct (fromisoformat _) as [[? ?]|]; [by eexists _, w|apply now_draws]. }
  eexists _, w1. split; [done|]. split; [done|].
  intros q [= <-] i Hset. destruct (settles_agrees _ _ _ Hset) as (Hm & Hd & Ha).
  cbn [payment_memo payment_destination payment_asset] in Hm, Hd, Ha. constructor; [done| |done| |].
  - unfold invoice_memo in Hm. destruct (is_dict _) eqn:Htx; cbn [andb] in Hm; [|by right].
    destruct (json_is "text" _); [by left|by right].
  - rewrite <- Ha. by destruct (json_is "native" _).
  - intros sn sc se on oc oe H1 H2 H3 H4. cbv zeta.
    match type of Hset with settles ?q i 100 = _ =>
      destruct (settles_exactly q i sn sc se on oc oe H1 H2 H3 H4) as (b & Hb & Hiff) end.
    rewrite Hb in Hset. injection Hset as ->. by apply Hiff.
Qed.

Lemma first_with_memo_pays memo rs w :
  ∃ p w', first_with_memo now_utc fromisoformat memo rs w = (Ok p, w') ∧ store w' = store w
    ∧ ∀ q, p = Some q → ∀ i, settles q i 100 = Ok true → ∃ r, r ∈ rs ∧ pays_invoice i r.
Proof.
  revert w. induction rs as [|r rs IH]; intros w; cbn [first_with_memo]; [by exists None, w|].
  destruct (record_payment r w) as (p1 & w1 & Hr & Hs & Hp). rewrite run_bind, Hr.
  destruct (IH w1) as (p2 & w2 & Hrest & Hs2 & Hp2). rewrite Hs in Hs2.
  assert (∀ q, p2 = Some q → ∀ i, settles q i 100 = Ok true → ∃ r', r' ∈ r :: rs ∧ pays_invoice i r') as Hlater.
  { intros q Hq i Hi. destruct (Hp2 q Hq i Hi) as (r' & ? & ?). exists r'. split; [by right|done]. }
  destruct p1 as [q|]; [|by exists p2, w2]. destruct (String.eqb _ memo); [|by exists p2, w2].
  exists (Some q), w1. split; [done|]. split; [done|]. intros q' [= <-] i Hi. exists r. split; [left|eauto].
Qed.

(** The page Horizon was asked for, when a payment was found. *)
Lemma payment_for_pays cfg i w :
  let '(o, w') := stellar_payment_for now_utc cfg http_get fromisoformat i w in
  store w' = store w
  ∧ ∀ q, o = Ok (Some q) → settles q i 100 = Ok true →
      ∃ code page w1 r,
        http_get (cfg_horizon cfg ++s "/accounts/" ++s destination i ++s "/payments")
          [("order", "desc"); ("limit", int_str PAYMENT_PAGE); ("join", "transactions")]%string w
        = (Ok (HttpReply code (Ok page)), w1)
        ∧ code < 400 ∧ r ∈ records page ∧ pays_invoice i r.
Proof.
  unfold stellar_payment_for. rewrite run_bind. set (m := http_get _ _).
  assert (store (m w).2 = store w) as Hs by apply http_keeps.
  destruct (m w) as [[reply|e] w1] eqn:Hget; cbn in Hs; [|by split].
  destruct reply as [text|code body]; [by split|]. destruct (code =? 404); [by split|].
  destruct (Z.leb_spec 400 code); [by split|]. destruct body as [page|text]; [|by split].
  destruct (first_with_memo_pays (invoice_memo i) (records page) w1) as (p & w2 & -> & Hs2 & Hp).
  split; [congruence|]. intros q [= ->] Hi. destruct (Hp q eq_refl i Hi) as (r & Hr & Hpays).
  exists code, page, w1, r. by split_and!.
Qed.

(** The row that paying an invoice adds, whatever was sold. *)
Definition paid_row (i : Invoice) (e : LedgerEntry) : Prop :=
  entry_account e = invoice_account i ∧ entry_tokens e = invoice_tokens i
  ∧ reference e = "invoice:" ++s invoice_id i.

Lemma deliver_rows catalog i w :
  storable_invoice i → fresh_ids new_entry_id w →
  let w' := (deliver now_utc new_entry_id catalog i w).2 in
  (rows w' = rows w ∨ ∃ e, rows w' = rows w ++ [e] ∧ paid_row i e)
  ∧ ∀ k, invoice k (store w') = invoice k (store w).
Proof.
  intros Hst Hids. cbv zeta. destruct (catalog_product catalog (sku i)) as [product|x] eqn:Hp.
  - destruct (deliver_spec now_utc new_entry_id catalog now_draws id_draws i product w Hp Hst Hids)
      as (w' & -> & Hinv & Hrows). split; [|done].
    destruct (find_reference _ _); [by left|right].
    destruct Hrows as (e & He & ? & ? & ? & _). exists e. by split_and!.
  - unfold deliver. rewrite run_bind, run_lift, Hp. split; [by left|done].
Qed.

(** An invoice that is paid now and was not before, or the rows of its payment. *)
Definition newly_paid (id : string) (w w' : W) : Prop :=
  (∃ i, invoice id (store w') = Some i ∧ status i = PAID)
  ∧ ∀ j, invoice id (store w) = Some j → status j ≠ PAID.

(** C5. Tokens are credited for payments only.  Confirming an invoice over the Stellar network,
    whatever Horizon answers, changes no row and marks nothing paid -- unless Horizon, asked
    for the payments of the invoice's destination, answered with a page holding a record of a
    payment to that destination under the invoice's memo, in an asset of its code, of at
    least 99% of the amount asked; and then it adds one row at most: the invoice's tokens, to
    the invoice's account, under the invoice's reference. *)
Theorem tokens_come_from_payments cfg catalog id w :
  (∀ i, invoice id (store w) = Some i → storable_invoice i) →
  (∀ w', rows w' = rows w → fresh_ids new_entry_id w') →
  let network := stellar_network now_utc cfg sdk http_get http_post fromisoformat in
  let w' := (confirm now_utc new_entry_id network catalog id w).2 in
  (rows w' = rows w ∧ ¬ newly_paid id w w')
  ∨ ∃ i code page w1 r,
      invoice id (store w) = Some i ∧ status i ≠ PAID
      ∧ http_get (cfg_horizon cfg ++s "/accounts/" ++s destination i ++s "/payments")
          [("order", "desc"); ("limit", int_str PAYMENT_PAGE); ("join", "transactions")]%string w
        = (Ok (HttpReply code (Ok page)), w1)
      ∧ code < 400 ∧ r ∈ records page ∧ pays_invoice i r
      ∧ (rows w' = rows w ∨ ∃ e, rows w' = rows w ++ [e] ∧ paid_row i e).
Proof.
  intros Hst Hids network w'. subst w'. unfold confirm. rewrite run_bind, run_store_read. fold (store w).
  assert (∀ w1, store w1 = store w → rows w1 = rows w ∧ ¬ newly_paid id w w1) as Hsame.
  { intros w1 Hs. split; [by unfold rows; rewrite Hs|]. intros [(i & Hi & Hp) Hn]. rewrite Hs in Hi. by eapply Hn. }
  destruct (invoice id (store w)) as [i|] eqn:Hi; cbn beta iota; [|by left; apply Hsame].
  pose proof (invoice_key _ _ _ Hi) as Hkey. destruct (Hst i eq_refl) as (Hn & H1 & H2).
  case_bool_decide as Hpaid; [by left; apply Hsame|].
  rewrite run_bind. change (payment_for network) with (stellar_payment_for now_utc cfg http_get fromisoformat).
  pose proof (payment_for_pays cfg i w) as Hpay.
  destruct (stellar_payment_for _ _ _ _ i w) as [[[q|]|x] w1]; destruct Hpay as [Hs Hpay]; cbn beta iota.
  - rewrite run_bind, run_lift. destruct (settles q i 100) as [[]|x] eqn:Hset; cbn [negb]; cbn beta iota;
      [|by left; apply Hsame..].
    right. destruct (Hpay q eq_refl Hset) as (st & page & w2 & r & Hget & Hlt & Hin & Hr).
    exists i, st, page, w2, r. do 6 (split; [done|]). set (done_ := paid i _ _).
    rewrite run_bind. rewrite run_store_write. fold (store w1). rewrite Hs.
    destruct (put_invoice_known done_ (store w) i) as [Ho _]; [cbn; by rewrite Hkey|cbn; by rewrite H1, H2|].
    rewrite Ho. cbn beta iota. set (w3 := setf _ w1).
    assert (rows w3 = rows w) as Hrows by (unfold rows, w3; by rewrite store_setf, put_invoice_ledger).
    destruct (deliver_rows catalog done_ w3) as [Hd _]; [done|by apply Hids|].
    rewrite run_bind. rewrite Hrows in Hd. by destruct (deliver _ _ _ _ w3) as [[] ?].
  - left. rewrite run_bind. destruct (now_draws w1) as (t & w2 & Ht & Hs2). rewrite Ht. cbn beta iota.
    destruct (negb _); [|by apply Hsame; rewrite <- Hs].
    rewrite run_store_write. fold (store w2). rewrite Hs2, Hs.
    destruct (put_invoice_known (expired i) (store w) i) as [Ho Hk]; [cbn; by rewrite Hkey|cbn; by rewrite H1, H2|].
    cbn [snd]. split; [unfold rows; by rewrite store_setf, put_invoice_ledger|].
    intros [(j & Hj & Hp) _]. rewrite store_setf in Hj. cbn in Hk. rewrite Hkey in Hk. rewrite Hk in Hj.
    by injection Hj as <-.
  - left. by apply Hsame.
Qed.
End payments.

(** An invoice that Horizon shows as paid in full. *)
Definition paid_page : json :=
  horizon_page [horizon_record "8.0000000" [("asset_type", JStr "native")]%string].
Definition horizon_shows (url : string) (params : list (string * string)) : M BillWorld exn http_reply :=
  mret (HttpReply 200 (Ok paid_page)).
Lemma horizon_shows_keeps url params (w : BillWorld) : store (horizon_shows url params w).2 = store w.
Proof. reflexivity. Qed.

Lemma tokens_come_from_payments_witness :
  ∃ i r e,
    let w' := (confirm bw_clock bw_draw
      (stellar_network bw_clock demo_config None horizon_shows
         (λ _ _, mret (HttpFailed "")) (λ _, None)) bw_catalog "cz1" (bw_with_invoice "tokens-1m")).2 in
    r ∈ records paid_page ∧ pays_invoice i r ∧ rows w' = [e] ∧ paid_row i e.
Proof.
  destruct (tokens_come_from_payments bw_clock bw_draw horizon_shows
    (λ _ _, mret (HttpFailed "")) None (λ _, None) bw_clock_draws bw_draw_draws horizon_shows_keeps demo_config
    bw_catalog "cz1" (bw_with_invoice "tokens-1m"))
    as [[H _]|(i & code & page & w1 & r & Hi & _ & [= <- <- <-] & _ & Hin & Hpays & [H|(e & He & Hrow)])].
  - intros i [= <-]. split; [vm_compute; discriminate|]. split; reflexivity.
  - intros w' Hw id w'' _. rewrite Hw. intros H. apply not_elem_of_nil in H. exact H.
  - vm_compute in H. discriminate H.
  - vm_compute in H. discriminate H.
  - exists i, r, e. split_and!; [exact Hin|exact Hpays|exact He|exact Hrow].
Defined.

(** ** Runs and tokens *)

Section runs.
#[local] Set Default Proof Using "Type*".
Context {W D : Type} `{!Field W D} `{!BillingStore D} `{!BillingStoreLaws D}
        `{!RunStore W} `{!RunStoreLaws W}.
Context (now_utc : M W exn Z) (new_entry_id : M W exn string) (parts : BillingParts W).
Context (proxy : ProxyService W) (settings : OrchestrationSettings) (log : RunLogPort W)
        (monotonic : M W exn Z) (emit : string → M W exn unit) (close : nat → M W exn unit).
Hypothesis now_draws : draws now_utc.
Hypothesis id_draws : draws new_entry_id.

(** [RunOrchestrator(..., meter=billing)] *)
Let meter : option (RunMeter W) := Some (meter_of now_utc new_entry_id parts).

(** Nobody else writes the runs or the ledger meanwhile. *)
Hypothesis und : undisturbed proxy log meter monotonic emit close.
Hypothesis ledger_aside : ∀ l, aside proxy log monotonic emit close (λ w, rows w = l).

(** Ids drawn while the ledger is [l] are not in it. *)
Definition fresh_for (l : list LedgerEntry) : Prop := ∀ w, rows w = l → fresh_ids new_entry_id w.

Lemma move_rows f r w : rows (move monotonic f r w).2 = rows w.
Proof.
  eapply (preserves_bind (λ w', rows w' = rows w)); [apply ledger_aside| |done].
  intros now. apply preserves_lift.
Qed.
Lemma touch_rows f r w : rows (touch monotonic f r w).2 = rows w.
Proof.
  eapply (preserves_bind (λ w', rows w' = rows w)); [apply ledger_aside| |done].
  intros now. apply preserves_ret.
Qed.

(** What a run is told of its charge is what the ledger was debited for it. *)
Definition told (id : string) (l l' : list LedgerEntry) (u : Usage) (r r' : Run) : Prop :=
  (l' = l ∧ (charged r' = charged r
             ∨ ∃ e, find_reference ("run:" ++s id) l = Some e ∧ charged r' = Z.abs (entry_tokens e)))
  ∨ ∃ e, find_reference ("run:" ++s id) l = None ∧ l' = l ++ [e]
       ∧ account r' ≠ EmptyString ∧ billable (pricing (part_catalog parts)) u = Ok (charged r')
       ∧ 0 < charged r' ∧ run_debit (account r') id (charged r') e.

Lemma charge_run_tells r u w o w' :
  fresh_for (rows w) → charge_run meter monotonic r u w = (o, w') →
  match o with
  | Ok r' => told (run_id r) (rows w) (rows w') u r r'
  | Raise _ => rows w' = rows w
  end.
Proof.
  intros Hfresh. unfold charge_run, meter. destruct (negb _ || _) eqn:Hc; [intros [= <- <-]; left; auto|].
  apply orb_false_iff in Hc as [Hacc _]. apply negb_false_iff, str_truthy_spec in Hacc.
  cbn [meter_of meter_charge]. rewrite run_bind. unfold try_except. rewrite !run_bind.
  pose proof (charge_outcome now_utc new_entry_id (part_catalog parts) now_draws id_draws (account r) (run_id r) u w
    (Hfresh w eq_refl)) as Hout.
  destruct (charge _ _ _ _ _ _ w) as [o1 w1]. cbv zeta in Hout.
  assert (∀ n, touch monotonic (billed n) r w1 = (o, w') →
    ∃ r', o = Ok r' ∧ charged r' = n ∧ account r' = account r ∧ rows w' = rows w1) as Htouch.
  { intros n H. pose proof (touch_rows (billed n) r w1) as Hr. rewrite H in Hr. unfold touch in H.
    rewrite run_bind in H. destruct (und_clock _ _ _ _ _ _ und w1) as [_ Hok].
    destruct (monotonic w1) as [[now|] w2]; [|done]. injection H as <- <-.
    eexists. by split_and!. }
  destruct Hout as [[Hrows Hknown]|(e & n & -> & Hbill & Hpos & Hnone & Hrows & Hdebit)].
  - destruct o1 as [[e|]|x]; cbn.
    + intros (r' & -> & Hn & _ & ->)%Htouch. left. split; [done|]. right. by exists e.
    + intros [= <- <-]. left. auto.
    + unfold except. destruct (isinstance x cException); intros [= <- <-]; [left; auto|done].
  - cbn. destruct Hdebit as (Ha & Hk & Ht & Href). rewrite Ht, Z.abs_opp, Z.abs_eq by lia.
    intros (r' & -> & Hn & Hra & ->)%Htouch. right. exists e. rewrite Hn, Hra. by split_and!.
Qed.

Lemma conclude_tells r scan w o w' :
  state r = BACKEND_GENERATION → holds r w → fresh_for (rows w) →
  conclude meter monotonic r scan w = (o, w') →
  ∃ c, held w' (run_id r) = Some c ∧ account c = account r
    ∧ ((rows w' = rows w ∧ charged c = charged r)
       ∨ (o = Ok tt ∧ state c = ZIP_READY ∧ told (run_id r) (rows w) (rows w') (usage scan) r c)).
Proof.
  unfold conclude. intros Hst [Hok Hheld] Hfresh. destruct (negb (str_truthy (artifact scan))).
  - intros Hrun. pose proof (put_failed_aside _ _ _ _ _ _ und _ "the agent produced no artifact" r
      (ledger_aside (rows w)) w eq_refl) as Hrows. rewrite Hrun in Hrows.
    destruct (put_failed_run _ _ _ _ _ _ und "the agent produced no artifact" r w Hst Hok)
      as (now & w1 & Hf & [_ Hh]). rewrite Hf in Hrun. injection Hrun as <- <-.
    eexists. split; [exact Hh|]. split; [done|]. by left.
  - destruct (move_run _ _ _ _ _ _ und (delivered (artifact scan)) r w) as (now & w1 & Hd & Hk).
    pose proof (move_rows (delivered (artifact scan)) r w) as Hr1. rewrite Hd in Hr1. cbn in Hr1.
    assert (delivered (artifact scan) now r = Ok (set_artifact (artifact scan) (with_state ZIP_READY now r)))
      as Hdel by (unfold delivered; by rewrite moved_spec, Hst).
    rewrite Hdel in Hd. rewrite (run_bind_ok _ _ _ _ _ Hd). set (d := set_artifact _ _) in *.
    destruct (charge_run_outcome _ _ _ _ _ _ und d (usage scan) w1) as (oc & w2 & Hc & Hkc & Hcd).
    pose proof (charge_run_tells d (usage scan) w1 oc w2 ltac:(by rewrite Hr1) Hc) as Htold. rewrite Hr1 in Htold.
    destruct (Hkc (proj1 (Hk Hok))) as [Hok2 Hh2]. destruct oc as [c|e].
    + rewrite (run_bind_ok _ _ _ _ _ Hc).
      destruct (put_run _ _ _ _ _ _ und c w2 Hok2) as (w3 & Hp & [_ Hh]).
      rewrite (run_bind_ok _ _ _ _ _ Hp). intros [= <- <-].
      assert (rows w3 = rows w2) as ->.
      { pose proof (aside_put _ _ _ _ _ _ (ledger_aside (rows w2)) c w2 eq_refl) as H. by rewrite Hp in H. }
      exists c. assert (run_id c = run_id r ∧ account c = account r ∧ state c = ZIP_READY) as (Hi & Ha & Hs)
        by (destruct Hcd as [->|(n & t & ->)]; done).
      rewrite Hi in Hh. split; [done|]. split; [done|]. right. by split_and!.
    + rewrite run_bind, Hc. intros [= <- <-]. exists r.
      rewrite Hh2, (proj2 (Hk Hok)). split; [done|]. split; [done|]. by left.
Qed.

End runs.

(** ** A process with runs and a ledger *)

Definition FlowWorld : Type := DemoWorld * BillWorld.
#[local] Program Instance flow_demo {S} `{!Field DemoWorld S} : Field FlowWorld S :=
  {| getf w := getf w.1; setf s w := (setf s w.1, w.2) |}.
Next Obligation. intros. apply getf_setf. Qed.
Next Obligation. intros S F s s' [w l]. cbn. by rewrite setf_setf. Qed.
Next Obligation. intros S F [w l]. cbn. by rewrite setf_getf. Qed.
#[local] Program Instance flow_db : Field FlowWorld SqliteDb :=
  {| getf w := getf w.2; setf d w := (w.1, setf d w.2) |}.
Next Obligation. intros d [w l]. apply getf_setf. Qed.
Next Obligation. by intros d d' [w []]. Qed.
Next Obligation. by intros [w []]. Qed.

(** A step of the runs' half, and one of the ledger's. *)
Definition on_runs {A} (m : M DemoWorld exn A) : M FlowWorld exn A := λ w, let '(o, d) := m w.1 in (o, (d, w.2)).
Definition on_ledger {A} (m : M BillWorld exn A) : M FlowWorld exn A := λ w, let '(o, b) := m w.2 in (o, (w.1, b)).

Definition flow_store : RunStore FlowWorld := InMemoryRunStore default_run_store (on_runs demo_clock).
#[local] Existing Instance flow_store.
Lemma flow_laws : RunStoreLaws FlowWorld.
Proof.
  apply (memory_laws_of default_run_store (on_runs demo_clock) (λ w, demo_time w.1)).
  - intros w. exists (on_runs demo_clock w).2. cbn. split_and!; [done|done|lia].
  - done.
  - vm_compute. discriminate.
Qed.
#[local] Existing Instance flow_laws.

Definition flow_parts : BillingParts FlowWorld :=
  mkBillingParts FlowWorld (mkNetwork FlowWorld "stellar-testnet" "GDEST" (λ _, mret None)
      (λ _ _, mret EmptyString) (λ _ _, mret (mkVerifyResult false "" "" "")) (λ _, mret (mkSettleResult false "" "" "" "")))
    bw_catalog "XLM" 0 NoSubscriptions
    (mkIdentity (StellarSignatures None) "s3cret" "codezard" 0) None.

Definition flow_start : FlowWorld := (demo_paid, bw_start).
Definition flow_agents : ProxyService FlowWorld :=
  {| ps_forward _ _ := mret (mkResponse 200 [] EmptyString None None);
     ps_stream _ _ := mret (mkStream 200 [] (mkBody (cut 30 sample_done) None 7) None) |}.
Abbreviation flow_meter := (Some (meter_of (on_ledger bw_clock) (on_ledger bw_draw) flow_parts)).
Definition flow_generation : result exn unit * FlowWorld :=
  generate flow_agents default_orchestration (RunLogPort_of Log.default_config) flow_meter (on_runs demo_clock)
    (λ c, on_runs (demo_emit c)) (λ n, on_runs (demo_close n)) "00" flow_start.

Lemma flow_clock_draws : draws (on_ledger bw_clock).
Proof. intros w. by eexists _, _. Qed.
Lemma flow_draw_draws : draws (on_ledger bw_draw).
Proof. intros w. by eexists _, _. Qed.

(** Neither half touches the other's. *)
Lemma on_runs_rows {A} (m : M DemoWorld exn A) l : preserves (λ w : FlowWorld, rows w = l) (on_runs m).
Proof. intros w. unfold on_runs. by destruct (m w.1). Qed.
Lemma flow_aside l :
  aside flow_agents (RunLogPort_of Log.default_config) (on_runs demo_clock) (λ c, on_runs (demo_emit c))
    (λ n, on_runs (demo_close n)) (λ w, rows w = l).
Proof.
  constructor; [| |apply on_runs_rows|intros; apply on_runs_rows..| | | |].
  - intros id. change (preserves (λ w : FlowWorld, rows w = l) (memory_get default_run_store (on_runs demo_clock) id)).
    unfold memory_get. apply preserves_bind; [apply on_runs_rows|]. intros now.
    apply preserves_bind; [by apply preserves_modify|]. intros _.
    apply preserves_bind; [apply preserves_gets|]. intros t. destruct (assoc_get id t); auto with gw_effects.
  - intros r. change (preserves (λ w : FlowWorld, rows w = l) (memory_put default_run_store (on_runs demo_clock) r)).
    unfold memory_put. apply preserves_bind; [apply on_runs_rows|]. intros now.
    apply preserves_bind; [apply preserves_gets|]. intros t. apply preserves_bind; [apply preserves_lift|]. intros t'.
    apply preserves_bind; [by apply preserves_modify|]. intros _. apply preserves_ret.
  - intros name request. apply preserves_ret.
  - intros id w H. exact H.
  - intros id c w H. exact H.
  - intros id w H. exact H.
Qed.
Lemma flow_kept (w w' : FlowWorld) : getf w' = (getf w : RunTable) → store_kept w w'.
Proof. intros H Hok. unfold store_ok, held in *. cbn in *. by rewrite H. Qed.

Lemma flow_charge a i u t :
  preserves (λ w : FlowWorld, w.1 = t) (charge (on_ledger bw_clock) (on_ledger bw_draw) bw_catalog a i u).
Proof.
  unfold charge. apply preserves_bind; [apply preserves_lift|]. intros n.
  destruct (n <=? 0); [apply preserves_ret|].
  repeat (apply preserves_bind; [intros w Hw; rewrite ?run_store_write; exact Hw|intros ?]).
  apply preserves_ret.
Qed.

Lemma flow_undisturbed :
  undisturbed flow_agents (RunLogPort_of Log.default_config) flow_meter (on_runs demo_clock)
    (λ c, on_runs (demo_emit c)) (λ n, on_runs (demo_close n)).
Proof.
  constructor; try (intros; by apply flow_kept).
  - intros m a i u w [= <-]. apply flow_kept. cbn [meter_of meter_charge]. rewrite run_bind.
    pose proof (flow_charge a i u w.1 w eq_refl) as Hw. cbn [part_catalog flow_parts].
    destruct (charge _ _ _ _ _ _ w) as [[e|x] w1]; cbn in Hw |- *; by rewrite Hw.
  - intros w. by split; [apply flow_kept|].
Qed.
Lemma flow_get : runs_get "00" flow_start = (Ok demo_paid_run, (runs_get "00" flow_start).2).
Proof. vm_compute. reflexivity. Qed.

Lemma flow_runs :
  generate flow_agents default_orchestration (RunLogPort_of Log.default_config) flow_meter (on_runs demo_clock)
    (λ c, on_runs (demo_emit c)) (λ n, on_runs (demo_close n)) "00" flow_start
  = (flow_generation.1, flow_generation.2).
Proof. unfold flow_generation. by rewrite <- surjective_pairing. Qed.

